(* ===== verification/_CoqProject ===== *)
-Q . S2P
Prelude.v
Errors.v
Types.v
Wire.v
StreamProtocol.v
StreamLink.v
StreamConn.v
StreamDuplex.v
StreamRefine.v
StreamFaults.v
StreamMux.v
RelayConn.v
RelayDispatch.v
RelayRx.v
RelayOrder.v
RelayClose.v
RelaySend.v
RelayTx.v
RelayLink.v
RelayManager.v
Text.v
Encoding.v
Float64.v
Url.v
UrlProps.v
Json.v
JsonProps.v
JsonLocal.v
JsonMarshal.v
JsonCodec.v
JsonDecode.v
Metadata.v
Password.v
Records.v
HttpTypes.v
Convert.v
WireCodec.v
Requests.v
Http.v
HttpProps.v
HttpBodies.v
HttpLists.v
Store.v
ClientApi.v
Client.v
ClientRun.v
ClientAnswers.v
ClientTracked.v
ClientProps.v
RelayTransport.v
ClientDial.v
DemoValue.v
DemoMatch.v
DemoMatchProps.v
DemoSchema.v
DemoReflect.v
DemoAction.v
DemoRun.v
DemoTasks.v
DemoBarriers.v
DemoProgress.v
DemoValidate.v
DemoRunProps.v
DemoCrash.v
DemoVars.v
DemoActionProps.v
DemoClose.v
