(* ===== verification/Prelude.v ===== *)
(** * A verification library for the turntf Go SDK

    turntf-go is the Go client of a messaging server. This library models its implementation
    files as Rocq functions and step relations and proves what makes them correct. Paths below
    are under src/.

    ** The program and its parts

    A [Client] (client.go) keeps one WebSocket session to a server: a run loop dials, logs in,
    reads envelopes and reconnects; goroutines of the application call RPCs that wait for the
    response with their request ID; received messages are stored, acknowledged and handed to a
    [Handler]. An [HTTPClient] (http_client.go) offers the same requests over REST. Both share
    the data types and checks of types.go, metadata_typed.go and password.go, the errors of
    errors.go and the cursor store of store.go. Over the client's packets run two transports
    between users: relay connections (relay.go, relay_dispatch.go, relay_retry.go,
    relay_flush.go), with three levels of reliability, and resumable byte streams
    (stream_protocol.go, stream_conn.go). demo/ interprets scenarios written in YAML with
    several clients. The generated protobuf code only marshals.

    ** How the code is modelled

    A struct is a [Record], a method is a function from the state to its results and the state
    it leaves; a Go error is [option error], a call that may panic a [result]. int64 and uint64
    arithmetic is on [Z] with its wrap-around written out ([u64], [i64], [i32], [+u], [-u]).
    Goroutines are cut where they take or drop a lock, send, receive or select: one definition is
    one critical section, and a step relation (or a function of a schedule) interleaves the
    sections of all goroutines in any order. What the environment decides - the outcome of a
    write, which case of a [select] runs, when a timer fires, which frame the network delivers -
    is an argument or a label of the step, so a theorem over all runs covers every choice. Data
    that belongs to several objects lives in a heap of numbered cells (connections, clients,
    result channels), as Go's pointers do.

    ** Files

    Shared:
    - [Prelude]: integers, [result], the automation ([bool_facts], hint database [go]) and lemmas.
    - [Errors] (errors.go): [errors.Is], [errors.As]; formatted texts stay format and arguments.
    - [Types], [Records], [Requests] (types.go): data, zero values, validation before sending.
    - [Wire] (proto/*.proto): the messages as records; [Convert], [WireCodec] (types.go): every
      FromProto/ToProto function, and an interface that states that conversions are faithful.
    - [Text], [Encoding], [Float64], [Url], [Json], [JsonMarshal], [JsonDecode]: what is used of
      strings, regexp, utf8, strconv, base64, net/url, encoding/json, time; [UrlProps],
      [JsonProps], [JsonLocal], [JsonCodec]: they read back what they write.

    Streams:
    - [StreamProtocol] (stream_protocol.go): the frame codec, the sender's and the receiver's
      state; [StreamLink]: the two over a network that loses, repeats and reorders.
    - [StreamConn], [StreamDuplex] (stream_conn.go): the sections of a StreamConn and two of them
      with all their goroutines; [StreamRefine]: each direction refines [StreamLink];
      [StreamFaults]: two races in the flow control.
    - [StreamMux] (stream_conn.go): the multiplexer.

    Relays:
    - [RelayConn] (relay.go, relay_retry.go): the connection and its sections; [RelayDispatch]
      (relay_dispatch.go): admission, dispatcher, acknowledgement worker; [RelaySend] (relay.go,
      relay_flush.go): sendLoop, retransmission, Send, Flush, Close.
    - [RelayRx], [RelayTx]: the two halves as machines with their invariants; [RelayOrder]: the
      reorder window; [RelayClose]: terminal frames; [RelayLink]: two ends over the network.
    - [RelayManager] (type Relay of relay.go): the table of connections and the envelope codec;
      a connection closes in one section and leaves the table in a later one ([finishRemoval],
      pending in [rm_removing]), with any other section in between;
      [RelayTransport] (relay.go with client.go): frames as packets of the client.

    Clients:
    - [Store] (store.go): the CursorStore interface as a class with laws, and the memory store.
    - [ClientApi], [Client] (client.go): the RPC methods; the client's state and operations.
      [ClientRun]: RPCs against reconnecting transports, interleaved, a write and the checks
      before it being two steps; [ClientAnswers]: what the methods return for the server's
      answers; [ClientTracked]: SendStreamFrameTracked interleaved; [ClientProps]: messages,
      logins, backoff; [ClientDial]: URL, dial, reads, pings, Connect.
    - [Metadata] (metadata_typed.go), [Password] (password.go).
    - [HttpTypes], [Http] (http_client.go): JSON shapes, every method; [HttpProps], [HttpBodies],
      [HttpLists]: its requests, outcomes, bodies and lists.

    Demo:
    - [DemoValue], [DemoMatch], [DemoReflect] (demo/runtime.go, types.go): the [any] values,
      matching, variables, and the SDK's structs as reflection shows them.
    - [DemoSchema] (demo/schema.go): scenarios, defaults, validation; [DemoAction]: callAction and
      its parsers; [DemoRun]: sessions, the execute methods, the goroutines of parallel steps as a
      tree of tasks, closeAll.
    - [DemoTasks], [DemoBarriers], [DemoProgress], [DemoValidate]: mutexes, barriers, progress, and
      what validation gives; [DemoMatchProps], [DemoRunProps], [DemoCrash], [DemoVars],
      [DemoActionProps], [DemoClose]: the theorems.

    ** What the theorems show

    - Relay delivery: over a hostile network the peer's application reads a prefix of what was
      sent, in order and once ([relay_end_to_end], [relay_receive_in_order]); a Flush or Close that
      returns has delivered what precedes it; windows, storage and retries are bounded; a terminal
      frame waits for the acknowledgements before it and that wait ends; IDs have one owner; a
      frame given to the client arrives at the owner of its ID ([relay_frame_travels]). These
      theorems are about a receiver in reliable ordered mode and a sender that is not best-effort
      ([wire_config]); in at-least-once mode a run loses a payload ([relay_at_least_once_loses]).
    - Streams: exactly-once prefix delivery of the protocol states and, by refinement, of
      Read/Write under all interleavings; resumption recovers; the codec is a bijection; the mux
      owns and terminates its streams. The flow control has two races ([StreamFaults]).
    - Client: no RPC is stranded by a lost transport, results belong to their requests, messages
      are stored before they are acknowledged and delivered, tracked sends are reported at most
      once (a send reported while its write is under way may be returned as an error too),
      backoff (its first wait is not capped) and refused logins; requests and answers of every
      method are faithful. [WireBack] states of a conversion that the message can be rebuilt from
      its value; event_log_trim is the one field that is lost.
    - HTTP: requests ask for exactly the arguments, bodies are read back by a server (number and
      JSON texts compacted, null payloads lost), outcomes are classified, both list shapes agree
      on the items and on whether there is an error.
    - Demo: runs end and make progress when branches meet their barriers in one order, nobody
      passes a barrier that another branch has ahead, a parallel step returns its first error,
      validated scenarios do not panic but for a [sleep] without a session, actions send what
      their requests write, saved values come back, map order does not matter unless two keys of a
      map print alike, sessions are closed.

    A property with hypotheses has a witness that runs the definitions at a concrete input.

    ** Bounds and fuel

    - The JSON reader takes fuel [2 * length + 1]; [JsonProps] proves that more never changes the
      outcome. Integers are written with 20 decimal digits, which covers 64 bits. Trimming and
      [time.ParseDuration] take the length as fuel, proved enough ([duration_parts_fuel]).
      [FormatFloat] searches 17 digits, which determine every binary64 number.
    - [drain] takes the size of the reorder buffer; the acknowledgement retry takes the number of
      attempts it may make ([relay_ack_retry_terminates]).
    - Request IDs are drawn fewer than 2^64 times and a stream direction carries fewer than 2^64
      bytes; the reconnect delays are below 2^62 ns where doubling must not overflow; a stream window is
      at most the largest int and a frame at most DefaultStreamMaxFrame.
    - Runs of the demo need no fuel: a section makes its task smaller ([task_do_smaller]).

    ** Not modelled

    - internal/proto (generated) and the protobuf wire format; bcrypt; yaml.v3; websocket.Dial and
      the frames below it; http.Client.Do: parameters, with documented behaviour as hypotheses.
    - net/url's Parse, as far as it takes a base URL apart: an argument.
    - The goroutine and ticker of pingLoop, loggers and log lines; the randomness of NewStreamID;
      the texts of encoding/json errors; [err.Error()] where a text only reaches a log or a handler; the
      contents a JSON decoder leaves past a slice's length when a key repeats.
    - cmd/turntf-demo: flags, reading the file, printing. demo.LoadFile reads a file and calls
      Parse. The conversion of an out-of-range float64 to int64 differs between platforms: it is
      the class [Platform].
*)

From Stdlib Require Import ZArith Lia Strings.String Strings.Byte.
From stdpp Require Import base gmap list strings tactics.

#[global] Open Scope Z_scope.
Declare Scope go_scope.
Delimit Scope go_scope with go.

(** ** Results: a Go call returns a value, a non-nil error, or panics. *)

Inductive result (E A : Type) : Type :=
| Ok (a : A)
| Err (e : E)
| Panic.
Arguments Ok {E A} a.
Arguments Err {E A} e.
Arguments Panic {E A}.

#[export] Instance result_ret {E} : MRet (result E) := fun A a => Ok a.
#[export] Instance result_bind {E} : MBind (result E) := fun A B k m =>
  match m with Ok a => k a | Err e => Err e | Panic => Panic end.
#[export] Instance result_fmap {E} : FMap (result E) := fun A B f m =>
  match m with Ok a => Ok (f a) | Err e => Err e | Panic => Panic end.

(** [if err := v; err != nil { return err }]: a nil error lets the caller go on. *)
Definition check {E} (err : option E) : result E () :=
  match err with None => Ok tt | Some e => Err e end.

(** [first_err checks]: guards written one after the other, the first non-nil error wins. *)
Fixpoint first_err {E} (l : list (option E)) : option E :=
  match l with
  | [] => None
  | None :: l' => first_err l'
  | Some e :: _ => Some e
  end.

Definition is_ok {E A} (m : result E A) : bool :=
  match m with Ok _ => true | _ => false end.

(** ** Machine integers: a Go [uint64] is a [Z] reduced modulo [2^64]. *)

Definition two64 : Z := 18446744073709551616.
Definition u64 (z : Z) : Z := z mod two64.
Definition is_u64 (z : Z) : Prop := 0 <= z < two64.

(** [int(...)] on a 64-bit platform and [int32(...)] wrap around as two's complement. *)
Definition i64 (z : Z) : Z := (z + 9223372036854775808) mod two64 - 9223372036854775808.
Definition i32 (z : Z) : Z := (z + 2147483648) mod 4294967296 - 2147483648.

(** Go's built-in [len], as an [int]. *)
Definition len {A} (l : list A) : Z := Z.of_nat (length l).

Notation "a '+u' b" := (u64 (a + b)) (at level 50, left associativity) : go_scope.
Notation "a '-u' b" := (u64 (a - b)) (at level 50, left associativity) : go_scope.
#[global] Open Scope go_scope.

(** ** Bytes. *)

Abbreviation bytes := (list Byte.byte).

Definition byte_Z (b : Byte.byte) : Z := Z.of_N (Byte.to_N b).
Definition Z_byte (z : Z) : Byte.byte :=
  match Byte.of_N (Z.to_N (z mod 256)) with Some b => b | None => Byte.x00 end.

#[export] Instance byte_eq_decision : EqDecision Byte.byte := Byte.byte_eq_dec.
#[export] Instance byte_countable : Countable Byte.byte := inj_countable Byte.to_N Byte.of_N Byte.of_to_N.

(** [binary.BigEndian.PutUint64]/[PutUint32]: the [n] low-order bytes of [z], most significant first. *)
Fixpoint be_encode (n : nat) (z : Z) : bytes :=
  match n with
  | O => []
  | S n' => be_encode n' (z / 256) ++ [Z_byte z]
  end.

(** [binary.BigEndian.Uint64]/[Uint32]. *)
Definition be_decode (l : bytes) : Z :=
  fold_left (fun acc b => acc * 256 + byte_Z b) l 0.

Arguments len : simpl never.
Arguments be_encode : simpl never.
Arguments be_decode : simpl never.
Arguments u64 : simpl never.

(** [data[i:j]] for indices the caller has checked to be in range. *)
Definition slice {A} (i j : nat) (l : list A) : list A := take (j - i) (drop i l).

(** ** Automation. *)

Create HintDb go discriminated.
Create Rewrite HintDb go_rw.

(** Turns boolean guards in the hypotheses into arithmetic facts. *)
Ltac bool_facts :=
  repeat match goal with
  | H : (_ && _)%bool = true |- _ => apply andb_true_iff in H; destruct H
  | H : (_ || _)%bool = false |- _ => apply orb_false_iff in H; destruct H
  | H : (_ && _)%bool = false |- _ => apply andb_false_iff in H
  | H : (_ || _)%bool = true |- _ => apply orb_true_iff in H
  | H : (_ <? _) = true |- _ => apply Z.ltb_lt in H
  | H : (_ <? _) = false |- _ => apply Z.ltb_ge in H
  | H : (_ <=? _) = true |- _ => apply Z.leb_le in H
  | H : (_ <=? _) = false |- _ => apply Z.leb_gt in H
  | H : (_ =? _) = true |- _ => apply Z.eqb_eq in H
  | H : (_ =? _) = false |- _ => apply Z.eqb_neq in H
  | H : negb _ = true |- _ => apply negb_true_iff in H
  | H : negb _ = false |- _ => apply negb_false_iff in H
  | H : bool_decide _ = true |- _ => apply bool_decide_eq_true_1 in H
  | H : bool_decide _ = false |- _ => apply bool_decide_eq_false_1 in H
  end.

(** Walks the guards of a Go function: case analysis on every [if] and [match]
    of the goal or of the hypothesis [H], dropping the impossible branches. *)
Ltac guards := repeat (case_match; try discriminate); bool_facts; simplify_eq/=.
Ltac guards_in H :=
  repeat (match type of H with
          | context [if ?c then _ else _] => let E := fresh "E" in destruct c eqn:E
          | context [match ?c with _ => _ end] => let E := fresh "E" in destruct c eqn:E
          end; try discriminate);
  bool_facts; simplify_eq/=.

(** ** Facts about [uint64] arithmetic. *)

Lemma u64_small z : is_u64 z -> u64 z = z.
Proof. unfold is_u64, u64. intros. apply Z.mod_small. lia. Qed.

Lemma u64_range z : is_u64 (u64 z).
Proof. unfold u64, is_u64. apply Z.mod_pos_bound. reflexivity. Qed.

Lemma u64_add_small a b : 0 <= a -> 0 <= b -> a + b < two64 -> a +u b = a + b.
Proof. intros. apply u64_small. unfold is_u64. lia. Qed.

Lemma u64_sub_small a b : 0 <= b <= a -> a < two64 -> a -u b = a - b.
Proof. intros. apply u64_small. unfold is_u64. lia. Qed.

Lemma u64_idemp z : u64 (u64 z) = u64 z.
Proof. apply u64_small, u64_range. Qed.

#[export] Hint Resolve u64_small u64_range : go.
#[export] Hint Rewrite @u64_idemp : go_rw.

(** Discharges the [uint64] wrap-around where the operands are known to be in range. *)
Ltac u64_simpl :=
  repeat match goal with
  | |- context [u64 (?a + ?b)] => rewrite (u64_add_small a b) by (unfold is_u64, two64 in *; lia)
  | |- context [u64 (?a - ?b)] => rewrite (u64_sub_small a b) by (unfold is_u64, two64 in *; lia)
  | H : context [u64 (?a + ?b)] |- _ =>
      rewrite (u64_add_small a b) in H by (unfold is_u64, two64 in *; lia)
  | H : context [u64 (?a - ?b)] |- _ =>
      rewrite (u64_sub_small a b) in H by (unfold is_u64, two64 in *; lia)
  end.

(** ** Facts about [len] and slices. *)

Lemma len_nonneg {A} (l : list A) : 0 <= len l.
Proof. unfold len. lia. Qed.

Lemma len_app {A} (l k : list A) : len (l ++ k) = len l + len k.
Proof. unfold len. rewrite length_app. lia. Qed.

Lemma len_nil {A} : len (@nil A) = 0.
Proof. reflexivity. Qed.

Lemma len_cons {A} (x : A) l : len (x :: l) = 1 + len l.
Proof. unfold len. simpl length. lia. Qed.

Lemma len_drop {A} n (l : list A) : len (drop n l) = Z.max 0 (len l - Z.of_nat n).
Proof. unfold len. rewrite length_drop. lia. Qed.

Lemma len_take {A} n (l : list A) : len (take n l) = Z.min (Z.of_nat n) (len l).
Proof. unfold len. rewrite length_take. lia. Qed.

Lemma len_zero_nil {A} (l : list A) : len l = 0 -> l = [].
Proof. unfold len. intros. destruct l; simpl in *; [done | lia]. Qed.

#[export] Hint Resolve len_nonneg : go.
#[export] Hint Rewrite @len_app @len_nil @len_cons @len_drop @len_take : go_rw.

(** Arithmetic on lengths: rewrite them, add their signs, call [lia]. *)
Ltac len_lia :=
  autorewrite with go_rw in *;
  repeat match goal with
  | |- context [len ?l] => lazymatch goal with
      | _ : 0 <= len l |- _ => fail | _ => pose proof (len_nonneg l) end
  | _ : context [len ?l] |- _ => lazymatch goal with
      | _ : 0 <= len l |- _ => fail | _ => pose proof (len_nonneg l) end
  end; unfold two64, is_u64 in *; lia.

Lemma slice_app_l {A} n (l k : list A) : length l = n -> slice 0 n (l ++ k) = l.
Proof. intros <-. unfold slice. by rewrite Nat.sub_0_r, drop_0, take_app_length. Qed.

Lemma slice_app_r {A} m n (l k : list A) :
  (length l <= m)%nat -> slice m n (l ++ k) = slice (m - length l) (n - length l) k.
Proof.
  intros. unfold slice. rewrite drop_app_ge by done. f_equal. lia.
Qed.

Lemma slice_drop {A} i j (l : list A) : (i <= j)%nat -> slice i j l ++ drop j l = drop i l.
Proof.
  intros. unfold slice. replace (drop j l) with (drop (j - i) (drop i l)).
  - apply take_drop.
  - rewrite drop_drop. f_equal. lia.
Qed.

Lemma NoDup_sub {A} (l k : list A) : l ⊆+ k -> NoDup k -> NoDup l.
Proof. intros (k' & Hk)%submseteq_Permutation Hn. rewrite Hk in Hn. by apply list.NoDup_app in Hn as [? _]. Qed.

Lemma Forall_elem {A} (P : A -> Prop) l x : Forall P l -> x ∈ l -> P x.
Proof. intros Hl Hx. by apply (proj1 (List.Forall_forall _ _) Hl), list_elem_of_In. Qed.

Lemma Forall_snoc {A} (P : A -> Prop) l x : Forall P l -> P x -> Forall P (l ++ [x]).
Proof. intros Hl Hx. apply Forall_app. split; [done|]. by constructor. Qed.

Lemma length_slice {A} i j (l : list A) :
  (j <= length l)%nat -> length (slice i j l) = (j - i)%nat.
Proof. intros. unfold slice. rewrite length_take, length_drop. lia. Qed.

(** ** Facts about the byte codec. *)

Lemma byte_Z_range b : 0 <= byte_Z b < 256.
Proof.
  unfold byte_Z. pose proof (Byte.to_N_bounded b) as H. lia.
Qed.

Lemma Z_byte_Z b : Z_byte (byte_Z b) = b.
Proof.
  unfold Z_byte. rewrite Z.mod_small by apply byte_Z_range.
  unfold byte_Z. by rewrite N2Z.id, Byte.of_to_N.
Qed.

Lemma byte_Z_byte z : byte_Z (Z_byte z) = z mod 256.
Proof.
  unfold Z_byte, byte_Z.
  pose proof (Z.mod_pos_bound z 256 eq_refl) as Hz.
  destruct (Byte.of_N (Z.to_N (z mod 256))) as [b|] eqn:E.
  - apply Byte.to_of_N in E. rewrite E. lia.
  - apply Byte.of_N_None_iff in E. lia.
Qed.

Lemma be_encode_S n z : be_encode (S n) z = be_encode n (z / 256) ++ [Z_byte z].
Proof. reflexivity. Qed.

Lemma length_be_encode n z : length (be_encode n z) = n.
Proof.
  revert z. induction n as [|n IH]; intros z; [done|].
  rewrite be_encode_S, length_app, IH. simpl. lia.
Qed.

Lemma be_decode_snoc l b : be_decode (l ++ [b]) = be_decode l * 256 + byte_Z b.
Proof. unfold be_decode. by rewrite fold_left_app. Qed.

Lemma be_decode_encode n z : be_decode (be_encode n z) = z mod 256 ^ Z.of_nat n.
Proof.
  revert z. induction n as [|n IH]; intros z.
  - change (256 ^ Z.of_nat 0) with 1. by rewrite Z.mod_1_r.
  - rewrite be_encode_S, be_decode_snoc, IH, byte_Z_byte.
    rewrite Nat2Z.inj_succ, Z.pow_succ_r by lia.
    rewrite Z.rem_mul_r by lia. lia.
Qed.

Lemma be_decode_range l : 0 <= be_decode l < 256 ^ len l.
Proof.
  induction l as [|b l IH] using rev_ind; [by vm_compute|].
  rewrite be_decode_snoc, len_app. pose proof (byte_Z_range b).
  replace (len [b]) with 1 by done.
  rewrite Z.pow_add_r, Z.pow_1_r by (try apply len_nonneg; lia). nia.
Qed.

Lemma be_encode_decode l : be_encode (length l) (be_decode l) = l.
Proof.
  induction l as [|b l IH] using rev_ind; [done|].
  rewrite length_app, Nat.add_1_r, be_encode_S, be_decode_snoc. pose proof (byte_Z_range b).
  f_equal.
  - assert ((be_decode l * 256 + byte_Z b) / 256 = be_decode l) as ->; [|done].
    symmetry. apply Z.div_unique with (byte_Z b); lia.
  - f_equal. rewrite <- (Z_byte_Z b) at 2.
    unfold Z_byte. rewrite Z.add_comm, Z.mod_add by lia. done.
Qed.

Lemma be_encode_decode_slice n i j (l : bytes) :
  (j <= length l)%nat -> n = (j - i)%nat -> be_encode n (be_decode (slice i j l)) = slice i j l.
Proof.
  intros Hj ->. rewrite <- (length_slice i j l) by done. apply be_encode_decode.
Qed.

Lemma be_decode_slice_range n i j (l : bytes) :
  (j <= length l)%nat -> Z.of_nat n = Z.of_nat j - Z.of_nat i -> (i <= j)%nat ->
  0 <= be_decode (slice i j l) < 256 ^ Z.of_nat n.
Proof.
  intros Hj Hn Hi. replace (Z.of_nat n) with (len (slice i j l)); [apply be_decode_range|].
  unfold len. rewrite length_slice by done. lia.
Qed.

#[export] Hint Rewrite length_be_encode be_decode_encode Z_byte_Z : go_rw.
