(* ===== verification/Errors.v ===== *)
(** * Errors of the SDK (errors.go, and the sentinel errors of the other files)

    A Go [error] value is an element of [error]; a nil error is [None] in an
    [option error]. Error texts that the code formats with [fmt.Errorf] keep
    their format string and arguments unexpanded, so two errors are equal
    exactly when the code builds them from the same format and values. *)

From stdpp Require Import base list strings pretty.
From S2P Require Import Prelude.

(** Arguments of a format string. *)
Inductive fmtarg : Type :=
| FStr (s : string)
| FInt (z : Z).

(** Package-level [errors.New] values, and the standard library's sentinels. *)
Inductive sentinel : Type :=
| ErrClosed | ErrNotConnected | ErrDisconnected
| ErrStreamWindowFull | ErrStreamGap | ErrStreamEpoch | ErrStreamCredit
| ErrStreamSendPendingFull | ErrStreamClosed | ErrStreamUnknown
| EOF | Canceled | DeadlineExceeded.

Record ServerError : Type := mkServerError {
  se_Code : string;
  se_Message : string;
  se_RequestID : Z;
}.

Inductive error : Type :=
| Sentinel (s : sentinel)
| EServer (e : ServerError)
| EProtocol (format : string) (args : list fmtarg)
| EConnection (Op : string) (inner : error)
| ERelay (Code Message : string)
| Errorf (format : string) (args : list fmtarg)
| Wrapf (format : string) (args : list fmtarg) (inner : error)
| External (id : Z) (wraps : list sentinel).

(** [errors.New] at the point of use. *)
Definition errors_New (s : string) : error := Errorf s [].

#[export] Instance fmtarg_eq_decision : EqDecision fmtarg.
Proof. solve_decision. Defined.
#[export] Instance sentinel_eq_decision : EqDecision sentinel.
Proof. solve_decision. Defined.
#[export] Instance ServerError_eq_decision : EqDecision ServerError.
Proof. solve_decision. Defined.
#[export] Instance error_eq_decision : EqDecision error.
Proof. solve_decision. Defined.

(** [(e *ServerError) Error() string]; the receiver may be nil. *)
Definition ServerError_Error (e : option ServerError) : string :=
  match e with
  | None => "<nil>"
  | Some e =>
      if se_RequestID e =? 0
      then "turntf server error: " +:+ se_Code e +:+ " (" +:+ se_Message e +:+ ")"
      else "turntf server error: " +:+ se_Code e +:+ " (" +:+ se_Message e +:+ "), request_id="
             +:+ pretty (se_RequestID e)
  end.

(** [(e *ServerError) Unauthorized() bool] *)
Definition Unauthorized (e : option ServerError) : bool :=
  match e with
  | None => false
  | Some e => bool_decide (se_Code e = "unauthorized")
  end.

(** [(e *ConnectionError) Unwrap() error], and the [Unwrap] of a [%w] error. *)
Definition Unwrap (e : error) : option error :=
  match e with
  | EConnection _ inner => Some inner
  | Wrapf _ _ inner => Some inner
  | _ => None
  end.

(** [errors.Is(e, target)]: some error of the chain is the sentinel. *)
Fixpoint errors_Is (e : error) (target : sentinel) : bool :=
  match e with
  | Sentinel s => bool_decide (s = target)
  | EConnection _ inner | Wrapf _ _ inner => errors_Is inner target
  | External _ wraps => bool_decide (target ∈ wraps)
  | _ => false
  end.

(** [errors.As(e, &serverErr)] for a [*ServerError] target: the first one of the chain. *)
Fixpoint errors_As_ServerError (e : error) : option ServerError :=
  match e with
  | EServer s => Some s
  | EConnection _ inner | Wrapf _ _ inner => errors_As_ServerError inner
  | _ => None
  end.

(** Unwrapping one layer never changes what [errors.Is] and [errors.As] find. *)
Lemma errors_Is_unwrap e inner t : Unwrap e = Some inner -> errors_Is e t = errors_Is inner t.
Proof. by destruct e; intros; simplify_eq/=. Qed.

Lemma errors_As_unwrap e inner :
  Unwrap e = Some inner -> errors_As_ServerError e = errors_As_ServerError inner.
Proof. by destruct e; intros; simplify_eq/=. Qed.

#[export] Hint Resolve errors_Is_unwrap errors_As_unwrap : go.
