(* ===== verification/Types.v ===== *)
(** * The SDK's public data types and their validation (types.go)

    One [Record] per Go struct and one inductive per enumeration, and the
    [validate]/[IsZero]/[normalized] methods the calls run before anything is
    sent. Identifiers are [int64] values; the SDK only compares them with zero
    and with each other. *)

From Stdlib Require Import Strings.Ascii.
From stdpp Require Import base list strings gmap.
From S2P Require Import Prelude Errors.

(** ** Identities *)

Record UserRef : Type := mkUserRef { ur_NodeID : Z; ur_UserID : Z }.
Record SessionRef : Type := mkSessionRef { sr_ServingNodeID : Z; sr_SessionID : string }.
Record MessageCursor : Type := mkMessageCursor { mc_NodeID : Z; mc_Seq : Z }.

#[export] Instance UserRef_eq_decision : EqDecision UserRef.
Proof. solve_decision. Defined.
#[export] Instance SessionRef_eq_decision : EqDecision SessionRef.
Proof. solve_decision. Defined.
#[export] Instance MessageCursor_eq_decision : EqDecision MessageCursor.
Proof. solve_decision. Defined.
#[export] Instance MessageCursor_countable : Countable MessageCursor.
Proof.
  apply (inj_countable' (fun c => (mc_NodeID c, mc_Seq c)) (fun p => mkMessageCursor p.1 p.2)).
  by intros [].
Defined.

Definition zero_UserRef : UserRef := mkUserRef 0 0.
Definition zero_SessionRef : SessionRef := mkSessionRef 0 "".
Definition zero_MessageCursor : MessageCursor := mkMessageCursor 0 0.

(** [type DeliveryMode string]: the constants and every other string. *)
Definition DeliveryMode : Type := string.
Definition DeliveryModeUnspecified : DeliveryMode := "".
Definition DeliveryModeBestEffort : DeliveryMode := "best_effort".
Definition DeliveryModeRouteRetry : DeliveryMode := "route_retry".

(** ** Messages and packets *)

Record Message : Type := mkMessage {
  m_Recipient : UserRef;
  m_NodeID : Z;
  m_Seq : Z;
  m_Sender : UserRef;
  m_Body : bytes;
  m_CreatedAtHLC : string;
}.

Record Packet : Type := mkPacket {
  p_PacketID : Z;
  p_SourceNodeID : Z;
  p_TargetNodeID : Z;
  p_Recipient : UserRef;
  p_Sender : UserRef;
  p_Body : bytes;
  p_DeliveryMode : DeliveryMode;
  p_TargetSession : SessionRef;
}.

Record RelayAccepted : Type := mkRelayAccepted {
  ra_PacketID : Z;
  ra_SourceNodeID : Z;
  ra_TargetNodeID : Z;
  ra_Recipient : UserRef;
  ra_DeliveryMode : DeliveryMode;
  ra_TargetSession : SessionRef;
}.

Definition zero_Message : Message := mkMessage zero_UserRef 0 0 zero_UserRef [] "".
Definition zero_Packet : Packet :=
  mkPacket 0 0 0 zero_UserRef zero_UserRef [] "" zero_SessionRef.
Definition zero_RelayAccepted : RelayAccepted :=
  mkRelayAccepted 0 0 0 zero_UserRef "" zero_SessionRef.

(** [(m Message) Cursor() MessageCursor] *)
Definition Message_Cursor (m : Message) : MessageCursor := mkMessageCursor (m_NodeID m) (m_Seq m).

(** ** The relay protocol's types *)

(** [type Reliability int32]: a configuration may hold a value outside the constants. *)
Inductive Reliability : Type :=
| ReliabilityBestEffort
| ReliabilityAtLeastOnce
| ReliabilityReliableOrdered
| ReliabilityOther (v : Z).

Inductive RelayState : Type :=
| RelayStateClosed | RelayStateOpening | RelayStateOpen | RelayStateClosing.

Inductive RelayKind : Type :=
| RelayKindUnspecified | RelayKindOpen | RelayKindOpenAck | RelayKindData | RelayKindAck
| RelayKindClose | RelayKindPing | RelayKindError.

#[export] Instance Reliability_eq_decision : EqDecision Reliability.
Proof. solve_decision. Defined.
#[export] Instance RelayState_eq_decision : EqDecision RelayState.
Proof. solve_decision. Defined.
#[export] Instance RelayKind_eq_decision : EqDecision RelayKind.
Proof. solve_decision. Defined.

(** The [int32] behind a kind, for the range test of [handlePacket]. *)
Definition RelayKind_value (k : RelayKind) : Z :=
  match k with
  | RelayKindUnspecified => 0 | RelayKindOpen => 1 | RelayKindOpenAck => 2 | RelayKindData => 3
  | RelayKindAck => 4 | RelayKindClose => 5 | RelayKindPing => 6 | RelayKindError => 7
  end.

Definition RelayKind_String (k : RelayKind) : string :=
  match k with
  | RelayKindOpen => "OPEN"
  | RelayKindOpenAck => "OPEN_ACK"
  | RelayKindData => "DATA"
  | RelayKindAck => "ACK"
  | RelayKindClose => "CLOSE"
  | RelayKindPing => "PING"
  | RelayKindError => "ERROR"
  | RelayKindUnspecified => "UNSPECIFIED"
  end.

Record RelayOrphan : Type := mkRelayOrphan { ro_RelayID : string; ro_Kind : RelayKind }.

Record RelayConfig : Type := mkRelayConfig {
  rc_Reliability : Reliability;
  rc_WindowSize : Z;
  rc_OpenTimeoutMs : Z;
  rc_CloseTimeoutMs : Z;
  rc_AckTimeoutMs : Z;
  rc_MaxRetransmits : Z;
  rc_IdleTimeoutMs : Z;
  rc_SendTimeoutMs : Z;
  rc_ReceiveTimeoutMs : Z;
  rc_SendBufferSize : Z;
  rc_DeliveryMode : DeliveryMode;
}.

Definition DefaultRelayConfig : RelayConfig :=
  mkRelayConfig ReliabilityReliableOrdered 16 10000 5000 3000 5 0 0 0 65536 DeliveryModeRouteRetry.

Record RelayEnvelope : Type := mkRelayEnvelope {
  re_RelayID : string;
  re_Kind : RelayKind;
  re_SenderSession : SessionRef;
  re_TargetSession : SessionRef;
  re_Seq : Z;
  re_AckSeq : Z;
  re_Payload : bytes;
  re_SentAtMs : Z;
}.

#[export] Instance RelayEnvelope_eq_decision : EqDecision RelayEnvelope.
Proof. solve_decision. Defined.

(** [(e *RelayError) Error() string] *)
Definition RelayError_Error (Code Message : string) : string :=
  "relay: " +:+ Code +:+ ": " +:+ Message.

Definition RelayErrorOpenTimeout : string := "open_timeout".
Definition RelayErrorMaxRetransmit : string := "max_retransmit".
Definition RelayErrorRemoteClose : string := "remote_close".
Definition RelayErrorClientClosed : string := "client_closed".
Definition RelayErrorProtocol : string := "protocol_error".
Definition RelayErrorNotConnected : string := "not_connected".
Definition RelayErrorSendTimeout : string := "send_timeout".
Definition RelayErrorReceiveTimeout : string := "receive_timeout".
Definition RelayErrorReceiveOverflow : string := "receive_overflow".
Definition RelayErrorCloseTimeout : string := "close_timeout".

(** ** Validation of references *)

(** [(r UserRef) validate() error] *)
Definition UserRef_validate (r : UserRef) : option error :=
  if ur_NodeID r =? 0 then Some (errors_New "node_id is required")
  else if ur_UserID r =? 0 then Some (errors_New "user_id is required")
  else None.

Definition UserRef_IsZero (r : UserRef) : bool := (ur_NodeID r =? 0) && (ur_UserID r =? 0).

Definition SessionRef_IsZero (r : SessionRef) : bool :=
  (sr_ServingNodeID r =? 0) && bool_decide (sr_SessionID r = "").

Definition SessionRef_Valid (r : SessionRef) : bool :=
  negb (sr_ServingNodeID r =? 0) && negb (bool_decide (sr_SessionID r = "")).

Definition SessionRef_validate (r : SessionRef) : option error :=
  if sr_ServingNodeID r =? 0 then Some (errors_New "serving_node_id is required")
  else if bool_decide (sr_SessionID r = "") then Some (errors_New "session_id is required")
  else None.

(** [(m DeliveryMode) validatePacketMode() error] *)
Definition validatePacketMode (m : DeliveryMode) : option error :=
  if bool_decide (m = DeliveryModeBestEffort) || bool_decide (m = DeliveryModeRouteRetry)
  then None
  else Some (Errorf "invalid delivery_mode %q" [FStr m]).

(** ** Facts *)

Lemma UserRef_validate_None r :
  UserRef_validate r = None <-> ur_NodeID r <> 0 /\ ur_UserID r <> 0.
Proof. unfold UserRef_validate. repeat case_match; bool_facts; naive_solver. Qed.

Lemma SessionRef_validate_Valid r : SessionRef_validate r = None <-> SessionRef_Valid r = true.
Proof.
  unfold SessionRef_validate, SessionRef_Valid. repeat case_match; bool_facts; naive_solver.
Qed.
