(* ===== verification/Wire.v ===== *)
(** * Protobuf messages (proto/client.proto and proto/relay.proto)

    The Go structs protoc-gen-go makes of the messages: a sub-message is a pointer, so an
    [option]; an enumeration is an [int32] that may hold any value; a oneof is an interface
    value, nil or one of its cases (whose payload is never nil after decoding). The wire format itself ([proto.Marshal] and
    [proto.Unmarshal]) is a parameter of the files that use it. *)

From stdpp Require Import base list strings.
From S2P Require Import Prelude.


(** enum ClientDeliveryKind *)
Definition CLIENT_DELIVERY_KIND_UNSPECIFIED : Z := 0.
Definition CLIENT_DELIVERY_KIND_PERSISTENT : Z := 1.
Definition CLIENT_DELIVERY_KIND_TRANSIENT : Z := 2.

(** enum ClientDeliveryMode *)
Definition CLIENT_DELIVERY_MODE_UNSPECIFIED : Z := 0.
Definition CLIENT_DELIVERY_MODE_BEST_EFFORT : Z := 1.
Definition CLIENT_DELIVERY_MODE_ROUTE_RETRY : Z := 2.

(** enum ClientMessageSyncMode *)
Definition CLIENT_MESSAGE_SYNC_MODE_UNSPECIFIED : Z := 0.
Definition CLIENT_MESSAGE_SYNC_MODE_FORCE_SYNC : Z := 1.
Definition CLIENT_MESSAGE_SYNC_MODE_NO_SYNC : Z := 2.

(** enum AttachmentType *)
Definition ATTACHMENT_TYPE_UNSPECIFIED : Z := 0.
Definition ATTACHMENT_TYPE_CHANNEL_MANAGER : Z := 1.
Definition ATTACHMENT_TYPE_CHANNEL_WRITER : Z := 2.
Definition ATTACHMENT_TYPE_CHANNEL_SUBSCRIPTION : Z := 3.
Definition ATTACHMENT_TYPE_USER_BLACKLIST : Z := 4.

(** enum RelayKind *)
Definition RELAY_KIND_UNSPECIFIED : Z := 0.
Definition RELAY_KIND_OPEN : Z := 1.
Definition RELAY_KIND_OPEN_ACK : Z := 2.
Definition RELAY_KIND_DATA : Z := 3.
Definition RELAY_KIND_ACK : Z := 4.
Definition RELAY_KIND_CLOSE : Z := 5.
Definition RELAY_KIND_PING : Z := 6.
Definition RELAY_KIND_ERROR : Z := 7.

Record pb_UserRef : Type := mkpb_UserRef { pb_UserRef_NodeId : Z; pb_UserRef_UserId : Z }.

Record pb_MessageCursor : Type := mkpb_MessageCursor { pb_MessageCursor_NodeId : Z; pb_MessageCursor_Seq : Z }.

Record pb_LoginRequest : Type := mkpb_LoginRequest {
  pb_LoginRequest_User : option pb_UserRef;
  pb_LoginRequest_LoginName : string;
  pb_LoginRequest_Password : string;
  pb_LoginRequest_SeenMessages : list (option pb_MessageCursor);
  pb_LoginRequest_TransientOnly : bool;
  pb_LoginRequest_ProtocolVersion : string;
}.

Record pb_SessionRef : Type := mkpb_SessionRef { pb_SessionRef_ServingNodeId : Z; pb_SessionRef_SessionId : string }.

Record pb_SendMessageRequest : Type := mkpb_SendMessageRequest {
  pb_SendMessageRequest_RequestId : Z;
  pb_SendMessageRequest_Target : option pb_UserRef;
  pb_SendMessageRequest_Body : bytes;
  pb_SendMessageRequest_DeliveryKind : Z;
  pb_SendMessageRequest_DeliveryMode : Z;
  pb_SendMessageRequest_SyncMode : Z;
  pb_SendMessageRequest_TargetSession : option pb_SessionRef;
}.

Record pb_AckMessage : Type := mkpb_AckMessage { pb_AckMessage_Cursor : option pb_MessageCursor }.

Record pb_Ping : Type := mkpb_Ping { pb_Ping_RequestId : Z }.

Record pb_CreateUserRequest : Type := mkpb_CreateUserRequest {
  pb_CreateUserRequest_RequestId : Z;
  pb_CreateUserRequest_Username : string;
  pb_CreateUserRequest_Password : string;
  pb_CreateUserRequest_ProfileJson : bytes;
  pb_CreateUserRequest_Role : string;
  pb_CreateUserRequest_LoginName : string;
}.

Record pb_GetUserRequest : Type := mkpb_GetUserRequest { pb_GetUserRequest_RequestId : Z; pb_GetUserRequest_User : option pb_UserRef }.

Record pb_StringField : Type := mkpb_StringField { pb_StringField_Value : string }.

Record pb_BytesField : Type := mkpb_BytesField { pb_BytesField_Value : bytes }.

Record pb_UpdateUserRequest : Type := mkpb_UpdateUserRequest {
  pb_UpdateUserRequest_RequestId : Z;
  pb_UpdateUserRequest_User : option pb_UserRef;
  pb_UpdateUserRequest_Username : option pb_StringField;
  pb_UpdateUserRequest_Password : option pb_StringField;
  pb_UpdateUserRequest_ProfileJson : option pb_BytesField;
  pb_UpdateUserRequest_Role : option pb_StringField;
  pb_UpdateUserRequest_LoginName : option pb_StringField;
}.

Record pb_DeleteUserRequest : Type := mkpb_DeleteUserRequest { pb_DeleteUserRequest_RequestId : Z; pb_DeleteUserRequest_User : option pb_UserRef }.

Record pb_ListMessagesRequest : Type := mkpb_ListMessagesRequest {
  pb_ListMessagesRequest_RequestId : Z;
  pb_ListMessagesRequest_User : option pb_UserRef;
  pb_ListMessagesRequest_Limit : Z;
}.

Record pb_UpsertUserAttachmentRequest : Type := mkpb_UpsertUserAttachmentRequest {
  pb_UpsertUserAttachmentRequest_RequestId : Z;
  pb_UpsertUserAttachmentRequest_Owner : option pb_UserRef;
  pb_UpsertUserAttachmentRequest_Subject : option pb_UserRef;
  pb_UpsertUserAttachmentRequest_AttachmentType : Z;
  pb_UpsertUserAttachmentRequest_ConfigJson : bytes;
}.

Record pb_DeleteUserAttachmentRequest : Type := mkpb_DeleteUserAttachmentRequest {
  pb_DeleteUserAttachmentRequest_RequestId : Z;
  pb_DeleteUserAttachmentRequest_Owner : option pb_UserRef;
  pb_DeleteUserAttachmentRequest_Subject : option pb_UserRef;
  pb_DeleteUserAttachmentRequest_AttachmentType : Z;
}.

Record pb_ListUserAttachmentsRequest : Type := mkpb_ListUserAttachmentsRequest {
  pb_ListUserAttachmentsRequest_RequestId : Z;
  pb_ListUserAttachmentsRequest_Owner : option pb_UserRef;
  pb_ListUserAttachmentsRequest_AttachmentType : Z;
}.

Record pb_ListEventsRequest : Type := mkpb_ListEventsRequest {
  pb_ListEventsRequest_RequestId : Z;
  pb_ListEventsRequest_After : Z;
  pb_ListEventsRequest_Limit : Z;
}.

Record pb_OperationsStatusRequest : Type := mkpb_OperationsStatusRequest { pb_OperationsStatusRequest_RequestId : Z }.

Record pb_MetricsRequest : Type := mkpb_MetricsRequest { pb_MetricsRequest_RequestId : Z }.

Record pb_ListClusterNodesRequest : Type := mkpb_ListClusterNodesRequest { pb_ListClusterNodesRequest_RequestId : Z }.

Record pb_ListNodeLoggedInUsersRequest : Type := mkpb_ListNodeLoggedInUsersRequest { pb_ListNodeLoggedInUsersRequest_RequestId : Z; pb_ListNodeLoggedInUsersRequest_NodeId : Z }.

Record pb_ResolveUserSessionsRequest : Type := mkpb_ResolveUserSessionsRequest { pb_ResolveUserSessionsRequest_RequestId : Z; pb_ResolveUserSessionsRequest_User : option pb_UserRef }.

Record pb_GetUserMetadataRequest : Type := mkpb_GetUserMetadataRequest {
  pb_GetUserMetadataRequest_RequestId : Z;
  pb_GetUserMetadataRequest_Owner : option pb_UserRef;
  pb_GetUserMetadataRequest_Key : string;
}.

Record pb_UpsertUserMetadataRequest : Type := mkpb_UpsertUserMetadataRequest {
  pb_UpsertUserMetadataRequest_RequestId : Z;
  pb_UpsertUserMetadataRequest_Owner : option pb_UserRef;
  pb_UpsertUserMetadataRequest_Key : string;
  pb_UpsertUserMetadataRequest_Value : bytes;
  pb_UpsertUserMetadataRequest_ExpiresAt : option pb_StringField;
}.

Record pb_DeleteUserMetadataRequest : Type := mkpb_DeleteUserMetadataRequest {
  pb_DeleteUserMetadataRequest_RequestId : Z;
  pb_DeleteUserMetadataRequest_Owner : option pb_UserRef;
  pb_DeleteUserMetadataRequest_Key : string;
}.

Record pb_ScanUserMetadataRequest : Type := mkpb_ScanUserMetadataRequest {
  pb_ScanUserMetadataRequest_RequestId : Z;
  pb_ScanUserMetadataRequest_Owner : option pb_UserRef;
  pb_ScanUserMetadataRequest_Prefix : string;
  pb_ScanUserMetadataRequest_After : string;
  pb_ScanUserMetadataRequest_Limit : Z;
}.

Record pb_ListUsersRequest : Type := mkpb_ListUsersRequest {
  pb_ListUsersRequest_RequestId : Z;
  pb_ListUsersRequest_Name : string;
  pb_ListUsersRequest_Uid : option pb_UserRef;
}.

Record pb_StreamFrameRequest : Type := mkpb_StreamFrameRequest {
  pb_StreamFrameRequest_RequestId : Z;
  pb_StreamFrameRequest_Target : option pb_UserRef;
  pb_StreamFrameRequest_TargetSession : option pb_SessionRef;
  pb_StreamFrameRequest_StreamId : bytes;
  pb_StreamFrameRequest_Kind : Z;
  pb_StreamFrameRequest_Epoch : Z;
  pb_StreamFrameRequest_Offset : Z;
  pb_StreamFrameRequest_Window : Z;
  pb_StreamFrameRequest_Payload : bytes;
}.

(** The oneof of ClientEnvelope. *)
Inductive pb_ClientEnvelope_Body : Type :=
| pb_ClientEnvelope_Login (v : pb_LoginRequest)
| pb_ClientEnvelope_SendMessage (v : pb_SendMessageRequest)
| pb_ClientEnvelope_AckMessage (v : pb_AckMessage)
| pb_ClientEnvelope_Ping (v : pb_Ping)
| pb_ClientEnvelope_CreateUser (v : pb_CreateUserRequest)
| pb_ClientEnvelope_GetUser (v : pb_GetUserRequest)
| pb_ClientEnvelope_UpdateUser (v : pb_UpdateUserRequest)
| pb_ClientEnvelope_DeleteUser (v : pb_DeleteUserRequest)
| pb_ClientEnvelope_ListMessages (v : pb_ListMessagesRequest)
| pb_ClientEnvelope_UpsertUserAttachment (v : pb_UpsertUserAttachmentRequest)
| pb_ClientEnvelope_DeleteUserAttachment (v : pb_DeleteUserAttachmentRequest)
| pb_ClientEnvelope_ListUserAttachments (v : pb_ListUserAttachmentsRequest)
| pb_ClientEnvelope_ListEvents (v : pb_ListEventsRequest)
| pb_ClientEnvelope_OperationsStatus (v : pb_OperationsStatusRequest)
| pb_ClientEnvelope_Metrics (v : pb_MetricsRequest)
| pb_ClientEnvelope_ListClusterNodes (v : pb_ListClusterNodesRequest)
| pb_ClientEnvelope_ListNodeLoggedInUsers (v : pb_ListNodeLoggedInUsersRequest)
| pb_ClientEnvelope_ResolveUserSessions (v : pb_ResolveUserSessionsRequest)
| pb_ClientEnvelope_GetUserMetadata (v : pb_GetUserMetadataRequest)
| pb_ClientEnvelope_UpsertUserMetadata (v : pb_UpsertUserMetadataRequest)
| pb_ClientEnvelope_DeleteUserMetadata (v : pb_DeleteUserMetadataRequest)
| pb_ClientEnvelope_ScanUserMetadata (v : pb_ScanUserMetadataRequest)
| pb_ClientEnvelope_ListUsers (v : pb_ListUsersRequest)
| pb_ClientEnvelope_StreamFrame (v : pb_StreamFrameRequest).

Record pb_ClientEnvelope : Type := mkpb_ClientEnvelope {
  pb_ClientEnvelope_body : option pb_ClientEnvelope_Body;
}.

Record pb_User : Type := mkpb_User {
  pb_User_NodeId : Z;
  pb_User_UserId : Z;
  pb_User_Username : string;
  pb_User_Role : string;
  pb_User_ProfileJson : bytes;
  pb_User_SystemReserved : bool;
  pb_User_CreatedAt : string;
  pb_User_UpdatedAt : string;
  pb_User_OriginNodeId : Z;
  pb_User_LoginName : string;
}.

Record pb_LoginResponse : Type := mkpb_LoginResponse {
  pb_LoginResponse_User : option pb_User;
  pb_LoginResponse_ProtocolVersion : string;
  pb_LoginResponse_SessionRef : option pb_SessionRef;
}.

Record pb_Message : Type := mkpb_Message {
  pb_Message_Recipient : option pb_UserRef;
  pb_Message_NodeId : Z;
  pb_Message_Seq : Z;
  pb_Message_Sender : option pb_UserRef;
  pb_Message_Body : bytes;
  pb_Message_CreatedAtHlc : string;
}.

Record pb_MessagePushed : Type := mkpb_MessagePushed { pb_MessagePushed_Message : option pb_Message }.

Record pb_TransientAccepted : Type := mkpb_TransientAccepted {
  pb_TransientAccepted_PacketId : Z;
  pb_TransientAccepted_SourceNodeId : Z;
  pb_TransientAccepted_TargetNodeId : Z;
  pb_TransientAccepted_Recipient : option pb_UserRef;
  pb_TransientAccepted_DeliveryMode : Z;
  pb_TransientAccepted_TargetSession : option pb_SessionRef;
}.

(** The oneof of SendMessageResponse. *)
Inductive pb_SendMessageResponse_Body : Type :=
| pb_SendMessageResponse_Message (v : pb_Message)
| pb_SendMessageResponse_TransientAccepted (v : pb_TransientAccepted).

Record pb_SendMessageResponse : Type := mkpb_SendMessageResponse {
  pb_SendMessageResponse_RequestId : Z;
  pb_SendMessageResponse_body : option pb_SendMessageResponse_Body;
}.

Record pb_Error : Type := mkpb_Error {
  pb_Error_Code : string;
  pb_Error_Message : string;
  pb_Error_RequestId : Z;
}.

Record pb_Pong : Type := mkpb_Pong { pb_Pong_RequestId : Z }.

Record pb_Packet : Type := mkpb_Packet {
  pb_Packet_PacketId : Z;
  pb_Packet_SourceNodeId : Z;
  pb_Packet_TargetNodeId : Z;
  pb_Packet_Recipient : option pb_UserRef;
  pb_Packet_Sender : option pb_UserRef;
  pb_Packet_Body : bytes;
  pb_Packet_DeliveryMode : Z;
  pb_Packet_TargetSession : option pb_SessionRef;
}.

Record pb_PacketPushed : Type := mkpb_PacketPushed { pb_PacketPushed_Packet : option pb_Packet }.

Record pb_CreateUserResponse : Type := mkpb_CreateUserResponse { pb_CreateUserResponse_RequestId : Z; pb_CreateUserResponse_User : option pb_User }.

Record pb_GetUserResponse : Type := mkpb_GetUserResponse { pb_GetUserResponse_RequestId : Z; pb_GetUserResponse_User : option pb_User }.

Record pb_UpdateUserResponse : Type := mkpb_UpdateUserResponse { pb_UpdateUserResponse_RequestId : Z; pb_UpdateUserResponse_User : option pb_User }.

Record pb_DeleteUserResponse : Type := mkpb_DeleteUserResponse {
  pb_DeleteUserResponse_RequestId : Z;
  pb_DeleteUserResponse_Status : string;
  pb_DeleteUserResponse_User : option pb_UserRef;
}.

Record pb_ListMessagesResponse : Type := mkpb_ListMessagesResponse {
  pb_ListMessagesResponse_RequestId : Z;
  pb_ListMessagesResponse_Items : list (option pb_Message);
  pb_ListMessagesResponse_Count : Z;
}.

Record pb_Attachment : Type := mkpb_Attachment {
  pb_Attachment_Owner : option pb_UserRef;
  pb_Attachment_Subject : option pb_UserRef;
  pb_Attachment_AttachmentType : Z;
  pb_Attachment_ConfigJson : bytes;
  pb_Attachment_AttachedAt : string;
  pb_Attachment_DeletedAt : string;
  pb_Attachment_OriginNodeId : Z;
}.

Record pb_UpsertUserAttachmentResponse : Type := mkpb_UpsertUserAttachmentResponse { pb_UpsertUserAttachmentResponse_RequestId : Z; pb_UpsertUserAttachmentResponse_Attachment : option pb_Attachment }.

Record pb_DeleteUserAttachmentResponse : Type := mkpb_DeleteUserAttachmentResponse { pb_DeleteUserAttachmentResponse_RequestId : Z; pb_DeleteUserAttachmentResponse_Attachment : option pb_Attachment }.

Record pb_ListUserAttachmentsResponse : Type := mkpb_ListUserAttachmentsResponse {
  pb_ListUserAttachmentsResponse_RequestId : Z;
  pb_ListUserAttachmentsResponse_Items : list (option pb_Attachment);
  pb_ListUserAttachmentsResponse_Count : Z;
}.

Record pb_Event : Type := mkpb_Event {
  pb_Event_Sequence : Z;
  pb_Event_EventId : Z;
  pb_Event_EventType : string;
  pb_Event_Aggregate : string;
  pb_Event_AggregateNodeId : Z;
  pb_Event_AggregateId : Z;
  pb_Event_Hlc : string;
  pb_Event_OriginNodeId : Z;
  pb_Event_EventJson : bytes;
}.

Record pb_ListEventsResponse : Type := mkpb_ListEventsResponse {
  pb_ListEventsResponse_RequestId : Z;
  pb_ListEventsResponse_Items : list (option pb_Event);
  pb_ListEventsResponse_Count : Z;
}.

Record pb_MessageTrimStatus : Type := mkpb_MessageTrimStatus { pb_MessageTrimStatus_TrimmedTotal : Z; pb_MessageTrimStatus_LastTrimmedAt : string }.

Record pb_ProjectionStatus : Type := mkpb_ProjectionStatus { pb_ProjectionStatus_PendingTotal : Z; pb_ProjectionStatus_LastFailedAt : string }.

Record pb_PeerOriginStatus : Type := mkpb_PeerOriginStatus {
  pb_PeerOriginStatus_OriginNodeId : Z;
  pb_PeerOriginStatus_AckedEventId : Z;
  pb_PeerOriginStatus_AppliedEventId : Z;
  pb_PeerOriginStatus_UnconfirmedEvents : Z;
  pb_PeerOriginStatus_CursorUpdatedAt : string;
  pb_PeerOriginStatus_RemoteLastEventId : Z;
  pb_PeerOriginStatus_PendingCatchup : bool;
}.

Record pb_PeerStatus : Type := mkpb_PeerStatus {
  pb_PeerStatus_NodeId : Z;
  pb_PeerStatus_ConfiguredUrl : string;
  pb_PeerStatus_Connected : bool;
  pb_PeerStatus_SessionDirection : string;
  pb_PeerStatus_Origins : list (option pb_PeerOriginStatus);
  pb_PeerStatus_PendingSnapshotPartitions : Z;
  pb_PeerStatus_RemoteSnapshotVersion : string;
  pb_PeerStatus_RemoteMessageWindowSize : Z;
  pb_PeerStatus_ClockOffsetMs : Z;
  pb_PeerStatus_LastClockSync : string;
  pb_PeerStatus_SnapshotDigestsSentTotal : Z;
  pb_PeerStatus_SnapshotDigestsReceivedTotal : Z;
  pb_PeerStatus_SnapshotChunksSentTotal : Z;
  pb_PeerStatus_SnapshotChunksReceivedTotal : Z;
  pb_PeerStatus_LastSnapshotDigestAt : string;
  pb_PeerStatus_LastSnapshotChunkAt : string;
  pb_PeerStatus_Source : string;
  pb_PeerStatus_DiscoveredUrl : string;
  pb_PeerStatus_DiscoveryState : string;
  pb_PeerStatus_LastDiscoveredAt : string;
  pb_PeerStatus_LastConnectedAt : string;
  pb_PeerStatus_LastDiscoveryError : string;
}.

Record pb_EventLogTrimStatus : Type := mkpb_EventLogTrimStatus { pb_EventLogTrimStatus_TrimmedTotal : Z; pb_EventLogTrimStatus_LastTrimmedAt : string }.

Record pb_OperationsStatus : Type := mkpb_OperationsStatus {
  pb_OperationsStatus_NodeId : Z;
  pb_OperationsStatus_MessageWindowSize : Z;
  pb_OperationsStatus_LastEventSequence : Z;
  pb_OperationsStatus_WriteGateReady : bool;
  pb_OperationsStatus_ConflictTotal : Z;
  pb_OperationsStatus_MessageTrim : option pb_MessageTrimStatus;
  pb_OperationsStatus_Projection : option pb_ProjectionStatus;
  pb_OperationsStatus_Peers : list (option pb_PeerStatus);
  pb_OperationsStatus_EventLogTrim : option pb_EventLogTrimStatus;
}.

Record pb_OperationsStatusResponse : Type := mkpb_OperationsStatusResponse { pb_OperationsStatusResponse_RequestId : Z; pb_OperationsStatusResponse_Status : option pb_OperationsStatus }.

Record pb_MetricsResponse : Type := mkpb_MetricsResponse { pb_MetricsResponse_RequestId : Z; pb_MetricsResponse_Text : string }.

Record pb_ClusterNode : Type := mkpb_ClusterNode {
  pb_ClusterNode_NodeId : Z;
  pb_ClusterNode_IsLocal : bool;
  pb_ClusterNode_ConfiguredUrl : string;
  pb_ClusterNode_Source : string;
}.

Record pb_ListClusterNodesResponse : Type := mkpb_ListClusterNodesResponse {
  pb_ListClusterNodesResponse_RequestId : Z;
  pb_ListClusterNodesResponse_Items : list (option pb_ClusterNode);
  pb_ListClusterNodesResponse_Count : Z;
}.

Record pb_LoggedInUser : Type := mkpb_LoggedInUser {
  pb_LoggedInUser_NodeId : Z;
  pb_LoggedInUser_UserId : Z;
  pb_LoggedInUser_Username : string;
  pb_LoggedInUser_LoginName : string;
}.

Record pb_ListNodeLoggedInUsersResponse : Type := mkpb_ListNodeLoggedInUsersResponse {
  pb_ListNodeLoggedInUsersResponse_RequestId : Z;
  pb_ListNodeLoggedInUsersResponse_TargetNodeId : Z;
  pb_ListNodeLoggedInUsersResponse_Items : list (option pb_LoggedInUser);
  pb_ListNodeLoggedInUsersResponse_Count : Z;
}.

Record pb_OnlineNodePresence : Type := mkpb_OnlineNodePresence {
  pb_OnlineNodePresence_ServingNodeId : Z;
  pb_OnlineNodePresence_SessionCount : Z;
  pb_OnlineNodePresence_TransportHint : string;
}.

Record pb_ResolvedSession : Type := mkpb_ResolvedSession {
  pb_ResolvedSession_Session : option pb_SessionRef;
  pb_ResolvedSession_Transport : string;
  pb_ResolvedSession_TransientCapable : bool;
}.

Record pb_ResolveUserSessionsResponse : Type := mkpb_ResolveUserSessionsResponse {
  pb_ResolveUserSessionsResponse_RequestId : Z;
  pb_ResolveUserSessionsResponse_User : option pb_UserRef;
  pb_ResolveUserSessionsResponse_Presence : list (option pb_OnlineNodePresence);
  pb_ResolveUserSessionsResponse_Items : list (option pb_ResolvedSession);
  pb_ResolveUserSessionsResponse_Count : Z;
}.

Record pb_UserMetadata : Type := mkpb_UserMetadata {
  pb_UserMetadata_Owner : option pb_UserRef;
  pb_UserMetadata_Key : string;
  pb_UserMetadata_Value : bytes;
  pb_UserMetadata_UpdatedAt : string;
  pb_UserMetadata_DeletedAt : string;
  pb_UserMetadata_ExpiresAt : string;
  pb_UserMetadata_OriginNodeId : Z;
}.

Record pb_GetUserMetadataResponse : Type := mkpb_GetUserMetadataResponse { pb_GetUserMetadataResponse_RequestId : Z; pb_GetUserMetadataResponse_Metadata : option pb_UserMetadata }.

Record pb_UpsertUserMetadataResponse : Type := mkpb_UpsertUserMetadataResponse { pb_UpsertUserMetadataResponse_RequestId : Z; pb_UpsertUserMetadataResponse_Metadata : option pb_UserMetadata }.

Record pb_DeleteUserMetadataResponse : Type := mkpb_DeleteUserMetadataResponse { pb_DeleteUserMetadataResponse_RequestId : Z; pb_DeleteUserMetadataResponse_Metadata : option pb_UserMetadata }.

Record pb_ScanUserMetadataResponse : Type := mkpb_ScanUserMetadataResponse {
  pb_ScanUserMetadataResponse_RequestId : Z;
  pb_ScanUserMetadataResponse_Items : list (option pb_UserMetadata);
  pb_ScanUserMetadataResponse_Count : Z;
  pb_ScanUserMetadataResponse_NextAfter : string;
}.

Record pb_ListUsersResponse : Type := mkpb_ListUsersResponse {
  pb_ListUsersResponse_RequestId : Z;
  pb_ListUsersResponse_Items : list (option pb_User);
  pb_ListUsersResponse_Count : Z;
}.

Record pb_StreamFramePushed : Type := mkpb_StreamFramePushed {
  pb_StreamFramePushed_Sender : option pb_UserRef;
  pb_StreamFramePushed_Recipient : option pb_UserRef;
  pb_StreamFramePushed_SourceSession : option pb_SessionRef;
  pb_StreamFramePushed_StreamId : bytes;
  pb_StreamFramePushed_Kind : Z;
  pb_StreamFramePushed_Epoch : Z;
  pb_StreamFramePushed_Offset : Z;
  pb_StreamFramePushed_Window : Z;
  pb_StreamFramePushed_Payload : bytes;
}.

Record pb_StreamFrameResult : Type := mkpb_StreamFrameResult { pb_StreamFrameResult_RequestId : Z }.

(** The oneof of ServerEnvelope. *)
Inductive pb_ServerEnvelope_Body : Type :=
| pb_ServerEnvelope_LoginResponse (v : pb_LoginResponse)
| pb_ServerEnvelope_MessagePushed (v : pb_MessagePushed)
| pb_ServerEnvelope_SendMessageResponse (v : pb_SendMessageResponse)
| pb_ServerEnvelope_Error (v : pb_Error)
| pb_ServerEnvelope_Pong (v : pb_Pong)
| pb_ServerEnvelope_PacketPushed (v : pb_PacketPushed)
| pb_ServerEnvelope_CreateUserResponse (v : pb_CreateUserResponse)
| pb_ServerEnvelope_GetUserResponse (v : pb_GetUserResponse)
| pb_ServerEnvelope_UpdateUserResponse (v : pb_UpdateUserResponse)
| pb_ServerEnvelope_DeleteUserResponse (v : pb_DeleteUserResponse)
| pb_ServerEnvelope_ListMessagesResponse (v : pb_ListMessagesResponse)
| pb_ServerEnvelope_UpsertUserAttachmentResponse (v : pb_UpsertUserAttachmentResponse)
| pb_ServerEnvelope_DeleteUserAttachmentResponse (v : pb_DeleteUserAttachmentResponse)
| pb_ServerEnvelope_ListUserAttachmentsResponse (v : pb_ListUserAttachmentsResponse)
| pb_ServerEnvelope_ListEventsResponse (v : pb_ListEventsResponse)
| pb_ServerEnvelope_OperationsStatusResponse (v : pb_OperationsStatusResponse)
| pb_ServerEnvelope_MetricsResponse (v : pb_MetricsResponse)
| pb_ServerEnvelope_ListClusterNodesResponse (v : pb_ListClusterNodesResponse)
| pb_ServerEnvelope_ListNodeLoggedInUsersResponse (v : pb_ListNodeLoggedInUsersResponse)
| pb_ServerEnvelope_ResolveUserSessionsResponse (v : pb_ResolveUserSessionsResponse)
| pb_ServerEnvelope_GetUserMetadataResponse (v : pb_GetUserMetadataResponse)
| pb_ServerEnvelope_UpsertUserMetadataResponse (v : pb_UpsertUserMetadataResponse)
| pb_ServerEnvelope_DeleteUserMetadataResponse (v : pb_DeleteUserMetadataResponse)
| pb_ServerEnvelope_ScanUserMetadataResponse (v : pb_ScanUserMetadataResponse)
| pb_ServerEnvelope_ListUsersResponse (v : pb_ListUsersResponse)
| pb_ServerEnvelope_StreamFrame (v : pb_StreamFramePushed)
| pb_ServerEnvelope_StreamFrameResult (v : pb_StreamFrameResult).

Record pb_ServerEnvelope : Type := mkpb_ServerEnvelope {
  pb_ServerEnvelope_body : option pb_ServerEnvelope_Body;
}.

Record pb_RelayEnvelope : Type := mkpb_RelayEnvelope {
  pb_RelayEnvelope_RelayId : string;
  pb_RelayEnvelope_Kind : Z;
  pb_RelayEnvelope_SenderSession : option pb_SessionRef;
  pb_RelayEnvelope_TargetSession : option pb_SessionRef;
  pb_RelayEnvelope_Seq : Z;
  pb_RelayEnvelope_AckSeq : Z;
  pb_RelayEnvelope_Payload : bytes;
  pb_RelayEnvelope_SentAtMs : Z;
}.

