(* ===== verification/StreamProtocol.v ===== *)
(** * The stream frame codec and the two ends' states (stream_protocol.go)

    [StreamFrame] and its binary codec, [StreamSenderState] (the retransmission
    window of one direction) and [StreamReceiverState] (the cumulative offset of
    the other end). A method of a state is a function from the state to its
    result and the state it leaves. *)

From Stdlib Require Import Strings.Byte.
From stdpp Require Import base list strings.
From S2P Require Import Prelude Errors.

(** ** Data *)

Definition streamHeaderSize : Z := 49.
Definition DefaultStreamWindow : Z := Z.shiftl 2 20.
Definition DefaultStreamMaxFrame : Z := Z.shiftl 128 10.

(** [[4]byte{'T', 'T', 'S', 1}] *)
Definition streamMagic : bytes := [x54; x54; x53; x01].

(** [type StreamID [16]byte]: the array length is [wf_StreamID]. *)
Abbreviation StreamID := bytes (only parsing).
Definition wf_StreamID (id : StreamID) : Prop := length id = 16%nat.

(** [type StreamFrameKind uint8], and its [iota + 1] constants. *)
Abbreviation StreamFrameKind := Z (only parsing).
Definition StreamFrameOpen : StreamFrameKind := 1.
Definition StreamFrameOpenAck : StreamFrameKind := 2.
Definition StreamFrameResume : StreamFrameKind := 3.
Definition StreamFrameData : StreamFrameKind := 4.
Definition StreamFrameAck : StreamFrameKind := 5.
Definition StreamFrameClose : StreamFrameKind := 6.

Record StreamFrame : Type := mkStreamFrame {
  sf_Kind : StreamFrameKind;
  sf_ID : StreamID;
  sf_Epoch : Z;
  sf_Offset : Z;
  sf_Window : Z;
  sf_Payload : bytes;
}.

#[export] Instance StreamFrame_eq_decision : EqDecision StreamFrame.
Proof. solve_decision. Defined.

(** What the field types of the Go struct say: a [uint8], an array, three [uint64]. *)
Definition wf_StreamFrame (f : StreamFrame) : Prop :=
  0 <= sf_Kind f < 256 /\ wf_StreamID (sf_ID f) /\
  is_u64 (sf_Epoch f) /\ is_u64 (sf_Offset f) /\ is_u64 (sf_Window f).

(** The buffer [MarshalBinary] fills, field by field. *)
Definition frame_bytes (f : StreamFrame) : bytes :=
  streamMagic ++ [Z_byte (sf_Kind f)] ++ sf_ID f
    ++ be_encode 8 (sf_Epoch f) ++ be_encode 8 (sf_Offset f) ++ be_encode 8 (sf_Window f)
    ++ be_encode 4 (len (sf_Payload f)) ++ sf_Payload f.
Arguments frame_bytes : simpl never.

(** [(f StreamFrame) MarshalBinary() ([]byte, error)] *)
Definition MarshalBinary (f : StreamFrame) : result error bytes :=
  if (sf_Kind f <? StreamFrameOpen) || (StreamFrameClose <? sf_Kind f)
  then Err (Errorf "invalid stream frame kind %d" [FInt (sf_Kind f)])
  else if DefaultStreamMaxFrame <? len (sf_Payload f)
  then Err (Errorf "stream payload exceeds %d bytes" [FInt DefaultStreamMaxFrame])
  else Ok (frame_bytes f).

Definition IsStreamFrame (data : bytes) : bool :=
  (len streamMagic <=? len data) && bool_decide (slice 0 4 data = streamMagic).

Definition UnmarshalStreamFrame (data : bytes) : result error StreamFrame :=
  if (len data <? streamHeaderSize) || negb (IsStreamFrame data)
  then Err (errors_New "invalid stream frame header")
  else
    let kind := be_decode (slice 4 5 data) in
    if (kind <? StreamFrameOpen) || (StreamFrameClose <? kind)
    then Err (Errorf "invalid stream frame kind %d" [FInt kind])
    else
      let payloadLen := be_decode (slice 45 49 data) in
      if (DefaultStreamMaxFrame <? payloadLen) || negb (len data =? streamHeaderSize + payloadLen)
      then Err (errors_New "invalid stream payload length")
      else Ok (mkStreamFrame kind (slice 5 21 data)
                 (be_decode (slice 21 29 data)) (be_decode (slice 29 37 data))
                 (be_decode (slice 37 45 data)) (drop 49 data)).

(** ** The sender's state *)

Record StreamSenderState : Type := mkSender {
  ss_id : StreamID;
  ss_epoch : Z;
  ss_next : Z;
  ss_acked : Z;
  ss_window : Z;
  ss_pending : list StreamFrame;
}.

Definition NewStreamSenderState (id : StreamID) (epoch window : Z) : StreamSenderState :=
  let window := if window =? 0 then DefaultStreamWindow else window in
  mkSender id epoch 0 0 window [].

(** [(s *StreamSenderState) Data(payload []byte) (StreamFrame, error)] *)
Definition Data (s : StreamSenderState) (payload : bytes)
    : result error StreamFrame * StreamSenderState :=
  if (len payload =? 0) || (DefaultStreamMaxFrame <? len payload)
  then (Err (errors_New "invalid stream data payload"), s)
  else if ss_window s <? (ss_next s -u ss_acked s) +u len payload
  then (Err (Sentinel ErrStreamWindowFull), s)
  else
    let frame := mkStreamFrame StreamFrameData (ss_id s) (ss_epoch s) (ss_next s) 0 payload in
    (Ok frame,
     mkSender (ss_id s) (ss_epoch s) (ss_next s +u len payload) (ss_acked s) (ss_window s)
       (ss_pending s ++ [frame])).

(** The end offset of a frame, as the code computes it. *)
Definition frame_end (f : StreamFrame) : Z := sf_Offset f +u len (sf_Payload f).

(** [(s *StreamSenderState) Acknowledge(epoch, offset, window uint64) error] *)
Definition Acknowledge (s : StreamSenderState) (epoch offset window : Z)
    : option error * StreamSenderState :=
  if negb (epoch =? ss_epoch s) then (Some (Sentinel ErrStreamEpoch), s)
  else if (offset <? ss_acked s) || (ss_next s <? offset)
  then (Some (errors_New "invalid cumulative stream acknowledgement"), s)
  else
    (None,
     mkSender (ss_id s) epoch (ss_next s) offset
       (if 0 <? window then window else ss_window s)
       (filter (fun frame => offset < frame_end frame) (ss_pending s))).

(** The loop body of [Resume]: the frame that carries what [ack] leaves of [old]. *)
Definition resume_frame (id : StreamID) (epoch ack : Z) (old : StreamFrame) : option StreamFrame :=
  if frame_end old <=? ack then None
  else
    let start := if ack <? sf_Offset old then sf_Offset old else ack in
    Some (mkStreamFrame StreamFrameData id epoch start 0
            (drop (Z.to_nat (start -u sf_Offset old)) (sf_Payload old))).

(** [(s *StreamSenderState) Resume(epoch, acknowledgedOffset uint64) ([]StreamFrame, error)] *)
Definition SenderResume (s : StreamSenderState) (epoch acknowledgedOffset : Z)
    : result error (list StreamFrame) * StreamSenderState :=
  if (epoch <=? ss_epoch s) || (acknowledgedOffset <? ss_acked s) || (ss_next s <? acknowledgedOffset)
  then (Err (errors_New "invalid stream resume state"), s)
  else
    let frames := omap (resume_frame (ss_id s) epoch acknowledgedOffset) (ss_pending s) in
    (Ok frames,
     mkSender (ss_id s) epoch (ss_next s) acknowledgedOffset (ss_window s) frames).

(** ** The receiver's state *)

Record StreamReceiverState : Type := mkReceiver {
  sr_id : StreamID;
  sr_epoch : Z;
  sr_offset : Z;
  sr_window : Z;
}.

Definition NewStreamReceiverState (id : StreamID) (epoch window : Z) : StreamReceiverState :=
  let window := if window =? 0 then DefaultStreamWindow else window in
  mkReceiver id epoch 0 window.

Definition receiver_ack (r : StreamReceiverState) : StreamFrame :=
  mkStreamFrame StreamFrameAck (sr_id r) (sr_epoch r) (sr_offset r) (sr_window r) [].

(** [(r *StreamReceiverState) Resume(epoch, offset uint64) (StreamFrame, error)] *)
Definition ReceiverResume (r : StreamReceiverState) (epoch offset : Z)
    : result error StreamFrame * StreamReceiverState :=
  if (epoch <=? sr_epoch r) || (sr_offset r <? offset)
  then (Err (errors_New "invalid stream receiver resume state"), r)
  else
    let r' := mkReceiver (sr_id r) epoch (sr_offset r) (sr_window r) in
    (Ok (receiver_ack r'), r').

(** [(r *StreamReceiverState) Accept(frame StreamFrame) ([]byte, StreamFrame, error)] *)
Definition Accept (r : StreamReceiverState) (frame : StreamFrame)
    : result error (bytes * StreamFrame) * StreamReceiverState :=
  if negb (bool_decide (sf_ID frame = sr_id r)) || negb (sf_Kind frame =? StreamFrameData)
  then (Err (errors_New "stream frame does not belong to receiver"), r)
  else if negb (sf_Epoch frame =? sr_epoch r) then (Err (Sentinel ErrStreamEpoch), r)
  else if sr_offset r <? sf_Offset frame then (Err (Sentinel ErrStreamGap), r)
  else if (sr_offset r +u sr_window r) <? frame_end frame then (Err (Sentinel ErrStreamCredit), r)
  else
    let start := sr_offset r -u sf_Offset frame in
    let start := if len (sf_Payload frame) <? start then len (sf_Payload frame) else start in
    let payload := drop (Z.to_nat start) (sf_Payload frame) in
    let r' := mkReceiver (sr_id r) (sr_epoch r) (sr_offset r +u len payload) (sr_window r) in
    (Ok (payload, receiver_ack r'), r').

(** [snapshot] of either state (stream_conn.go). *)
Definition sender_snapshot (s : StreamSenderState) : Z * Z * Z * Z :=
  (ss_epoch s, ss_next s, ss_acked s, ss_window s).
Definition receiver_snapshot (r : StreamReceiverState) : Z * Z * Z :=
  (sr_epoch r, sr_offset r, sr_window r).

(** ** The codec *)

(** Where each header field sits in an encoded frame. *)
Lemma header_slices (m k id e o w n p : bytes) :
  length m = 4%nat -> length k = 1%nat -> length id = 16%nat -> length e = 8%nat ->
  length o = 8%nat -> length w = 8%nat -> length n = 4%nat ->
  let data := m ++ k ++ id ++ e ++ o ++ w ++ n ++ p in
  slice 0 4 data = m /\ slice 4 5 data = k /\ slice 5 21 data = id /\ slice 21 29 data = e /\
  slice 29 37 data = o /\ slice 37 45 data = w /\ slice 45 49 data = n /\ drop 49 data = p.
Proof.
  intros Hm Hk Hi He Ho Hw Hn data. unfold data.
  repeat split;
    repeat (rewrite slice_app_r by lia; rewrite ?Hm, ?Hk, ?Hi, ?He, ?Ho, ?Hw, ?Hn; simpl Nat.sub);
    try (apply slice_app_l; done).
  repeat (rewrite drop_app_ge by lia; rewrite ?Hm, ?Hk, ?Hi, ?He, ?Ho, ?Hw, ?Hn; simpl Nat.sub).
  apply drop_0.
Qed.

Lemma len_frame_bytes f :
  wf_StreamID (sf_ID f) -> len (frame_bytes f) = streamHeaderSize + len (sf_Payload f).
Proof.
  intros Hid. unfold frame_bytes, len. rewrite !length_app, !length_be_encode, Hid.
  unfold streamHeaderSize. simpl length. lia.
Qed.

Lemma IsStreamFrame_frame_bytes f : wf_StreamID (sf_ID f) -> IsStreamFrame (frame_bytes f) = true.
Proof.
  intros Hid. unfold IsStreamFrame. apply andb_true_intro. split.
  - apply Z.leb_le. rewrite len_frame_bytes by done. unfold streamHeaderSize.
    change (len streamMagic) with 4. pose proof (len_nonneg (sf_Payload f)). lia.
  - apply bool_decide_eq_true_2. unfold frame_bytes. by apply slice_app_l.
Qed.

Lemma MarshalBinary_decodes f b :
  MarshalBinary f = Ok b -> wf_StreamFrame f -> UnmarshalStreamFrame b = Ok f.
Proof.
  intros Hm (Hk & Hid & He & Ho & Hw). unfold MarshalBinary in Hm. guards_in Hm.
  unfold UnmarshalStreamFrame. rewrite len_frame_bytes, IsStreamFrame_frame_bytes by done.
  edestruct (header_slices streamMagic [Z_byte (sf_Kind f)] (sf_ID f) (be_encode 8 (sf_Epoch f))
    (be_encode 8 (sf_Offset f)) (be_encode 8 (sf_Window f)) (be_encode 4 (len (sf_Payload f)))
    (sf_Payload f)) as (_ & S2 & S3 & S4 & S5 & S6 & S7 & S8);
    try apply length_be_encode; try done.
  fold (frame_bytes f) in *. rewrite S2, S3, S4, S5, S6, S7, S8.
  rewrite !be_decode_encode.
  change (be_decode [Z_byte (sf_Kind f)]) with (byte_Z (Z_byte (sf_Kind f))).
  rewrite byte_Z_byte. pose proof (len_nonneg (sf_Payload f)).
  change DefaultStreamMaxFrame with 131072 in *. unfold is_u64, two64 in *.
  rewrite !Z.mod_small by (simpl; lia).
  unfold streamHeaderSize, StreamFrameOpen, StreamFrameClose in *.
  rewrite (proj2 (Z.ltb_ge (49 + _) 49)), (proj2 (Z.ltb_ge (sf_Kind f) 1)),
    (proj2 (Z.ltb_ge 6 _)), (proj2 (Z.ltb_ge 131072 _)), Z.eqb_refl by lia.
  by destruct f.
Qed.

(** The slices [UnmarshalStreamFrame] reads partition the input. *)
Lemma slices_partition (data : bytes) :
  (49 <= length data)%nat ->
  slice 0 4 data ++ slice 4 5 data ++ slice 5 21 data ++ slice 21 29 data ++ slice 29 37 data
    ++ slice 37 45 data ++ slice 45 49 data ++ drop 49 data = data.
Proof. intros. by rewrite !slice_drop, drop_0 by lia. Qed.

Lemma frame_bytes_decoded (data : bytes) :
  (49 <= length data)%nat -> slice 0 4 data = streamMagic ->
  len (drop 49 data) = be_decode (slice 45 49 data) ->
  frame_bytes (mkStreamFrame (be_decode (slice 4 5 data)) (slice 5 21 data)
    (be_decode (slice 21 29 data)) (be_decode (slice 29 37 data))
    (be_decode (slice 37 45 data)) (drop 49 data)) = data.
Proof.
  intros Hlen Hm Hp. unfold frame_bytes.
  cbn [sf_Kind sf_ID sf_Epoch sf_Offset sf_Window sf_Payload].
  change [Z_byte (be_decode (slice 4 5 data))] with (be_encode 1 (be_decode (slice 4 5 data))).
  rewrite Hp, <- Hm.
  rewrite (be_encode_decode_slice 1 4 5), (be_encode_decode_slice 8 21 29),
    (be_encode_decode_slice 8 29 37), (be_encode_decode_slice 8 37 45),
    (be_encode_decode_slice 4 45 49) by (done || lia).
  by apply slices_partition.
Qed.

Lemma UnmarshalStreamFrame_encodes data f :
  UnmarshalStreamFrame data = Ok f -> MarshalBinary f = Ok data /\ wf_StreamFrame f.
Proof.
  unfold UnmarshalStreamFrame. intros Hu.
  destruct ((len data <? streamHeaderSize) || negb (IsStreamFrame data)) eqn:E1; [done|].
  destruct (_ || _) eqn:E2 in Hu; [done|].
  destruct (_ || _) eqn:E3 in Hu; [done|]. injection Hu as <-.
  unfold MarshalBinary. cbn [sf_Kind sf_Payload]. rewrite E2.
  unfold IsStreamFrame, streamHeaderSize, StreamFrameOpen, StreamFrameClose in *. bool_facts.
  assert (Hlen : (49 <= length data)%nat) by (unfold len in *; lia).
  assert (Hpay : len (drop 49 data) = be_decode (slice 45 49 data)).
  { rewrite len_drop. unfold len in *. lia. }
  rewrite Hpay, (proj2 (Z.ltb_ge _ _)), frame_bytes_decoded by done.
  split; [done|]. unfold wf_StreamFrame, wf_StreamID, is_u64, two64.
  cbn [sf_Kind sf_ID sf_Epoch sf_Offset sf_Window].
  rewrite length_slice by lia.
  split_and!; try lia; try done;
    match goal with |- context [be_decode (slice ?i ?j _)] =>
      pose proof (be_decode_slice_range 8 i j data ltac:(lia) ltac:(lia) ltac:(lia)) end;
    simpl in *; lia.
Qed.

(** C36: the stream codec is a bijection between the well-formed frames that
    [MarshalBinary] accepts and the byte strings that [UnmarshalStreamFrame]
    accepts: decoding what was encoded gives the frame back, and the bytes of a
    decoded frame are the only encoding of it. *)
Theorem stream_codec_bijection f data :
  (wf_StreamFrame f /\ MarshalBinary f = Ok data) <-> UnmarshalStreamFrame data = Ok f.
Proof.
  split.
  - intros [Hwf Hm]. by apply MarshalBinary_decodes.
  - intros Hu. by apply UnmarshalStreamFrame_encodes in Hu as [].
Qed.
