(* ===== verification/StreamLink.v ===== *)
(** * Two stream ends over an unreliable network

    [StreamSenderState] and [StreamReceiverState] joined by a network that may
    lose, duplicate and reorder frames. [sent] and [got] are the byte strings
    that [Data] took and that [Accept] handed out; they are history variables,
    the code keeps neither. *)

From stdpp Require Import base list strings.
From S2P Require Import Prelude Errors StreamProtocol.

(** ** What the retransmission window stands for *)

(** [frames] are data frames of the sender, back to back from offset [from]. *)
Fixpoint chain (id : StreamID) (epoch from : Z) (frames : list StreamFrame) : Prop :=
  match frames with
  | [] => True
  | f :: rest =>
      sf_Kind f = StreamFrameData /\ sf_ID f = id /\ sf_Epoch f = epoch /\ sf_Offset f = from /\
      0 < len (sf_Payload f) /\ chain id epoch (from + len (sf_Payload f)) rest
  end.

Definition payloads (frames : list StreamFrame) : bytes := concat (sf_Payload <$> frames).

(** The suffix of [log] from offset [from]. *)
Definition from_offset (from : Z) (log : bytes) : bytes := drop (Z.to_nat from) log.

Record sender_inv (s : StreamSenderState) (log : bytes) : Prop := {
  si_next : ss_next s = len log;
  si_bound : len log < two64;
  si_acked : 0 <= ss_acked s <= ss_next s;
  si_epoch : is_u64 (ss_epoch s);
  si_pending : exists from,
      0 <= from <= ss_acked s /\
      chain (ss_id s) (ss_epoch s) from (ss_pending s) /\
      payloads (ss_pending s) = from_offset from log /\
      Forall (fun f => ss_acked s < frame_end f) (ss_pending s);
}.

(** A data frame that carries bytes of [log] at their own offset. *)
Definition genuine (log : bytes) (f : StreamFrame) : Prop :=
  0 <= sf_Offset f /\ 0 < len (sf_Payload f) /\ sf_Payload f `prefix_of` from_offset (sf_Offset f) log.

(** ** The system *)

Record link : Type := mkLink {
  lk_snd : StreamSenderState;
  lk_rcv : StreamReceiverState;
  lk_sent : bytes;
  lk_got : bytes;
  lk_net : list StreamFrame;
}.

Definition link_init (id : StreamID) (epoch window : Z) : link :=
  mkLink (NewStreamSenderState id epoch window) (NewStreamReceiverState id epoch window) [] [] [].

(** An acknowledgement leaves the receiving side with the credit [StreamConn]
    computes for it, which is any [uint64] here. *)
Definition with_window (w : Z) (f : StreamFrame) : StreamFrame :=
  mkStreamFrame (sf_Kind f) (sf_ID f) (sf_Epoch f) (sf_Offset f) w (sf_Payload f).

Inductive link_step : link -> link -> Prop :=
| ls_data s r sent got net payload frame s' :
    Data s payload = (Ok frame, s') ->
    len sent + len payload < two64 ->
    link_step (mkLink s r sent got net) (mkLink s' r (sent ++ payload) got (net ++ [frame]))
| ls_accept s r sent got net f payload ack r' w :
    f ∈ net -> Accept r f = (Ok (payload, ack), r') ->
    link_step (mkLink s r sent got net)
      (mkLink s r' sent (got ++ payload) (net ++ [with_window w ack]))
| ls_ack s r sent got net f s' :
    f ∈ net -> sf_Kind f = StreamFrameAck ->
    Acknowledge s (sf_Epoch f) (sf_Offset f) (sf_Window f) = (None, s') ->
    link_step (mkLink s r sent got net) (mkLink s' r sent got net)
| ls_open s r sent got net epoch w s' :   (* an OPEN acknowledgement counts as one of offset 0 *)
    Acknowledge s epoch 0 w = (None, s') ->
    link_step (mkLink s r sent got net) (mkLink s' r sent got net)
| ls_credit s r sent got net w :           (* a reader made room and announces it *)
    link_step (mkLink s r sent got net) (mkLink s r sent got (net ++ [with_window w (receiver_ack r)]))
| ls_resume s r sent got net frames s' :
    SenderResume s (ss_epoch s +u 1) (ss_acked s) = (Ok frames, s') ->
    link_step (mkLink s r sent got net)
      (mkLink s' r sent got
         (net ++ mkStreamFrame StreamFrameResume (ss_id s) (ss_epoch s +u 1) (ss_acked s) 0 []
              :: frames))
| ls_resumed s r sent got net f ack r' w :
    f ∈ net -> sf_Kind f = StreamFrameResume ->
    ReceiverResume r (sf_Epoch f) (sf_Offset f) = (Ok ack, r') ->
    link_step (mkLink s r sent got net) (mkLink s r' sent got (net ++ [with_window w ack])).

Inductive link_reachable (l0 : link) : link -> Prop :=
| lr_init : link_reachable l0 l0
| lr_step l l' : link_reachable l0 l -> link_step l l' -> link_reachable l0 l'.

Record link_inv (l : link) : Prop := {
  li_id : sr_id (lk_rcv l) = ss_id (lk_snd l);
  li_epoch : sr_epoch (lk_rcv l) <= ss_epoch (lk_snd l);
  li_sender : sender_inv (lk_snd l) (lk_sent l);
  li_offset : sr_offset (lk_rcv l) = len (lk_got l);
  li_prefix : lk_got l `prefix_of` lk_sent l;
  li_acked : ss_acked (lk_snd l) <= len (lk_got l);
  li_data : Forall (fun f => sf_Kind f = StreamFrameData -> genuine (lk_sent l) f) (lk_net l);
  li_ack : Forall (fun f => sf_Kind f = StreamFrameAck -> sf_Offset f <= len (lk_got l)) (lk_net l);
  li_resume : Forall (fun f => sf_Kind f = StreamFrameResume -> sf_Epoch f <= ss_epoch (lk_snd l))
                (lk_net l);
}.

(** The receiver takes the frames one after the other, as its read loop does. *)
Fixpoint accept_all (r : StreamReceiverState) (frames : list StreamFrame)
    : result error bytes * StreamReceiverState :=
  match frames with
  | [] => (Ok [], r)
  | f :: rest =>
      match Accept r f with
      | (Ok (payload, _), r') =>
          match accept_all r' rest with
          | (Ok more, r'') => (Ok (payload ++ more), r'')
          | (e, r'') => (e, r'')
          end
      | (Err e, r') => (Err e, r')
      | (Panic, r') => (Panic, r')
      end
  end.

(** ** Offsets into the log *)

Lemma from_offset_app a (log k : bytes) :
  0 <= a <= len log -> from_offset a (log ++ k) = from_offset a log ++ k.
Proof. intros. unfold from_offset, len in *. apply drop_app_le. lia. Qed.

Lemma from_offset_all (log : bytes) : from_offset (len log) log = [].
Proof. unfold from_offset, len. apply drop_ge. lia. Qed.

Lemma from_offset_add a b (log : bytes) :
  0 <= a -> 0 <= b -> from_offset (a + b) log = drop (Z.to_nat b) (from_offset a log).
Proof. intros. unfold from_offset. rewrite drop_drop. f_equal. lia. Qed.

Lemma len_from_offset a (log : bytes) :
  0 <= a <= len log -> len (from_offset a log) = len log - a.
Proof. intros. unfold from_offset. rewrite len_drop. lia. Qed.

Lemma from_offset_cons a (p rest log : bytes) :
  0 <= a <= len log -> p ++ rest = from_offset a log ->
  rest = from_offset (a + len p) log /\ a + len p <= len log.
Proof.
  intros Ha Heq. pose proof (len_nonneg p). pose proof (len_nonneg rest).
  assert (len p + len rest = len log - a).
  { rewrite <- len_app, Heq. by apply len_from_offset. }
  split; [|lia]. rewrite from_offset_add, <- Heq by lia.
  unfold len. by rewrite Nat2Z.id, drop_app_length.
Qed.

Lemma prefix_from_offset_len a (p log : bytes) :
  0 <= a -> 0 < len p -> p `prefix_of` from_offset a log -> a + len p <= len log.
Proof.
  intros Ha Hp [k Hk]. destruct (Z_le_gt_dec a (len log)).
  - symmetry in Hk. apply from_offset_cons in Hk as [_ ?]; lia.
  - unfold from_offset, len in *. rewrite drop_ge in Hk by lia.
    by destruct p; simpl in *.
Qed.

#[export] Hint Resolve from_offset_app from_offset_all len_from_offset : go.

(** ** Chains of frames *)

Lemma payloads_cons f fs : payloads (f :: fs) = sf_Payload f ++ payloads fs.
Proof. done. Qed.

Lemma payloads_app fs gs : payloads (fs ++ gs) = payloads fs ++ payloads gs.
Proof. unfold payloads. by rewrite fmap_app, concat_app. Qed.

Lemma chain_app id epoch from fs gs :
  chain id epoch from (fs ++ gs) <->
  chain id epoch from fs /\ chain id epoch (from + len (payloads fs)) gs.
Proof.
  revert from. induction fs as [|f fs IH]; intros from.
  - rewrite Z.add_0_r. simpl. tauto.
  - simpl app. simpl chain. rewrite IH, payloads_cons, len_app, Z.add_assoc. tauto.
Qed.

(** The end of a frame that lies inside a log shorter than [2^64] does not wrap. *)
Lemma frame_end_bounded f from (log : bytes) :
  sf_Offset f = from -> 0 <= from -> from + len (sf_Payload f) <= len log -> len log < two64 ->
  frame_end f = from + len (sf_Payload f).
Proof.
  intros <- ? ? ?. unfold frame_end. apply u64_add_small; len_lia.
Qed.

Lemma chain_genuine id epoch log fs from :
  0 <= from <= len log -> chain id epoch from fs -> payloads fs = from_offset from log ->
  Forall (genuine log) fs.
Proof.
  revert from. induction fs as [|f fs IH]; intros from Hfrom Hc Hp; [constructor|].
  rewrite payloads_cons in Hp. destruct Hc as (_ & _ & _ & <- & Hl & Hc).
  destruct (from_offset_cons _ _ _ _ Hfrom Hp) as [Hr Hle].
  constructor.
  - split_and!; [lia|done|]. rewrite <- Hp. by apply prefix_app_r.
  - eapply IH; [|done|done]. lia.
Qed.

(** Acknowledging up to [off] drops the frames that end there and keeps the rest. *)
Lemma chain_acknowledge id epoch log off fs from :
  len log < two64 -> 0 <= from <= len log ->
  chain id epoch from fs -> payloads fs = from_offset from log ->
  let kept := filter (fun f => off < frame_end f) fs in
  exists from', from <= from' <= Z.max from off /\ chain id epoch from' kept /\
    payloads kept = from_offset from' log.
Proof.
  intros Hb. revert from. induction fs as [|f fs IH]; intros from Hfrom Hc Hp kept.
  { exists from. unfold kept. rewrite filter_nil. split_and!; done || lia. }
  rewrite payloads_cons in Hp. destruct Hc as (Hk & Hid & He & Hof & Hl & Hc).
  destruct (from_offset_cons _ _ _ _ Hfrom Hp) as [Hr Hle].
  assert (Hend : frame_end f = from + len (sf_Payload f)) by (eapply frame_end_bounded; eauto; lia).
  destruct (IH (from + len (sf_Payload f)) ltac:(lia) Hc Hr) as (from1 & Hf1 & Hc1 & Hp1).
  unfold kept. rewrite filter_cons. case_decide as Hd.
  - assert (from1 = from + len (sf_Payload f)) as -> by lia.
    exists from. split; [lia|]. split; [by simpl|]. by rewrite payloads_cons, Hp1, <- Hp, Hr.
  - exists from1. split; [lia|]. done.
Qed.

(** Resuming from [ack] keeps exactly the bytes from [ack] on. *)
Lemma chain_resume id epoch epoch' log ack fs from :
  len log < two64 -> 0 <= ack <= len log -> 0 <= from <= len log ->
  chain id epoch from fs -> payloads fs = from_offset from log ->
  let kept := omap (resume_frame id epoch' ack) fs in
  chain id epoch' (Z.max from ack) kept /\ payloads kept = from_offset (Z.max from ack) log /\
  Forall (fun f => ack < frame_end f) kept.
Proof.
  intros Hb Hack. revert from. induction fs as [|f fs IH]; intros from Hfrom Hc Hp kept.
  { unfold payloads in Hp. simpl in *. symmetry in Hp.
    apply (f_equal len) in Hp. rewrite len_from_offset in Hp by lia. change (len []) with 0 in Hp.
    split; [done|]. split; [|constructor]. replace (Z.max from ack) with (len log) by lia.
    by rewrite from_offset_all. }
  rewrite payloads_cons in Hp. destruct Hc as (Hk & Hid & He & Hof & Hl & Hc).
  destruct (from_offset_cons _ _ _ _ Hfrom Hp) as [Hr Hle].
  assert (Hend : frame_end f = from + len (sf_Payload f)) by (eapply frame_end_bounded; eauto; lia).
  destruct (IH (from + len (sf_Payload f)) ltac:(lia) Hc Hr) as (Hc1 & Hp1 & Hf1).
  assert (Hkept : kept = match resume_frame id epoch' ack f with
    | Some g => g :: omap (resume_frame id epoch' ack) fs
    | None => omap (resume_frame id epoch' ack) fs end) by done.
  rewrite Hkept. clear kept Hkept.
  destruct (resume_frame id epoch' ack f) as [g|] eqn:Eg; unfold resume_frame in Eg;
    rewrite Hend, Hof in Eg; destruct (from + len (sf_Payload f) <=? ack) eqn:Ele; try done; bool_facts.
  2:{ rewrite (Z.max_r (from + _)) in * by lia. by rewrite Z.max_r by lia. }
  rewrite Z.max_l in Hc1, Hp1 by lia. injection Eg as <-.
  set (start := if ack <? from then from else ack).
  assert (Hs : start = Z.max from ack) by (unfold start; case_match; bool_facts; lia).
  rewrite Hs, u64_sub_small by lia. set (p := drop _ _).
  assert (Hlp : len p = from + len (sf_Payload f) - Z.max from ack).
  { unfold p. rewrite len_drop. lia. }
  split_and!.
  - simpl chain. rewrite Hlp. split_and!; try done; try lia.
    by replace (_ + _) with (from + len (sf_Payload f)) by lia.
  - rewrite payloads_cons, Hp1. cbn [sf_Payload].
    assert (from_offset (Z.max from ack) log = p ++ payloads fs) as ->; [|by rewrite Hr].
    replace (Z.max from ack) with (from + (Z.max from ack - from)) by lia.
    rewrite from_offset_add, <- Hp by lia. by rewrite drop_app_le by (unfold len in *; lia).
  - constructor; [|done]. unfold frame_end. cbn [sf_Offset sf_Payload].
    rewrite u64_add_small; len_lia.
Qed.

(** ** The sender's invariant *)

Lemma NewStreamSenderState_inv id epoch window :
  is_u64 epoch -> sender_inv (NewStreamSenderState id epoch window) [].
Proof.
  intros. split; simpl; try done; try lia. exists 0. split; [lia|]. split_and!; try done.
Qed.

Lemma Data_inv s payload frame s' log :
  sender_inv s log -> Data s payload = (Ok frame, s') -> len log + len payload < two64 ->
  sender_inv s' (log ++ payload) /\ genuine (log ++ payload) frame /\ ss_acked s' = ss_acked s /\
  sf_Kind frame = StreamFrameData /\ sf_Payload frame = payload /\ 0 < len payload.
Proof.
  intros [Hn Hb Ha He (from & Hf & Hc & Hp & Hall)] Hd Hlt. unfold Data in Hd. guards_in Hd.
  pose proof (len_nonneg payload) as Hl0. rewrite Hn in *.
  assert (Hfl : from + len (payloads (ss_pending s)) = len log).
  { rewrite Hp, len_from_offset; lia. }
  rewrite u64_add_small by len_lia.
  split_and!; try done; try lia.
  - split; cbn [ss_next ss_acked ss_epoch ss_pending ss_id]; try done; try len_lia.
    exists from. split; [lia|]. split_and!.
    + apply chain_app. split; [done|]. simpl. rewrite Hfl. split_and!; try done; lia.
    + rewrite payloads_app, Hp. unfold payloads. simpl. rewrite app_nil_r.
      symmetry. apply from_offset_app. lia.
    + apply Forall_app. split; [done|]. constructor; [|constructor].
      unfold frame_end. cbn [sf_Offset sf_Payload]. rewrite u64_add_small; len_lia.
  - split; cbn [sf_Offset sf_Payload]; [lia|]. split; [lia|].
    rewrite from_offset_app by lia. by rewrite from_offset_all.
Qed.

Lemma Acknowledge_inv s epoch offset window s' log :
  sender_inv s log -> Acknowledge s epoch offset window = (None, s') ->
  sender_inv s' log /\ ss_acked s' = offset /\ ss_acked s <= offset <= len log.
Proof.
  intros [Hn Hb Ha He (from & Hf & Hc & Hp & Hall)] Hk. unfold Acknowledge in Hk.
  destruct (negb _) eqn:E1 in Hk; [done|]. destruct (_ || _) eqn:E2 in Hk; [done|].
  injection Hk as <-. bool_facts. subst epoch.
  rewrite Hn in *.
  destruct (chain_acknowledge (ss_id s) (ss_epoch s) log offset (ss_pending s) from)
    as (from' & Hf' & Hc' & Hp'); try done; try lia.
  split; [|simpl; lia]. split; cbn [ss_next ss_acked ss_epoch ss_pending ss_id]; try done; try lia.
  exists from'. split_and!; try done; try lia.
  apply Forall_forall. intros f Hin. by apply list_elem_of_filter in Hin as [].
Qed.

Lemma SenderResume_inv s epoch offset frames s' log :
  sender_inv s log -> is_u64 epoch -> SenderResume s epoch offset = (Ok frames, s') ->
  sender_inv s' log /\ ss_acked s' = offset /\ ss_acked s <= offset <= len log /\
  ss_id s' = ss_id s /\ ss_epoch s' = epoch /\
  chain (ss_id s) epoch offset frames /\ payloads frames = from_offset offset log.
Proof.
  intros [Hn Hb Ha He (from & Hf & Hc & Hp & Hall)] Hu Hr. unfold SenderResume in Hr. guards_in Hr.
  rewrite Hn in *.
  destruct (chain_resume (ss_id s) (ss_epoch s) epoch log offset (ss_pending s) from)
    as (Hc' & Hp' & Hall'); try done; try lia.
  rewrite Z.max_r in Hc', Hp' by lia.
  split_and!; try done; try lia.
  split; cbn [ss_next ss_acked ss_epoch ss_pending ss_id]; try done; try lia.
  exists offset. split; [lia|]. done.
Qed.

(** ** The receiver *)

Lemma genuine_app log k f : genuine log f -> genuine (log ++ k) f.
Proof.
  intros (Ho & Hl & Hp). split_and!; [done..|].
  pose proof (prefix_from_offset_len _ _ _ Ho Hl Hp).
  rewrite from_offset_app by lia. by apply prefix_app_r.
Qed.

(** What [Accept] hands out extends a prefix of the log to a longer prefix. *)
Lemma Accept_prefix r f payload ack r' log got :
  Accept r f = (Ok (payload, ack), r') -> genuine log f -> len log < two64 ->
  got `prefix_of` log -> sr_offset r = len got ->
  (got ++ payload) `prefix_of` log /\ sr_offset r' = len (got ++ payload) /\
  sf_Kind f = StreamFrameData /\ ack = receiver_ack r' /\ sr_id r' = sr_id r /\
  sr_epoch r' = sr_epoch r /\ sr_window r' = sr_window r /\
  sf_Offset f + len (sf_Payload f) <= len (got ++ payload).
Proof.
  intros Ha (Ho & _ & Hpre) Hb Hgot Hoff. unfold Accept in Ha.
  destruct (_ || _) eqn:E1 in Ha; [done|]. destruct (negb _) eqn:E2 in Ha; [done|].
  destruct (_ <? _) eqn:E3 in Ha; [done|]. destruct (_ <? frame_end f) eqn:E4 in Ha; [done|].
  remember (drop _ _) as pl eqn:Hpay in Ha. symmetry in Hpay.
  injection Ha as <- <- <-. bool_facts. cbn [sr_offset sr_id sr_epoch sr_window]. rewrite Hoff in *.
  pose proof (prefix_length _ _ Hgot) as Hgl. pose proof (len_nonneg (sf_Payload f)).
  rewrite u64_sub_small in Hpay by (unfold len in *; lia).
  assert (Hext : (got ++ pl) `prefix_of` log /\
    sf_Offset f + len (sf_Payload f) <= len (got ++ pl)).
  { rewrite len_app. destruct (len (sf_Payload f) <? len got - sf_Offset f) eqn:E5; bool_facts.
    - rewrite drop_ge in Hpay by (unfold len; lia). subst pl.
      rewrite app_nil_r. split; [done|]. len_lia.
    - destruct Hgot as [rest ->]. destruct Hpre as [k Hk].
      assert (Hd : from_offset (len got) (got ++ rest) = rest).
      { unfold from_offset, len. by rewrite Nat2Z.id, drop_app_length. }
      assert (rest = pl ++ k) as ->.
      { rewrite <- Hd. replace (len got) with (sf_Offset f + (len got - sf_Offset f)) by lia.
        rewrite from_offset_add, Hk by lia. rewrite drop_app_le by (unfold len in *; lia).
        by rewrite Hpay. }
      split; [exists k; by rewrite app_assoc|].
      rewrite <- Hpay, len_drop. lia. }
  destruct Hext as [Hext Hcov]. pose proof (prefix_length _ _ Hext) as Hel.
  split_and!; try done.
  rewrite len_app. apply u64_add_small; try apply len_nonneg.
  rewrite <- len_app. unfold len in *. lia.
Qed.

Lemma Accept_total r f :
  sf_ID f = sr_id r -> sf_Kind f = StreamFrameData -> sf_Epoch f = sr_epoch r ->
  sf_Offset f <= sr_offset r -> frame_end f <= sr_offset r +u sr_window r ->
  exists payload r', Accept r f = (Ok (payload, receiver_ack r'), r').
Proof.
  intros Hi Hk He Ho Hc. unfold Accept.
  rewrite bool_decide_eq_true_2, Hk, He, Z.eqb_refl by done. simpl orb.
  rewrite Z.eqb_refl, (proj2 (Z.ltb_ge _ _) Ho), (proj2 (Z.ltb_ge _ _) Hc). simpl. by eexists _, _.
Qed.

(** A retransmission that fits the receive window brings the receiver to the end of the log. *)
Lemma accept_all_chain id epoch log frames from got r :
  len log < two64 -> 0 <= from <= len log -> chain id epoch from frames ->
  payloads frames = from_offset from log -> from <= len got -> got `prefix_of` log ->
  sr_offset r = len got -> sr_id r = id -> sr_epoch r = epoch ->
  0 <= sr_window r -> len log + sr_window r < two64 -> len log <= len got + sr_window r ->
  exists rest r', accept_all r frames = (Ok rest, r') /\ got ++ rest = log /\
    sr_offset r' = len log /\ sr_epoch r' = epoch /\ sr_id r' = id.
Proof.
  intros Hb. revert from got r.
  induction frames as [|f fs IH]; intros from got r Hf Hc Hp Hfg Hgot Ho Hi He Hw Hnw Hcr.
  - unfold payloads in Hp. simpl in Hp. apply (f_equal len) in Hp.
    rewrite len_from_offset in Hp by lia. change (len []) with 0 in Hp.
    destruct Hgot as [k ->]. rewrite len_app in *. pose proof (len_nonneg k).
    rewrite (len_zero_nil k) by lia. exists [], r. simpl. rewrite !app_nil_r, len_nil. 
    split_and!; try done. lia.
  - rewrite payloads_cons in Hp. destruct Hc as (Hk & Hid & Hep & Hof & Hl & Hc).
    destruct (from_offset_cons _ _ _ _ Hf Hp) as [Hr Hle].
    pose proof (prefix_length _ _ Hgot) as Hgl.
    assert (Hend : frame_end f = from + len (sf_Payload f)) by (eapply frame_end_bounded; eauto; lia).
    destruct (Accept_total r f) as (p & r1 & Hacc); try congruence; try lia.
    { rewrite Hend, u64_add_small; unfold len in *; lia. }
    destruct (Accept_prefix r f p _ r1 log got Hacc) as (Hpre & Ho1 & _ & _ & Hi1 & He1 & Hw1 & Hcov);
      try done.
    { split_and!; [lia|done|]. rewrite Hof, <- Hp. by apply prefix_app_r. }
    destruct (IH (from + len (sf_Payload f)) (got ++ p) r1) as (rest & r2 & Hall & Hg & Hr2);
      try done; try congruence; try lia.
    { rewrite Hw1, len_app. pose proof (len_nonneg p). lia. }
    exists (p ++ rest), r2. simpl. rewrite Hacc, Hall. split; [done|]. by rewrite app_assoc.
Qed.

(** ** The system's invariant *)

Lemma link_inv_init id epoch window : is_u64 epoch -> link_inv (link_init id epoch window).
Proof.
  intros He. split; simpl; try done; try lia. by apply NewStreamSenderState_inv.
Qed.

(** An acknowledgement sent now claims no more than what has been handed out. *)
Lemma link_inv_acked s r sent got net ack r' w got' :
  link_inv (mkLink s r sent got net) -> ack = receiver_ack r' ->
  sr_offset r' = len got' -> len got <= len got' -> got' `prefix_of` sent ->
  sr_id r' = sr_id r -> sr_epoch r' <= ss_epoch s ->
  link_inv (mkLink s r' sent got' (net ++ [with_window w ack])).
Proof.
  intros [] -> Ho Hle Hg Hi He. simpl in *.
  split; simpl; try done; try lia; try congruence.
  - by apply Forall_snoc.
  - apply Forall_snoc; [|simpl; lia].
    eapply Forall_impl; [exact li_ack0|]. simpl. intros f Hf Hk. specialize (Hf Hk). lia.
  - by apply Forall_snoc.
Qed.

(** One lemma per kind of step. *)
Lemma link_inv_data s r sent got net payload frame s' :
  link_inv (mkLink s r sent got net) -> Data s payload = (Ok frame, s') -> len sent + len payload < two64 ->
  link_inv (mkLink s' r (sent ++ payload) got (net ++ [frame])).
Proof.
  intros [] Hd Hlt. simpl in *.
  pose proof (Data_inv _ _ _ _ _ li_sender0 Hd Hlt) as (Hs & Hg & Hacked & Hkind & _ & _).
  assert (ss_id s' = ss_id s /\ ss_epoch s' = ss_epoch s) as [Hid He].
  { unfold Data in Hd. guards_in Hd; done || lia. }
  split; simpl; try done; try congruence; try lia.
  - by apply prefix_app_r.
  - apply Forall_snoc; [|done]. eapply Forall_impl; [exact li_data0|]. simpl. intros.
    apply genuine_app; auto.
  - apply Forall_snoc; [done|]. rewrite Hkind. done.
  - apply Forall_snoc; [|rewrite Hkind; done]. by rewrite He.
Qed.

Lemma link_inv_accept s r sent got net f payload ack r' w :
  link_inv (mkLink s r sent got net) -> f ∈ net -> Accept r f = (Ok (payload, ack), r') ->
  link_inv (mkLink s r' sent (got ++ payload) (net ++ [with_window w ack])).
Proof.
  intros Hinv Hin Ha. pose proof Hinv as []. simpl in *.
  assert (Hkind : sf_Kind f = StreamFrameData).
  { unfold Accept in Ha. guards_in Ha; done || lia. }
  pose proof (proj1 (Forall_forall _ _) li_data0 f Hin Hkind) as Hg.
  destruct (Accept_prefix _ _ _ _ _ _ _ Ha Hg (si_bound _ _ li_sender0) li_prefix0 li_offset0)
    as (Hpre & Ho & _ & Hack & Hi & He & _ & _).
  eapply link_inv_acked; try done; try congruence.
  rewrite len_app. pose proof (len_nonneg payload). lia.
Qed.

Lemma link_inv_acknowledge s r sent got net epoch offset w s' :
  link_inv (mkLink s r sent got net) -> Acknowledge s epoch offset w = (None, s') -> offset <= len got ->
  link_inv (mkLink s' r sent got net).
Proof.
  intros [] Ha Ho. simpl in *.
  pose proof (Acknowledge_inv _ _ _ _ _ _ li_sender0 Ha) as (Hs & Hacked & Hle).
  assert (ss_id s' = ss_id s /\ ss_epoch s' = ss_epoch s) as [Hid He].
  { clear -Ha. unfold Acknowledge in Ha. guards_in Ha; done. }
  split; simpl; try done; try congruence; try lia. by rewrite He.
Qed.

Lemma chain_data id epoch from frames :
  chain id epoch from frames -> Forall (fun f => sf_Kind f = StreamFrameData) frames.
Proof.
  revert from. induction frames as [|f fs IH]; intros from; constructor; [by destruct H|].
  destruct H as (_ & _ & _ & _ & _ & Hc). eauto.
Qed.

Lemma link_inv_resume s r sent got net frames s' :
  link_inv (mkLink s r sent got net) ->
  SenderResume s (ss_epoch s +u 1) (ss_acked s) = (Ok frames, s') ->
  link_inv (mkLink s' r sent got
    (net ++ mkStreamFrame StreamFrameResume (ss_id s) (ss_epoch s +u 1) (ss_acked s) 0 [] :: frames)).
Proof.
  intros [] Hr. simpl in *.
  pose proof (SenderResume_inv _ _ _ _ _ _ li_sender0 (u64_range _) Hr)
    as (Hs & Hacked & Hle & Hid & He & Hc & Hp).
  assert (Hgt : ss_epoch s < ss_epoch s') by (rewrite He; unfold SenderResume in Hr; guards_in Hr; simpl; lia).
  destruct (si_acked _ _ li_sender0). pose proof (si_next _ _ li_sender0).
  assert (Hg : Forall (genuine sent) frames) by (eapply chain_genuine; [|done..]; lia).
  pose proof (chain_data _ _ _ _ Hc) as Hkinds.
  split; simpl; try done; try congruence; try lia.
  - apply Forall_app. split; [done|]. constructor; [done|]. by eapply Forall_impl; [exact Hg|].
  - apply Forall_app. split; [done|]. constructor; [done|].
    eapply Forall_impl; [exact Hkinds|]. simpl. intros f Hf Hc'. by rewrite Hf in Hc'.
  - apply Forall_app. split; [|constructor; simpl; [lia|]].
    + eapply Forall_impl; [exact li_resume0|]. simpl. intros f Hf Hk. specialize (Hf Hk). lia.
    + eapply Forall_impl; [exact Hkinds|]. simpl. intros f Hf Hc'. by rewrite Hf in Hc'.
Qed.

Lemma link_inv_resumed s r sent got net f ack r' w :
  link_inv (mkLink s r sent got net) -> f ∈ net -> sf_Kind f = StreamFrameResume ->
  ReceiverResume r (sf_Epoch f) (sf_Offset f) = (Ok ack, r') ->
  link_inv (mkLink s r' sent got (net ++ [with_window w ack])).
Proof.
  intros Hinv Hin Hk Hr. pose proof Hinv as []. simpl in *.
  pose proof (proj1 (Forall_forall _ _) li_resume0 f Hin Hk).
  unfold ReceiverResume in Hr. guards_in Hr. eapply link_inv_acked; simpl; done || lia.
Qed.

Lemma link_step_inv l l' : link_inv l -> link_step l l' -> link_inv l'.
Proof.
  intros Hinv Hstep.
  destruct Hstep; eauto using link_inv_data, link_inv_accept, link_inv_resume, link_inv_resumed.
  - eapply link_inv_acknowledge; [done..|]. destruct Hinv. by apply (proj1 (Forall_forall _ _) li_ack0).
  - eapply link_inv_acknowledge; [done..|]. apply len_nonneg.
  - pose proof Hinv as []. eapply link_inv_acked; done || (simpl in *; lia).
Qed.

Lemma link_reachable_inv id epoch window l :
  is_u64 epoch -> link_reachable (link_init id epoch window) l -> link_inv l.
Proof.
  intros He. induction 1; eauto using link_inv_init, link_step_inv.
Qed.

(** The slice [old.Payload[start-old.Offset:]] of [Resume] is in range, so it never panics. *)
Lemma resume_slice_in_range ack old :
  is_u64 (sf_Offset old) -> is_u64 ack -> len (sf_Payload old) < two64 ->
  ack < frame_end old ->
  (if ack <? sf_Offset old then sf_Offset old else ack) -u sf_Offset old <= len (sf_Payload old).
Proof.
  unfold frame_end, is_u64. intros Ho Ha Hl He. pose proof (len_nonneg (sf_Payload old)).
  case_match; bool_facts.
  - rewrite Z.sub_diag. change (u64 0) with 0. lia.
  - rewrite u64_sub_small by lia.
    destruct (Z_lt_ge_dec (sf_Offset old + len (sf_Payload old)) two64).
    + rewrite u64_add_small in He by lia. lia.
    + unfold u64 in He. rewrite <- (Z_mod_plus_full _ (-1)), Z.mod_small in He by lia. lia.
Qed.

(** C6: whatever the network loses, repeats or reorders, and however often the
    sender resumes, the bytes the receiving state has handed out are a prefix of
    the bytes the sending state took, in order and without repetition; every
    offset the sender holds as acknowledged has been handed out, so a sender with
    nothing outstanding has had everything delivered; and what it still keeps for
    retransmission is exactly the rest of the stream from some offset the peer
    already acknowledged. *)
Theorem stream_exactly_once id epoch window l :
  is_u64 epoch -> link_reachable (link_init id epoch window) l ->
  lk_got l `prefix_of` lk_sent l /\
  0 <= ss_acked (lk_snd l) <= len (lk_got l) /\
  (ss_acked (lk_snd l) = ss_next (lk_snd l) -> lk_got l = lk_sent l) /\
  exists from, 0 <= from <= ss_acked (lk_snd l) /\
    payloads (ss_pending (lk_snd l)) = from_offset from (lk_sent l).
Proof.
  intros He Hr. destruct (link_reachable_inv _ _ _ _ He Hr).
  destruct (si_acked _ _ li_sender0). destruct (si_pending _ _ li_sender0) as (from & ? & _ & ? & _).
  split_and!; eauto. intros Heq. rewrite (si_next _ _ li_sender0) in Heq.
  destruct li_prefix0 as [k Hk]. rewrite Hk, len_app in *. pose proof (len_nonneg k).
  by rewrite (len_zero_nil k), app_nil_r by lia.
Qed.

(** C16: recovery. From any reachable state of the two ends and the network, one
    resume round that gets through — the sender's [Resume] with the next epoch,
    the receiver's [Resume] with the announced epoch and offset, and the
    retransmitted frames accepted in order — brings the receiver to the end of
    everything written, and its acknowledgement empties the retransmission
    window, as long as the outstanding bytes fit the receive window. *)
Theorem stream_resume_recovers id epoch window l :
  is_u64 epoch -> link_reachable (link_init id epoch window) l ->
  ss_epoch (lk_snd l) + 1 < two64 ->
  0 <= sr_window (lk_rcv l) -> len (lk_sent l) + sr_window (lk_rcv l) < two64 ->
  ss_next (lk_snd l) - ss_acked (lk_snd l) <= sr_window (lk_rcv l) ->
  exists frames s1 ack r1 rest r2 s2,
    SenderResume (lk_snd l) (ss_epoch (lk_snd l) +u 1) (ss_acked (lk_snd l)) = (Ok frames, s1) /\
    ReceiverResume (lk_rcv l) (ss_epoch (lk_snd l) +u 1) (ss_acked (lk_snd l)) = (Ok ack, r1) /\
    accept_all r1 frames = (Ok rest, r2) /\
    lk_got l ++ rest = lk_sent l /\
    Acknowledge s1 (sr_epoch r2) (sr_offset r2) (sr_window r2) = (None, s2) /\
    ss_acked s2 = ss_next s2 /\ ss_pending s2 = [].
Proof.
  intros He Hr Hep Hw Hnw Hfit. pose proof (link_reachable_inv _ _ _ _ He Hr) as [].
  destruct (si_acked _ _ li_sender0). pose proof (si_next _ _ li_sender0) as Hnext.
  pose proof (si_bound _ _ li_sender0). destruct (si_epoch _ _ li_sender0).
  rewrite u64_add_small by lia.
  assert (exists frames s1, SenderResume (lk_snd l) (ss_epoch (lk_snd l) + 1) (ss_acked (lk_snd l))
    = (Ok frames, s1) /\ ss_next s1 = ss_next (lk_snd l)) as (frames & s1 & Hsr & Hn1).
  { unfold SenderResume. repeat case_match; bool_facts; eauto; lia. }
  assert (exists r1, ReceiverResume (lk_rcv l) (ss_epoch (lk_snd l) + 1) (ss_acked (lk_snd l))
    = (Ok (receiver_ack r1), r1) /\ sr_id r1 = sr_id (lk_rcv l) /\
      sr_epoch r1 = ss_epoch (lk_snd l) + 1 /\ sr_offset r1 = sr_offset (lk_rcv l) /\
      sr_window r1 = sr_window (lk_rcv l)) as (r1 & Hrr & Hi1 & He1 & Ho1 & Hw1).
  { unfold ReceiverResume. case_match; bool_facts; [lia|]. by eexists. }
  assert (Hu : is_u64 (ss_epoch (lk_snd l) + 1)) by (unfold is_u64; lia).
  destruct (SenderResume_inv _ _ _ _ _ _ li_sender0 Hu Hsr)
    as (Hs1 & Ha1 & _ & Hid1 & Hep1 & Hc & Hp).
  destruct (accept_all_chain (ss_id (lk_snd l)) (ss_epoch (lk_snd l) + 1) (lk_sent l) frames
    (ss_acked (lk_snd l)) (lk_got l) r1 ltac:(lia) ltac:(lia) Hc Hp)
    as (rest & r2 & Hall & Hg & Ho2 & He2 & Hi2); try done; try congruence; try lia.
  destruct (Acknowledge s1 (sr_epoch r2) (sr_offset r2) (sr_window r2)) as [[e|] s2] eqn:Hack.
  { exfalso. unfold Acknowledge in Hack. rewrite He2, Hep1, Z.eqb_refl, Ha1, Ho2, Hn1 in Hack.
    simpl in Hack. destruct (_ || _) eqn:E in Hack; [|done]. bool_facts. destruct E; bool_facts; lia. }
  exists frames, s1, (receiver_ack r1), r1, rest, r2, s2.
  destruct (Acknowledge_inv _ _ _ _ _ _ Hs1 Hack) as ([Hn2 _ _ _ (from & Hf & Hc2 & Hp2 & Hall2)] & Ha2 & _).
  assert (Hdone : ss_acked s2 = ss_next s2) by (rewrite Ha2, Ho2, Hn2; done).
  split_and!; try done. destruct (ss_pending s2) as [|f fs]; [done|exfalso].
  rewrite payloads_cons in Hp2. destruct Hc2 as (_ & _ & _ & Hof & Hl & _).
  assert (Hfl : 0 <= from <= len (lk_sent l)) by lia.
  destruct (from_offset_cons _ _ _ _ Hfl Hp2) as [_ Hle].
  inversion Hall2 as [|? ? Hend]; subst. rewrite (frame_end_bounded f (sf_Offset f) (lk_sent l)) in Hend by lia.
  lia.
Qed.

(** Flow control of the sending state: a frame that [Data] returns leaves the
    bytes in flight within the window the peer last advertised. *)
Theorem stream_sender_window s log payload frame s' :
  sender_inv s log -> 0 <= ss_window s -> len log + len payload < two64 ->
  Data s payload = (Ok frame, s') ->
  ss_next s' - ss_acked s' <= ss_window s' /\ ss_window s' = ss_window s /\
  ss_pending s' = ss_pending s ++ [frame] /\ sf_Offset frame = ss_next s /\
  1 <= len (sf_Payload frame) <= DefaultStreamMaxFrame.
Proof.
  intros Hs Hw Hb Hd. pose proof (si_acked _ _ Hs). pose proof (si_next _ _ Hs).
  pose proof (len_nonneg payload). unfold Data in Hd. guards_in Hd.
  u64_simpl. split_and!; try done; lia.
Qed.

(** ** Witnesses: two writes, of which the network delivers only the first. *)

Definition demo_id : StreamID := replicate 16 Byte.x07.
Definition demo_frame1 : StreamFrame :=
  mkStreamFrame StreamFrameData demo_id 1 0 0 [Byte.x61; Byte.x62; Byte.x63].
Definition demo_frame2 : StreamFrame :=
  mkStreamFrame StreamFrameData demo_id 1 3 0 [Byte.x64; Byte.x65].
Definition demo_link : link :=
  mkLink (mkSender demo_id 1 5 0 8 [demo_frame1; demo_frame2])
    (mkReceiver demo_id 1 3 8)
    [Byte.x61; Byte.x62; Byte.x63; Byte.x64; Byte.x65] [Byte.x61; Byte.x62; Byte.x63]
    [demo_frame1; demo_frame2; mkStreamFrame StreamFrameAck demo_id 1 3 5 []].

Lemma demo_link_reachable : link_reachable (link_init demo_id 1 8) demo_link.
Proof.
  eapply lr_step; [eapply lr_step; [eapply lr_step; [apply lr_init|]|]|].
  - by apply (ls_data _ _ _ _ _ (sf_Payload demo_frame1) demo_frame1
      (mkSender demo_id 1 3 0 8 [demo_frame1])).
  - by apply (ls_data _ _ _ _ _ (sf_Payload demo_frame2) demo_frame2
      (mkSender demo_id 1 5 0 8 [demo_frame1; demo_frame2])).
  - apply (ls_accept (lk_snd demo_link) (NewStreamReceiverState demo_id 1 8) (lk_sent demo_link) []
      [demo_frame1; demo_frame2] demo_frame1 (sf_Payload demo_frame1)
      (mkStreamFrame StreamFrameAck demo_id 1 3 8 []) (mkReceiver demo_id 1 3 8) 5); [|done].
    by left.
Qed.

Lemma stream_exactly_once_witness :
  is_u64 1 /\ link_reachable (link_init demo_id 1 8) demo_link /\
  lk_got demo_link `prefix_of` lk_sent demo_link.
Proof.
  split; [done|]. split; [exact demo_link_reachable|].
  apply (stream_exactly_once demo_id 1 8 demo_link); [done|exact demo_link_reachable].
Defined.

Lemma stream_resume_recovers_witness :
  exists frames s1, SenderResume (lk_snd demo_link) 2 0 = (Ok frames, s1) /\
    length frames = 2%nat.
Proof.
  destruct (stream_resume_recovers demo_id 1 8 demo_link) as (fr & s1 & _ & _ & _ & _ & _ & H & _);
    [done|exact demo_link_reachable|done|vm_compute; discriminate|done|vm_compute; discriminate|].
  exists fr, s1. split; [exact H|]. vm_compute in H. by injection H as <- _.
Defined.

Lemma stream_sender_window_witness :
  ss_next (mkSender demo_id 1 3 0 8 [demo_frame1]) - 0 <= 8.
Proof.
  apply (stream_sender_window (NewStreamSenderState demo_id 1 8) [] (sf_Payload demo_frame1)
    demo_frame1 (mkSender demo_id 1 3 0 8 [demo_frame1]));
    [by apply NewStreamSenderState_inv|vm_compute; discriminate|done|done].
Defined.
