(* ===== verification/StreamConn.v ===== *)
(** * One stream connection: state and critical sections (stream_conn.go)

    [StreamConn] is the Go struct with the two protocol states it owns. A method is cut where
    it takes or drops a lock: each definition here is what runs under [c.mu], [s.mu] or
    [r.mu], or under the [handleMu] that the whole section holds. [write_step] is one section
    of the goroutine that holds [writeMu] ([Write] or [Resume]); [handle_start] and
    [handle_step] are those of the frame handler that holds [handleMu]; the sections are
    strung together and interleaved in [StreamDuplex].
    A channel that is only ever closed is a flag; [state], which is closed and replaced by
    every [signalLocked], is the number of its replacements; a resume's [ready] channel is a
    number, closed when it is in [sc_readyClosed]. *)

From stdpp Require Import base list strings.
From S2P Require Import Prelude Errors StreamProtocol.

(** [int(^uint(0) >> 1)] on a 64-bit platform *)
Definition maxInt : Z := 9223372036854775807.

(** ** Configuration *)

Record StreamMuxConfig : Type := mkStreamMuxConfig {
  mc_Window : Z;
  mc_MaxFrameSize : Z;
  mc_AcceptBacklog : Z;
}.

(** [(c StreamMuxConfig) normalized() (StreamMuxConfig, error)] *)
Definition StreamMuxConfig_normalized (c : StreamMuxConfig) : result error StreamMuxConfig :=
  let window := if mc_Window c =? 0 then DefaultStreamWindow else mc_Window c in
  let size := if mc_MaxFrameSize c =? 0 then DefaultStreamMaxFrame else mc_MaxFrameSize c in
  if (size <? 1) || (DefaultStreamMaxFrame <? size)
  then Err (errors_New "stream max frame size is out of range")
  else if maxInt <? window then Err (errors_New "stream window is too large")
  else
    let backlog := if mc_AcceptBacklog c =? 0 then 16 else mc_AcceptBacklog c in
    if backlog <? 1 then Err (errors_New "stream accept backlog must be positive")
    else Ok (mkStreamMuxConfig window size backlog).

(** ** State *)

Record StreamConn : Type := mkStreamConn {
  sc_id : StreamID;
  sc_sender : StreamSenderState;
  sc_receiver : StreamReceiverState;
  sc_readBuf : bytes;
  sc_window : Z;
  sc_sendWin : Z;
  sc_opened : bool;
  sc_closeErr : option error;   (* [done] is closed by the section that sets it *)
  sc_state : nat;
  sc_resumeEpoch : Z;
  sc_resumeReady : option nat;
  sc_readyClosed : list nat;
  sc_readyNext : nat;           (* the number of the next [make(chan struct{})] of [Resume] *)
}.

Definition newStreamConn (id : StreamID) (epoch window : Z) (open : bool) : StreamConn :=
  mkStreamConn id (NewStreamSenderState id epoch window) (NewStreamReceiverState id epoch window)
    [] window window open None 0 0 None [] 0.

Definition set_sender (s : StreamSenderState) (c : StreamConn) : StreamConn :=
  mkStreamConn (sc_id c) s (sc_receiver c) (sc_readBuf c) (sc_window c) (sc_sendWin c) (sc_opened c)
    (sc_closeErr c) (sc_state c) (sc_resumeEpoch c) (sc_resumeReady c) (sc_readyClosed c) (sc_readyNext c).
Definition set_received (r : StreamReceiverState) (buf : bytes) (c : StreamConn) : StreamConn :=
  mkStreamConn (sc_id c) (sc_sender c) r buf (sc_window c) (sc_sendWin c) (sc_opened c)
    (sc_closeErr c) (sc_state c) (sc_resumeEpoch c) (sc_resumeReady c) (sc_readyClosed c) (sc_readyNext c).
Definition set_sendWin (w : Z) (c : StreamConn) : StreamConn :=
  mkStreamConn (sc_id c) (sc_sender c) (sc_receiver c) (sc_readBuf c) (sc_window c) w (sc_opened c)
    (sc_closeErr c) (sc_state c) (sc_resumeEpoch c) (sc_resumeReady c) (sc_readyClosed c) (sc_readyNext c).
Definition set_resume (epoch : Z) (ready : option nat) (closed : list nat) (next : nat) (c : StreamConn) : StreamConn :=
  mkStreamConn (sc_id c) (sc_sender c) (sc_receiver c) (sc_readBuf c) (sc_window c) (sc_sendWin c) (sc_opened c)
    (sc_closeErr c) (sc_state c) epoch ready closed next.
Definition set_closeErr (e : option error) (c : StreamConn) : StreamConn :=
  mkStreamConn (sc_id c) (sc_sender c) (sc_receiver c) (sc_readBuf c) (sc_window c) (sc_sendWin c) (sc_opened c)
    e (sc_state c) (sc_resumeEpoch c) (sc_resumeReady c) (sc_readyClosed c) (sc_readyNext c).

Definition markOpen (c : StreamConn) : StreamConn :=
  mkStreamConn (sc_id c) (sc_sender c) (sc_receiver c) (sc_readBuf c) (sc_window c) (sc_sendWin c) true
    (sc_closeErr c) (sc_state c) (sc_resumeEpoch c) (sc_resumeReady c) (sc_readyClosed c) (sc_readyNext c).

(** [close(c.state); c.state = make(chan struct{})] *)
Definition signalLocked (c : StreamConn) : StreamConn :=
  mkStreamConn (sc_id c) (sc_sender c) (sc_receiver c) (sc_readBuf c) (sc_window c) (sc_sendWin c) (sc_opened c)
    (sc_closeErr c) (S (sc_state c)) (sc_resumeEpoch c) (sc_resumeReady c) (sc_readyClosed c) (sc_readyNext c).

(** The part of [terminate] under [c.mu], which [doneOnce] runs once; [mux.remove] follows. *)
Definition terminate (err : option error) (c : StreamConn) : StreamConn :=
  match sc_closeErr c with
  | Some _ => c
  | None => signalLocked (set_closeErr (Some (default (Sentinel ErrStreamClosed) err)) c)
  end.

Definition closeError (c : StreamConn) : error := default (Sentinel ErrStreamClosed) (sc_closeErr c).
Definition isClosed (c : StreamConn) : bool := bool_decide (is_Some (sc_closeErr c)).

(** [c.window - uint64(len(c.readBuf))]: the credit an acknowledgement announces. *)
Definition free_credit (c : StreamConn) : Z := sc_window c -u len (sc_readBuf c).

(** ** Read *)

Inductive read_next : Type :=
| ReadConsume
| ReadReturn (n : Z) (err : option error)
| ReadWait (state : nat).

(** The first section of the loop of [Read], for a non-empty [p]. *)
Definition Read_check (c : StreamConn) : read_next :=
  match sc_readBuf c with
  | _ :: _ => ReadConsume
  | [] =>
      match sc_closeErr c with
      | Some err => ReadReturn 0 (Some (if errors_Is err EOF then Sentinel EOF else err))
      | None => ReadWait (sc_state c)
      end
  end.

(** The section of [Read] under [handleMu] and [mu]: [None] when another reader was faster;
    otherwise the bytes copied, the frame to send if the stream is open, and the state left. *)
Definition Read_consume (n : Z) (c : StreamConn) : option (bytes * option StreamFrame * StreamConn) :=
  match sc_readBuf c with
  | [] => None
  | _ =>
      let p := take (Z.to_nat n) (sc_readBuf c) in
      let c' := set_received (sc_receiver c) (drop (Z.to_nat n) (sc_readBuf c)) c in
      let free := free_credit c' in
      let '(epoch, offset, _) := receiver_snapshot (sc_receiver c) in
      let ack := mkStreamFrame StreamFrameAck (sc_id c) epoch offset free [] in
      Some (p, if isClosed c then None else Some ack, c')
  end.

(** What [Read] makes of the error of sending its acknowledgement. *)
Definition Read_sendErr (err : option error) : option error :=
  match err with
  | Some e => if errors_Is e ErrStreamClosed || errors_Is e ErrStreamUnknown then None else Some e
  | None => None
  end.

(** ** Write and Resume: the goroutine that holds writeMu *)

Inductive credit : Type :=
| CreditErr (err : error)
| Credit (available : Z)
| CreditWait (state : nat).

(** The section of [waitSendCredit] under [c.mu], with the sender's state as it was read before. *)
Definition credit_check (next acked : Z) (c : StreamConn) : credit :=
  match sc_closeErr c with
  | Some err => CreditErr err
  | None =>
      let outstanding := next -u acked in
      if outstanding <? sc_sendWin c then Credit (sc_sendWin c -u outstanding) else CreditWait (sc_state c)
  end.

(** How much of [p] the next frame takes. *)
Definition Write_chunk (maxFrameSize : Z) (p : bytes) (written available : Z) : Z :=
  let chunk := len p - written in
  let chunk := if maxFrameSize <? chunk then maxFrameSize else chunk in
  if available <? u64 chunk then i64 available else chunk.

Definition clearResume (ready : nat) (c : StreamConn) : StreamConn :=
  if bool_decide (sc_resumeReady c = Some ready)
  then set_resume 0 None (sc_readyClosed c) (sc_readyNext c) c else c.

(** Where the holder of [writeMu] is: the [W] points belong to [Write], the [R] ones to [Resume]. *)
Inductive write_pc : Type :=
| WLoop (p : bytes) (written : Z)                       (* before the snapshot of waitSendCredit *)
| WCheck (p : bytes) (written next acked : Z)           (* between the snapshot and [c.mu] *)
| WWait (p : bytes) (written : Z) (state : nat)         (* [<-state] *)
| WData (p : bytes) (written available : Z)             (* credit granted, before [sender.Data] *)
| WSend (p : bytes) (written : Z) (frame : StreamFrame) (* before [mux.send] *)
| RSnapshot
| RSender (epoch acked : Z)                             (* before [sender.Resume] *)
| RRegister (epoch acked : Z) (frames : list StreamFrame)
| RAnnounce (epoch acked : Z) (frames : list StreamFrame) (ready : nat)
| RWait (frames : list StreamFrame) (ready : nat)       (* the [select] *)
| RFrames (frames : list StreamFrame).                  (* the retransmission loop *)

Inductive write_next : Type :=
| WGo (pc : write_pc)
| WReturn (n : Z) (err : option error).

(** Which case of the [select] in [Resume] is taken. *)
Inductive wake : Type := WakeReady | WakeDone | WakeCtx (err : error).

(** What one section leaves: where it goes on, the connection, the frame handed to [mux.send],
    and the bytes the sender's state took. *)
Record write_out : Type := mkWriteOut {
  wo_next : write_next;
  wo_conn : StreamConn;
  wo_sent : list StreamFrame;
  wo_taken : bytes;
}.
Definition wgo (pc : write_pc) (c : StreamConn) : option write_out := Some (mkWriteOut (WGo pc) c [] []).
Definition wret (n : Z) (err : option error) (c : StreamConn) : option write_out := Some (mkWriteOut (WReturn n err) c [] []).

(** [sendErr] is what [mux.send] returns if the section calls it; [None] is a section that waits. *)
Definition write_step (maxFrameSize : Z) (sendErr : option error) (w : wake) (pc : write_pc) (c : StreamConn)
    : option write_out :=
  match pc with
  | WLoop p written =>
      if written <? len p
      then let '(_, next, acked, _) := sender_snapshot (sc_sender c) in wgo (WCheck p written next acked) c
      else wret written None c
  | WCheck p written next acked =>
      match credit_check next acked c with
      | CreditErr err => wret written (Some err) c
      | Credit available => wgo (WData p written available) c
      | CreditWait state => wgo (WWait p written state) c
      end
  | WWait p written state => if bool_decide (state = sc_state c) then None else wgo (WLoop p written) c
  | WData p written available =>
      let chunk := Write_chunk maxFrameSize p written available in
      let payload := slice (Z.to_nat written) (Z.to_nat (written + chunk)) p in
      match Data (sc_sender c) payload with
      | (Ok frame, s) => Some (mkWriteOut (WGo (WSend p (written + chunk) frame)) (set_sender s c) [] payload)
      | (Err err, _) => wret written (Some err) c
      | (Panic, _) => None
      end
  | WSend p written frame =>
      Some (mkWriteOut (match sendErr with Some err => WReturn written (Some err) | None => WGo (WLoop p written) end)
              c [frame] [])
  | RSnapshot =>
      let '(epoch, _, acked, _) := sender_snapshot (sc_sender c) in wgo (RSender epoch acked) c
  | RSender epoch acked =>
      match SenderResume (sc_sender c) (epoch +u 1) acked with
      | (Ok frames, s) => wgo (RRegister (epoch +u 1) acked frames) (set_sender s c)
      | (Err err, _) => wret 0 (Some err) c
      | (Panic, _) => None
      end
  | RRegister epoch acked frames =>
      match sc_closeErr c with
      | Some err => wret 0 (Some err) c
      | None =>
          let ready := sc_readyNext c in
          wgo (RAnnounce epoch acked frames ready) (set_resume epoch (Some ready) (sc_readyClosed c) (S ready) c)
      end
  | RAnnounce epoch acked frames ready =>
      let frame := mkStreamFrame StreamFrameResume (sc_id c) epoch acked 0 [] in
      match sendErr with
      | Some err => Some (mkWriteOut (WReturn 0 (Some err)) (clearResume ready c) [frame] [])
      | None => Some (mkWriteOut (WGo (RWait frames ready)) c [frame] [])
      end
  | RWait frames ready =>
      match w with
      | WakeReady => if bool_decide (ready ∈ sc_readyClosed c) then wgo (RFrames frames) c else None
      | WakeDone => if isClosed c then wret 0 (Some (closeError c)) c else None
      | WakeCtx err => wret 0 (Some err) (clearResume ready c)
      end
  | RFrames [] => wret 0 None c
  | RFrames (frame :: rest) =>
      Some (mkWriteOut (match sendErr with Some err => WReturn 0 (Some err) | None => WGo (RFrames rest) end)
              c [frame] [])
  end.

(** ** handleFrame: the goroutine that holds handleMu *)

Inductive handle_pc : Type :=
| HOpenAck (frame : StreamFrame)  (* acknowledged, before [c.mu] *)
| HAck (frame : StreamFrame)
| HData (frame : StreamFrame)     (* credit checked, before [receiver.Accept] *)
| HRespond (frame : StreamFrame). (* [sendResponseLocked] waits for [responseMu] *)

Inductive handle_next : Type :=
| HGo (pc : handle_pc)
| HReturn (err : option error).

(** The checks of [handleData] before the receiver's state takes the frame. *)
Definition handleData_check (frame : StreamFrame) (c : StreamConn) : option error :=
  let '(_, offset, _) := receiver_snapshot (sc_receiver c) in
  if offset <? sf_Offset frame then Some (Sentinel ErrStreamGap)
  else
    let start := offset -u sf_Offset frame in
    let start := if len (sf_Payload frame) <? start then len (sf_Payload frame) else start in
    let unique := len (sf_Payload frame) -u start in
    match sc_closeErr c with
    | Some err => Some err
    | None => if sc_window c <? len (sc_readBuf c) +u unique then Some (Sentinel ErrStreamCredit) else None
    end.

(** The rest of [handleData]; what it touches is guarded by [handleMu], which the handler holds. *)
Definition handleData_accept (frame : StreamFrame) (c : StreamConn) : result error StreamFrame * StreamConn :=
  match Accept (sc_receiver c) frame with
  | (Ok (payload, ack), r) =>
      let c := set_received r (sc_readBuf c ++ payload) c in
      (Ok (mkStreamFrame (sf_Kind ack) (sf_ID ack) (sf_Epoch ack) (sf_Offset ack) (free_credit c) (sf_Payload ack)),
       signalLocked c)
  | (Err err, _) => (Err err, c)
  | (Panic, _) => (Panic, c)
  end.

(** The first section of [handleFrame]. *)
Definition handle_start (frame : StreamFrame) (c : StreamConn) : handle_next * StreamConn :=
  if sf_Kind frame =? StreamFrameOpenAck then
    match Acknowledge (sc_sender c) (sf_Epoch frame) 0 (sf_Window frame) with
    | (Some err, _) => (HReturn (Some err), c)
    | (None, s) => (HGo (HOpenAck frame), set_sender s c)
    end
  else if sf_Kind frame =? StreamFrameData then
    match handleData_check frame c with
    | Some err => (HReturn (Some err), c)
    | None => (HGo (HData frame), c)
    end
  else if sf_Kind frame =? StreamFrameAck then
    match Acknowledge (sc_sender c) (sf_Epoch frame) (sf_Offset frame) (sf_Window frame) with
    | (Some err, _) => (HReturn (Some err), c)
    | (None, s) => (HGo (HAck frame), set_sender s c)
    end
  else if sf_Kind frame =? StreamFrameResume then
    match ReceiverResume (sc_receiver c) (sf_Epoch frame) (sf_Offset frame) with
    | (Ok ack, r) =>
        let c := set_received r (sc_readBuf c) c in
        (HGo (HRespond (mkStreamFrame (sf_Kind ack) (sf_ID ack) (sf_Epoch ack) (sf_Offset ack) (free_credit c) (sf_Payload ack))), c)
    | (Err err, _) => (HReturn (Some err), c)
    | (Panic, _) => (HReturn None, c)
    end
  else if sf_Kind frame =? StreamFrameClose then
    let '(epoch, _, _) := receiver_snapshot (sc_receiver c) in
    if negb (sf_Epoch frame =? epoch) then (HReturn (Some (Sentinel ErrStreamEpoch)), c)
    else (HReturn None, terminate (Some (Sentinel EOF)) c)
  else (HReturn (Some (errors_New "unexpected stream frame")), c).

(** [close(c.resumeReady)] when the acknowledgement carries the epoch [Resume] waits for. *)
Definition wakeResume (epoch : Z) (c : StreamConn) : StreamConn :=
  match sc_resumeReady c with
  | Some ready =>
      if sc_resumeEpoch c =? epoch then set_resume 0 None (ready :: sc_readyClosed c) (sc_readyNext c) c else c
  | None => c
  end.

(** The later sections; [HRespond] goes on in [sendResponseLocked]. *)
Definition handle_step (pc : handle_pc) (c : StreamConn) : handle_next * StreamConn :=
  match pc with
  | HOpenAck frame => (HReturn None, markOpen (signalLocked (set_sendWin (sf_Window frame) c)))
  | HAck frame => (HReturn None, signalLocked (wakeResume (sf_Epoch frame) (set_sendWin (sf_Window frame) c)))
  | HData frame =>
      match handleData_accept frame c with
      | (Ok ack, c) => (HGo (HRespond ack), c)
      | (Err err, c) => (HReturn (Some err), c)
      | (Panic, c) => (HReturn None, c)
      end
  | HRespond frame => (HGo (HRespond frame), c)
  end.

(** The checks of [HandleFrame] before a frame is looked up. *)
Definition HandleFrame_check (maxFrameSize : Z) (frame : StreamFrame) : option error :=
  if (sf_Kind frame <? StreamFrameOpen) || (StreamFrameClose <? sf_Kind frame)
  then Some (errors_New "invalid stream frame kind")
  else if maxFrameSize <? len (sf_Payload frame) then Some (errors_New "stream frame payload is too large")
  else if negb (sf_Kind frame =? StreamFrameData) && negb (len (sf_Payload frame) =? 0)
  then Some (errors_New "stream control frame contains payload")
  else if (sf_Kind frame =? StreamFrameData) && (len (sf_Payload frame) =? 0)
  then Some (errors_New "stream data frame is empty")
  else None.
