(* ===== verification/StreamDuplex.v ===== *)
(** * Two stream connections over a network: the interleavings of stream_conn.go

    An [endpoint] is a connection with the goroutines that use it: the holder of [writeMu]
    ([Write] or [Resume]), the holder of [handleMu] (a frame handler, or a reader that
    consumes), the holder of [responseMu], any number of readers and of [Close] calls.
    [end_do] runs one critical section of one of them. Two endpoints are joined either by a
    network that may lose, repeat and reorder frames ([duplex_step]) or by one that delivers
    every frame exactly once and in order ([fifo_step]). *)

From stdpp Require Import base list strings gmap.
From S2P Require Import Prelude Errors StreamProtocol StreamLink StreamConn.

(** ** Goroutines *)

(** Where one [Read(p)] is; its [len(p)] is kept beside it. *)
Inductive read_pc : Type :=
| RdLoop
| RdConsume          (* saw a non-empty buffer, wants [handleMu] *)
| RdWait (state : nat)
| RdRespond.         (* its acknowledgement is on the way out *)

(** Who waits for a response to be sent: a frame handler, or the reader with this number. *)
Inductive owner : Type := OFrame | OReader (i : nat).

Record endpoint : Type := mkEndpoint {
  e_conn : StreamConn;
  e_write : option write_pc;
  e_handle : option (handle_pc * owner);
  e_resp : option (StreamFrame * owner);
  e_readers : gmap nat (Z * read_pc);
  e_closing : list (Z * bool);  (* the epoch a [Close] read, and whether it has terminated *)
  (* history: what [sender.Data] took, what each finished [Write] reported as written, what
     [Read] copied out, and the errors [HandleFrame] returned *)
  e_log : bytes;
  e_done : list bytes;
  e_read : bytes;
  e_errors : list error;
}.

Definition endpoint_init (c : StreamConn) : endpoint := mkEndpoint c None None None ∅ [] [] [] [] [].

Definition set_conn (c : StreamConn) (e : endpoint) : endpoint :=
  mkEndpoint c (e_write e) (e_handle e) (e_resp e) (e_readers e) (e_closing e) (e_log e) (e_done e) (e_read e) (e_errors e).
Definition set_write (w : option write_pc) (e : endpoint) : endpoint :=
  mkEndpoint (e_conn e) w (e_handle e) (e_resp e) (e_readers e) (e_closing e) (e_log e) (e_done e) (e_read e) (e_errors e).
Definition set_handle (h : option (handle_pc * owner)) (e : endpoint) : endpoint :=
  mkEndpoint (e_conn e) (e_write e) h (e_resp e) (e_readers e) (e_closing e) (e_log e) (e_done e) (e_read e) (e_errors e).
Definition set_resp (r : option (StreamFrame * owner)) (e : endpoint) : endpoint :=
  mkEndpoint (e_conn e) (e_write e) (e_handle e) r (e_readers e) (e_closing e) (e_log e) (e_done e) (e_read e) (e_errors e).
Definition set_readers (r : gmap nat (Z * read_pc)) (e : endpoint) : endpoint :=
  mkEndpoint (e_conn e) (e_write e) (e_handle e) (e_resp e) r (e_closing e) (e_log e) (e_done e) (e_read e) (e_errors e).
Definition set_closing (l : list (Z * bool)) (e : endpoint) : endpoint :=
  mkEndpoint (e_conn e) (e_write e) (e_handle e) (e_resp e) (e_readers e) l (e_log e) (e_done e) (e_read e) (e_errors e).
Definition log_taken (p : bytes) (e : endpoint) : endpoint :=
  mkEndpoint (e_conn e) (e_write e) (e_handle e) (e_resp e) (e_readers e) (e_closing e) (e_log e ++ p) (e_done e) (e_read e) (e_errors e).
Definition log_done (p : bytes) (e : endpoint) : endpoint :=
  mkEndpoint (e_conn e) (e_write e) (e_handle e) (e_resp e) (e_readers e) (e_closing e) (e_log e) (e_done e ++ [p]) (e_read e) (e_errors e).
Definition log_read (p : bytes) (e : endpoint) : endpoint :=
  mkEndpoint (e_conn e) (e_write e) (e_handle e) (e_resp e) (e_readers e) (e_closing e) (e_log e) (e_done e) (e_read e ++ p) (e_errors e).
Definition log_error (err : option error) (e : endpoint) : endpoint :=
  mkEndpoint (e_conn e) (e_write e) (e_handle e) (e_resp e) (e_readers e) (e_closing e) (e_log e) (e_done e) (e_read e)
    (e_errors e ++ match err with Some x => [x] | None => [] end).

(** The argument of the [Write] a point belongs to ([[]] for [Resume]) and how much of it the
    sender's state has taken. *)
Definition write_arg (pc : write_pc) : bytes :=
  match pc with
  | WLoop p _ | WCheck p _ _ _ | WWait p _ _ | WData p _ _ | WSend p _ _ => p
  | _ => []
  end.
Definition write_count (pc : write_pc) : Z :=
  match pc with
  | WLoop _ n | WCheck _ n _ _ | WWait _ n _ | WData _ n _ | WSend _ n _ => n
  | _ => 0
  end.
Definition write_part (pc : write_pc) : bytes := take (Z.to_nat (write_count pc)) (write_arg pc).

(** ** One critical section *)

Inductive action : Type :=
(* calls the application makes *)
| CallWrite (p : bytes) | CallResume | CallRead (i : nat) (n : Z) | CallClose
(* a frame reaches [HandleFrame] *)
| Arrive (frame : StreamFrame)
(* a goroutine goes on *)
| RunWrite (sendErr : option error) (w : wake)
| RunHandle
| RunRespond
| RunResponse (sendErr : option error)
| RunRead (i : nat)
| RunClose (k : nat).

Definition is_call (a : action) : bool :=
  match a with CallWrite _ | CallResume | CallRead _ _ | CallClose => true | _ => false end.

Definition after_write (pc : write_pc) (o : write_out) (e : endpoint) : endpoint :=
  let e := log_taken (wo_taken o) (set_conn (wo_conn o) e) in
  match wo_next o with
  | WGo pc' => set_write (Some pc') e
  | WReturn n _ => log_done (take (Z.to_nat n) (write_arg pc)) (set_write None e)
  end.

Definition after_handle (r : handle_next * StreamConn) (e : endpoint) : endpoint :=
  let e := set_conn r.2 e in
  match r.1 with
  | HGo pc => set_handle (Some (pc, OFrame)) e
  | HReturn err => log_error err (set_handle None e)
  end.

(** [HandleFrame] on a frame whose stream is this connection; [handleOpen] on an existing one
    only sends the acknowledgement again. *)
Definition end_arrive (max : Z) (frame : StreamFrame) (e : endpoint) : option (endpoint * list StreamFrame) :=
  match HandleFrame_check max frame with
  | Some err => Some (log_error (Some err) e, [])
  | None =>
      if negb (bool_decide (sf_ID frame = sc_id (e_conn e)))
      then Some (log_error (if sf_Kind frame =? StreamFrameClose then None else Some (Sentinel ErrStreamUnknown)) e, [])
      else if sf_Kind frame =? StreamFrameOpen then
        if sf_Epoch frame =? 0 then Some (log_error (Some (errors_New "invalid stream open frame")) e, [])
        else
          let window := if sf_Window frame =? 0 then DefaultStreamWindow else sf_Window frame in
          if maxInt <? window then Some (log_error (Some (Sentinel ErrStreamCredit)) e, [])
          else Some (e, [mkStreamFrame StreamFrameOpenAck (sf_ID frame) (sf_Epoch frame) 0 window []])
      else match e_handle e with
           | Some _ => None
           | None => Some (after_handle (handle_start frame (e_conn e)) e, [])
           end
  end.

Definition set_reader (i : nat) (n : Z) (pc : read_pc) (e : endpoint) : endpoint :=
  set_readers (<[i := (n, pc)]> (e_readers e)) e.
Definition end_reader (i : nat) (e : endpoint) : endpoint := set_readers (delete i (e_readers e)) e.

Definition run_read (i : nat) (e : endpoint) : option (endpoint * list StreamFrame) :=
  match e_readers e !! i with
  | Some (n, RdLoop) =>
      match Read_check (e_conn e) with
      | ReadConsume => Some (set_reader i n RdConsume e, [])
      | ReadReturn _ _ => Some (end_reader i e, [])
      | ReadWait state => Some (set_reader i n (RdWait state) e, [])
      end
  | Some (n, RdConsume) =>
      match e_handle e with
      | Some _ => None
      | None =>
          match Read_consume n (e_conn e) with
          | None => Some (set_reader i n RdLoop e, [])
          | Some (p, ack, c) =>
              let e := log_read p (set_conn c e) in
              match ack with
              | None => Some (end_reader i e, [])
              | Some frame => Some (set_reader i n RdRespond (set_handle (Some (HRespond frame, OReader i)) e), [])
              end
          end
      end
  | Some (n, RdWait state) =>
      if bool_decide (state = sc_state (e_conn e)) then None else Some (set_reader i n RdLoop e, [])
  | Some (_, RdRespond) | None => None
  end.

(** [sendResponseLocked]: [c.responseMu.Lock(); c.handleMu.Unlock()], then the send. A reader
    sends its acknowledgement the same way. *)
Definition run_respond (e : endpoint) : option (endpoint * list StreamFrame) :=
  match e_handle e, e_resp e with
  | Some (HRespond frame, o), None => Some (set_resp (Some (frame, o)) (set_handle None e), [])
  | _, _ => None
  end.
Definition run_response (sendErr : option error) (e : endpoint) : option (endpoint * list StreamFrame) :=
  match e_resp e with
  | Some (frame, OFrame) => Some (log_error sendErr (set_resp None e), [frame])
  | Some (frame, OReader i) => Some (end_reader i (set_resp None e), [frame])
  | None => None
  end.

(** [Close]: the check and the snapshot; then [terminate]; then the frame. *)
Definition call_close (e : endpoint) : option (endpoint * list StreamFrame) :=
  if isClosed (e_conn e) then None
  else Some (set_closing (e_closing e ++ [(ss_epoch (sc_sender (e_conn e)), false)]) e, []).
Definition run_close (k : nat) (e : endpoint) : option (endpoint * list StreamFrame) :=
  match e_closing e !! k with
  | Some (epoch, false) =>
      Some (set_closing (<[k := (epoch, true)]> (e_closing e))
              (set_conn (terminate (Some (Sentinel ErrStreamClosed)) (e_conn e)) e), [])
  | Some (epoch, true) =>
      Some (set_closing (take k (e_closing e) ++ drop (S k) (e_closing e)) e,
            [mkStreamFrame StreamFrameClose (sc_id (e_conn e)) epoch 0 0 []])
  | None => None
  end.

Definition end_do (max : Z) (a : action) (e : endpoint) : option (endpoint * list StreamFrame) :=
  match a with
  | CallWrite p =>
      match e_write e, p with
      | None, _ :: _ => Some (set_write (Some (WLoop p 0)) e, [])
      | _, _ => None
      end
  | CallResume => match e_write e with None => Some (set_write (Some RSnapshot) e, []) | Some _ => None end
  | CallRead i n =>
      match e_readers e !! i with
      | None => if 0 <? n then Some (set_reader i n RdLoop e, []) else None
      | Some _ => None
      end
  | CallClose => call_close e
  | Arrive frame => end_arrive max frame e
  | RunWrite sendErr w =>
      match e_write e with
      | Some pc =>
          match write_step max sendErr w pc (e_conn e) with
          | Some o => Some (after_write pc o e, wo_sent o)
          | None => None
          end
      | None => None
      end
  | RunHandle =>
      match e_handle e with
      | Some (HRespond _, _) | None => None
      | Some (pc, _) => Some (after_handle (handle_step pc (e_conn e)) e, [])
      end
  | RunRespond => run_respond e
  | RunResponse sendErr => run_response sendErr e
  | RunRead i => run_read i e
  | RunClose k => run_close k e
  end.

(** ** Two endpoints *)

Record duplex : Type := mkDuplex {
  dx_a : endpoint;
  dx_b : endpoint;
  dx_ab : list StreamFrame;
  dx_ba : list StreamFrame;
}.

(** [DialID] on one side, [handleOpen] on the other: the acknowledgement of the OPEN is on its
    way; a network that repeats frames may still hold the OPEN itself ([again]). *)
Definition duplex_init (id : StreamID) (window : Z) (again : bool) : duplex :=
  mkDuplex (endpoint_init (newStreamConn id 1 window false)) (endpoint_init (newStreamConn id 1 window true))
    (if again then [mkStreamFrame StreamFrameOpen id 1 0 window []] else [])
    [mkStreamFrame StreamFrameOpenAck id 1 0 window []].

Definition flip (d : duplex) : duplex := mkDuplex (dx_b d) (dx_a d) (dx_ba d) (dx_ab d).

(** A step of side A; [inbox] is what the network may hand to it for this action. *)
Inductive a_step (max : Z) (may_arrive : list StreamFrame -> StreamFrame -> list StreamFrame -> Prop)
    : duplex -> action -> duplex -> Prop :=
| as_step d a e out inbox :
    end_do max a (dx_a d) = Some (e, out) ->
    len (e_log e) < two64 ->
    (match a with Arrive frame => may_arrive (dx_ba d) frame inbox | _ => inbox = dx_ba d end) ->
    a_step max may_arrive d a (mkDuplex e (dx_b d) (dx_ab d ++ out) inbox).

(** Frames stay in a hostile network and may arrive at any time, any number of times. *)
Definition hostile (inbox : list StreamFrame) (frame : StreamFrame) (left : list StreamFrame) : Prop :=
  frame ∈ inbox /\ left = inbox.
(** A reliable network delivers the oldest frame, once. *)
Definition fifo (inbox : list StreamFrame) (frame : StreamFrame) (left : list StreamFrame) : Prop :=
  inbox = frame :: left.

Inductive side : Type := SideA | SideB.

Inductive net_step (max : Z) (net : list StreamFrame -> StreamFrame -> list StreamFrame -> Prop)
    : duplex -> side * action -> duplex -> Prop :=
| ns_a d a d' : a_step max net d a d' -> net_step max net d (SideA, a) d'
| ns_b d a d' : a_step max net (flip d) a d' -> net_step max net d (SideB, a) (flip d').

Inductive net_reachable (max : Z) (net : list StreamFrame -> StreamFrame -> list StreamFrame -> Prop)
    (d0 : duplex) : duplex -> Prop :=
| nr_init : net_reachable max net d0 d0
| nr_step d l d' : net_reachable max net d0 d -> net_step max net d l d' -> net_reachable max net d0 d'.

Definition duplex_reachable (max : Z) := net_reachable max hostile.
Definition fifo_reachable (max : Z) := net_reachable max fifo.

(** ** Schedules *)

Inductive item : Type :=
| Run (s : side) (a : action)
| Deliver (s : side).  (* the oldest frame for this side arrives *)

Definition a_do (max : Z) (a : action) (d : duplex) : option duplex :=
  match a with
  | Arrive _ => None
  | _ => '(e, out) ← end_do max a (dx_a d);
         if len (e_log e) <? two64 then Some (mkDuplex e (dx_b d) (dx_ab d ++ out) (dx_ba d)) else None
  end.

Definition a_deliver (max : Z) (d : duplex) : option duplex :=
  match dx_ba d with
  | frame :: rest =>
      '(e, out) ← end_do max (Arrive frame) (dx_a d);
      if len (e_log e) <? two64 then Some (mkDuplex e (dx_b d) (dx_ab d ++ out) rest) else None
  | [] => None
  end.

Definition item_do (max : Z) (it : item) (d : duplex) : option duplex :=
  match it with
  | Run SideA a => a_do max a d
  | Run SideB a => flip <$> a_do max a (flip d)
  | Deliver SideA => a_deliver max d
  | Deliver SideB => flip <$> a_deliver max (flip d)
  end.

Fixpoint schedule (max : Z) (its : list item) (d : duplex) : option duplex :=
  match its with
  | [] => Some d
  | it :: rest => item_do max it d ≫= schedule max rest
  end.

Lemma a_do_step max a d d' : a_do max a d = Some d' -> a_step max fifo d a d'.
Proof.
  unfold a_do. intros H. destruct (end_do max a (dx_a d)) as [[e out]|] eqn:Hdo; [|by destruct a].
  destruct a; try done; simpl in H; (destruct (_ <? two64) eqn:E; [|done]); simplify_eq; bool_facts; by constructor.
Qed.

Lemma a_deliver_step max d d' : a_deliver max d = Some d' -> exists f, a_step max fifo d (Arrive f) d'.
Proof.
  unfold a_deliver. destruct (dx_ba d) as [|f rest] eqn:Hba; [done|].
  destruct (end_do _ _ _) as [[e out]|] eqn:Hdo; [|done]. simpl. destruct (_ <? two64) eqn:E; [|done].
  intros [= <-]. exists f. bool_facts. by constructor.
Qed.

Lemma schedule_reachable max its d0 d d' :
  fifo_reachable max d0 d -> schedule max its d = Some d' -> fifo_reachable max d0 d'.
Proof.
  revert d. induction its as [|it its IH]; intros d Hr; simpl; [by intros [= <-]|].
  destruct (item_do max it d) as [d1|] eqn:Hdo; [|done]. apply IH.
  assert (exists l, net_step max fifo d l d1) as [l Hl]; [|by eapply nr_step].
  destruct it as [[] a|[]]; simpl in Hdo.
  - eexists. by apply ns_a, a_do_step.
  - destruct (a_do _ _ _) as [d2|] eqn:H2; simplify_eq/=. eexists. by apply ns_b, a_do_step.
  - apply a_deliver_step in Hdo as [f Hf]. eexists. by apply ns_a.
  - destruct (a_deliver _ _) as [d2|] eqn:H2; simplify_eq/=. apply a_deliver_step in H2 as [f Hf]. eexists. by apply ns_b.
Qed.

(** Common pieces of a run. *)

Definition go_on (s : side) : item := Run s (RunWrite None WakeReady).
Definition handle (s : side) : list item := [Deliver s; Run s RunHandle].
Definition respond (s : side) : list item := [Run s RunRespond; Run s (RunResponse None)].
(** The reader checks, consumes and acknowledges. *)
Definition read_one (s : side) : list item := [Run s (RunRead 0); Run s (RunRead 0)] ++ respond s.
(** The reader calls [Read] and falls asleep. *)
Definition read_more (s : side) : list item := [Run s (CallRead 0 4); Run s (RunRead 0)].

Definition bytes4 : bytes := [Byte.x61; Byte.x62; Byte.x63; Byte.x64].

(** From an opened pair with a window and a frame size of four bytes. *)
Definition run_from_open (its : list item) : duplex :=
  default (duplex_init demo_id 4 false) (schedule 4 its (duplex_init demo_id 4 false)).

Lemma run_from_open_reachable its :
  is_Some (schedule 4 its (duplex_init demo_id 4 false)) ->
  fifo_reachable 4 (duplex_init demo_id 4 false) (run_from_open its).
Proof.
  intros [d Hd]. unfold run_from_open. rewrite Hd. simpl.
  eapply schedule_reachable; [apply nr_init|exact Hd].
Qed.
