(* ===== verification/StreamRefine.v ===== *)
(** * Stream connections refine the protocol states over an unreliable network

    [direction]: whatever the goroutines of the two [StreamConn]s do, each direction of the
    pair is a run of [StreamLink] - the network of the abstract system holds every frame that
    is or will be sent - so what [StreamLink] guarantees holds of [Read] and [Write]. Then the
    local facts of one connection: what [Write] reports, the bound of the read buffer, and
    that a reader never sleeps on data. *)

From stdpp Require Import base list strings gmap.
From S2P Require Import Prelude Errors StreamProtocol StreamLink StreamConn StreamDuplex.

(** ** Each direction behaves like the protocol states over an unreliable network *)

(** The frames a goroutine that holds [writeMu] still has to send. *)
Definition write_frames (id : StreamID) (pc : option write_pc) : list StreamFrame :=
  match pc with
  | Some (WSend _ _ frame) => [frame]
  | Some (RRegister epoch acked frames | RAnnounce epoch acked frames _) =>
      mkStreamFrame StreamFrameResume id epoch acked 0 [] :: frames
  | Some (RWait frames _ | RFrames frames) => frames
  | _ => []
  end.

(** The frames a holder of [handleMu] or [responseMu] still has to send. *)
Definition pending_acks (e : endpoint) : list StreamFrame :=
  match e_handle e with Some (HRespond frame, _) => [frame] | _ => [] end ++
  match e_resp e with Some (frame, _) => [frame] | None => [] end.

Definition is_forward (f : StreamFrame) : Prop := sf_Kind f = StreamFrameData \/ sf_Kind f = StreamFrameResume.

(** What endpoint [e] and its outbox say of a link whose sending end it is. *)
Record sends (e : endpoint) (outbox : list StreamFrame) (l : link) : Prop := {
  sn_id : sc_id (e_conn e) = ss_id (lk_snd l);
  sn_sender : sc_sender (e_conn e) = lk_snd l;
  sn_log : e_log e = lk_sent l;
  sn_out : forall f, f ∈ outbox -> is_forward f -> f ∈ lk_net l;
  sn_frames : forall f, f ∈ write_frames (sc_id (e_conn e)) (e_write e) -> is_forward f /\ f ∈ lk_net l;
  sn_snapshot : forall epoch acked, e_write e = Some (RSender epoch acked) ->
                  epoch = ss_epoch (lk_snd l) /\ acked <= ss_acked (lk_snd l);
}.

(** What endpoint [e] and its outbox say of a link whose receiving end it is. *)
Record receives (e : endpoint) (outbox : list StreamFrame) (l : link) : Prop := {
  rc_id : sc_id (e_conn e) = sr_id (lk_rcv l);
  rc_receiver : sc_receiver (e_conn e) = lk_rcv l;
  rc_got : lk_got l = e_read e ++ sc_readBuf (e_conn e);
  rc_out : forall f, f ∈ outbox -> sf_Kind f = StreamFrameAck -> f ∈ lk_net l;
  rc_acks : forall f, f ∈ pending_acks e -> sf_Kind f = StreamFrameAck /\ f ∈ lk_net l;
  rc_data : forall f o, e_handle e = Some (HData f, o) -> f ∈ lk_net l;
}.

Lemma pending_acks_spec f e :
  f ∈ pending_acks e <-> (exists o, e_handle e = Some (HRespond f, o)) \/ (exists o, e_resp e = Some (f, o)).
Proof.
  unfold pending_acks. rewrite elem_of_app. split.
  - intros [Hf|Hf]; [left|right]; repeat case_match; try (by apply not_elem_of_nil in Hf);
      apply list_elem_of_singleton in Hf as ->; eauto.
  - intros [[o ->]|[o ->]]; [left|right]; by left.
Qed.

(** ** The shapes of a step *)

(** Readers that sleep after a step slept before it. *)
Definition no_new_sleeper (e e' : endpoint) : Prop :=
  forall i n state, e_readers e' !! i = Some (n, RdWait state) -> e_readers e !! i = Some (n, RdWait state).

Lemma same_sleepers e e' : e_readers e' = e_readers e -> no_new_sleeper e e'.
Proof. by intros H i n state; rewrite H. Qed.

Inductive end_view (max : Z) (e : endpoint) : action -> endpoint -> list StreamFrame -> Prop :=
| ev_call a pc : e_write e = None -> pc = RSnapshot \/ (exists p, pc = WLoop p 0) ->
    end_view max e a (set_write (Some pc) e) []
| ev_write sendErr w pc o : e_write e = Some pc -> write_step max sendErr w pc (e_conn e) = Some o ->
    end_view max e (RunWrite sendErr w) (after_write pc o e) (wo_sent o)
| ev_arrive frame : HandleFrame_check max frame = None -> e_handle e = None ->
    end_view max e (Arrive frame) (after_handle (handle_start frame (e_conn e)) e) []
| ev_handle pc o : e_handle e = Some (pc, o) -> (forall f, pc <> HRespond f) ->
    end_view max e RunHandle (after_handle (handle_step pc (e_conn e)) e) []
| ev_respond frame o : e_handle e = Some (HRespond frame, o) -> e_resp e = None ->
    end_view max e RunRespond (set_resp (Some (frame, o)) (set_handle None e)) []
| ev_response frame o sendErr e' : e_resp e = Some (frame, o) ->
    e' = (match o with OFrame => log_error sendErr (set_resp None e) | OReader i => end_reader i (set_resp None e) end) ->
    end_view max e (RunResponse sendErr) e' [frame]
| ev_read i e' out : run_read i e = Some (e', out) -> end_view max e (RunRead i) e' out
| ev_terminate k l :
    end_view max e (RunClose k) (set_closing l (set_conn (terminate (Some (Sentinel ErrStreamClosed)) (e_conn e)) e)) []
| ev_idle a e' out : e_conn e' = e_conn e -> e_write e' = e_write e -> e_handle e' = e_handle e ->
    e_resp e' = e_resp e -> e_log e' = e_log e -> e_done e' = e_done e -> e_read e' = e_read e -> no_new_sleeper e e' ->
    Forall (fun f => ~ is_forward f /\ sf_Kind f <> StreamFrameAck) out -> end_view max e a e' out.

Lemma neither_frame k id epoch offset window p :
  (k = StreamFrameOpen \/ k = StreamFrameOpenAck \/ k = StreamFrameClose) ->
  Forall (fun f => ~ is_forward f /\ sf_Kind f <> StreamFrameAck) [mkStreamFrame k id epoch offset window p].
Proof. intros [->|[->| ->]]; (constructor; [|constructor]); (split; [intros [E|E]; discriminate E|discriminate]). Qed.

Lemma end_do_view max a e e' out : end_do max a e = Some (e', out) -> end_view max e a e' out.
Proof.
  destruct a as [p| |i n| |frame|sendErr w| | |sendErr|i|k]; simpl; unfold call_close, run_respond, run_response, run_close; intros Hdo.
  - destruct (e_write e) eqn:Hw; [done|]. destruct p; [done|]. simplify_eq. constructor; eauto.
  - destruct (e_write e) eqn:Hw; [done|]. simplify_eq. constructor; auto.
  - destruct (e_readers e !! i) eqn:Hr; [done|]. destruct (0 <? n); [|done]. simplify_eq. apply ev_idle; try done.
    intros j m g. simpl. rewrite lookup_insert. case_decide; naive_solver.
  - destruct (isClosed _); [done|]. simplify_eq. by apply ev_idle; auto using same_sleepers.
  - unfold end_arrive in Hdo. destruct (HandleFrame_check _ _) eqn:Hc; [simplify_eq; by apply ev_idle; auto using same_sleepers|].
    destruct (negb _); [simplify_eq; by apply ev_idle; auto using same_sleepers|].
    destruct (_ =? StreamFrameOpen); [guards_in Hdo; apply ev_idle; auto using same_sleepers, neither_frame|].
    destruct (e_handle e) eqn:Hh; [done|]. simplify_eq. by constructor.
  - destruct (e_write e) eqn:Hw; [|done]. destruct (write_step _ _ _ _ _) as [o|] eqn:Ho; [|done]. simplify_eq.
    by eapply ev_write.
  - destruct (e_handle e) as [[[] o]|] eqn:Hh; simplify_eq; by eapply ev_handle.
  - destruct (e_handle e) as [[[] o]|] eqn:Hh; destruct (e_resp e) eqn:Hp; simplify_eq; by apply ev_respond.
  - destruct (e_resp e) as [[f []]|] eqn:Hr; simplify_eq; by eapply ev_response.
  - by constructor.
  - destruct (e_closing e !! k) as [[epoch []]|]; simplify_eq; [|apply ev_terminate].
    apply ev_idle; auto using same_sleepers, neither_frame.
Qed.

(** At most one step of the abstract system. *)
Definition opt_step (l l' : link) : Prop := l' = l \/ link_step l l'.

(** What a step of the sending end leaves to the receiving end, and the converse. *)
Definition sender_moves (l l' : link) : Prop :=
  opt_step l l' /\ lk_rcv l' = lk_rcv l /\ lk_got l' = lk_got l /\ (forall f, f ∈ lk_net l -> f ∈ lk_net l').
Definition receiver_moves (l l' : link) : Prop :=
  opt_step l l' /\ lk_snd l' = lk_snd l /\ lk_sent l' = lk_sent l /\ (forall f, f ∈ lk_net l -> f ∈ lk_net l').

Lemma sender_stays l : sender_moves l l.
Proof. repeat split; [by left|auto]. Qed.
Lemma receiver_stays l : receiver_moves l l.
Proof. repeat split; [by left|auto]. Qed.
#[local] Hint Resolve sender_stays receiver_stays : go.

Lemma receives_mono e out l l' : sender_moves l l' -> receives e out l -> receives e out l'.
Proof.
  intros (_ & Hr & Hg & Hn) []. split; rewrite ?Hr, ?Hg; auto.
  - intros f Hf. destruct (rc_acks0 f Hf). auto.
  - eauto.
Qed.

Lemma sends_mono e out l l' : receiver_moves l l' -> sends e out l -> sends e out l'.
Proof.
  intros (_ & Hs & Hl & Hn) []. split; rewrite ?Hs, ?Hl; auto.
  intros f Hf. destruct (sn_frames0 f Hf). auto.
Qed.

(** A section that leaves the sending half alone and sends nothing forward. *)
Lemma sends_frame e e' outbox out l :
  sends e outbox l ->
  sc_id (e_conn e') = sc_id (e_conn e) -> sc_sender (e_conn e') = sc_sender (e_conn e) ->
  e_log e' = e_log e -> e_write e' = e_write e -> Forall (fun f => ~ is_forward f) out ->
  sends e' (outbox ++ out) l.
Proof.
  intros [] Hi Hs Hl Hw Ho. split; rewrite ?Hi, ?Hs, ?Hl, ?Hw; auto.
  intros f [Hf|Hf]%elem_of_app Hk; [auto|]. by destruct (Forall_elem _ _ _ Ho Hf).
Qed.

Lemma receives_frame e e' outbox out l :
  receives e outbox l ->
  sc_id (e_conn e') = sc_id (e_conn e) -> sc_receiver (e_conn e') = sc_receiver (e_conn e) ->
  sc_readBuf (e_conn e') = sc_readBuf (e_conn e) -> e_read e' = e_read e ->
  (forall f, f ∈ pending_acks e' -> f ∈ pending_acks e) ->
  (forall f o, e_handle e' = Some (HData f, o) -> e_handle e = Some (HData f, o)) ->
  Forall (fun f => sf_Kind f = StreamFrameAck -> f ∈ lk_net l) out ->
  receives e' (outbox ++ out) l.
Proof.
  intros [] Hi Hr Hb Hd Hp Hh Ho. split; rewrite ?Hi, ?Hr, ?Hb, ?Hd; auto.
  - intros f [Hf|Hf]%elem_of_app Hk; [auto|]. exact (Forall_elem _ _ _ Ho Hf Hk).
  - intros f o Hf; eapply rc_data0, Hh, Hf.
Qed.

(** [pc'] has no frame to send that [pc] had not, and is not a fresh snapshot. *)
Lemma sends_go e outbox l pc pc' c :
  sends e outbox l -> e_write e = Some pc -> sc_id c = sc_id (e_conn e) -> sc_sender c = sc_sender (e_conn e) ->
  (forall f, f ∈ write_frames (sc_id c) pc' -> f ∈ write_frames (sc_id c) (Some pc)) ->
  (forall epoch acked, pc' = Some (RSender epoch acked) ->
     epoch = ss_epoch (sc_sender c) /\ acked = ss_acked (sc_sender c)) ->
  forall e', e_conn e' = c -> e_log e' = e_log e -> e_write e' = pc' ->
  forall out, Forall (fun f => f ∈ write_frames (sc_id c) (Some pc)) out ->
  sends e' (outbox ++ out) l.
Proof.
  intros [] Hw Hi Hs Hf Hn e' <- Hl <- out Ho. rewrite Hw in sn_frames0. split; rewrite ?Hi, ?Hs, ?Hl in *; auto.
  - intros f [Hin|Hin]%elem_of_app Hk; [auto|]. by apply sn_frames0, (Forall_elem _ _ _ Ho).
  - intros epoch acked He. destruct (Hn _ _ He) as [-> ->]. rewrite sn_sender0. done.
Qed.

Lemma write_step_stays max sendErr w pc c o :
  write_step max sendErr w pc c = Some o ->
  sc_id (wo_conn o) = sc_id c /\ sc_receiver (wo_conn o) = sc_receiver c /\
  sc_readBuf (wo_conn o) = sc_readBuf c /\ sc_window (wo_conn o) = sc_window c.
Proof.
  unfold write_step, wgo, wret, clearResume. intros H. guards_in H; try done; by case_bool_decide.
Qed.

Lemma after_write_eqs pc o e :
  e_conn (after_write pc o e) = wo_conn o /\ e_log (after_write pc o e) = e_log e ++ wo_taken o /\
  e_write (after_write pc o e) = (match wo_next o with WGo pc' => Some pc' | WReturn _ _ => None end) /\
  e_read (after_write pc o e) = e_read e /\ e_handle (after_write pc o e) = e_handle e /\
  e_resp (after_write pc o e) = e_resp e /\ e_readers (after_write pc o e) = e_readers e.
Proof. unfold after_write. by destruct (wo_next o). Qed.

Lemma Data_id s payload frame s' :
  Data s payload = (Ok frame, s') ->
  ss_id s' = ss_id s /\ ss_acked s' = ss_acked s /\ ss_epoch s' = ss_epoch s /\ sf_Kind frame = StreamFrameData.
Proof. unfold Data. intros Hd. by guards_in Hd. Qed.

(** [Write] handed bytes to the sender's state. *)
Lemma sends_data e outbox l p written chunk payload frame s :
  sends e outbox l -> Data (sc_sender (e_conn e)) payload = (Ok frame, s) -> len (e_log e) + len payload < two64 ->
  forall e', e_conn e' = set_sender s (e_conn e) -> e_log e' = e_log e ++ payload ->
  e_write e' = Some (WSend p (written + chunk) frame) ->
  exists l', sender_moves l l' /\ sends e' outbox l'.
Proof.
  intros [] Hd Hb e' Hc Hl Hw. destruct l as [s0 r sent got net]; simpl in *. subst s0.
  pose proof (Data_id _ _ _ _ Hd) as (Hi & _ & _ & Hk).
  exists (mkLink s r (sent ++ payload) got (net ++ [frame])). split.
  - split; [right; apply ls_data; congruence|]. repeat split. simpl. intros f Hf. apply elem_of_app. by left.
  - split; rewrite ?Hc, ?Hl, ?Hw; simpl; try congruence.
    + intros f Hf Hk'. apply elem_of_app. left. auto.
    + intros f ->%list_elem_of_singleton. split; [by left|]. apply elem_of_app. right. by left.
Qed.

(** [Resume] moved the sender's state to a new epoch. *)
Lemma sends_resume e outbox l epoch acked frames s :
  sends e outbox l -> e_write e = Some (RSender epoch acked) ->
  SenderResume (sc_sender (e_conn e)) (epoch +u 1) acked = (Ok frames, s) ->
  forall e', e_conn e' = set_sender s (e_conn e) -> e_log e' = e_log e ->
  e_write e' = Some (RRegister (epoch +u 1) acked frames) -> link_inv l ->
  exists l', sender_moves l l' /\ sends e' outbox l'.
Proof.
  intros [] Hw Hr e' Hc Hl Hw' Hinv. destruct (sn_snapshot0 _ _ Hw) as [-> Ha].
  destruct l as [s0 r sent got net]; simpl in *. subst s0.
  assert (acked = ss_acked (sc_sender (e_conn e))) as ->.
  { unfold SenderResume in Hr. guards_in Hr. lia. }
  pose proof (SenderResume_inv _ _ _ _ _ _ (li_sender _ Hinv) (u64_range _) Hr) as (_ & _ & _ & Hid & _ & Hch & _).
  apply chain_data in Hch. simpl in *.
  eexists. split; [split; [right; by apply ls_resume|]|].
  - repeat split. simpl. intros f Hf. apply elem_of_app. by left.
  - split; rewrite ?Hc, ?Hl, ?Hw'; simpl; try congruence.
    + intros f Hf Hk'. apply elem_of_app. left. auto.
    + intros f Hf. rewrite sn_id0 in Hf. split; [|apply elem_of_app; by right].
      apply elem_of_cons in Hf as [->|Hf]; [by right|]. left. exact (Forall_elem _ _ _ Hch Hf).
Qed.

Definition next_pc (n : write_next) : option write_pc :=
  match n with WGo pc => Some pc | WReturn _ _ => None end.

(** A section of [writeMu]'s holder changes the sender's state in two places only. *)
Record quiet (pc : write_pc) (c : StreamConn) (o : write_out) : Prop := {
  qt_sender : sc_sender (wo_conn o) = sc_sender c;
  qt_taken : wo_taken o = [];
  qt_frames : forall f, f ∈ write_frames (sc_id c) (next_pc (wo_next o)) -> f ∈ write_frames (sc_id c) (Some pc);
  qt_snapshot : forall epoch acked, next_pc (wo_next o) = Some (RSender epoch acked) ->
                  epoch = ss_epoch (sc_sender c) /\ acked = ss_acked (sc_sender c);
  qt_sent : Forall (fun f => f ∈ write_frames (sc_id c) (Some pc)) (wo_sent o);
}.

Lemma write_step_cases max sendErr w pc c o :
  write_step max sendErr w pc c = Some o ->
  (exists p written n frame s payload, Data (sc_sender c) payload = (Ok frame, s) /\
     o = mkWriteOut (WGo (WSend p (written + n) frame)) (set_sender s c) [] payload) \/
  (exists epoch acked frames s, pc = RSender epoch acked /\
     SenderResume (sc_sender c) (epoch +u 1) acked = (Ok frames, s) /\
     o = mkWriteOut (WGo (RRegister (epoch +u 1) acked frames)) (set_sender s c) [] []) \/
  quiet pc c o.
Proof.
  intros Ho. unfold write_step, wgo, wret, sender_snapshot in Ho.
  destruct pc; try (right; right; guards_in Ho; split; simpl; unfold clearResume; try case_bool_decide; try done;
    try (intros; set_solver); try (repeat constructor; set_solver); intros ?? [= <- <-]; done).
  - destruct (Data _ _) as [[frame|err|] s] eqn:Hd; simplify_eq/=; [left|right; right; by split].
    by do 6 eexists.
  - destruct (SenderResume _ _ _) as [[frames|err|] s] eqn:Hd; simplify_eq/=; right; [left|right; by split].
    by do 4 eexists.
Qed.

Lemma sends_write max sendErr w e outbox l pc o :
  sends e outbox l -> link_inv l -> e_write e = Some pc -> write_step max sendErr w pc (e_conn e) = Some o ->
  len (e_log e ++ wo_taken o) < two64 ->
  exists l', sender_moves l l' /\ sends (after_write pc o e) (outbox ++ wo_sent o) l'.
Proof.
  intros Hs Hinv Hw Ho Hb. rewrite len_app in Hb.
  destruct (after_write_eqs pc o e) as (Ec & El & Ew & _).
  pose proof (write_step_stays _ _ _ _ _ _ Ho) as (Hid & _).
  apply write_step_cases in Ho as [(p & written & n & frame & s & payload & Hd & ->)
    |[(epoch & acked & frames & s & -> & Hd & ->)|[]]].
  - simpl wo_sent. rewrite app_nil_r. eapply sends_data; eauto.
  - simpl wo_sent. rewrite app_nil_r. eapply sends_resume; eauto. by rewrite El, app_nil_r.
  - exists l. split; [auto with go|]. rewrite <- Hid in *.
    eapply (sends_go e outbox l pc _ (wo_conn o)); eauto; [by rewrite qt_sender0|by rewrite El, qt_taken0, app_nil_r].
Qed.

(** *** The frame handler *)

Definition next_handle (n : handle_next) : option (handle_pc * owner) :=
  match n with HGo pc => Some (pc, OFrame) | HReturn _ => None end.

Lemma after_handle_eqs r e :
  e_conn (after_handle r e) = r.2 /\ e_log (after_handle r e) = e_log e /\ e_write (after_handle r e) = e_write e /\
  e_read (after_handle r e) = e_read e /\ e_resp (after_handle r e) = e_resp e /\
  e_handle (after_handle r e) = next_handle r.1 /\ e_readers (after_handle r e) = e_readers e.
Proof. unfold after_handle. by destruct r as [[]]. Qed.

Lemma terminate_stays err c :
  sc_id (terminate err c) = sc_id c /\ sc_sender (terminate err c) = sc_sender c /\
  sc_receiver (terminate err c) = sc_receiver c /\ sc_readBuf (terminate err c) = sc_readBuf c /\
  sc_window (terminate err c) = sc_window c.
Proof. unfold terminate. by destruct (sc_closeErr c). Qed.

Lemma Acknowledge_id s epoch offset window s' :
  Acknowledge s epoch offset window = (None, s') ->
  ss_id s' = ss_id s /\ ss_epoch s' = ss_epoch s /\ ss_acked s <= ss_acked s' /\ epoch = ss_epoch s.
Proof. unfold Acknowledge. intros Ha. by guards_in Ha. Qed.

(** The first section of the handler: an acknowledgement for the sending half, a resume for
    the receiving half, a data frame that waits for its second section, or nothing. *)
Lemma handle_start_cases frame c r :
  handle_start frame c = r ->
  (exists s offset, (offset = 0 \/ sf_Kind frame = StreamFrameAck /\ offset = sf_Offset frame) /\
     Acknowledge (sc_sender c) (sf_Epoch frame) offset (sf_Window frame) = (None, s) /\
     r.2 = set_sender s c /\ (next_handle r.1 = Some (HOpenAck frame, OFrame) \/ next_handle r.1 = Some (HAck frame, OFrame))) \/
  (exists rcv w, sf_Kind frame = StreamFrameResume /\
     ReceiverResume (sc_receiver c) (sf_Epoch frame) (sf_Offset frame) = (Ok (receiver_ack rcv), rcv) /\
     r.2 = set_received rcv (sc_readBuf c) c /\
     next_handle r.1 = Some (HRespond (with_window w (receiver_ack rcv)), OFrame)) \/
  (sc_id r.2 = sc_id c /\ sc_sender r.2 = sc_sender c /\ sc_receiver r.2 = sc_receiver c /\ sc_readBuf r.2 = sc_readBuf c /\
   sc_window r.2 = sc_window c /\
   (next_handle r.1 = None \/ sf_Kind frame = StreamFrameData /\ handleData_check frame c = None /\
      next_handle r.1 = Some (HData frame, OFrame))).
Proof.
  intros <-. unfold handle_start.
  destruct (sf_Kind frame =? StreamFrameOpenAck) eqn:E1; [|destruct (sf_Kind frame =? StreamFrameData) eqn:E2;
    [|destruct (sf_Kind frame =? StreamFrameAck) eqn:E3; [|destruct (sf_Kind frame =? StreamFrameResume) eqn:E4;
    [|destruct (sf_Kind frame =? StreamFrameClose) eqn:E5]]]]; bool_facts.
  - destruct (Acknowledge _ _ _ _) as [[e|] s] eqn:Ha; [right; right; split_and!; auto|].
    left. exists s, 0. split_and!; auto.
  - destruct (handleData_check frame c) eqn:Hd; right; right; split_and!; auto.
  - destruct (Acknowledge _ _ _ _) as [[e|] s] eqn:Ha; [right; right; split_and!; auto|].
    left. exists s, (sf_Offset frame). split_and!; auto.
  - destruct (ReceiverResume _ _ _) as [[ack|e|] rcv] eqn:Hr; [|right; right; split_and!; auto..].
    right; left. exists rcv. unfold ReceiverResume in Hr. guards_in Hr. eexists. split_and!; done.
  - simpl. destruct (sf_Epoch frame =? _); right; right; [|split_and!; auto].
    destruct (terminate_stays (Some (Sentinel EOF)) c) as (? & ? & ? & ? & ?). split_and!; auto.
  - right; right. split_and!; auto.
Qed.

(** The later sections. *)
Lemma handle_step_cases pc c r :
  handle_step pc c = r ->
  (exists frame payload ack rcv w, pc = HData frame /\ Accept (sc_receiver c) frame = (Ok (payload, ack), rcv) /\
     r = (HGo (HRespond (with_window w ack)), signalLocked (set_received rcv (sc_readBuf c ++ payload) c)) /\
     w = free_credit (set_received rcv (sc_readBuf c ++ payload) c)) \/
  (sc_id r.2 = sc_id c /\ sc_sender r.2 = sc_sender c /\ sc_receiver r.2 = sc_receiver c /\ sc_readBuf r.2 = sc_readBuf c /\
   sc_window r.2 = sc_window c /\ (next_handle r.1 = None \/ exists f, pc = HRespond f)).
Proof.
  intros <-. destruct pc as [frame|frame|frame|frame]; simpl.
  - right. split_and!; auto.
  - right. unfold wakeResume. repeat case_match; split_and!; auto.
  - unfold handleData_accept. destruct (Accept _ _) as [[[payload ack]|e|] rcv] eqn:Ha; [left|right; split_and!; auto..].
    by do 5 eexists.
  - right. split_and!; eauto.
Qed.

Lemma sends_arrive frame e outbox l r :
  sends e outbox l -> handle_start frame (e_conn e) = r -> (sf_Kind frame = StreamFrameAck -> frame ∈ lk_net l) ->
  exists l', sender_moves l l' /\ sends (after_handle r e) outbox l'.
Proof.
  intros Hs Hr Hin. destruct (after_handle_eqs r e) as (Ec & El & Ew & _).
  apply handle_start_cases in Hr as [(s & offset & Hoff & Ha & Hc & _)|[(rcv & w & _ & _ & Hc & _)|(Hi & Hsn & _)]].
  - destruct Hs. destruct l as [s0 r0 sent got net]; simpl in *. subst s0.
    pose proof (Acknowledge_id _ _ _ _ _ Ha) as (Hid & He & Hle & _).
    exists (mkLink s r0 sent got net). split.
    + split; [right|by repeat split]. destruct Hoff as [->|[Hk ->]]; [by eapply ls_open|eapply ls_ack; eauto].
    + split; rewrite ?Ec, ?El, ?Ew, ?Hc; simpl; auto; [congruence|].
      intros epoch acked Hw. destruct (sn_snapshot0 _ _ Hw) as [-> ?]. split; [done|lia].
  - exists l. split; [auto with go|]. rewrite <- (app_nil_r outbox).
    eapply sends_frame; eauto; by rewrite Ec, Hc.
  - exists l. split; [auto with go|]. rewrite <- (app_nil_r outbox).
    eapply sends_frame; eauto; by rewrite Ec.
Qed.

(** *** Readers *)

Lemma Read_consume_stays n c p ack c' :
  Read_consume n c = Some (p, ack, c') ->
  sc_id c' = sc_id c /\ sc_sender c' = sc_sender c /\ sc_receiver c' = sc_receiver c /\
  sc_readBuf c = p ++ sc_readBuf c' /\ sc_window c' = sc_window c /\ sc_closeErr c' = sc_closeErr c /\
  sc_state c' = sc_state c /\ ack = (if isClosed c then None else Some (mkStreamFrame StreamFrameAck (sc_id c)
    (sr_epoch (sc_receiver c)) (sr_offset (sc_receiver c)) (free_credit c') [])).
Proof.
  unfold Read_consume. destruct (sc_readBuf c) eqn:Hb; [done|].
  unfold receiver_snapshot. intros [= <- <- <-]. simpl. rewrite take_drop. done.
Qed.

(** A step of a reader leaves the sending half, and changes the rest only when it consumes. *)
Lemma run_read_cases i e e' out :
  run_read i e = Some (e', out) ->
  out = [] /\ e_log e' = e_log e /\ e_write e' = e_write e /\ e_resp e' = e_resp e /\
  ((e_conn e' = e_conn e /\ e_read e' = e_read e /\ e_handle e' = e_handle e) \/
   (exists n p ack, Read_consume n (e_conn e) = Some (p, ack, e_conn e') /\ e_read e' = e_read e ++ p /\
      e_handle e = None /\ e_handle e' = (match ack with Some f => Some (HRespond f, OReader i) | None => None end))).
Proof.
  unfold run_read. destruct (e_readers e !! i) as [[n [| | |]]|]; try done.
  - destruct (Read_check (e_conn e)); intros [= <- <-]; split_and!; auto.
  - destruct (e_handle e) eqn:Hh; [done|].
    destruct (Read_consume n (e_conn e)) as [[[p ack] c]|] eqn:Hc.
    + destruct ack; intros [= <- <-]; split_and!; auto; right; by do 3 eexists.
    + intros [= <- <-]. rewrite <- Hh. split_and!; auto.
  - case_bool_decide; [done|]. intros [= <- <-]. split_and!; auto.
Qed.

Lemma send_step max a e e' out outbox l :
  end_view max e a e' out -> sends e outbox l -> link_inv l ->
  Forall (fun f => sf_Kind f = StreamFrameAck) (pending_acks e) ->
  (forall f, a = Arrive f -> sf_Kind f = StreamFrameAck -> f ∈ lk_net l) -> len (e_log e') < two64 ->
  exists l', sender_moves l l' /\ sends e' (outbox ++ out) l'.
Proof.
  intros Hdo Hs Hinv Hacks Har Hb.
  assert (sc_id (e_conn e') = sc_id (e_conn e) -> sc_sender (e_conn e') = sc_sender (e_conn e) ->
    e_log e' = e_log e -> e_write e' = e_write e -> Forall (fun f => ~ is_forward f) out ->
    exists l', sender_moves l l' /\ sends e' (outbox ++ out) l') as Hneutral.
  { intros. exists l. split; [auto with go|]. eapply sends_frame; eauto. }
  destruct Hdo as [a pc Hw Hpc|sendErr w pc o Hw Ho|frame _ Hh|pc o Hh Hnr|frame o Hh Hr|frame o sendErr e' Hr ->
    |i e' out Hr|k ls|a e' out Hc Hw _ _ Hl _ _ _ Hout].
  - exists l. split; [auto with go|]. destruct Hs. rewrite app_nil_r. destruct Hpc as [->|[p ->]];
      (split; auto; [intros f Hf; by apply not_elem_of_nil in Hf|by intros x y [=]]).
  - eapply sends_write; eauto. by destruct (after_write_eqs pc o e) as (_ & <- & _).
  - rewrite app_nil_r. by eapply sends_arrive; eauto.
  - destruct (after_handle_eqs (handle_step pc (e_conn e)) e) as (Ec & El & Ew & _).
    destruct (handle_step_cases pc (e_conn e) _ eq_refl) as [(f & payload & ack & rcv & w & _ & _ & Hr & _)|(Hi & Hsn & _)];
      apply Hneutral; rewrite ?Ec, ?El, ?Ew; try done; by rewrite ?Hr.
  - by apply Hneutral.
  - assert (Forall (fun f => ~ is_forward f) [frame]).
    { assert (sf_Kind frame = StreamFrameAck) as Hk
        by (apply (Forall_elem _ _ _ Hacks), pending_acks_spec; eauto).
      repeat constructor. intros [E|E]; rewrite Hk in E; discriminate. }
    destruct o; by apply Hneutral.
  - apply run_read_cases in Hr as (-> & Hl & Hw & _ & [(Hc & _)|(n & p & ack & Hc & _)]).
    + apply Hneutral; by rewrite ?Hc.
    + apply Read_consume_stays in Hc as (? & ? & _). by apply Hneutral.
  - apply Hneutral; try done; apply terminate_stays.
  - apply Hneutral; rewrite ?Hc; try done. eapply List.Forall_impl; [|exact Hout]. by intros f [].
Qed.

(** *** The receiving half *)

(** A new acknowledgement enters the abstract network when its section computes it. *)
Lemma receives_answer e e' outbox out l l' ack o :
  receives e outbox l -> receiver_moves l l' -> ack ∈ lk_net l' -> sf_Kind ack = StreamFrameAck ->
  sc_id (e_conn e') = sr_id (lk_rcv l') -> sc_receiver (e_conn e') = lk_rcv l' ->
  lk_got l' = e_read e' ++ sc_readBuf (e_conn e') ->
  e_handle e' = Some (HRespond ack, o) -> e_resp e' = e_resp e -> out = [] ->
  receives e' (outbox ++ out) l'.
Proof.
  intros [] (_ & _ & _ & Hn) Hin Hk Hi Hr Hg Hh Hp ->. rewrite app_nil_r. split; auto.
  - intros f [[o' Hf]|[o' Hf]]%pending_acks_spec.
    + rewrite Hh in Hf. by simplify_eq.
    + rewrite Hp in Hf. destruct (rc_acks0 f); [apply pending_acks_spec; eauto|]. auto.
  - intros f o' Hf. by rewrite Hh in Hf.
Qed.

Lemma receives_accept e outbox l frame o payload ack rcv w :
  receives e outbox l -> link_inv l -> e_handle e = Some (HData frame, o) ->
  Accept (sc_receiver (e_conn e)) frame = (Ok (payload, ack), rcv) ->
  exists l', receiver_moves l l' /\
    receives (after_handle (HGo (HRespond (with_window w ack)),
      signalLocked (set_received rcv (sc_readBuf (e_conn e) ++ payload) (e_conn e))) e) (outbox ++ []) l'.
Proof.
  intros Hrc Hinv Hh Ha. pose proof Hrc as []. destruct l as [s r sent got net]; simpl in *. subst r got.
  assert (sr_id rcv = sr_id (sc_receiver (e_conn e)) /\ ack = receiver_ack rcv) as [Hid ->].
  { unfold Accept in Ha. by guards_in Ha. }
  assert (link_step (mkLink s (sc_receiver (e_conn e)) sent (e_read e ++ sc_readBuf (e_conn e)) net)
    (mkLink s rcv sent ((e_read e ++ sc_readBuf (e_conn e)) ++ payload) (net ++ [with_window w (receiver_ack rcv)]))) as Hstep
    by (eapply ls_accept; eauto).
  eexists. split; [split; [by right|]; repeat split; simpl; intros f Hf; apply elem_of_app; by left|].
  eapply (receives_answer e); [exact Hrc|split; [by right|]; repeat split; simpl; intros f Hf; apply elem_of_app; by left
    |simpl; apply elem_of_app; right; by left|done|simpl; congruence|done| |done|done|done].
  simpl. by rewrite app_assoc.
Qed.

Lemma receives_resumed frame e outbox l rcv w :
  receives e outbox l -> frame ∈ lk_net l -> sf_Kind frame = StreamFrameResume -> e_handle e = None ->
  ReceiverResume (sc_receiver (e_conn e)) (sf_Epoch frame) (sf_Offset frame) = (Ok (receiver_ack rcv), rcv) ->
  forall e', e_conn e' = set_received rcv (sc_readBuf (e_conn e)) (e_conn e) -> e_read e' = e_read e ->
  e_resp e' = e_resp e -> e_handle e' = Some (HRespond (with_window w (receiver_ack rcv)), OFrame) ->
  exists l', receiver_moves l l' /\ receives e' (outbox ++ []) l'.
Proof.
  intros Hrc Hin Hk Hh Hr e' Hc Hd Hp Hh'. pose proof Hrc as []. destruct l as [s r sent got net]; simpl in *. subst r got.
  assert (sr_id rcv = sr_id (sc_receiver (e_conn e))) as Hid by (unfold ReceiverResume in Hr; by guards_in Hr).
  assert (receiver_moves (mkLink s (sc_receiver (e_conn e)) sent (e_read e ++ sc_readBuf (e_conn e)) net)
    (mkLink s rcv sent (e_read e ++ sc_readBuf (e_conn e)) (net ++ [with_window w (receiver_ack rcv)]))) as Hm.
  { split; [right; eapply ls_resumed; eauto|]. repeat split. simpl. intros f Hf. apply elem_of_app. by left. }
  eexists. split; [exact Hm|].
  eapply (receives_answer e); [exact Hrc|exact Hm|simpl; apply elem_of_app; right; by left|done| | | |exact Hh'|done|done];
    rewrite ?Hc, ?Hd; simpl; congruence.
Qed.

Lemma receives_read e e' outbox l n p ack i :
  receives e outbox l -> Read_consume n (e_conn e) = Some (p, ack, e_conn e') -> e_read e' = e_read e ++ p ->
  e_handle e = None -> e_handle e' = (match ack with Some f => Some (HRespond f, OReader i) | None => None end) ->
  e_resp e' = e_resp e ->
  exists l', receiver_moves l l' /\ receives e' (outbox ++ []) l'.
Proof.
  intros Hrc Hc Hd Hh Hh' Hp. apply Read_consume_stays in Hc as (Hi & _ & Hr & Hb & _ & _ & _ & Hack).
  pose proof Hrc as [].
  assert (lk_got l = e_read e' ++ sc_readBuf (e_conn e')) as Hg by (by rewrite Hd, <- app_assoc, <- Hb).
  destruct (isClosed (e_conn e)); subst ack.
  - exists l. split; [auto with go|]. rewrite app_nil_r. split; rewrite ?Hi, ?Hr; auto.
    + intros f [[o Hf]|[o Hf]]%pending_acks_spec; [by rewrite Hh' in Hf|]. apply rc_acks0, pending_acks_spec.
      rewrite Hp in Hf. eauto.
    + intros f o Hf. by rewrite Hh' in Hf.
  - destruct l as [s r sent got net]; simpl in *. subst r got.
    set (f := mkStreamFrame _ _ _ _ _ _) in Hh'.
    assert (f = with_window (free_credit (e_conn e')) (receiver_ack (sc_receiver (e_conn e)))) as Hf
      by (unfold f, with_window, receiver_ack; simpl; congruence).
    eexists (mkLink s _ sent _ (net ++ [f])).
    assert (receiver_moves (mkLink s (sc_receiver (e_conn e)) sent (e_read e ++ sc_readBuf (e_conn e)) net)
      (mkLink s (sc_receiver (e_conn e)) sent (e_read e ++ sc_readBuf (e_conn e)) (net ++ [f]))) as Hm.
    { split; [right; rewrite Hf; apply ls_credit|]. repeat split. simpl. intros g Hg'. apply elem_of_app. by left. }
    split; [exact Hm|]. eapply (receives_answer e); [exact Hrc|exact Hm|simpl; apply elem_of_app; right; by left|done|..];
      simpl; try done; congruence.
Qed.

Lemma receives_arrive frame e outbox l r :
  receives e outbox l -> handle_start frame (e_conn e) = r -> e_handle e = None ->
  (is_forward frame -> frame ∈ lk_net l) ->
  exists l', receiver_moves l l' /\ receives (after_handle r e) (outbox ++ []) l'.
Proof.
  intros Hrc Hr Hh Hin. destruct (after_handle_eqs r e) as (Ec & _ & _ & Ed & Ep & Eh & _).
  assert (forall pc, next_handle r.1 = pc -> (forall f o, pc <> Some (HRespond f, o)) ->
    sc_id r.2 = sc_id (e_conn e) -> sc_receiver r.2 = sc_receiver (e_conn e) -> sc_readBuf r.2 = sc_readBuf (e_conn e) ->
    (forall f o, pc = Some (HData f, o) -> f ∈ lk_net l) ->
    exists l', receiver_moves l l' /\ receives (after_handle r e) (outbox ++ []) l') as Hstay.
  { intros pc Hpc Hn Hi Hrv Hb Hd. exists l. split; [auto with go|]. rewrite app_nil_r. destruct Hrc.
    split; rewrite ?Ec, ?Ed, ?Hi, ?Hrv, ?Hb, ?Eh, ?Hpc; auto.
    intros f [[o Hf]|[o Hf]]%pending_acks_spec; [rewrite Eh, Hpc in Hf; by destruct (Hn f o)|].
    apply rc_acks0, pending_acks_spec. rewrite Ep in Hf. eauto. }
  apply handle_start_cases in Hr as [(s & offset & _ & _ & Hc & [Hn|Hn])|[(rcv & w & Hk & Hr & Hc & Hn)|(Hi & _ & Hrv & Hb & _ & Hn)]].
  - apply (Hstay _ Hn); rewrite ?Hc; naive_solver.
  - apply (Hstay _ Hn); rewrite ?Hc; naive_solver.
  - eapply (receives_resumed frame e outbox l rcv w); eauto; [apply Hin; by right|by rewrite Ec|by rewrite Eh].
  - destruct Hn as [Hn|(Hk & _ & Hn)]; apply (Hstay _ Hn); try done.
    intros f o [= <- <-]. apply Hin. by left.
Qed.

Lemma receives_handle e outbox l pc o :
  receives e outbox l -> link_inv l -> e_handle e = Some (pc, o) -> (forall f, pc <> HRespond f) ->
  exists l', receiver_moves l l' /\ receives (after_handle (handle_step pc (e_conn e)) e) (outbox ++ []) l'.
Proof.
  intros Hrc Hinv Hh Hnr.
  destruct (after_handle_eqs (handle_step pc (e_conn e)) e) as (Ec & _ & _ & Ed & Ep & Eh & _).
  destruct (handle_step_cases pc (e_conn e) _ eq_refl)
    as [(f & payload & ack & rcv & w & -> & Ha & Hr & _)|(Hi & _ & Hr & Hb & _ & [Hn|[f ->]])].
  - rewrite Hr. by eapply receives_accept.
  - exists l. split; [auto with go|]. eapply receives_frame; eauto; rewrite ?Ec; try done.
    + intros f. rewrite !pending_acks_spec, Eh, Hn, Ep. naive_solver.
    + intros f o'. by rewrite Eh, Hn.
  - by destruct (Hnr f).
Qed.

Lemma receives_write max sendErr w e outbox l pc o :
  receives e outbox l -> e_write e = Some pc -> write_step max sendErr w pc (e_conn e) = Some o ->
  Forall is_forward (write_frames (sc_id (e_conn e)) (e_write e)) ->
  receives (after_write pc o e) (outbox ++ wo_sent o) l.
Proof.
  intros Hrc Hw Ho Hfwd. rewrite Hw in Hfwd.
  destruct (after_write_eqs pc o e) as (Ec & _ & _ & Ed & Eh & Ep & _).
  destruct (write_step_stays _ _ _ _ _ _ Ho) as (Hi & Hr & Hb & _).
  eapply receives_frame; eauto; rewrite ?Ec; try done.
  - intros f. rewrite !pending_acks_spec, Eh, Ep. done.
  - intros f o'. by rewrite Eh.
  - apply write_step_cases in Ho as [(?&?&?&?&?&?&_&->)|[(?&?&?&?&_&_&->)|[]]]; [constructor..|].
    eapply List.Forall_impl; [|exact qt_sent0]. intros f Hf Hk.
    destruct (Forall_elem _ _ _ Hfwd Hf) as [E|E]; rewrite E in Hk; discriminate.
Qed.

Lemma receive_step max a e e' out outbox l :
  end_view max e a e' out -> receives e outbox l -> link_inv l ->
  Forall is_forward (write_frames (sc_id (e_conn e)) (e_write e)) ->
  (forall f, a = Arrive f -> is_forward f -> f ∈ lk_net l) ->
  exists l', receiver_moves l l' /\ receives e' (outbox ++ out) l'.
Proof.
  intros Hdo Hrc Hinv Hfwd Har.
  assert (sc_id (e_conn e') = sc_id (e_conn e) -> sc_receiver (e_conn e') = sc_receiver (e_conn e) ->
    sc_readBuf (e_conn e') = sc_readBuf (e_conn e) -> e_read e' = e_read e ->
    (forall f, f ∈ pending_acks e' -> f ∈ pending_acks e) ->
    (forall f o, e_handle e' = Some (HData f, o) -> e_handle e = Some (HData f, o)) ->
    Forall (fun f => sf_Kind f = StreamFrameAck -> f ∈ lk_net l) out ->
    exists l', receiver_moves l l' /\ receives e' (outbox ++ out) l') as Hneutral.
  { intros. exists l. split; [auto with go|]. eapply receives_frame; eauto. }
  destruct Hdo as [a pc Hw Hpc|sendErr w pc o Hw Ho|frame _ Hh|pc o Hh Hnr|frame o Hh Hr|frame o sendErr e' Hr ->
    |i e' out Hr|k ls|a e' out Hc Hw Hh Hp Hl _ Hd _ Hout].
  - by apply Hneutral.
  - exists l. split; [auto with go|]. by eapply receives_write.
  - by eapply receives_arrive; eauto.
  - by eapply receives_handle.
  - apply Hneutral; try done. intros f. rewrite !pending_acks_spec. simpl. rewrite Hh, Hr. naive_solver.
  - assert (sf_Kind frame = StreamFrameAck /\ frame ∈ lk_net l) as [Hk Hin] by (apply (rc_acks _ _ _ Hrc), pending_acks_spec; eauto).
    assert (Forall (fun f => sf_Kind f = StreamFrameAck -> f ∈ lk_net l) [frame]) by (by repeat constructor).
    destruct o; apply Hneutral; try done; intros g; rewrite !pending_acks_spec; simpl; naive_solver.
  - apply run_read_cases in Hr as (-> & _ & _ & Hp & [(Hc & Hd & Hh)|(n & p & ack & Hc & Hd & Hh & Hh')]).
    + apply Hneutral; rewrite ?Hc; try done; [intros f; by rewrite !pending_acks_spec, Hp, Hh|intros f o; by rewrite Hh].
    + by eapply receives_read.
  - apply Hneutral; try done; apply terminate_stays.
  - apply Hneutral; rewrite ?Hc; try done; [intros f; by rewrite !pending_acks_spec, Hp, Hh|intros f o; by rewrite Hh|].
    eapply List.Forall_impl; [|exact Hout]. by intros f [].
Qed.

(** *** The system *)

(** A network hands over frames that were sent to it and makes up none. *)
Definition honest (net : list StreamFrame -> StreamFrame -> list StreamFrame -> Prop) : Prop :=
  forall inbox frame left, net inbox frame left -> frame ∈ inbox /\ forall g, g ∈ left -> g ∈ inbox.

Lemma hostile_honest : honest hostile.
Proof. intros inbox frame left [Hf ->]. auto. Qed.
Lemma fifo_honest : honest fifo.
Proof. unfold fifo. intros inbox frame left ->. split; [by left|]. intros g Hg. by right. Qed.

Lemma sends_shrink e out out' l : sends e out l -> (forall g, g ∈ out' -> g ∈ out) -> sends e out' l.
Proof. intros [] Hg. split; auto. Qed.
Lemma receives_shrink e out out' l : receives e out l -> (forall g, g ∈ out' -> g ∈ out) -> receives e out' l.
Proof. intros [] Hg. split; eauto. Qed.

Lemma flip_flip d : flip (flip d) = d.
Proof. by destruct d. Qed.

Section system.
Context (max : Z) (net : list StreamFrame -> StreamFrame -> list StreamFrame -> Prop) (Hnet : honest net).
Context (id : StreamID) (window : Z).

(** The direction from side A to side B is simulated by a run of [StreamLink]. *)
Definition direction (d : duplex) : Prop := exists l,
  link_reachable (link_init id 1 window) l /\
  sends (dx_a d) (dx_ab d) l /\ receives (dx_b d) (dx_ba d) l.

Lemma link_run_inv l : link_reachable (link_init id 1 window) l -> link_inv l.
Proof. by apply link_reachable_inv. Qed.

Lemma opt_step_reachable l0 l l' : link_reachable l0 l -> opt_step l l' -> link_reachable l0 l'.
Proof. intros Hr [->|Hs]; [done|]. by eapply lr_step. Qed.

Lemma direction_init again :
  direction (duplex_init id window again) /\ direction (flip (duplex_init id window again)).
Proof.
  assert (forall o, Forall (fun f => ~ is_forward f /\ sf_Kind f <> StreamFrameAck) o ->
    forall b, sends (endpoint_init (newStreamConn id 1 window b)) o (link_init id 1 window) /\
    receives (endpoint_init (newStreamConn id 1 window b)) o (link_init id 1 window)) as Hi.
  { intros o Ho b. split; split; simpl; try done; try set_solver;
      intros f Hf Hk; by destruct (Forall_elem _ _ _ Ho Hf). }
  split; exists (link_init id 1 window); (split; [apply lr_init|]); split; apply Hi;
    try destruct again; repeat constructor; try (by intros []); done.
Qed.

Lemma inbox_shrinks a inbox (left : list StreamFrame) g :
  (match a with Arrive frame => net inbox frame left | _ => left = inbox end) -> g ∈ left -> g ∈ inbox.
Proof. destruct a; intros Hn; try (by subst). by apply Hnet in Hn as [_ Hn]; auto. Qed.

Lemma inbox_arrives a inbox left f :
  (match a with Arrive frame => net inbox frame left | _ => left = inbox end) -> a = Arrive f -> f ∈ inbox.
Proof. intros Hn ->. by apply Hnet in Hn as [Hn _]. Qed.

(** A step of side A keeps both directions. *)
Lemma direction_step d a d' :
  a_step max net d a d' -> direction d -> direction (flip d) -> direction d' /\ direction (flip d').
Proof.
  intros Hstep (l1 & R1 & S1 & V1) (l2 & R2 & S2 & V2).
  destruct Hstep as [d a e out inbox Hdo%end_do_view Hb Har]. simpl in *.
  destruct (send_step _ _ _ _ _ _ _ Hdo S1 (link_run_inv _ R1)) as (l1' & M1 & S1'); auto.
  { apply List.Forall_forall. intros f Hf%list_elem_of_In. by destruct (rc_acks _ _ _ V2 f). }
  { intros f Hf Hk. apply (rc_out _ _ _ V1); [|done]. by eapply inbox_arrives. }
  destruct (receive_step _ _ _ _ _ _ _ Hdo V2 (link_run_inv _ R2)) as (l2' & M2 & V2').
  { apply List.Forall_forall. intros f Hf%list_elem_of_In. by destruct (sn_frames _ _ _ S1 f). }
  { intros f Hf Hk. apply (sn_out _ _ _ S2); [|done]. by eapply inbox_arrives. }
  split; [exists l1'|exists l2']; simpl; split_and!; auto.
  - exact (opt_step_reachable _ _ _ R1 (proj1 M1)).
  - eapply receives_shrink; [by eapply receives_mono|]. intros g. by eapply inbox_shrinks.
  - exact (opt_step_reachable _ _ _ R2 (proj1 M2)).
  - eapply sends_shrink; [by eapply sends_mono|]. intros g. by eapply inbox_shrinks.
Qed.

Lemma directions again d : net_reachable max net (duplex_init id window again) d -> direction d /\ direction (flip d).
Proof.
  induction 1 as [|d l d' _ [IH1 IH2] Hstep]; [apply direction_init|].
  destruct Hstep as [d a d' Ha|d a d' Ha].
  - by eapply direction_step.
  - destruct (direction_step _ _ _ Ha) as [? ?]; rewrite ?flip_flip; auto.
Qed.

End system.

(** ** What Write reports *)

Definition pc_ok (pc : write_pc) : Prop :=
  0 <= write_count pc <= len (write_arg pc) /\ match pc with WData _ _ available => is_u64 available | _ => True end.

(** The bytes the sender's state took are what the finished calls reported, then the part of
    the running one. *)
Record log_ok (e : endpoint) : Prop := {
  lo_log : e_log e = concat (e_done e) ++ default [] (write_part <$> e_write e);
  lo_pc : forall pc, e_write e = Some pc -> pc_ok pc;
}.

Lemma Write_chunk_range max p written available :
  0 < max <= DefaultStreamMaxFrame -> 0 <= written <= len p -> is_u64 available ->
  0 <= Write_chunk max p written available <= len p - written /\ Write_chunk max p written available <= max.
Proof.
  change DefaultStreamMaxFrame with 131072. unfold is_u64. intros Hm Hw Ha. unfold Write_chunk.
  set (chunk := if max <? len p - written then max else len p - written).
  assert (0 <= chunk <= len p - written /\ chunk <= max) as [Hc Hc'] by (unfold chunk; case_match; bool_facts; lia).
  rewrite (u64_small chunk) by (unfold is_u64, two64; lia).
  destruct (available <? chunk) eqn:E; bool_facts; [|done].
  unfold i64. unfold two64 in *. rewrite Z.mod_small; lia.
Qed.

Lemma credit_check_range next acked c available : credit_check next acked c = Credit available -> is_u64 available.
Proof. unfold credit_check. destruct (sc_closeErr c); [done|]. case_match; [|done]. intros [= <-]. apply u64_range. Qed.

(** One section of the writer, as the log sees it. *)
Lemma write_step_log max sendErr w pc c o :
  0 < max <= DefaultStreamMaxFrame -> pc_ok pc -> write_step max sendErr w pc c = Some o ->
  match wo_next o with
  | WGo pc' => pc_ok pc' /\ write_part pc' = write_part pc ++ wo_taken o
  | WReturn n _ => wo_taken o = [] /\ take (Z.to_nat n) (write_arg pc) = write_part pc
  end.
Proof.
  intros Hm [Hn Hp] Ho. unfold write_step, wgo, wret, sender_snapshot in Ho. unfold write_part, pc_ok.
  destruct pc; simpl in *; try (guards_in Ho; rewrite ?app_nil_r; split_and!; done || lia; fail).
  - destruct (credit_check next acked c) eqn:Hc; simplify_eq/=; rewrite ?app_nil_r; split_and!; try done; try lia.
    apply (credit_check_range _ _ _ _ Hc).
  - destruct (Write_chunk_range max p written available Hm Hn Hp) as [Hr _].
    set (chunk := Write_chunk _ _ _ _) in *. destruct (Data _ _) as [[frame|err|] s] eqn:Hd; simplify_eq/=; [|done].
    split; [split; [lia|done]|]. unfold slice.
    replace (Z.to_nat (written + chunk)) with (Z.to_nat written + Z.to_nat chunk)%nat by lia.
    rewrite Nat.add_comm, Nat.add_sub, Nat.add_comm. symmetry. apply take_take_drop.
Qed.

Lemma run_read_done i e e' out : run_read i e = Some (e', out) -> e_done e' = e_done e.
Proof. unfold run_read. intros H. by guards_in H. Qed.

Lemma log_step max a e e' out :
  0 < max <= DefaultStreamMaxFrame -> end_view max e a e' out -> log_ok e -> log_ok e'.
Proof.
  intros Hm Hv [Hl Hpc].
  assert (e_log e' = e_log e -> e_done e' = e_done e -> e_write e' = e_write e -> log_ok e') as Hsame
    by (intros El Ed Ew; split; rewrite ?El, ?Ed, ?Ew; auto).
  destruct Hv as [a pc Hw Hc|sendErr w pc o Hw Ho|frame _ Hh|pc o Hh Hnr|frame o Hh Hr|frame o sendErr e' Hr ->
    |i e' out Hr|k ls|a e' out Hc Hw Hh Hp El Ed Hd _ Hout].
  - rewrite Hw in Hl. split.
    + simpl e_log. simpl e_done. simpl e_write. rewrite Hl. destruct Hc as [->|[p ->]]; done.
    + intros pc' [= <-]. destruct Hc as [->|[p ->]]; split; simpl; try done; pose proof (len_nonneg p); by split.
  - pose proof (write_step_log _ _ _ _ _ _ Hm (Hpc _ Hw) Ho) as Hs. rewrite Hw in Hl. simpl in Hl.
    unfold after_write. destruct (wo_next o) as [pc'|n err].
    + destruct Hs as [Hok Hpart]. split; simpl; [by rewrite Hl, Hpart, app_assoc|]. by intros ? [= <-].
    + destruct Hs as [Ht Hpart]. split; simpl; [|done]. rewrite Hl, Ht, Hpart, concat_app. simpl. by rewrite !app_nil_r.
  - apply Hsame; by destruct (handle_start frame (e_conn e)) as [[]].
  - apply Hsame; by destruct (handle_step pc (e_conn e)) as [[]].
  - by apply Hsame.
  - destruct o; by apply Hsame.
  - pose proof (run_read_done _ _ _ _ Hr). apply run_read_cases in Hr as (_ & ? & ? & _). by apply Hsame.
  - by apply Hsame.
  - by apply Hsame.
Qed.

(** ** The read buffer stays inside the window *)

(** What a data frame adds to a receiver, as [handleData] computes it. *)
Definition data_start (frame : StreamFrame) (r : StreamReceiverState) : Z :=
  let start := sr_offset r -u sf_Offset frame in if len (sf_Payload frame) <? start then len (sf_Payload frame) else start.
Definition unique_len (frame : StreamFrame) (r : StreamReceiverState) : Z := len (sf_Payload frame) - data_start frame r.

Lemma data_start_range frame r : 0 <= data_start frame r <= len (sf_Payload frame).
Proof.
  pose proof (u64_range (sr_offset r - sf_Offset frame)). pose proof (len_nonneg (sf_Payload frame)).
  unfold data_start, is_u64 in *. case_match; bool_facts; lia.
Qed.

Record buf_ok (window : Z) (e : endpoint) : Prop := {
  bo_window : sc_window (e_conn e) = window;
  bo_buf : len (sc_readBuf (e_conn e)) <= window;
  bo_data : forall f o, e_handle e = Some (HData f, o) ->
              len (sc_readBuf (e_conn e)) + unique_len f (sc_receiver (e_conn e)) <= window;
}.

Lemma Accept_unique r f payload ack r' :
  Accept r f = (Ok (payload, ack), r') -> len payload = unique_len f r.
Proof.
  unfold Accept, unique_len. destruct (_ || _); [done|]. destruct (negb _); [done|].
  destruct (sr_offset r <? _); [done|]. destruct (_ <? frame_end f); [done|].
  pose proof (data_start_range f r). fold (data_start f r).
  intros Ha. apply (f_equal fst) in Ha. simpl in Ha. injection Ha as <- _. rewrite len_drop. lia.
Qed.

Lemma handleData_check_credit max frame c :
  max <= DefaultStreamMaxFrame -> sc_window c <= maxInt -> len (sc_readBuf c) <= sc_window c ->
  HandleFrame_check max frame = None -> handleData_check frame c = None ->
  len (sc_readBuf c) + unique_len frame (sc_receiver c) <= sc_window c.
Proof.
  intros Hm Hw Hb Hf Hd. unfold handleData_check, receiver_snapshot in Hd. fold (data_start frame (sc_receiver c)) in Hd.
  change DefaultStreamMaxFrame with 131072 in *. unfold maxInt in *.
  assert (len (sf_Payload frame) <= max).
  { unfold HandleFrame_check in Hf. destruct (_ || _); [done|]. destruct (max <? _) eqn:E; [done|]. by bool_facts. }
  pose proof (data_start_range frame (sc_receiver c)). pose proof (len_nonneg (sc_readBuf c)). unfold unique_len.
  destruct (_ <? sf_Offset frame) in Hd; [done|]. destruct (sc_closeErr c); [done|].
  rewrite (u64_sub_small (len (sf_Payload frame))) in Hd by (unfold two64; lia).
  rewrite u64_add_small in Hd by (unfold two64; lia). destruct (_ <? _) eqn:E in Hd; [done|]. by bool_facts.
Qed.

Lemma buf_frame window e e' :
  buf_ok window e -> sc_window (e_conn e') = sc_window (e_conn e) -> sc_receiver (e_conn e') = sc_receiver (e_conn e) ->
  sc_readBuf (e_conn e') = sc_readBuf (e_conn e) ->
  (forall f o, e_handle e' = Some (HData f, o) -> e_handle e = Some (HData f, o)) -> buf_ok window e'.
Proof. intros [] Hw Hr Hb Hh. split; rewrite ?Hw, ?Hr, ?Hb; eauto. Qed.

Lemma buf_arrive max window e frame r :
  max <= DefaultStreamMaxFrame -> window <= maxInt -> buf_ok window e -> HandleFrame_check max frame = None ->
  handle_start frame (e_conn e) = r -> e_handle e = None -> buf_ok window (after_handle r e).
Proof.
  intros Hm Hwm [Hw Hb Hd] Hf Hr Hh. destruct (after_handle_eqs r e) as (Ec & _ & _ & _ & _ & Eh & _).
  apply handle_start_cases in Hr as [(s & offset & _ & _ & Hc & [Hn|Hn])|[(rcv & w & Hk & Hr & Hc & Hn)|(_ & _ & Hrv & Hbv & Hwv & Hn)]];
    try (split; rewrite ?Ec, ?Hc, ?Eh, ?Hn; done).
  split; rewrite ?Ec, ?Hbv, ?Hwv, ?Hrv, ?Eh; auto.
  intros f o Hx. destruct Hn as [Hn|(_ & Hchk & Hn)]; rewrite Hn in Hx; [done|]. injection Hx as <- <-.
  rewrite <- Hw. eapply handleData_check_credit; eauto; by rewrite Hw.
Qed.

Lemma buf_handle window e pc o :
  buf_ok window e -> e_handle e = Some (pc, o) -> buf_ok window (after_handle (handle_step pc (e_conn e)) e).
Proof.
  intros [Hw Hb Hd] Hh. destruct (after_handle_eqs (handle_step pc (e_conn e)) e) as (Ec & _ & _ & _ & _ & Eh & _).
  destruct (handle_step_cases pc (e_conn e) _ eq_refl)
    as [(f & payload & ack & rcv & w & -> & Ha & Hr & _)|(_ & _ & Hr & Hbv & Hwv & Hn)].
  - split; rewrite ?Ec, ?Eh, ?Hr; simpl; try done.
    rewrite len_app, (Accept_unique _ _ _ _ _ Ha). by eapply Hd.
  - split; rewrite ?Ec, ?Hbv, ?Hwv, ?Hr, ?Eh; auto. intros f o' Hx.
    destruct Hn as [Hn|[g ->]]; [by rewrite Hn in Hx|done].
Qed.

Lemma buf_step max window a e e' out :
  max <= DefaultStreamMaxFrame -> window <= maxInt -> end_view max e a e' out -> buf_ok window e -> buf_ok window e'.
Proof.
  intros Hm Hwm Hv Hb.
  destruct Hv as [a pc Hw Hc|sendErr w pc o Hw Ho|frame Hf Hh|pc o Hh Hnr|frame o Hh Hr|frame o sendErr e' Hr ->
    |i e' out Hr|k ls|a e' out Hc Hw Hh Hp El Ed Hd _ Hout].
  - by eapply buf_frame.
  - destruct (after_write_eqs pc o e) as (Ec & _ & _ & _ & Eh & _).
    destruct (write_step_stays _ _ _ _ _ _ Ho) as (_ & Hr & Hbv & Hwv).
    eapply buf_frame; eauto; rewrite ?Ec; auto. intros f o'. by rewrite Eh.
  - by eapply buf_arrive.
  - by eapply buf_handle.
  - by eapply buf_frame.
  - destruct o; by eapply buf_frame.
  - apply run_read_cases in Hr as (_ & _ & _ & _ & [(Hc & _ & Hh)|(n & p & ack & Hc & _ & _ & Hh)]).
    + eapply buf_frame; eauto; rewrite ?Hc; auto. intros f o. by rewrite Hh.
    + apply Read_consume_stays in Hc as (_ & _ & _ & Hbv & Hwv & _). destruct Hb. rewrite Hbv, len_app in *.
      pose proof (len_nonneg p). split; [congruence|lia|]. intros f o Hx. rewrite Hh in Hx. by destruct ack.
  - destruct (terminate_stays (Some (Sentinel ErrStreamClosed)) (e_conn e)) as (_ & _ & ? & ? & ?).
    by eapply buf_frame.
  - eapply buf_frame; eauto; rewrite ?Hc; auto. intros f o. by rewrite Hh.
Qed.

(** ** A reader never sleeps on data *)

(** The signal count grows, and while it stands still nothing a reader waits for appears. *)
Record calm (c c' : StreamConn) : Prop := {
  cm_state : (sc_state c <= sc_state c')%nat;
  cm_same : sc_state c' = sc_state c -> (sc_readBuf c = [] -> sc_readBuf c' = []) /\ sc_closeErr c' = sc_closeErr c;
}.

Definition asleep_ok (e : endpoint) : Prop := forall i n state,
  e_readers e !! i = Some (n, RdWait state) ->
  (state <= sc_state (e_conn e))%nat /\
  (state = sc_state (e_conn e) -> sc_readBuf (e_conn e) = [] /\ sc_closeErr (e_conn e) = None).

Lemma calm_refl c : calm c c.
Proof. by split. Qed.

Lemma calm_write max sendErr w pc c o : write_step max sendErr w pc c = Some o -> calm c (wo_conn o).
Proof.
  intros Ho. unfold write_step, wgo, wret, clearResume in Ho. guards_in Ho; try (by split); case_bool_decide; by split.
Qed.

Lemma calm_terminate err c : calm c (terminate err c).
Proof. unfold terminate. destruct (sc_closeErr c); split; simpl; auto; lia. Qed.

Lemma calm_start frame c : calm c (handle_start frame c).2.
Proof.
  unfold handle_start. repeat case_match; simpl; try (by split). apply calm_terminate.
Qed.

Lemma calm_step pc c : calm c (handle_step pc c).2.
Proof.
  unfold handle_step, handleData_accept, wakeResume. repeat case_match; simplify_eq/=; try (by split); split; simpl; lia.
Qed.

Lemma calm_read n c p ack c' : Read_consume n c = Some (p, ack, c') -> calm c c'.
Proof.
  intros Hc. apply Read_consume_stays in Hc as (_ & _ & _ & Hb & _ & Hcl & Hst & _). split; [by rewrite Hst|].
  intros _. split; [|done]. rewrite Hb. by intros [_ ?]%app_nil.
Qed.

Lemma asleep_frame e e' :
  asleep_ok e -> calm (e_conn e) (e_conn e') -> no_new_sleeper e e' -> asleep_ok e'.
Proof.
  intros Ha [Hs Hc] Hn i n state Hi. apply Hn, Ha in Hi as [Hle Heq]. split; [lia|]. intros ->.
  assert (sc_state (e_conn e') = sc_state (e_conn e)) as Hst by lia. destruct (Hc Hst) as [Hb Hcl].
  destruct Heq as [H1 H2]; [done|]. rewrite Hcl. auto.
Qed.

Lemma sleeper_set i n pc e e' :
  (forall state, pc <> RdWait state) -> e_readers e' = e_readers e -> no_new_sleeper e (set_reader i n pc e').
Proof.
  intros Hpc Hr j m g. simpl. rewrite lookup_insert, Hr. case_decide; [|done]. intros [= _ E]. by destruct (Hpc g).
Qed.

Lemma sleeper_end i e e' : e_readers e' = e_readers e -> no_new_sleeper e (end_reader i e').
Proof. intros Hr j m g. simpl. rewrite lookup_delete, Hr. by case_decide. Qed.

Lemma asleep_read i e e' out : run_read i e = Some (e', out) -> asleep_ok e -> asleep_ok e'.
Proof.
  intros Hr Ha. unfold run_read in Hr. destruct (e_readers e !! i) as [[n [| |g|]]|] eqn:Hold; try done.
  - unfold Read_check in Hr. destruct (sc_readBuf (e_conn e)) eqn:Hb; [destruct (sc_closeErr (e_conn e)) eqn:Hc|]; simplify_eq.
    + eapply asleep_frame; [exact Ha|apply calm_refl|by apply sleeper_end].
    + intros j m g. simpl. rewrite lookup_insert. case_decide; [|apply Ha]. intros [= <- <-]. split; [lia|done].
    + eapply asleep_frame; [exact Ha|apply calm_refl|by apply sleeper_set].
  - destruct (e_handle e); [done|]. destruct (Read_consume n (e_conn e)) as [[[p ack] c]|] eqn:Hc.
    + apply calm_read in Hc. destruct ack; simplify_eq; (eapply asleep_frame; [exact Ha|exact Hc|]);
        [by apply sleeper_set|by apply sleeper_end].
    + simplify_eq. eapply asleep_frame; [exact Ha|apply calm_refl|by apply sleeper_set].
  - case_bool_decide; [done|]. simplify_eq. eapply asleep_frame; [exact Ha|apply calm_refl|by apply sleeper_set].
Qed.

Lemma asleep_step max a e e' out : end_view max e a e' out -> asleep_ok e -> asleep_ok e'.
Proof.
  intros Hv Ha.
  destruct Hv as [a pc Hw Hc|sendErr w pc o Hw Ho|frame Hf Hh|pc o Hh Hnr|frame o Hh Hr|frame o sendErr e' Hr ->
    |i e' out Hr|k ls|a e' out Hc Hw Hh Hp El Ed Hd Hn Hout].
  - done.
  - destruct (after_write_eqs pc o e) as (Ec & _ & _ & _ & _ & _ & Er).
    eapply asleep_frame; [exact Ha|rewrite Ec; by eapply calm_write|by apply same_sleepers].
  - destruct (after_handle_eqs (handle_start frame (e_conn e)) e) as (Ec & _ & _ & _ & _ & _ & Er).
    eapply asleep_frame; [exact Ha|rewrite Ec; apply calm_start|by apply same_sleepers].
  - destruct (after_handle_eqs (handle_step pc (e_conn e)) e) as (Ec & _ & _ & _ & _ & _ & Er).
    eapply asleep_frame; [exact Ha|rewrite Ec; apply calm_step|by apply same_sleepers].
  - done.
  - destruct o; [done|]. eapply asleep_frame; [exact Ha|apply calm_refl|by apply sleeper_end].
  - by eapply asleep_read.
  - eapply asleep_frame; [exact Ha|apply calm_terminate|by apply same_sleepers].
  - eapply asleep_frame; [exact Ha|rewrite Hc; apply calm_refl|done].
Qed.

(** ** The theorems *)

Lemma net_invariant (P : endpoint -> Prop) max net d0 d :
  (forall a e e' out, end_view max e a e' out -> P e -> P e') ->
  net_reachable max net d0 d -> P (dx_a d0) -> P (dx_b d0) -> P (dx_a d) /\ P (dx_b d).
Proof.
  intros Hp Hr Ha Hb. induction Hr as [|d l d' _ [IHa IHb] Hstep]; [done|].
  assert (forall d a d', a_step max net d a d' -> P (dx_a d) -> P (dx_a d') /\ dx_b d' = dx_b d) as Hstep'
    by (intros ? ? ? [? ? ? ? ? Hdo%end_do_view _ _]; eauto).
  destruct Hstep as [d a d' Hs|d a d' Hs]; (destruct (Hstep' _ _ _ Hs) as [H1 H2]; [done|]; simpl in *; by rewrite ?H2).
Qed.

(** C8: stream_conn_refines. Each direction of a pair of connections is, whatever Read, Write, Resume,
    Close and the frame handlers do at the same time on either side, simulated by a run of the
    two protocol states over a network that loses, repeats and reorders frames: same states,
    the log that Data took, and the bytes Read returned followed by the read buffer as what
    Accept handed out. *)
Theorem stream_conn_refines max net id window again d :
  honest net -> net_reachable max net (duplex_init id window again) d ->
  direction id window d /\ direction id window (flip d).
Proof. intros Hn. by apply directions. Qed.

Definition dir_exact (d : duplex) : Prop :=
  e_read (dx_b d) `prefix_of` concat (e_done (dx_a d)) ++ default [] (write_part <$> e_write (dx_a d)) /\
  (ss_acked (sc_sender (e_conn (dx_a d))) = ss_next (sc_sender (e_conn (dx_a d))) ->
   e_read (dx_b d) ++ sc_readBuf (e_conn (dx_b d)) =
     concat (e_done (dx_a d)) ++ default [] (write_part <$> e_write (dx_a d))).

Lemma direction_exact id window d : direction id window d -> log_ok (dx_a d) -> dir_exact d.
Proof.
  intros (l & Hl & [] & []) [Hlog _]. destruct (link_run_inv _ _ _ Hl) as [_ _ Hsi _ Hpre Hack _ _ _].
  unfold dir_exact. rewrite <- Hlog, sn_log0, sn_sender0. rewrite rc_got0 in *. split.
  - etrans; [|exact Hpre]. by apply prefix_app_r.
  - intros He. pose proof (si_acked _ _ Hsi). rewrite (si_next _ _ Hsi) in *.
    destruct Hpre as [k Hk]. rewrite Hk in *. rewrite len_app in He. pose proof (len_nonneg k).
    by rewrite (len_zero_nil k), app_nil_r by lia.
Qed.

(** C7: stream_conn_exactly_once. Over a network that loses, repeats and reorders frames, the bytes
    the readers of one end got are a prefix of what the writers of the other end were told they
    had written (the n of every finished Write, then the part of the running one): nothing is
    read twice, out of order or made up, and when everything is acknowledged it is all there,
    read or in the buffer. The buffer never exceeds the window, so the credit an
    acknowledgement announces never wraps around. *)
Theorem stream_conn_exactly_once max net id window again d :
  honest net -> 0 < max <= DefaultStreamMaxFrame -> 0 <= window <= maxInt ->
  net_reachable max net (duplex_init id window again) d ->
  dir_exact d /\ dir_exact (flip d) /\
  len (sc_readBuf (e_conn (dx_a d))) <= window /\ len (sc_readBuf (e_conn (dx_b d))) <= window.
Proof.
  intros Hn Hm Hw Hr.
  destruct (net_invariant log_ok max net _ _ (fun a e e' out Hv => log_step max a e e' out Hm Hv) Hr) as [La Lb].
  { by split. } { by split. }
  destruct (net_invariant (buf_ok window) max net _ _
    (fun a e e' out Hv => buf_step max window a e e' out (proj2 Hm) (proj2 Hw) Hv) Hr) as [Ba Bb];
    [split; simpl; rewrite ?len_nil; done || lia..|].
  destruct (directions max net Hn id window _ _ Hr) as [D1 D2].
  assert (forall d1, direction id window d1 -> log_ok (dx_a d1) -> dir_exact d1) as Hdir
    by (intros; by eapply direction_exact).
  split; [by apply Hdir|]. split; [by apply Hdir|]. split; [apply Ba|apply Bb].
Qed.

(** A reader that sleeps on the current state channel has nothing
    to read and the stream is open: every section that adds data or closes the stream replaces
    the channel, so no wake-up is lost. *)
Theorem stream_reader_never_stranded max net id window again d e i n :
  net_reachable max net (duplex_init id window again) d -> e = dx_a d \/ e = dx_b d ->
  e_readers e !! i = Some (n, RdWait (sc_state (e_conn e))) ->
  sc_readBuf (e_conn e) = [] /\ sc_closeErr (e_conn e) = None.
Proof.
  intros Hr He Hi.
  destruct (net_invariant asleep_ok max net _ _ (asleep_step max) Hr) as [Ha Hb]; [done..|].
  destruct He as [-> | ->]; [apply Ha in Hi|apply Hb in Hi]; by apply Hi.
Qed.

(** ** Witnesses: four bytes are written, sent, read and acknowledged. *)

Definition exchange : list item :=
  handle SideA ++ [Run SideA (CallWrite bytes4)] ++ replicate 5 (go_on SideA) ++
  handle SideB ++ respond SideB ++ [Run SideB (CallRead 0 4)] ++ read_one SideB ++ handle SideA ++ handle SideA ++
  read_more SideB.

Lemma exchange_reachable : fifo_reachable 4 (duplex_init demo_id 4 false) (run_from_open exchange).
Proof. apply run_from_open_reachable. vm_compute. by eexists. Qed.

Lemma stream_conn_refines_witness :
  direction demo_id 4 (run_from_open exchange) /\ e_read (dx_b (run_from_open exchange)) = bytes4.
Proof.
  split; [|vm_compute; reflexivity].
  exact (proj1 (stream_conn_refines 4 fifo demo_id 4 false (run_from_open exchange) fifo_honest exchange_reachable)).
Defined.

Lemma stream_conn_exactly_once_witness :
  e_read (dx_b (run_from_open exchange)) ++ sc_readBuf (e_conn (dx_b (run_from_open exchange))) =
    concat (e_done (dx_a (run_from_open exchange))) ++ default [] (write_part <$> e_write (dx_a (run_from_open exchange))) /\
  e_done (dx_a (run_from_open exchange)) = [bytes4].
Proof.
  split; [|vm_compute; reflexivity].
  destruct (stream_conn_exactly_once 4 fifo demo_id 4 false (run_from_open exchange) fifo_honest) as ([_ H] & _);
    [by split|by split|exact exchange_reachable|].
  apply H. vm_compute. reflexivity.
Defined.

Lemma exchange_asleep :
  e_readers (dx_b (run_from_open exchange)) !! 0%nat = Some (4, RdWait (sc_state (e_conn (dx_b (run_from_open exchange))))).
Proof. vm_compute. reflexivity. Qed.

Lemma stream_reader_never_stranded_witness :
  sc_readBuf (e_conn (dx_b (run_from_open exchange))) = [] /\
  sc_closeErr (e_conn (dx_b (run_from_open exchange))) = None.
Proof.
  exact (stream_reader_never_stranded 4 fifo demo_id 4 false (run_from_open exchange)
    (dx_b (run_from_open exchange)) 0%nat 4 exchange_reachable (or_intror eq_refl) exchange_asleep).
Defined.
