(* ===== verification/StreamFaults.v ===== *)
(** * Two races in the flow control of stream_conn.go

    [Acknowledge] updates the protocol state and [handleFrame] updates [sendWin] in two
    sections, and [waitSendCredit] reads the two in two sections. Over a network that loses
    nothing and keeps the order, one interleaving puts a writer to sleep although the whole
    window is free, and another lets it send a frame the receiver has no room for. *)

From stdpp Require Import base list strings gmap.
From S2P Require Import Prelude Errors StreamProtocol StreamLink StreamConn StreamDuplex.

(** ** Nothing can happen but a new call of the application *)

Definition quiescent (max : Z) (d : duplex) : Prop :=
  forall s a d', is_call a = false -> ~ net_step max fifo d (s, a) d'.

Definition sleeping (state : nat) (r : Z * read_pc) : bool :=
  match r.2 with RdWait g => bool_decide (g = state) | _ => false end.

Definition end_idle (e : endpoint) : bool :=
  match e_write e with
  | None => true
  | Some (WWait _ _ g) => bool_decide (g = sc_state (e_conn e))
  | _ => false
  end &&
  match e_handle e, e_resp e, e_closing e with None, None, [] => true | _, _, _ => false end &&
  forallb (sleeping (sc_state (e_conn e))) (snd <$> map_to_list (e_readers e)).

Lemma end_idle_stuck max a e :
  end_idle e = true -> is_call a = false -> (forall f, a <> Arrive f) -> end_do max a e = None.
Proof.
  unfold end_idle. intros [[Hw Hh]%andb_true_iff Hr]%andb_true_iff Hc Ha.
  destruct (e_handle e) eqn:E1; [done|]. destruct (e_resp e) eqn:E2; [done|]. destruct (e_closing e) eqn:E3; [|done].
  destruct a as [p| |i n| |frame|sendErr w| | |sendErr|i|k]; try done; simpl;
    unfold run_respond, run_response, run_close; rewrite ?E1, ?E2, ?E3; try done.
  - by destruct (Ha frame).
  - destruct (e_write e) as [[]|]; try done. simpl. by rewrite Hw.
  - unfold run_read. destruct (e_readers e !! i) as [[n pc]|] eqn:Hi; [|done].
    apply elem_of_map_to_list, list_elem_of_In in Hi. apply (List.in_map snd) in Hi.
    rewrite forallb_forall in Hr. apply Hr in Hi. unfold sleeping in Hi. simpl in Hi. destruct pc; try done. by rewrite Hi.
Qed.

Lemma idle_quiescent max d :
  end_idle (dx_a d) = true -> end_idle (dx_b d) = true -> dx_ab d = [] -> dx_ba d = [] -> quiescent max d.
Proof.
  intros Ha Hb Eab Eba s a d' Hc Hs.
  assert (forall d a d', a_step max fifo d a d' -> is_call a = false -> end_idle (dx_a d) = true -> dx_ba d = [] -> False) as Hno.
  { intros d1 a1 d2 [d3 a3 e out inbox Hdo _ Hin] Hc1 Hi Hn.
    assert (forall f, a3 <> Arrive f) as Hf by (intros f ->; unfold fifo in Hin; by rewrite Hn in Hin).
    by rewrite end_idle_stuck in Hdo. }
  inversion Hs; subst; eauto.
Qed.

(** ** The runs *)

(** The writer takes its snapshot, then both acknowledgements are handled, then it looks at
    [sendWin]. *)
Definition stranding : list item :=
  handle SideA ++ [Run SideA (CallWrite bytes4)] ++ replicate 5 (go_on SideA) ++
  [Run SideA (CallWrite bytes4); go_on SideA] ++
  handle SideB ++ respond SideB ++ [Run SideB (CallRead 0 4)] ++ read_one SideB ++ handle SideA ++ handle SideA ++
  [go_on SideA] ++ read_more SideB.

(** The acknowledgement that says the buffer is full has reached the protocol state but not
    yet [sendWin] when the writer asks for credit. *)
Definition overrun : list item :=
  handle SideA ++ [Run SideA (CallWrite (bytes4 ++ bytes4))] ++ replicate 4 (go_on SideA) ++
  handle SideB ++ respond SideB ++ [Deliver SideA] ++ replicate 5 (go_on SideA) ++ [Run SideA RunHandle; Deliver SideB] ++
  [Run SideB (CallRead 0 4)] ++ read_one SideB ++ handle SideA ++ read_more SideB.

(** Over a network that delivers every frame once and in order, a run leads
    Write to sleep for good although its peer has acknowledged and read everything and the
    whole window is free: nothing is in flight, nobody holds a lock, and no step is possible
    until the application makes another call. The writer had read the sender's state before two
    acknowledgements arrived and looked at sendWin after them. *)
Lemma writer_stranded : exists d p,
  fifo_reachable 4 (duplex_init demo_id 4 false) d /\
  e_write (dx_a d) = Some (WWait p 0 (sc_state (e_conn (dx_a d)))) /\
  ss_acked (sc_sender (e_conn (dx_a d))) = ss_next (sc_sender (e_conn (dx_a d))) /\
  sc_sendWin (e_conn (dx_a d)) = sc_window (e_conn (dx_b d)) /\ sc_readBuf (e_conn (dx_b d)) = [] /\
  sc_closeErr (e_conn (dx_a d)) = None /\ sc_closeErr (e_conn (dx_b d)) = None /\ quiescent 4 d.
Proof.
  exists (run_from_open stranding), bytes4.
  split; [apply run_from_open_reachable; vm_compute; by eexists|].
  split_and!; try (vm_compute; reflexivity). by apply idle_quiescent.
Qed.

(** Over the same network, a run in which the peer refuses a frame for lack
    of credit although Write waits for it: Write reports eight bytes written, the peer has read
    everything it kept, which is only the first four, and no step is possible until the
    application calls Resume. The writer asked for credit between the two sections that handle
    the acknowledgement of a full buffer. *)
Lemma credit_overrun : exists d,
  fifo_reachable 4 (duplex_init demo_id 4 false) d /\
  e_done (dx_a d) = [bytes4 ++ bytes4] /\ e_errors (dx_a d) = [] /\
  e_errors (dx_b d) = [Sentinel ErrStreamCredit] /\ e_read (dx_b d) = bytes4 /\ sc_readBuf (e_conn (dx_b d)) = [] /\
  sc_closeErr (e_conn (dx_a d)) = None /\ sc_closeErr (e_conn (dx_b d)) = None /\ quiescent 4 d.
Proof.
  exists (run_from_open overrun).
  split; [apply run_from_open_reachable; vm_compute; by eexists|].
  split_and!; try (vm_compute; reflexivity). by apply idle_quiescent.
Qed.

(** C17: stream_flow_control_races. Over a network that delivers every frame once and in order,
    the flow control of a connection has two races. A run leads Write to sleep for good although
    its peer has acknowledged and read everything and the whole window is free: the writer had
    read the sender's state before two acknowledgements arrived and looked at sendWin after them.
    Another makes the peer refuse a frame for lack of credit although Write waits for credit and
    reports its eight bytes written, of which the peer's application reads four. In both nothing
    is in flight, nobody holds a lock, and nothing happens until the application calls again. *)
Theorem stream_flow_control_races :
  (exists d p,
     fifo_reachable 4 (duplex_init demo_id 4 false) d /\
     e_write (dx_a d) = Some (WWait p 0 (sc_state (e_conn (dx_a d)))) /\
     ss_acked (sc_sender (e_conn (dx_a d))) = ss_next (sc_sender (e_conn (dx_a d))) /\
     sc_sendWin (e_conn (dx_a d)) = sc_window (e_conn (dx_b d)) /\ sc_readBuf (e_conn (dx_b d)) = [] /\
     sc_closeErr (e_conn (dx_a d)) = None /\ sc_closeErr (e_conn (dx_b d)) = None /\ quiescent 4 d) /\
  (exists d,
     fifo_reachable 4 (duplex_init demo_id 4 false) d /\
     e_done (dx_a d) = [bytes4 ++ bytes4] /\ e_errors (dx_a d) = [] /\
     e_errors (dx_b d) = [Sentinel ErrStreamCredit] /\ e_read (dx_b d) = bytes4 /\ sc_readBuf (e_conn (dx_b d)) = [] /\
     sc_closeErr (e_conn (dx_a d)) = None /\ sc_closeErr (e_conn (dx_b d)) = None /\ quiescent 4 d).
Proof. split; [exact writer_stranded|exact credit_overrun]. Qed.
