(* ===== verification/StreamMux.v ===== *)
(** * The stream multiplexer (type StreamMux of stream_conn.go)

    The mux owns the connections of one peer: [mx_streams] maps a stream ID to the number of a
    connection in [mx_heap], as the Go map holds a pointer. Each definition is one section that
    runs under [m.mu] or [c.mu], or one [select]; a call that spans several sections leaves its
    place in [mx_dialing], [mx_opening], [mx_removing] or [mx_close], so that [mux_step] can
    interleave it with everything else. *)

From stdpp Require Import base list strings gmap.
From S2P Require Import Prelude Errors StreamProtocol StreamConn.

(** ** State *)

(** Where [Close] is: the channel is closed before the table is emptied, and the collected
    connections are terminated one after the other. *)
Inductive close_pc : Type :=
| CloseNotCalled
| CloseSwap
| CloseTerminate (conns : list nat).

Record StreamMux : Type := mkStreamMux {
  mx_cfg : StreamMuxConfig;
  mx_streams : gmap StreamID nat;
  mx_accept : list nat;                          (* the buffered channel *)
  mx_heap : list StreamConn;
  mx_close : close_pc;
  mx_dialing : list (nat * bool);                (* DialID: its connection; whether OPEN is sent *)
  mx_opening : list (nat * StreamFrame * bool);  (* handleOpen before its OPENACK is sent; [created] *)
  mx_removing : list nat;                        (* terminate before [mux.remove] *)
  (* history: what Accept and DialID have returned *)
  mx_accepted : list nat;
  mx_dialed : list nat;
}.

(** The channel [closed] is closed by the first section of [Close]. *)
Definition mx_closed (m : StreamMux) : bool :=
  match mx_close m with CloseNotCalled => false | _ => true end.

Definition set_streams (s : gmap StreamID nat) (m : StreamMux) : StreamMux :=
  mkStreamMux (mx_cfg m) s (mx_accept m) (mx_heap m) (mx_close m) (mx_dialing m) (mx_opening m) (mx_removing m) (mx_accepted m) (mx_dialed m).
Definition set_accept (l : list nat) (m : StreamMux) : StreamMux :=
  mkStreamMux (mx_cfg m) (mx_streams m) l (mx_heap m) (mx_close m) (mx_dialing m) (mx_opening m) (mx_removing m) (mx_accepted m) (mx_dialed m).
Definition set_heap (h : list StreamConn) (m : StreamMux) : StreamMux :=
  mkStreamMux (mx_cfg m) (mx_streams m) (mx_accept m) h (mx_close m) (mx_dialing m) (mx_opening m) (mx_removing m) (mx_accepted m) (mx_dialed m).
Definition set_close (p : close_pc) (m : StreamMux) : StreamMux :=
  mkStreamMux (mx_cfg m) (mx_streams m) (mx_accept m) (mx_heap m) p (mx_dialing m) (mx_opening m) (mx_removing m) (mx_accepted m) (mx_dialed m).
Definition set_dialing (l : list (nat * bool)) (m : StreamMux) : StreamMux :=
  mkStreamMux (mx_cfg m) (mx_streams m) (mx_accept m) (mx_heap m) (mx_close m) l (mx_opening m) (mx_removing m) (mx_accepted m) (mx_dialed m).
Definition set_opening (l : list (nat * StreamFrame * bool)) (m : StreamMux) : StreamMux :=
  mkStreamMux (mx_cfg m) (mx_streams m) (mx_accept m) (mx_heap m) (mx_close m) (mx_dialing m) l (mx_removing m) (mx_accepted m) (mx_dialed m).
Definition set_removing (l : list nat) (m : StreamMux) : StreamMux :=
  mkStreamMux (mx_cfg m) (mx_streams m) (mx_accept m) (mx_heap m) (mx_close m) (mx_dialing m) (mx_opening m) l (mx_accepted m) (mx_dialed m).
Definition set_accepted (l : list nat) (m : StreamMux) : StreamMux :=
  mkStreamMux (mx_cfg m) (mx_streams m) (mx_accept m) (mx_heap m) (mx_close m) (mx_dialing m) (mx_opening m) (mx_removing m) l (mx_dialed m).
Definition set_dialed (l : list nat) (m : StreamMux) : StreamMux :=
  mkStreamMux (mx_cfg m) (mx_streams m) (mx_accept m) (mx_heap m) (mx_close m) (mx_dialing m) (mx_opening m) (mx_removing m) (mx_accepted m) l.

(** [NewStreamMux(send, cfg)]: [send] is the transport, [hasSend] whether it is non-nil. *)
Definition NewStreamMux (hasSend : bool) (cfg : option StreamMuxConfig) : result error StreamMux :=
  if negb hasSend then Err (errors_New "stream frame sender is required")
  else
    normalized ← StreamMuxConfig_normalized (default (mkStreamMuxConfig 0 0 0) cfg);
    mret (mkStreamMux normalized ∅ [] [] CloseNotCalled [] [] [] [] []).

(** ** Terminating a connection *)

(** [conn.terminate(err)]: the section under [c.mu], once; [mux.remove] is still to come. *)
Definition terminate_conn (k : nat) (err : option error) (m : StreamMux) : StreamMux :=
  match mx_heap m !! k with
  | Some c =>
      if isClosed c then m
      else set_removing (mx_removing m ++ [k]) (set_heap (<[k := terminate err c]> (mx_heap m)) m)
  | None => m
  end.

(** [(m *StreamMux) remove(id StreamID, conn *StreamConn)] *)
Definition remove (id : StreamID) (k : nat) (m : StreamMux) : StreamMux :=
  if bool_decide (mx_streams m !! id = Some k) then set_streams (delete id (mx_streams m)) m else m.

(** The call of [remove] that ends the [terminate] of connection [k]. *)
Definition finish_terminate (j : nat) (m : StreamMux) : option StreamMux :=
  match mx_removing m !! j with
  | Some k =>
      match mx_heap m !! k with
      | Some c => Some (remove (sc_id c) k (set_removing (delete j (mx_removing m)) m))
      | None => None
      end
  | None => None
  end.

(** ** Dial *)

(** The first section of [DialID]: the connection is registered, its number returned. *)
Definition DialID_register (id : StreamID) (m : StreamMux) : result error nat * StreamMux :=
  if mx_closed m then (Err (Sentinel ErrStreamClosed), m)
  else match mx_streams m !! id with
  | Some _ => (Err (errors_New "stream ID is already registered"), m)
  | None =>
      let k := length (mx_heap m) in
      (Ok k, set_dialing (mx_dialing m ++ [(k, false)])
               (set_streams (<[id := k]> (mx_streams m))
                 (set_heap (mx_heap m ++ [newStreamConn id 1 (mc_Window (mx_cfg m)) false]) m)))
  end.

(** The frame it sends then. *)
Definition DialID_open (id : StreamID) (m : StreamMux) : StreamFrame :=
  mkStreamFrame StreamFrameOpen id 1 0 (mc_Window (mx_cfg m)) [].

(** After sending OPEN: a failed send terminates the connection and returns its error. *)
Definition DialID_sent (j : nat) (err : option error) (m : StreamMux) : option (option error * StreamMux) :=
  match mx_dialing m !! j with
  | Some (k, false) =>
      match err with
      | Some e => Some (Some e, terminate_conn k (Some e) (set_dialing (delete j (mx_dialing m)) m))
      | None => Some (None, set_dialing (<[j := (k, true)]> (mx_dialing m)) m)
      end
  | _ => None
  end.

(** The cases of the final [select] of [DialID]. *)
Inductive dial_wake : Type := DialOpened | DialDone | DialCtx (err : error).

Definition DialID_wait (j : nat) (w : dial_wake) (m : StreamMux) : option (result error nat * StreamMux) :=
  match mx_dialing m !! j with
  | Some (k, true) =>
      match mx_heap m !! k with
      | Some c =>
          let m' := set_dialing (delete j (mx_dialing m)) m in
          match w with
          | DialOpened => if sc_opened c then Some (Ok k, set_dialed (mx_dialed m ++ [k]) m') else None
          | DialDone => if isClosed c then Some (Err (closeError c), m') else None
          | DialCtx err => Some (Err err, terminate_conn k (Some err) m')
          end
      | None => None
      end
  | _ => None
  end.

(** ** Frames *)

(** [handleOpen] up to the OPENACK: [Ok (k, created, ack)] or the error it returns. *)
Definition handleOpen_register (frame : StreamFrame) (m : StreamMux)
    : result error (nat * bool * StreamFrame) * StreamMux :=
  if (sf_Epoch frame =? 0) || negb (len (sf_Payload frame) =? 0)
  then (Err (errors_New "invalid stream open frame"), m)
  else
    let window := if sf_Window frame =? 0 then DefaultStreamWindow else sf_Window frame in
    if maxInt <? window then (Err (Sentinel ErrStreamCredit), m)
    else if mx_closed m then (Err (Sentinel ErrStreamClosed), m)
    else
      let ack := mkStreamFrame StreamFrameOpenAck (sf_ID frame) (sf_Epoch frame) 0 window [] in
      match mx_streams m !! sf_ID frame with
      | Some k => (Ok (k, false, ack), set_opening (mx_opening m ++ [(k, frame, false)]) m)
      | None =>
          let k := length (mx_heap m) in
          (Ok (k, true, ack),
           set_opening (mx_opening m ++ [(k, frame, true)])
             (set_streams (<[sf_ID frame := k]> (mx_streams m))
               (set_heap (mx_heap m ++ [newStreamConn (sf_ID frame) (sf_Epoch frame) window true]) m)))
      end.

(** [handleOpen] after the OPENACK: its error, the frame it sends besides, and the mux. *)
Definition handleOpen_sent (j : nat) (err : option error) (m : StreamMux)
    : option (option error * list StreamFrame * StreamMux) :=
  match mx_opening m !! j with
  | Some (k, frame, created) =>
      let m := set_opening (delete j (mx_opening m)) m in
      match err, created with
      | Some e, true => Some (Some e, [], terminate_conn k (Some e) m)
      | Some e, false => Some (Some e, [], m)
      | None, false => Some (None, [], m)
      | None, true =>
          if len (mx_accept m) <? mc_AcceptBacklog (mx_cfg m)
          then Some (None, [], set_accept (mx_accept m ++ [k]) m)
          else
            let full := errors_New "stream accept backlog is full" in
            Some (Some full, [mkStreamFrame StreamFrameClose (sf_ID frame) (sf_Epoch frame) 0 0 []],
                  terminate_conn k (Some full) m)
      end
  | None => None
  end.

(** Where [HandleFrame] sends a frame that is not an OPEN. *)
Inductive routed : Type :=
| RouteErr (err : option error)
| RouteConn (k : nat)
| RouteOpen.

Definition HandleFrame_route (frame : StreamFrame) (m : StreamMux) : routed :=
  match HandleFrame_check (mc_MaxFrameSize (mx_cfg m)) frame with
  | Some err => RouteErr (Some err)
  | None =>
      if sf_Kind frame =? StreamFrameOpen then RouteOpen
      else match mx_streams m !! sf_ID frame with
      | Some k => RouteConn k
      | None => RouteErr (if sf_Kind frame =? StreamFrameClose then None else Some (Sentinel ErrStreamUnknown))
      end
  end.

(** ** Accept and Close *)

Inductive accept_wake : Type := AcceptConn | AcceptClosed | AcceptCtx (err : error).

(** One turn of the loop of [Accept]: [None] inside is another turn. *)
Definition Accept_turn (w : accept_wake) (m : StreamMux) : option (option (result error nat) * StreamMux) :=
  match w with
  | AcceptConn =>
      match mx_accept m with
      | k :: rest =>
          match mx_heap m !! k with
          | Some c =>
              if isClosed c then Some (None, set_accept rest m)
              else Some (Some (Ok k), set_accepted (mx_accepted m ++ [k]) (set_accept rest m))
          | None => None
          end
      | [] => None
      end
  | AcceptClosed => if mx_closed m then Some (Some (Err (Sentinel ErrStreamClosed)), m) else None
  | AcceptCtx err => Some (Some (Err err), m)
  end.

(** The sections of [Close]: close the channel; take the table; terminate what was in it. *)
Definition Close_step (m : StreamMux) : option StreamMux :=
  match mx_close m with
  | CloseNotCalled => Some (set_close CloseSwap m)
  | CloseSwap => Some (set_close (CloseTerminate (snd <$> map_to_list (mx_streams m))) (set_streams ∅ m))
  | CloseTerminate [] => None
  | CloseTerminate (k :: rest) => Some (terminate_conn k (Some (Sentinel ErrStreamClosed)) (set_close (CloseTerminate rest) m))
  end.

(** ** Interleavings *)

(** Whatever else a connection's own methods do to it. *)
Definition conn_moves (c c' : StreamConn) : Prop :=
  sc_id c' = sc_id c /\ sc_closeErr c' = sc_closeErr c.

Inductive mux_step : StreamMux -> StreamMux -> Prop :=
| ms_dial m id k m' : DialID_register id m = (Ok k, m') -> mux_step m m'
| ms_dial_sent m j err r m' : DialID_sent j err m = Some (r, m') -> mux_step m m'
| ms_dial_wait m j w r m' : DialID_wait j w m = Some (r, m') -> mux_step m m'
| ms_open m frame r m' : handleOpen_register frame m = (Ok r, m') -> mux_step m m'
| ms_open_sent m j err e out m' : handleOpen_sent j err m = Some (e, out, m') -> mux_step m m'
| ms_accept m w r m' : Accept_turn w m = Some (r, m') -> mux_step m m'
| ms_close m m' : Close_step m = Some m' -> mux_step m m'
| ms_terminate m k err : mux_step m (terminate_conn k err m)   (* Close of a stream, or its peer's CLOSE *)
| ms_removed m j m' : finish_terminate j m = Some m' -> mux_step m m'
| ms_conn m k c c' : mx_heap m !! k = Some c -> conn_moves c c' ->
    mux_step m (set_heap (<[k := c']> (mx_heap m)) m).

Inductive mux_reachable (m0 : StreamMux) : StreamMux -> Prop :=
| mr_init : mux_reachable m0 m0
| mr_step m m' : mux_reachable m0 m -> mux_step m m' -> mux_reachable m0 m'.

(** ** The table *)

(** The connections [Close] has collected and not terminated yet. *)
Definition closing (m : StreamMux) : list nat :=
  match mx_close m with CloseTerminate l => l | _ => [] end.

Record table_inv (m : StreamMux) : Prop := {
  ti_entry : forall id k, mx_streams m !! id = Some k -> exists c,
    mx_heap m !! k = Some c /\ sc_id c = id /\ (isClosed c = true -> k ∈ mx_removing m);
  ti_live : forall k c, mx_heap m !! k = Some c -> isClosed c = false ->
    mx_streams m !! sc_id c = Some k \/ k ∈ closing m;
  ti_empty : forall l, mx_close m = CloseTerminate l -> mx_streams m = ∅;
}.

Lemma isClosed_terminate err c : isClosed (terminate err c) = true.
Proof. unfold isClosed, terminate. destruct (sc_closeErr c) eqn:E; simpl; by rewrite ?E. Qed.

Lemma terminate_id err c : sc_id (terminate err c) = sc_id c.
Proof. unfold terminate. by destruct (sc_closeErr c). Qed.

Lemma terminate_conn_spec k err m :
  let m' := terminate_conn k err m in
  mx_cfg m' = mx_cfg m /\ mx_streams m' = mx_streams m /\ mx_accept m' = mx_accept m /\ mx_close m' = mx_close m /\
  mx_dialing m' = mx_dialing m /\ mx_opening m' = mx_opening m /\ mx_accepted m' = mx_accepted m /\
  mx_dialed m' = mx_dialed m /\ length (mx_heap m') = length (mx_heap m) /\
  (forall j, j ∈ mx_removing m -> j ∈ mx_removing m') /\
  forall j c', mx_heap m' !! j = Some c' ->
    (mx_heap m !! j = Some c' /\ (j = k -> isClosed c' = true)) \/
    (j = k /\ isClosed c' = true /\ j ∈ mx_removing m' /\ exists c, mx_heap m !! j = Some c /\ sc_id c' = sc_id c).
Proof.
  unfold terminate_conn. destruct (mx_heap m !! k) as [c|] eqn:Hk; [destruct (isClosed c) eqn:Hc|];
    split_and!; simpl; auto; try (intros j c' Hj; left; split; [done|intros ->; congruence]).
  - by rewrite length_insert.
  - intros j Hj. apply elem_of_app. by left.
  - intros j c'. destruct (decide (j = k)) as [->|Hn].
    + rewrite list_lookup_insert_eq by by eapply lookup_lt_Some. intros [= <-]. right.
      rewrite terminate_id, isClosed_terminate. split_and!; eauto. apply elem_of_app. right. by left.
    + rewrite list_lookup_insert_ne by done. intros Hj. left. by split.
Qed.

Lemma table_terminate k err m : table_inv m -> table_inv (terminate_conn k err m).
Proof.
  intros []. pose proof (terminate_conn_spec k err m) as (_ & Es & _ & Ec & _ & _ & _ & _ & Elen & Hrem & Hh).
  split; unfold closing; rewrite ?Es, ?Ec; auto.
  - intros id j Hj. destruct (ti_entry0 _ _ Hj) as (c & Hc & Hid & Hcl).
    destruct (lookup_lt_is_Some_2 (mx_heap (terminate_conn k err m)) j) as [c' Hc'].
    { rewrite Elen. by eapply lookup_lt_Some. }
    exists c'. split; [done|]. destruct (Hh _ _ Hc') as [[Hold _]|(-> & _ & Hin & c0 & Hc0 & Hid')].
    + simplify_eq. auto.
    + simplify_eq. by rewrite Hid'.
  - intros j c Hj Hl. destruct (Hh _ _ Hj) as [[Hold _]|(_ & Hcl & _)]; [by apply ti_live0|congruence].
Qed.

(** Nothing but history and pending calls differs. *)
Lemma table_same m m' :
  table_inv m -> mx_streams m' = mx_streams m -> mx_heap m' = mx_heap m -> mx_close m' = mx_close m ->
  mx_removing m' = mx_removing m -> table_inv m'.
Proof. intros [] Es Eh Ec Er. split; unfold closing; rewrite ?Es, ?Eh, ?Ec, ?Er; auto. Qed.

(** A new connection takes a free place of the table. *)
Lemma table_register id c m m' :
  table_inv m -> mx_closed m = false -> mx_streams m !! id = None -> sc_id c = id -> isClosed c = false ->
  mx_streams m' = <[id := length (mx_heap m)]> (mx_streams m) -> mx_heap m' = mx_heap m ++ [c] ->
  mx_close m' = mx_close m -> mx_removing m' = mx_removing m -> table_inv m'.
Proof.
  intros [] Hcl Hfree Hid Hopen Es Eh Ec Er. unfold mx_closed in Hcl.
  split; unfold closing; rewrite ?Es, ?Eh, ?Ec, ?Er.
  - intros id' k. rewrite lookup_insert. case_decide as Hd; [|intros Hk].
    + intros [= <-]. exists c. rewrite lookup_app_r by lia. rewrite Nat.sub_diag. split_and!; [done|by rewrite Hid|by rewrite Hopen].
    + destruct (ti_entry0 _ _ Hk) as (c' & Hc' & ?). exists c'. split; [|done]. by apply lookup_app_l_Some.
  - intros k c' Hk Hl. left. rewrite lookup_insert. apply lookup_app_Some in Hk as [Hk|[Hge Hk]].
    + destruct (ti_live0 _ _ Hk Hl) as [Hs|Hin].
      * case_decide; [simplify_eq; congruence|done].
      * unfold closing in Hin. destruct (mx_close m); [by apply not_elem_of_nil in Hin|done..].
    + apply list_lookup_singleton_Some in Hk as [Hz <-]. rewrite decide_True by done. f_equal. lia.
  - intros l Hl. by rewrite Hl in Hcl.
Qed.

Lemma remove_spec id k m :
  mx_heap (remove id k m) = mx_heap m /\ mx_close (remove id k m) = mx_close m /\
  mx_removing (remove id k m) = mx_removing m /\ mx_cfg (remove id k m) = mx_cfg m /\
  mx_accept (remove id k m) = mx_accept m /\ mx_accepted (remove id k m) = mx_accepted m /\
  mx_dialed (remove id k m) = mx_dialed m /\ mx_dialing (remove id k m) = mx_dialing m /\
  mx_opening (remove id k m) = mx_opening m /\
  forall i j, mx_streams (remove id k m) !! i = Some j <-> mx_streams m !! i = Some j /\ ~ (i = id /\ j = k).
Proof.
  unfold remove. case_bool_decide; repeat (split; [done|]); intros i j; simpl.
  - rewrite lookup_delete_Some. naive_solver.
  - naive_solver.
Qed.

(** [remove] takes out the terminated connection it was called for and no successor. *)
Lemma table_removed j m m' : table_inv m -> finish_terminate j m = Some m' ->
  (forall k c, k ∈ mx_removing m -> mx_heap m !! k = Some c -> isClosed c = true) -> table_inv m'.
Proof.
  intros [] Hf Hrc. unfold finish_terminate in Hf. destruct (mx_removing m !! j) as [k|] eqn:Hj; [|done].
  destruct (mx_heap m !! k) as [c|] eqn:Hk; [|done]. injection Hf as <-.
  set (m1 := set_removing _ _). destruct (remove_spec (sc_id c) k m1) as (Eh & Ec & Er & _ & _ & _ & _ & _ & _ & Es).
  assert (isClosed c = true) as Hcl by (eapply Hrc; [by eapply list_elem_of_lookup_2|done]).
  split; unfold closing; rewrite ?Eh, ?Ec, ?Er.
  - intros id i [Hi Hd]%Es. change (mx_streams m !! id = Some i) in Hi.
    destruct (ti_entry0 _ _ Hi) as (c' & Hc' & <- & Hin). exists c'. split_and!; auto. intros Hx.
    apply Hin in Hx. simpl. rewrite (delete_Permutation _ _ _ Hj) in Hx. apply elem_of_cons in Hx as [->|Hx]; [|done].
    destruct Hd. simplify_eq. by split.
  - intros i c' Hi Hl. change (mx_heap m !! i = Some c') in Hi. destruct (ti_live0 _ _ Hi Hl) as [Hs|Hin]; [|by right].
    left. apply Es. split; [done|]. intros [_ ->]. simplify_eq. congruence.
  - intros l Hl. apply map_empty. intros i. destruct (mx_streams _ !! i) as [x|] eqn:Hx; [|done].
    apply Es in Hx as [Hx _]. change (mx_streams m !! i = Some x) in Hx. by rewrite (ti_empty0 l Hl), lookup_empty in Hx.
Qed.

Definition removing_closed (m : StreamMux) : Prop :=
  forall k c, k ∈ mx_removing m -> mx_heap m !! k = Some c -> isClosed c = true.

Definition table_ok (m : StreamMux) : Prop := table_inv m /\ removing_closed m /\
  (forall k, k ∈ mx_removing m -> (k < length (mx_heap m))%nat).

Lemma ok_same m m' :
  table_ok m -> mx_streams m' = mx_streams m -> mx_heap m' = mx_heap m -> mx_close m' = mx_close m ->
  mx_removing m' = mx_removing m -> table_ok m'.
Proof.
  intros (Ht & Hr & Hl) Es Eh Ec Er. split; [by eapply table_same|].
  unfold removing_closed. rewrite Eh, Er. by split.
Qed.

Lemma terminate_conn_removing j k err m :
  j ∈ mx_removing (terminate_conn k err m) -> j ∈ mx_removing m \/ j = k /\ (j < length (mx_heap m))%nat.
Proof.
  unfold terminate_conn. destruct (mx_heap m !! k) as [c|] eqn:Hk; [|auto]. destruct (isClosed c); [auto|].
  simpl. intros [?| ->%list_elem_of_singleton]%elem_of_app; [auto|right]. split; [done|]. by eapply lookup_lt_Some.
Qed.

Lemma ok_terminate k err m : table_ok m -> table_ok (terminate_conn k err m).
Proof.
  intros (Ht & Hr & Hl). split; [by apply table_terminate|].
  pose proof (terminate_conn_spec k err m) as (_ & _ & _ & _ & _ & _ & _ & _ & Elen & _ & Hh). split.
  - intros j c Hj Hc. destruct (Hh _ _ Hc) as [[Hold Hk]|(_ & Hx & _)]; [|done].
    apply terminate_conn_removing in Hj as [Hj|[Hj _]]; eauto.
  - intros j Hj. rewrite Elen. apply terminate_conn_removing in Hj as [Hj|[_ Hj]]; auto.
Qed.

Lemma ok_register id c m m' :
  table_ok m -> mx_closed m = false -> mx_streams m !! id = None -> sc_id c = id -> isClosed c = false ->
  mx_streams m' = <[id := length (mx_heap m)]> (mx_streams m) -> mx_heap m' = mx_heap m ++ [c] ->
  mx_close m' = mx_close m -> mx_removing m' = mx_removing m -> table_ok m'.
Proof.
  intros (Ht & Hr & Hl) Hcl Hfree Hid Hopen Es Eh Ec Er. split; [by eapply table_register|].
  unfold removing_closed. rewrite Eh, Er. split.
  - intros k c' Hk Hc. apply (Hr k c'); [done|]. by rewrite lookup_app_l in Hc by auto.
  - intros k Hk. rewrite length_app. specialize (Hl _ Hk). lia.
Qed.

Lemma ok_removed j m m' : table_ok m -> finish_terminate j m = Some m' -> table_ok m'.
Proof.
  intros (Ht & Hr & Hl) Hf. split; [by eapply table_removed|].
  unfold finish_terminate in Hf. destruct (mx_removing m !! j) as [k|] eqn:Hj; [|done].
  destruct (mx_heap m !! k) as [c|]; [|done]. injection Hf as <-. set (m1 := set_removing _ _).
  destruct (remove_spec (sc_id c) k m1) as (Eh & _ & Er & _). unfold removing_closed. rewrite Eh, Er. simpl.
  assert (forall i, i ∈ delete j (mx_removing m) -> i ∈ mx_removing m) as Hsub.
  { intros i Hi. rewrite (delete_Permutation _ _ _ Hj). by right. }
  split; eauto.
Qed.

Lemma ok_close m m' : table_ok m -> Close_step m = Some m' -> table_ok m'.
Proof.
  intros Hok Hc. unfold Close_step in Hc. destruct (mx_close m) as [| |[|k l]] eqn:Hm; simplify_eq.
  - destruct Hok as ([] & Hr & Hl). split; [|by split]. split; unfold closing; simpl; auto; [|done].
    intros k c Hk Ho. destruct (ti_live0 _ _ Hk Ho) as [|Hin]; [by left|]. unfold closing in Hin. rewrite Hm in Hin.
    by apply not_elem_of_nil in Hin.
  - destruct Hok as ([] & Hr & Hl). split; [|by split]. split; unfold closing; simpl; auto; [by intros id k|].
    intros k c Hk Ho. right. destruct (ti_live0 _ _ Hk Ho) as [Hs|Hin].
    + apply elem_of_map_to_list in Hs. apply list_elem_of_fmap. by exists (sc_id c, k).
    + unfold closing in Hin. rewrite Hm in Hin. by apply not_elem_of_nil in Hin.
  - pose proof (ok_terminate k (Some (Sentinel ErrStreamClosed)) m Hok) as ([He Hlv Hem] & Hr & Hl).
    pose proof (terminate_conn_spec k (Some (Sentinel ErrStreamClosed)) m) as (_ & Es & _ & Ec & _ & _ & _ & _ & _ & _ & Hh).
    set (m1 := terminate_conn k _ m) in *. set (m2 := terminate_conn k _ (set_close _ m)).
    assert (mx_heap m2 = mx_heap m1 /\ mx_streams m2 = mx_streams m1 /\ mx_removing m2 = mx_removing m1 /\
      mx_close m2 = CloseTerminate l) as (Eh2 & Es2 & Er2 & Ec2).
    { unfold m2, m1, terminate_conn. simpl. destruct (mx_heap m !! k); [destruct (isClosed _)|]; done. }
    split; [|unfold removing_closed; rewrite Eh2, Er2; by split].
    split; unfold closing; rewrite ?Eh2, ?Es2, ?Er2, ?Ec2; auto.
    + intros j c Hj Ho. destruct (Hlv _ _ Hj Ho) as [Hs|Hin]; [by left|right].
      unfold closing in Hin. rewrite Ec, Hm in Hin. apply elem_of_cons in Hin as [->|Hin]; [|done].
      destruct (Hh _ _ Hj) as [[_ Hx]|(_ & Hx & _)]; [rewrite Hx in Ho|]; congruence.
    + intros l' _. apply (Hem (k :: l)). by rewrite Ec.
Qed.

Lemma ok_conn k c c' m : table_ok m -> mx_heap m !! k = Some c -> conn_moves c c' ->
  table_ok (set_heap (<[k := c']> (mx_heap m)) m).
Proof.
  intros ([] & Hr & Hl) Hk [Hid Hcl].
  assert (forall j d, <[k := c']> (mx_heap m) !! j = Some d -> exists d0, mx_heap m !! j = Some d0 /\
    sc_id d = sc_id d0 /\ isClosed d = isClosed d0) as Hd.
  { intros j d. destruct (decide (j = k)) as [->|Hne].
    - rewrite list_lookup_insert_eq by by eapply lookup_lt_Some. intros [= <-]. exists c. unfold isClosed. by rewrite Hcl.
    - rewrite list_lookup_insert_ne by done. eauto. }
  split; [split; unfold closing; simpl; auto|split; simpl].
  - intros id j Hj. destruct (ti_entry0 _ _ Hj) as (d0 & Hd0 & Hid0 & Hx).
    destruct (lookup_lt_is_Some_2 (<[k := c']> (mx_heap m)) j) as [d Hd'].
    { rewrite length_insert. by eapply lookup_lt_Some. }
    destruct (Hd _ _ Hd') as (d1 & Hd1 & E1 & E2). simplify_eq. exists d. rewrite E1, E2. by split_and!.
  - intros j d Hj Ho. destruct (Hd _ _ Hj) as (d0 & Hd0 & E1 & E2). rewrite E1. rewrite E2 in Ho. by apply ti_live0.
  - intros j d Hj Hd'. destruct (Hd _ _ Hd') as (d0 & Hd0 & _ & ->). by eapply Hr.
  - intros j Hj. rewrite length_insert. auto.
Qed.

Lemma table_step m m' : mux_step m m' -> table_ok m -> table_ok m'.
Proof.
  intros Hs Hok. destruct Hs as [m id k m' Hd|m j err r m' Hd|m j w r m' Hd|m frame r m' Hd|m j err e out m' Hd
    |m w r m' Hd|m m' Hd|m k err|m j m' Hd|m k c c' Hk Hc].
  - unfold DialID_register in Hd. destruct (mx_closed m) eqn:Hcl; [done|]. destruct (_ !! id) eqn:Hf; [done|].
    injection Hd as <- <-. eapply ok_register; eauto; done.
  - unfold DialID_sent in Hd. destruct (mx_dialing m !! j) as [[k []]|]; [done| |done].
    destruct err; simplify_eq; [apply ok_terminate|]; by eapply ok_same.
  - unfold DialID_wait in Hd. destruct (mx_dialing m !! j) as [[k []]|]; [|done..].
    destruct (mx_heap m !! k) as [c|]; [|done]. destruct w; [destruct (sc_opened c)|destruct (isClosed c)|]; simplify_eq;
      [..|apply ok_terminate]; by eapply ok_same.
  - unfold handleOpen_register in Hd. destruct (_ || _); [done|]. destruct (maxInt <? _); [done|].
    destruct (mx_closed m) eqn:Hcl; [done|]. destruct (mx_streams m !! sf_ID frame) eqn:Hf; injection Hd as <- <-.
    + by eapply ok_same.
    + eapply ok_register; eauto; done.
  - unfold handleOpen_sent in Hd. destruct (mx_opening m !! j) as [[[k frame] created]|]; [|done].
    destruct err, created; [| |destruct (_ <? _)|]; simplify_eq; try apply ok_terminate; by eapply ok_same.
  - unfold Accept_turn in Hd. destruct w; [|destruct (mx_closed m); by simplify_eq|by simplify_eq].
    destruct (mx_accept m) as [|k rest]; [done|]. destruct (mx_heap m !! k) as [c|]; [|done].
    destruct (isClosed c); simplify_eq; by eapply ok_same.
  - by eapply ok_close.
  - by apply ok_terminate.
  - by eapply ok_removed.
  - by eapply ok_conn.
Qed.

(** ** Who a stream is handed to *)

(** The connections [handleOpen] created and has not queued yet. *)
Definition opened_by (l : list (nat * StreamFrame * bool)) : list nat :=
  (fun x => x.1.1) <$> filter (fun x => x.2 = true) l.

(** Every place a connection can be on its way to the application. *)
Definition owned (m : StreamMux) : list nat :=
  mx_accepted m ++ mx_dialed m ++ mx_accept m ++ opened_by (mx_opening m) ++ (fst <$> mx_dialing m).

Record owned_ok (m : StreamMux) : Prop := {
  oo_once : NoDup (owned m);
  oo_old : Forall (fun k => (k < length (mx_heap m))%nat) (owned m);
  oo_backlog : len (mx_accept m) <= mc_AcceptBacklog (mx_cfg m);
}.

Lemma owned_sub m m' :
  owned_ok m -> owned m' ⊆+ owned m -> length (mx_heap m') = length (mx_heap m) ->
  len (mx_accept m') <= mc_AcceptBacklog (mx_cfg m') -> owned_ok m'.
Proof.
  intros [Ho Hl _] Hs Eh Hb. split; [by eapply NoDup_sub| |done]. rewrite Eh.
  apply List.Forall_forall. intros k Hk%list_elem_of_In. apply (Forall_elem _ _ _ Hl). by eapply elem_of_submseteq.
Qed.

Lemma owned_fresh m m' :
  owned_ok m -> owned m' ⊆+ length (mx_heap m) :: owned m -> length (mx_heap m') = S (length (mx_heap m)) ->
  mx_accept m' = mx_accept m -> mx_cfg m' = mx_cfg m -> owned_ok m'.
Proof.
  intros [Ho Hl Hb] Hs Eh Ea Ec. split; [eapply NoDup_sub; [exact Hs|]| |by rewrite Ea, Ec].
  - apply NoDup_cons. split; [|done]. intros Hin. pose proof (Forall_elem _ _ _ Hl Hin). simpl in *. lia.
  - rewrite Eh. apply List.Forall_forall. intros k Hk%list_elem_of_In.
    eapply elem_of_submseteq in Hk; [|exact Hs]. apply elem_of_cons in Hk as [->|Hk]; [lia|].
    pose proof (Forall_elem _ _ _ Hl Hk). simpl in *. lia.
Qed.

(** [terminate_conn] hands nothing to anybody. *)
Lemma owned_terminate k err m : owned_ok m -> owned_ok (terminate_conn k err m).
Proof.
  intros Ho. pose proof (terminate_conn_spec k err m) as (Ec & _ & Ea & _ & Ed & Eo & Eac & Edl & El & _).
  pose proof (oo_backlog _ Ho).
  apply (owned_sub m); [done| |done|by rewrite Ea, Ec]. unfold owned. by rewrite Ea, Ed, Eo, Eac, Edl.
Qed.

Lemma dialing_remove j k b (l : list (nat * bool)) :
  l !! j = Some (k, b) -> fst <$> l ≡ₚ k :: (fst <$> delete j l).
Proof. intros Hj. by rewrite (delete_Permutation _ _ _ Hj) at 1. Qed.

Lemma opening_remove j k frame created (l : list (nat * StreamFrame * bool)) :
  l !! j = Some (k, frame, created) ->
  opened_by l ≡ₚ (if created : bool then [k] else []) ++ opened_by (delete j l).
Proof.
  intros Hj. unfold opened_by. rewrite (delete_Permutation _ _ _ Hj) at 1. rewrite filter_cons. simpl.
  by destruct created.
Qed.

Lemma dialing_mark j k b b' (l : list (nat * bool)) : l !! j = Some (k, b) -> fst <$> <[j := (k, b')]> l = fst <$> l.
Proof. intros Hj. rewrite list_fmap_insert. apply list_insert_id. by rewrite list_lookup_fmap, Hj. Qed.

Lemma opened_by_snoc l k frame created :
  opened_by (l ++ [(k, frame, created)]) = opened_by l ++ (if created : bool then [k] else []).
Proof. unfold opened_by. rewrite filter_app, fmap_app, filter_cons, filter_nil. simpl. by destruct created. Qed.

Lemma owned_step m m' : mux_step m m' -> owned_ok m -> owned_ok m'.
Proof.
  intros Hs Ho. pose proof (oo_backlog _ Ho) as Hb.
  destruct Hs as [m id k m' Hd|m j err r m' Hd|m j w r m' Hd|m frame r m' Hd|m j err e out m' Hd
    |m w r m' Hd|m m' Hd|m k err|m j m' Hd|m k c c' Hk Hc].
  - unfold DialID_register in Hd. destruct (mx_closed m); [done|]. destruct (_ !! id); [done|].
    injection Hd as <- <-. apply (owned_fresh m); try done; [|simpl; rewrite length_app; simpl; lia].
    unfold owned. simpl. rewrite fmap_app. simpl. solve_submseteq.
  - unfold DialID_sent in Hd. destruct (mx_dialing m !! j) as [[k []]|] eqn:Hj; [done| |done].
    destruct err; simplify_eq; [apply owned_terminate|]; (apply (owned_sub m); [done| |done|done]); unfold owned; simpl.
    + rewrite (dialing_remove _ _ _ _ Hj). solve_submseteq.
    + by rewrite (dialing_mark _ _ _ _ _ Hj).
  - unfold DialID_wait in Hd. destruct (mx_dialing m !! j) as [[k []]|] eqn:Hj; [|done..].
    pose proof (dialing_remove _ _ _ _ Hj) as Hp.
    destruct (mx_heap m !! k) as [c|]; [|done]. destruct w; [destruct (sc_opened c)|destruct (isClosed c)|]; simplify_eq;
      try apply owned_terminate; (apply (owned_sub m); [done| |done|done]); unfold owned; simpl; rewrite Hp; solve_submseteq.
  - unfold handleOpen_register in Hd. destruct (_ || _); [done|]. destruct (maxInt <? _); [done|].
    destruct (mx_closed m); [done|]. destruct (mx_streams m !! sf_ID frame); injection Hd as <- <-.
    + apply (owned_sub m); try done. unfold owned. simpl. rewrite opened_by_snoc, app_nil_r. done.
    + apply (owned_fresh m); try done; [|simpl; rewrite length_app; simpl; lia].
      unfold owned. simpl. rewrite opened_by_snoc. solve_submseteq.
  - unfold handleOpen_sent in Hd. destruct (mx_opening m !! j) as [[[k frame] created]|] eqn:Hj; [|done].
    pose proof (opening_remove _ _ _ _ _ Hj) as Hp.
    destruct err, created; [| |destruct (_ <? _) eqn:Hlt|]; simplify_eq; try apply owned_terminate; bool_facts;
      (apply (owned_sub m); [done| |done|try done; simpl; rewrite len_app; unfold len in *; simpl in *; lia]);
      unfold owned; simpl; rewrite Hp; solve_submseteq.
  - unfold Accept_turn in Hd. destruct w; [|destruct (mx_closed m); by simplify_eq|by simplify_eq].
    destruct (mx_accept m) as [|k rest] eqn:Ha; [done|]. destruct (mx_heap m !! k) as [c|]; [|done].
    destruct (isClosed c); simplify_eq; (apply (owned_sub m); [done| |done|simpl; unfold len in *; simpl in *; lia]);
      unfold owned; simpl; rewrite Ha; solve_submseteq.
  - unfold Close_step in Hd. destruct (mx_close m) as [| |[]]; simplify_eq; try apply owned_terminate;
      (by apply (owned_sub m)).
  - by apply owned_terminate.
  - unfold finish_terminate in Hd. destruct (mx_removing m !! j) as [k|]; [|done].
    destruct (mx_heap m !! k) as [c|]; [|done]. injection Hd as <-. set (m1 := set_removing _ _).
    destruct (remove_spec (sc_id c) k m1) as (Eh & _ & _ & Ec & Ea & Eac & Edl & Ed & Eo & _).
    apply (owned_sub m); [done| |by rewrite Eh|by rewrite Ea, Ec]. unfold owned. by rewrite Ea, Ed, Eo, Eac, Edl.
  - apply (owned_sub m); try done. simpl. by rewrite length_insert.
Qed.

(** ** The theorems *)

Lemma mux_init_ok hasSend cfg m0 : NewStreamMux hasSend cfg = Ok m0 -> table_ok m0 /\ owned_ok m0.
Proof.
  unfold NewStreamMux. destruct hasSend; [|done]. simpl. unfold StreamMuxConfig_normalized.
  destruct (_ || _); [done|]. destruct (maxInt <? _); [done|].
  destruct (_ <? 1) eqn:Hb; [done|]. simpl. intros [= <-]. bool_facts. split.
  - split; [by split|]. split; [intros k c Hk|intros k Hk]; by apply not_elem_of_nil in Hk.
  - split; simpl; [constructor|constructor|unfold len; simpl; lia].
Qed.

Lemma mux_reachable_ok hasSend cfg m0 m :
  NewStreamMux hasSend cfg = Ok m0 -> mux_reachable m0 m -> table_ok m /\ owned_ok m.
Proof.
  intros Hnew Hr. induction Hr as [|m m' _ [Ht Ho] Hs]; [by eapply mux_init_ok|].
  split; [by eapply table_step|by eapply owned_step].
Qed.

(** C19: mux_stream_ownership. Whatever Dial, Accept, incoming frames, transport errors and Close do at
    the same time: a table entry leads to a connection that carries its ID, and the entry of a
    terminated one is about to be removed; while the mux is open a live stream is the one its
    ID leads to, so an ID has one live stream and the late removal of a terminated one never
    evicts its successor; every stream is handed out at most once, by its Dial or by Accept;
    and the accept queue stays inside its backlog. *)
Theorem mux_stream_ownership hasSend cfg m0 m :
  NewStreamMux hasSend cfg = Ok m0 -> mux_reachable m0 m ->
  (forall id k, mx_streams m !! id = Some k -> exists c,
     mx_heap m !! k = Some c /\ sc_id c = id /\ (isClosed c = true -> k ∈ mx_removing m)) /\
  (mx_close m = CloseNotCalled -> forall k c, mx_heap m !! k = Some c -> isClosed c = false ->
     mx_streams m !! sc_id c = Some k) /\
  NoDup (mx_accepted m ++ mx_dialed m) /\ len (mx_accept m) <= mc_AcceptBacklog (mx_cfg m).
Proof.
  intros Hnew Hr. destruct (mux_reachable_ok _ _ _ _ Hnew Hr) as [([He Hl _] & _ & _) [Ho _ Hb]].
  split_and!; try done.
  - intros Hc k c Hk Hop. destruct (Hl _ _ Hk Hop) as [|Hin]; [done|]. unfold closing in Hin. rewrite Hc in Hin.
    by apply not_elem_of_nil in Hin.
  - eapply NoDup_sub; [|exact Ho]. unfold owned. solve_submseteq.
Qed.

(** C18: mux_close_complete. When Close has returned, every stream that was ever created is terminated,
    wherever its Dial or the handling of its OPEN was, the table is empty and stays so: later
    dials and OPENs are refused, other frames find no stream, and no step adds a stream or takes
    the mux out of this state. *)
Theorem mux_close_complete hasSend cfg m0 m :
  NewStreamMux hasSend cfg = Ok m0 -> mux_reachable m0 m -> mx_close m = CloseTerminate [] ->
  (forall k c, mx_heap m !! k = Some c -> isClosed c = true) /\
  (forall id, DialID_register id m = (Err (Sentinel ErrStreamClosed), m)) /\
  (forall frame, is_ok (handleOpen_register frame m).1 = false /\ forall k, HandleFrame_route frame m <> RouteConn k) /\
  (forall m', mux_step m m' -> mx_close m' = CloseTerminate [] /\ length (mx_heap m') = length (mx_heap m)).
Proof.
  intros Hnew Hr Hc. destruct (mux_reachable_ok _ _ _ _ Hnew Hr) as [([_ Hl Hem] & _ & _) _].
  specialize (Hem _ Hc). assert (mx_closed m = true) as Hcl by (unfold mx_closed; by rewrite Hc).
  split_and!.
  - intros k c Hk. destruct (isClosed c) eqn:Ho; [done|]. destruct (Hl _ _ Hk Ho) as [Hs|Hin].
    + by rewrite Hem in Hs.
    + unfold closing in Hin. rewrite Hc in Hin. by apply not_elem_of_nil in Hin.
  - intros id. unfold DialID_register. by rewrite Hcl.
  - intros frame. split.
    + unfold handleOpen_register. rewrite Hcl. by repeat case_match.
    + intros k. unfold HandleFrame_route. rewrite Hem, lookup_empty. by repeat case_match.
  - assert (forall k e m1, mx_close m1 = mx_close m -> mx_heap m1 = mx_heap m ->
      mx_close (terminate_conn k e m1) = CloseTerminate [] /\ length (mx_heap (terminate_conn k e m1)) = length (mx_heap m)) as Ht.
    { intros k e m1 E1 E2. pose proof (terminate_conn_spec k e m1) as (_ & _ & _ & Ec & _ & _ & _ & _ & El & _).
      by rewrite Ec, El, E1, E2. }
    intros m' Hs. destruct Hs as [m id k m' Hd|m j err r m' Hd|m j w r m' Hd|m frame r m' Hd|m j err e out m' Hd
      |m w r m' Hd|m m' Hd|m k err|m j m' Hd|m k c c' Hk Hm].
    + unfold DialID_register in Hd. by rewrite Hcl in Hd.
    + unfold DialID_sent in Hd. guards_in Hd; auto.
    + unfold DialID_wait in Hd. guards_in Hd; auto.
    + unfold handleOpen_register in Hd. rewrite Hcl in Hd. by guards_in Hd.
    + unfold handleOpen_sent in Hd. guards_in Hd; auto.
    + unfold Accept_turn in Hd. guards_in Hd; auto.
    + unfold Close_step in Hd. by rewrite Hc in Hd.
    + by apply Ht.
    + unfold finish_terminate in Hd. guards_in Hd. unfold remove. by case_bool_decide.
    + simpl. by rewrite length_insert.
Qed.

(** ** Witnesses: a stream is opened by the peer and queued, then the mux is closed. *)

Definition demo_stream : StreamID := replicate 16 Byte.x07.
Definition demo_mux0 : StreamMux :=
  mkStreamMux (mkStreamMuxConfig DefaultStreamWindow DefaultStreamMaxFrame 16) ∅ [] [] CloseNotCalled [] [] [] [] [].
Definition demo_mux1 : StreamMux :=
  (handleOpen_register (mkStreamFrame StreamFrameOpen demo_stream 1 0 8 []) demo_mux0).2.
Definition demo_mux2 : StreamMux := match handleOpen_sent 0 None demo_mux1 with Some (_, m) => m | None => demo_mux1 end.
Definition close_once (m : StreamMux) : StreamMux := default m (Close_step m).
Definition demo_mux3 : StreamMux := close_once (close_once (close_once demo_mux2)).

Lemma close_once_reachable m0 m : mux_reachable m0 m -> mux_reachable m0 (close_once m).
Proof.
  intros Hr. unfold close_once. destruct (Close_step m) as [m'|] eqn:Hc; [|done]. simpl.
  eapply mr_step; [exact Hr|by apply ms_close].
Qed.

Lemma demo_mux2_reachable : mux_reachable demo_mux0 demo_mux2.
Proof.
  eapply mr_step; [eapply mr_step; [apply mr_init|]|].
  - eapply (ms_open demo_mux0 (mkStreamFrame StreamFrameOpen demo_stream 1 0 8 [])). vm_compute. reflexivity.
  - eapply (ms_open_sent _ 0 None). vm_compute. reflexivity.
Qed.

Lemma demo_mux3_reachable : mux_reachable demo_mux0 demo_mux3.
Proof. by apply close_once_reachable, close_once_reachable, close_once_reachable, demo_mux2_reachable. Qed.

Lemma mux_stream_ownership_witness :
  mx_accept demo_mux2 = [0%nat] /\ exists c, mx_heap demo_mux2 !! 0%nat = Some c /\ sc_id c = demo_stream.
Proof.
  split; [vm_compute; reflexivity|].
  destruct (mux_stream_ownership true None demo_mux0 demo_mux2 eq_refl demo_mux2_reachable) as (H & _).
  destruct (H demo_stream 0%nat) as (c & Hc & Hid & _); [vm_compute; reflexivity|]. by exists c.
Defined.

Lemma mux_close_complete_witness : exists c, mx_heap demo_mux3 !! 0%nat = Some c /\ isClosed c = true.
Proof.
  eexists. split; [vm_compute; reflexivity|].
  apply (proj1 (mux_close_complete true None demo_mux0 demo_mux3 eq_refl demo_mux3_reachable ltac:(vm_compute; reflexivity)) 0%nat).
  vm_compute. reflexivity.
Defined.
