(* ===== verification/RelayConn.v ===== *)
(** * One relay connection: state and critical sections (relay.go, relay_retry.go)

    [RelayConnection] groups the fields of the Go struct by the lock or the
    goroutine that owns them. Each definition is one section the code runs under
    [c.mu] (or one whole function where nothing can interleave inside it); the
    goroutines that string the sections together are in [RelayDispatch] (receive
    side) and [RelaySend] (send side). *)

From stdpp Require Import base list strings gmap.
From S2P Require Import Prelude Errors Types.

(** ** State *)

(** [relaySendItem]: a data item, a barrier of [Flush], or the zero item of [Close]. *)
Inductive relaySendItem : Type :=
| ItemData (data : bytes)
| ItemBarrier (id : nat)
| ItemFlush.

(** The send window, guarded by [mu]; [ackCh] is nil before [sendLoop] starts,
    then a one-slot notification. *)
Record send_window : Type := mkSendWindow {
  sendBase : Z;
  nextSeq : Z;
  unacked : gmap Z bytes;
  retransCnt : Z;
  ackCh : option bool;
}.

(** The reorder window, guarded by [mu]. *)
Record recv_window : Type := mkRecvWindow {
  expectedSeq : Z;
  recvBuf : gmap Z bytes;
  recvReady : Z;
  recvDelivered : Z;
}.

(** Admission, guarded by [inboxMu]; [inbox] is nil until the first admitted frame. *)
Record admission : Type := mkAdmission {
  inbox : option (list RelayEnvelope);
  inboxSeq : gset Z;
  inboxData : Z;
  inboxFailed : bool;
  inboxTerminal : bool;
}.

(** The acknowledgement worker, guarded by [mu]. [ackIdle] is the number of the
    channel that [waitReceiveACK] waits on, [ackIdleNext] the number the next
    [make(chan struct{})] gets; [ackOut] is nil before [ackOnce], then whether its
    slot is taken. *)
Record ack_worker : Type := mkAckWorker {
  ackIdle : option nat;
  ackIdleNext : nat;
  ackOut : option bool;
  ackPending : option RelayEnvelope;
  ackGenerating : Z;
  ackSending : bool;
}.

(** Life cycle, guarded by [mu]. [closeCh] is closed and [ctx] cancelled exactly
    when the state becomes [RelayStateClosed], so neither has a field of its own. *)
Record lifecycle : Type := mkLifecycle {
  state : RelayState;
  openChClosed : bool;
  flushChClosed : bool;
  onClose : list nat;
  closeErr : option error;
  remoteClosed : bool;
}.

Record RelayConnection : Type := mkRelayConnection {
  relayID : string;
  config : RelayConfig;
  remotePeer : UserRef;
  remoteSession : SessionRef;
  mySession : SessionRef;
  life : lifecycle;
  sw : send_window;
  rw : recv_window;
  adm : admission;
  ackw : ack_worker;
  sendCh : list relaySendItem;
  recvCh : list bytes;
}.

(** [c.field = v] for each group of fields. *)
Definition set_life (l : lifecycle) (c : RelayConnection) : RelayConnection :=
  mkRelayConnection (relayID c) (config c) (remotePeer c) (remoteSession c) (mySession c)
    l (sw c) (rw c) (adm c) (ackw c) (sendCh c) (recvCh c).
Definition set_sw (w : send_window) (c : RelayConnection) : RelayConnection :=
  mkRelayConnection (relayID c) (config c) (remotePeer c) (remoteSession c) (mySession c)
    (life c) w (rw c) (adm c) (ackw c) (sendCh c) (recvCh c).
Definition set_rw (w : recv_window) (c : RelayConnection) : RelayConnection :=
  mkRelayConnection (relayID c) (config c) (remotePeer c) (remoteSession c) (mySession c)
    (life c) (sw c) w (adm c) (ackw c) (sendCh c) (recvCh c).
Definition set_adm (a : admission) (c : RelayConnection) : RelayConnection :=
  mkRelayConnection (relayID c) (config c) (remotePeer c) (remoteSession c) (mySession c)
    (life c) (sw c) (rw c) a (ackw c) (sendCh c) (recvCh c).
Definition set_ackw (a : ack_worker) (c : RelayConnection) : RelayConnection :=
  mkRelayConnection (relayID c) (config c) (remotePeer c) (remoteSession c) (mySession c)
    (life c) (sw c) (rw c) (adm c) a (sendCh c) (recvCh c).
Definition set_sendCh (q : list relaySendItem) (c : RelayConnection) : RelayConnection :=
  mkRelayConnection (relayID c) (config c) (remotePeer c) (remoteSession c) (mySession c)
    (life c) (sw c) (rw c) (adm c) (ackw c) q (recvCh c).
Definition set_recvCh (q : list bytes) (c : RelayConnection) : RelayConnection :=
  mkRelayConnection (relayID c) (config c) (remotePeer c) (remoteSession c) (mySession c)
    (life c) (sw c) (rw c) (adm c) (ackw c) (sendCh c) q.
Definition set_remoteSession (s : SessionRef) (c : RelayConnection) : RelayConnection :=
  mkRelayConnection (relayID c) (config c) (remotePeer c) s (mySession c)
    (life c) (sw c) (rw c) (adm c) (ackw c) (sendCh c) (recvCh c).

Definition State (c : RelayConnection) : RelayState := state (life c).
Definition is_closed (c : RelayConnection) : bool := bool_decide (State c = RelayStateClosed).
Definition reliability (c : RelayConnection) : Reliability := rc_Reliability (config c).
Definition best_effort (c : RelayConnection) : bool :=
  bool_decide (reliability c = ReliabilityBestEffort).

(** [make(chan []byte, 64)] and [make(chan relaySendItem, cfg.SendBufferSize/1024)]. *)
Definition recvChCap : Z := 64.
Definition sendChCap (cfg : RelayConfig) : Z := Z.quot (rc_SendBufferSize cfg) 1024.

(** The struct literal of [Connect] (state opening) and of [acceptIncoming] (state
    open, [openCh] closed at once); a negative buffer size panics in [make]. *)
Definition newConnection (id : string) (cfg : RelayConfig) (st : RelayState)
    (peer : UserRef) (remote mine : SessionRef) : result error RelayConnection :=
  if sendChCap cfg <? 0 then Panic
  else Ok (mkRelayConnection id cfg peer remote mine
    (mkLifecycle st (bool_decide (st = RelayStateOpen)) false [] None false)
    (mkSendWindow 1 1 ∅ 0 None) (mkRecvWindow 1 ∅ 0 0)
    (mkAdmission None ∅ 0 false false) (mkAckWorker None 0 None None 0 false) [] []).

(** ** Envelopes the connection builds; [now] is [time.Now().UnixMilli()]. *)

Definition makeEnvelope (c : RelayConnection) (k : RelayKind) (seq ackSeq : Z) (payload : bytes)
    (now : Z) : RelayEnvelope :=
  mkRelayEnvelope (relayID c) k (mySession c) (remoteSession c) seq ackSeq payload now.

(** ** Closing *)

(** [closeWithSource]: the connection after it, and the callbacks to notify; the
    first close wins and the later ones change nothing. *)
Definition closeWithSource (c : RelayConnection) (reason : option error) (remoteClose : bool)
    : RelayConnection * list nat :=
  if is_closed c then (c, [])
  else
    (set_life (mkLifecycle RelayStateClosed (openChClosed (life c)) (flushChClosed (life c))
                 (onClose (life c)) reason remoteClose) c,
     onClose (life c)).

Definition closeConnection (c : RelayConnection) (reason : option error) : RelayConnection :=
  (closeWithSource c reason false).1.
Definition handleClose (c : RelayConnection) (reason : option error) : RelayConnection :=
  closeConnection c reason.
Definition Abort (c : RelayConnection) (reason : option error) : RelayConnection :=
  handleClose c reason.
Definition closeResult (c : RelayConnection) : option error := closeErr (life c).

(** [OnClose(fn)]: the connection after it, and the reason [fn] is called with at once, if any. *)
Definition OnClose (c : RelayConnection) (fn : nat) : RelayConnection * option (option error) :=
  if is_closed c then (c, Some (closeErr (life c)))
  else
    (set_life (mkLifecycle (state (life c)) (openChClosed (life c)) (flushChClosed (life c))
                 (onClose (life c) ++ [fn]) (closeErr (life c)) (remoteClosed (life c))) c,
     None).

Definition flushError (c : RelayConnection) : error :=
  match closeResult c with
  | Some err => err
  | None => ERelay RelayErrorNotConnected "connection not open"
  end.

(** ** Sending one envelope *)

(** [retryableSendError(err)]; [done] is whether [ctx.Err()] is non-nil. *)
Definition retryableSendError (cfg : RelayConfig) (done : bool) (err : option error) : bool :=
  match err with
  | None => false
  | Some e =>
      negb (bool_decide (rc_Reliability cfg = ReliabilityBestEffort)) && negb done &&
      match errors_As_ServerError e with
      | Some se => bool_decide (se_Code se = "service_unavailable")
      | None => false
      end
  end.

(** [sendRelayEnvelope]: [outcome] is what [sendRelayEnvelopeOnce] returned. *)
Definition sendRelayEnvelope (cfg : RelayConfig) (done : bool) (env : RelayEnvelope)
    (outcome : option error) : option error :=
  if bool_decide (re_Kind env = RelayKindData) && retryableSendError cfg done outcome
  then None else outcome.

(** [sendACKWithRetry]: [outcome i] is the result of the [i]-th attempt, [done i]
    whether the context had ended when it returned, [cancelled i] whether it ends
    during the wait that follows. The result is the returned error and the number
    of attempts made; [None] means the fuel ran out. *)
Fixpoint sendACKLoop (fuel : nat) (cfg : RelayConfig) (env : RelayEnvelope)
    (outcome : nat -> option error) (done cancelled : nat -> bool) (retries : nat)
    : option (option error * nat) :=
  match fuel with
  | O => None
  | S fuel' =>
      let err := sendRelayEnvelope cfg (done retries) env (outcome retries) in
      if negb (retryableSendError cfg (done retries) err)
         || (rc_MaxRetransmits cfg <=? Z.of_nat retries)
      then Some (err, S retries)
      else if cancelled retries then Some (Some (Sentinel Canceled), S retries)
      else sendACKLoop fuel' cfg env outcome done cancelled (S retries)
  end.

Definition sendACKWithRetry (cfg : RelayConfig) (env : RelayEnvelope)
    (outcome : nat -> option error) (done cancelled : nat -> bool) : option (option error * nat) :=
  sendACKLoop (S (Z.to_nat (rc_MaxRetransmits cfg))) cfg env outcome done cancelled 0.

(** ** The acknowledgement worker (relay_dispatch.go) *)

(** [closeACKIdleLocked] *)
Definition closeACKIdleLocked (a : ack_worker) : ack_worker :=
  if (ackGenerating a =? 0) && negb (ackSending a) && bool_decide (ackPending a = None)
  then mkAckWorker None (ackIdleNext a) (ackOut a) (ackPending a) (ackGenerating a) (ackSending a)
  else a.

(** [if c.ackIdle == nil { c.ackIdle = make(chan struct{}) }] *)
Definition makeACKIdle (a : ack_worker) : ack_worker :=
  match ackIdle a with
  | Some _ => a
  | None =>
      mkAckWorker (Some (ackIdleNext a)) (S (ackIdleNext a)) (ackOut a) (ackPending a)
        (ackGenerating a) (ackSending a)
  end.

(** [beginReceiveACK]: false when the connection is closed. *)
Definition beginReceiveACK (c : RelayConnection) : bool * RelayConnection :=
  if is_closed c then (false, c)
  else
    let a := ackw c in
    (true, set_ackw (makeACKIdle (mkAckWorker (ackIdle a) (ackIdleNext a) (ackOut a) (ackPending a)
                                    (ackGenerating a + 1) (ackSending a))) c).

Definition finishReceiveACK (c : RelayConnection) : RelayConnection :=
  let a := ackw c in
  set_ackw (closeACKIdleLocked (mkAckWorker (ackIdle a) (ackIdleNext a) (ackOut a) (ackPending a)
                                  (ackGenerating a - 1) (ackSending a))) c.

(** [queueACK]: keeps the larger of the pending acknowledgement and [env], and wakes the worker. *)
Definition queueACK (c : RelayConnection) (env : RelayEnvelope) : RelayConnection :=
  if is_closed c then c
  else
    let a := ackw c in
    let pending :=
      match ackPending a with
      | None => env
      | Some p => if re_AckSeq p <? re_AckSeq env then env else p
      end in
    set_ackw (makeACKIdle (mkAckWorker (ackIdle a) (ackIdleNext a) (Some true) (Some pending)
                             (ackGenerating a) (ackSending a))) c.

(** [receiveACKLoop], its first locked section: take the pending acknowledgement. *)
Definition ackTake (c : RelayConnection) : option RelayEnvelope * RelayConnection :=
  let a := ackw c in
  (ackPending a,
   set_ackw (closeACKIdleLocked (mkAckWorker (ackIdle a) (ackIdleNext a) (ackOut a) None
     (ackGenerating a) (negb (bool_decide (ackPending a = None))))) c).

(** [receiveACKLoop] after [sendACKWithRetry] returned [err]. *)
Definition ackDone (c : RelayConnection) (err : option error) : RelayConnection :=
  let a := ackw c in
  let a' := mkAckWorker (ackIdle a) (ackIdleNext a) (ackOut a) (ackPending a)
              (ackGenerating a) false in
  match err with
  | None => set_ackw (closeACKIdleLocked a') c
  | Some e => handleClose (set_ackw a' c) (Some e)
  end.

(** [<-c.ackOut] *)
Definition ackWake (c : RelayConnection) : RelayConnection :=
  let a := ackw c in
  set_ackw (mkAckWorker (ackIdle a) (ackIdleNext a) (Some false) (ackPending a)
              (ackGenerating a) (ackSending a)) c.

(** [waitReceiveACK]: the channel it waits on, and whether that channel is closed. *)
Definition waitReceiveACK (c : RelayConnection) : option nat := ackIdle (ackw c).
Definition ackIdleReleased (c : RelayConnection) (idle : option nat) : bool :=
  match idle with
  | None => true
  | Some g => negb (bool_decide (ackIdle (ackw c) = Some g))
  end.

(** ** The send window *)

(** [handleAck]: cumulative acknowledgement. *)
Definition handleAck (c : RelayConnection) (env : RelayEnvelope) : RelayConnection :=
  if best_effort c then c
  else
    let w := sw c in
    if (sendBase w <=? re_AckSeq env) && (re_AckSeq env <? nextSeq w)
    then set_sw (mkSendWindow (re_AckSeq env +u 1) (nextSeq w)
                   (filter (fun kv => re_AckSeq env < kv.1) (unacked w)) 0
                   (match ackCh w with None => None | Some _ => Some true end)) c
    else c.

(** The loop condition [c.nextSeq-c.sendBase >= uint64(c.config.WindowSize)] of [sendLoop]. *)
Definition window_full (c : RelayConnection) : bool :=
  u64 (rc_WindowSize (config c)) <=? nextSeq (sw c) -u sendBase (sw c).

(** [sendLoop]: give [data] the next sequence number and keep it until it is acknowledged. *)
Definition assignSeq (c : RelayConnection) (data : bytes) (now : Z) : RelayEnvelope * RelayConnection :=
  let w := sw c in
  let seq := nextSeq w in
  (makeEnvelope c RelayKindData seq 0 data now,
   set_sw (mkSendWindow (if sendBase w =? 0 then seq else sendBase w) (seq +u 1)
             (<[seq := data]> (unacked w)) (retransCnt w) (ackCh w)) c).

(** [retransmit], its locked section. *)
Inductive retransmit_result : Type :=
| RetransmitNothing
| RetransmitExceeded (c : RelayConnection)
| RetransmitFrames (frames : list RelayEnvelope) (c : RelayConnection).

Definition retransmit (c : RelayConnection) (now : Z) : retransmit_result :=
  let w := sw c in
  if bool_decide (unacked w = ∅) then RetransmitNothing
  else
    let cnt := retransCnt w + 1 in
    let c' := set_sw (mkSendWindow (sendBase w) (nextSeq w) (unacked w) cnt (ackCh w)) c in
    if rc_MaxRetransmits (config c) <? cnt
    then RetransmitExceeded (handleClose c'
           (Some (ERelay RelayErrorMaxRetransmit "max retransmits exceeded")))
    else RetransmitFrames
      (omap (fun seq => (fun data => makeEnvelope c RelayKindData seq 0 data now) <$> unacked w !! seq)
            (seqZ (sendBase w) (nextSeq w - sendBase w))) c'.

Definition retryStillPending (c : RelayConnection) (seq : Z) : bool :=
  bool_decide (is_Some (unacked (sw c) !! seq)) && negb (is_closed c).

(** [Flush]'s test after its barrier gave [target]: nothing below it is unacknowledged. *)
Definition flushed (c : RelayConnection) (target : Z) : bool :=
  forallb (fun kv => negb (kv.1 <? target)) (map_to_list (unacked (sw c))).

(** ** The reorder window *)

(** The inner loop of [handleData]: consecutive buffered frames; each turn removes one
    entry of the buffer, so the buffer's size is fuel enough. *)
Fixpoint drain (fuel : nat) (expected : Z) (buf : gmap Z bytes) (ready : list bytes)
    : Z * gmap Z bytes * list bytes :=
  match fuel with
  | O => (expected, buf, ready)
  | S fuel' =>
      match buf !! expected with
      | Some data => drain fuel' (expected +u 1) (delete expected buf) (ready ++ [data])
      | None => (expected, buf, ready)
      end
  end.

(** [handleData], reliable ordered, its locked section: the payloads now in order and
    the cumulative acknowledgement they allow; [None] is the early return. *)
Definition reorder (c : RelayConnection) (env : RelayEnvelope)
    : option (list bytes * Z) * RelayConnection :=
  let w := rw c in
  let '(keep, expected, buf, ready) :=
    if re_Seq env =? expectedSeq w then
      let '(expected, buf, ready) :=
        drain (size (recvBuf w)) (expectedSeq w +u 1) (recvBuf w) [re_Payload env] in
      (true, expected, buf, ready)
    else if expectedSeq w <? re_Seq env then
      if u64 (rc_WindowSize (config c)) <=? re_Seq env -u expectedSeq w
      then (false, expectedSeq w, recvBuf w, [])
      else (true, expectedSeq w, <[re_Seq env := re_Payload env]> (recvBuf w), [])
    else (true, expectedSeq w, recvBuf w, []) in
  if keep
  then (Some (ready, expected -u 1),
        set_rw (mkRecvWindow expected buf (recvReady w + len ready) (recvDelivered w)) c)
  else (None, c).

(** [c.recvReady--] and [c.recvDelivered = ackSeq]. *)
Definition readyTaken (c : RelayConnection) : RelayConnection :=
  let w := rw c in
  set_rw (mkRecvWindow (expectedSeq w) (recvBuf w) (recvReady w - 1) (recvDelivered w)) c.
Definition markDelivered (c : RelayConnection) (ackSeq : Z) : RelayConnection :=
  let w := rw c in
  set_rw (mkRecvWindow (expectedSeq w) (recvBuf w) (recvReady w) ackSeq) c.

(** ** Receiving *)

(** [receiveTerminal(fallback)]: the data or the error, and the connection after it. *)
Definition receiveTerminal (c : RelayConnection) (fallback : error)
    : result error bytes * RelayConnection :=
  match remoteClosed (life c), recvCh c with
  | true, data :: rest => (Ok data, set_recvCh rest c)
  | _, _ => (Err (match closeErr (life c) with Some cause => cause | None => fallback end), c)
  end.

(** The case of its [select] that [ReceiveTimeout] takes; Go picks any ready one. *)
Inductive receive_case : Type :=
| ReceiveData | ReceiveClosed | ReceiveDone | ReceiveTimedOut.

(** [ReceiveTimeout(timeout)]: [None] when the chosen case is not ready ([recvCh] is
    never closed by the code, so its [!ok] branch is not reachable). *)
Definition ReceiveTimeout (c : RelayConnection) (timeout : Z) (case : receive_case)
    : option (result error bytes * RelayConnection) :=
  match case with
  | ReceiveData =>
      match recvCh c with
      | data :: rest => Some (Ok data, set_recvCh rest c)
      | [] => None
      end
  | ReceiveClosed =>
      if is_closed c
      then Some (receiveTerminal c (ERelay RelayErrorClientClosed "connection closed")) else None
  | ReceiveDone =>
      if is_closed c then Some (receiveTerminal c (Sentinel Canceled)) else None
  | ReceiveTimedOut =>
      if 0 <? timeout
      then Some (Err (ERelay RelayErrorReceiveTimeout "receive timeout"), c) else None
  end.

(** ** Sending *)

Inductive send_case : Type :=
| SendQueued | SendClosed | SendDone | SendTimedOut.

(** [Send(data)] up to its [select], under [enqueueMu]: [Some err] when it returns at once. *)
Definition SendCheck (c : RelayConnection) (data : bytes) : option (option error) :=
  if len data =? 0 then Some None
  else if negb (bool_decide (State c = RelayStateOpen))
  then Some (Some (ERelay RelayErrorNotConnected "connection not open"))
  else None.

(** A send on [sendCh]: [handoff] is whether [sendLoop] waits in its [select], ready to
    take the item from an empty channel whatever its capacity. *)
Definition sendChReady (c : RelayConnection) (handoff : bool) : bool :=
  (len (sendCh c) <? sendChCap (config c)) || (handoff && bool_decide (sendCh c = [])).

(** The [select] of [Send]: [None] when the chosen case is not ready. The connection may
    have changed since [SendCheck]. *)
Definition SendSelect (c : RelayConnection) (data : bytes) (handoff : bool) (case : send_case)
    : option (option error * RelayConnection) :=
  match case with
  | SendQueued =>
      if sendChReady c handoff then Some (None, set_sendCh (sendCh c ++ [ItemData data]) c) else None
  | SendTimedOut =>
      if 0 <? rc_SendTimeoutMs (config c)
      then Some (Some (ERelay RelayErrorSendTimeout "send timeout waiting for buffer space"), c)
      else None
  | SendClosed =>
      if is_closed c then Some (Some (ERelay RelayErrorClientClosed "connection closed"), c) else None
  | SendDone => if is_closed c then Some (Some (Sentinel Canceled), c) else None
  end.

(** ** The acknowledgement's retry loop *)

Lemma sendACKLoop_spec cfg env outcome done cancelled fuel retries :
  (retries <= Z.to_nat (rc_MaxRetransmits cfg) < fuel + retries)%nat ->
  exists err n, sendACKLoop fuel cfg env outcome done cancelled retries = Some (err, S n) /\
    (retries <= n <= Z.to_nat (rc_MaxRetransmits cfg))%nat /\
    (forall i, (retries <= i < n)%nat ->
       retryableSendError cfg (done i) (sendRelayEnvelope cfg (done i) env (outcome i)) = true) /\
    (err = sendRelayEnvelope cfg (done n) env (outcome n) \/
     (err = Some (Sentinel Canceled) /\ cancelled n = true)).
Proof.
  revert retries. induction fuel as [|fuel IH]; intros retries Hf; simpl; [lia|].
  destruct (negb _ || _) eqn:E.
  { eexists _, retries. split; [done|]. split; [lia|]. split; [lia|by left]. }
  apply orb_false_iff in E as [E1 E2]. bool_facts.
  destruct (cancelled retries) eqn:Ec.
  { eexists _, retries. split; [done|]. split; [lia|]. split; [lia|by right]. }
  destruct (IH (S retries)) as (err & n & Hn & Hb & Hr & He); [lia|].
  exists err, n. split; [done|]. split; [lia|]. split; [|done].
  intros i Hi. destruct (decide (i = retries)) as [->|]; [done|apply Hr; lia].
Qed.

(** Sending an acknowledgement always ends: after at most
    [1 + MaxRetransmits] attempts, every attempt but the last one having failed with a
    temporary rejection; a nil result means the transport accepted the last attempt, and a
    cancellation is reported only when the connection's context ended during a wait. *)
Theorem relay_ack_retry_terminates cfg env outcome done cancelled :
  re_Kind env <> RelayKindData ->
  exists err n, sendACKWithRetry cfg env outcome done cancelled = Some (err, S n) /\
    Z.of_nat (S n) <= 1 + Z.max 0 (rc_MaxRetransmits cfg) /\
    (forall i, (i < n)%nat -> retryableSendError cfg (done i) (outcome i) = true) /\
    (err = None -> outcome n = None) /\
    (err <> outcome n -> err = Some (Sentinel Canceled) /\ cancelled n = true).
Proof.
  intros Hk. unfold sendACKWithRetry.
  assert (Hs : forall b o, sendRelayEnvelope cfg b env o = o).
  { intros b o. unfold sendRelayEnvelope. by rewrite bool_decide_false. }
  destruct (sendACKLoop_spec cfg env outcome done cancelled (S (Z.to_nat (rc_MaxRetransmits cfg))) 0)
    as (err & n & Hn & Hb & Hr & He); [lia|].
  exists err, n. split; [done|]. split; [lia|]. split.
  - intros i Hi. specialize (Hr i). rewrite Hs in Hr. apply Hr. lia.
  - rewrite Hs in He. destruct He as [->|[-> ?]]; [done|]. by split.
Qed.

Lemma relay_ack_retry_terminates_witness :
  let busy := Some (EServer (mkServerError "service_unavailable" "busy" 7)) in
  let ack := mkRelayEnvelope "r" RelayKindAck zero_SessionRef zero_SessionRef 0 3 [] 0 in
  let outcome := fun i => if Nat.ltb i 2 then busy else None in
  sendACKWithRetry DefaultRelayConfig ack outcome (fun _ => false) (fun _ => false) = Some (None, 3%nat) /\
  exists err n, sendACKWithRetry DefaultRelayConfig ack outcome (fun _ => false) (fun _ => false) = Some (err, S n) /\
    Z.of_nat (S n) <= 1 + Z.max 0 (rc_MaxRetransmits DefaultRelayConfig).
Proof.
  intros busy ack outcome. split; [vm_compute; reflexivity|].
  destruct (relay_ack_retry_terminates DefaultRelayConfig ack outcome (fun _ => false) (fun _ => false))
    as (err & n & H1 & H2 & _); [discriminate|].
  exists err, n. split; [exact H1|exact H2].
Defined.
