(* ===== verification/RelayDispatch.v ===== *)
(** * The receive side of a connection (relay_dispatch.go, and handleEnvelope of relay.go)

    [enqueueEnvelope] is the shared reader's entry, [dispatch_step] one step of the
    [dispatchLoop] goroutine. The dispatcher's program counter names the point of the
    code it has reached; a [select] with several ready cases is resolved by a boolean
    the caller chooses, so quantifying over it covers every choice Go may make. *)

From stdpp Require Import base list strings gmap.
From S2P Require Import Prelude Errors Types RelayConn.

(** ** Admission *)

(** What [enqueueEnvelope] reads under [c.mu] before it decides. *)
Record enqueue_snapshot : Type := mkSnapshot {
  sn_closed : bool;
  sn_buffered : Z;
  sn_reordered : bool;
  sn_expected : Z;
  sn_delivered : Z;
}.

Definition take_snapshot (c : RelayConnection) (env : RelayEnvelope) : enqueue_snapshot :=
  mkSnapshot (is_closed c) (Z.of_nat (size (recvBuf (rw c))) + recvReady (rw c))
    (bool_decide (is_Some (recvBuf (rw c) !! re_Seq env)))
    (expectedSeq (rw c)) (recvDelivered (rw c)).

Definition inbox_window (cfg : RelayConfig) : Z :=
  if rc_WindowSize cfg <? 1 then 1 else rc_WindowSize cfg.
Definition inbox_budget (cfg : RelayConfig) : Z := recvChCap + 2 * inbox_window cfg.

(** [for c.inboxSeq[frontier] { frontier++ }]: one turn per pending sequence at most. *)
Fixpoint frontier_from (fuel : nat) (pending : gset Z) (frontier : Z) : Z :=
  match fuel with
  | O => frontier
  | S fuel' =>
      if bool_decide (frontier ∈ pending) then frontier_from fuel' pending (frontier +u 1)
      else frontier
  end.

(** [failAdmission] *)
Definition failAdmission (c : RelayConnection) : RelayConnection :=
  let a := adm c in
  closeConnection
    (set_adm (mkAdmission (inbox a) (inboxSeq a) (inboxData a) true (inboxTerminal a)) c)
    (Some (ERelay RelayErrorReceiveOverflow "relay receive budget exceeded")).

(** The first admitted frame makes the inbox and starts the dispatcher. *)
Definition ensureInbox (a : admission) : admission :=
  match inbox a with
  | Some _ => a
  | None => mkAdmission (Some []) ∅ (inboxData a) (inboxFailed a) (inboxTerminal a)
  end.

(** The case of the final [select] that puts [env] in the inbox. *)
Definition admitted (c : RelayConnection) (env : RelayEnvelope) (dedup : bool) : RelayConnection :=
  let a := adm c in
  let terminal := bool_decide (re_Kind env = RelayKindClose)
                  || bool_decide (re_Kind env = RelayKindError) in
  set_adm (mkAdmission (Some (default [] (inbox a) ++ [env]))
             (if dedup then {[re_Seq env]} ∪ inboxSeq a else inboxSeq a)
             (if bool_decide (re_Kind env = RelayKindData) then inboxData a + 1 else inboxData a)
             (inboxFailed a) (inboxTerminal a || terminal)) c.

(** The [select] at the end: admitFrame [env], or count it as an overflow. *)
Definition admitFrame (c : RelayConnection) (env : RelayEnvelope) (dedup ackWork : bool) : RelayConnection :=
  if len (default [] (inbox (adm c))) <? inbox_budget (config c) + 8
  then admitted c env dedup
  else
    let c := if ackWork then finishReceiveACK c else c in
    if dedup then c else failAdmission c.

(** [enqueueEnvelope] after its filters: budget test, receive-ACK registration, admission. *)
Definition enqueueAdmit (c : RelayConnection) (buffered : Z) (env : RelayEnvelope) (dedup : bool)
    : RelayConnection :=
  if bool_decide (inbox (adm c) = None) && is_closed c then c
  else
    let c := set_adm (ensureInbox (adm c)) c in
    let data := bool_decide (re_Kind env = RelayKindData) in
    if data && (inbox_budget (config c) <=? inboxData (adm c) + len (recvCh c) + buffered)
    then if dedup then c else failAdmission c
    else if data && negb (best_effort c)
    then
      match beginReceiveACK c with
      | (false, c) => c
      | (true, c) => admitFrame c env dedup true
      end
    else admitFrame c env dedup false.

(** [enqueueEnvelope(env)] for the snapshot [sn] it took; [ack] is stamped with time 0. *)
Definition enqueueEnvelope (c : RelayConnection) (sn : enqueue_snapshot) (env : RelayEnvelope)
    : RelayConnection :=
  let a := adm c in
  if sn_closed sn || inboxFailed a then c
  else
    let window := inbox_window (config c) in
    if bool_decide (re_Kind env = RelayKindAck) && negb (inboxTerminal a) then handleAck c env
    else
      let data := bool_decide (re_Kind env = RelayKindData) in
      if data && inboxTerminal a then c
      else
        let dedup := data && bool_decide (reliability c = ReliabilityReliableOrdered) in
        if dedup && (bool_decide (re_Seq env ∈ inboxSeq a) || sn_reordered sn) then c
        else if dedup && (re_Seq env <? sn_expected sn) then
          if 0 <? sn_delivered sn
          then queueACK c (makeEnvelope c RelayKindAck 0 (sn_delivered sn) [] 0)
          else c
        else
          let frontier := frontier_from (size (inboxSeq a)) (inboxSeq a) (sn_expected sn) in
          if dedup && (frontier <=? re_Seq env) && (u64 window <=? re_Seq env -u frontier) then c
          else enqueueAdmit c (sn_buffered sn) env dedup.

(** ** The dispatcher *)

Inductive dispatch_pc : Type :=
| DSelect                                                       (* the select of the loop *)
| DWait (env : RelayEnvelope) (idle : option nat)               (* in waitReceiveACK *)
| DHandle (env : RelayEnvelope)                                 (* about to call handleEnvelope *)
| DDeliverOne (env : RelayEnvelope)                             (* unordered delivery *)
| DDeliver (env : RelayEnvelope) (ready : list bytes) (ackSeq : Z)
| DTaken (env : RelayEnvelope) (ready : list bytes) (ackSeq : Z)
| DMark (env : RelayEnvelope) (ackSeq : Z)
| DQueue (env ack : RelayEnvelope)
| DFinish (env : RelayEnvelope)                                 (* finishReceiveACK *)
| DPost (env : RelayEnvelope)                                   (* release the admission *)
| DDead.

(** [handlePing]: the frame that answers. *)
Definition handlePing (c : RelayConnection) (now : Z) : RelayEnvelope := makeEnvelope c RelayKindError 0 0 [] now.

(** [handleEnvelope] for every kind but DATA: the connection, and the frames sent. *)
Definition handleControl (c : RelayConnection) (env : RelayEnvelope) (now : Z)
    : RelayConnection * list RelayEnvelope :=
  match re_Kind env with
  | RelayKindOpenAck =>
      if bool_decide (State c = RelayStateOpening)
      then (set_remoteSession (re_SenderSession env)
              (set_life (mkLifecycle RelayStateOpen true (flushChClosed (life c)) (onClose (life c))
                           (closeErr (life c)) (remoteClosed (life c))) c), [])
      else (c, [])
  | RelayKindClose =>
      ((closeWithSource c (Some (ERelay RelayErrorRemoteClose "remote peer closed connection")) true).1,
       [])
  | RelayKindError =>
      (handleClose c (Some (ERelay RelayErrorProtocol
         ("remote peer error: " +:+ String.string_of_list_byte (re_Payload env)))), [])
  | RelayKindAck => (handleAck c env, [])
  | RelayKindPing => (c, [handlePing c now])
  | _ => (c, [])
  end.

(** [handleEnvelope]: where the dispatcher goes next. *)
Definition handleEnvelope (c : RelayConnection) (env : RelayEnvelope) (now : Z)
    : RelayConnection * dispatch_pc * list RelayEnvelope :=
  match re_Kind env with
  | RelayKindData =>
      match reliability c with
      | ReliabilityBestEffort | ReliabilityAtLeastOnce => (c, DDeliverOne env, [])
      | ReliabilityReliableOrdered =>
          match reorder c env with
          | (None, c') => (c', DFinish env, [])
          | (Some (ready, ackSeq), c') => (c', DDeliver env ready ackSeq, [])
          end
      | ReliabilityOther _ => (c, DFinish env, [])
      end
  | _ => let '(c', out) := handleControl c env now in (c', DFinish env, out)
  end.

(** [deliverOrdered(data)] (and the two-case select of best effort): the payload goes to
    [recvCh] when it has room; when the connection is closed the other case is ready too. *)
Definition deliverOrdered (c : RelayConnection) (data : bytes) (prefer_done : bool)
    : option (bool * RelayConnection) :=
  if is_closed c && prefer_done then Some (false, c)
  else if len (recvCh c) <? recvChCap then Some (true, set_recvCh (recvCh c ++ [data]) c)
  else if is_closed c then Some (false, c)
  else None.

(** The deferred function of [dispatchLoop]. *)
Definition dispatcherExit (c : RelayConnection) : RelayConnection :=
  let a := adm c in
  set_adm (mkAdmission (const [] <$> inbox a) ∅ 0 true (inboxTerminal a)) c.

(** The section under [inboxMu] at the end of a turn. *)
Definition releaseAdmission (c : RelayConnection) (env : RelayEnvelope) : RelayConnection :=
  let a := adm c in
  if bool_decide (re_Kind env = RelayKindData)
  then set_adm (mkAdmission (inbox a) (inboxSeq a ∖ {[re_Seq env]}) (inboxData a - 1)
                  (inboxFailed a) (inboxTerminal a)) c
  else c.

(** One step of the goroutine; [None] when it is blocked or has returned. *)
Definition dispatch_step (now : Z) (prefer_done : bool) (c : RelayConnection) (pc : dispatch_pc)
    : option (RelayConnection * dispatch_pc * list RelayEnvelope) :=
  match pc with
  | DSelect =>
      match inbox (adm c) with
      | Some (env :: rest) =>
          if is_closed c && prefer_done then Some (dispatcherExit c, DDead, [])
          else
            let a := adm c in
            let c' := set_adm (mkAdmission (Some rest) (inboxSeq a) (inboxData a) (inboxFailed a)
                                 (inboxTerminal a)) c in
            if is_closed c then Some (dispatcherExit c', DDead, [])
            else if bool_decide (re_Kind env = RelayKindClose)
                    || bool_decide (re_Kind env = RelayKindError)
            then Some (c', DWait env (waitReceiveACK c'), [])
            else Some (c', DHandle env, [])
      | Some [] => if is_closed c then Some (dispatcherExit c, DDead, []) else None
      | None => None (* not started *)
      end
  | DWait env idle =>
      if ackIdleReleased c idle || is_closed c then Some (c, DHandle env, []) else None
  | DHandle env => Some (handleEnvelope c env now)
  | DDeliverOne env =>
      match deliverOrdered c (re_Payload env) prefer_done with
      | None => None
      | Some (true, c') =>
          if bool_decide (reliability c = ReliabilityAtLeastOnce)
          then Some (c', DQueue env (makeEnvelope c RelayKindAck 0 (re_Seq env) [] now), [])
          else Some (c', DFinish env, [])
      | Some (false, c') => Some (c', DFinish env, [])
      end
  | DDeliver env [] ackSeq => Some (c, DMark env ackSeq, [])
  | DDeliver env (data :: ready) ackSeq =>
      match deliverOrdered c data prefer_done with
      | None => None
      | Some (true, c') => Some (c', DTaken env ready ackSeq, [])
      | Some (false, c') => Some (c', DFinish env, [])
      end
  | DTaken env ready ackSeq => Some (readyTaken c, DDeliver env ready ackSeq, [])
  | DMark env ackSeq =>
      let c' := markDelivered c ackSeq in
      if ackSeq =? 0 then Some (c', DFinish env, [])
      else Some (c', DQueue env (makeEnvelope c RelayKindAck 0 ackSeq [] now), [])
  | DQueue env ack => Some (queueACK c ack, DFinish env, [])
  | DFinish env =>
      if bool_decide (re_Kind env = RelayKindData) && negb (best_effort c)
      then Some (finishReceiveACK c, DPost env, [])
      else Some (c, DPost env, [])
  | DPost env => Some (releaseAdmission c env, DSelect, [])
  | DDead => None
  end.

(** ** The acknowledgement worker's goroutine *)

Inductive ack_pc : Type :=
| AIdle                            (* waiting for [ackOut] *)
| ATake                            (* at the top of the inner loop *)
| ASend (env : RelayEnvelope)      (* in sendACKWithRetry *)
| ADead.

(** One step; [result] is what [sendACKWithRetry] returned, when it is in it. *)
Definition ack_step (prefer_done : bool) (result : option error) (c : RelayConnection) (pc : ack_pc)
    : option (RelayConnection * ack_pc * list RelayEnvelope) :=
  match pc with
  | AIdle =>
      if is_closed c && prefer_done then Some (c, ADead, [])
      else if bool_decide (ackOut (ackw c) = Some true) then Some (ackWake c, ATake, [])
      else if is_closed c then Some (c, ADead, [])
      else None
  | ATake =>
      match ackTake c with
      | (None, c') => Some (c', AIdle, [])
      | (Some env, c') => Some (c', ASend env, [env])
      end
  | ASend env =>
      Some (ackDone c result, match result with None => ATake | Some _ => ADead end, [])
  | ADead => None
  end.

(** ** Facts *)

Lemma deliver_spec c data b ok c' :
  deliverOrdered c data b = Some (ok, c') ->
  (ok = false /\ c' = c /\ is_closed c = true) \/
  (ok = true /\ c' = set_recvCh (recvCh c ++ [data]) c).
Proof. unfold deliverOrdered. intros. repeat case_match; simplify_eq; bool_facts; auto. Qed.
