(* ===== verification/RelayRx.v ===== *)
(** * The receive side as a machine, against an arbitrary peer

    The shared reader, the dispatcher, the acknowledgement worker, the application
    and the other goroutines of one connection, interleaved at the granularity of
    their critical sections. [net] says which frames the peer and the network may
    put in front of the reader; any of them, in any order, any number of times. *)

From stdpp Require Import base list strings gmap.
From S2P Require Import Prelude Errors Types RelayConn RelayDispatch.

(** [rx_log] is every payload ever published on [recvCh], [rx_out] every frame handed to
    the transport; both are history variables. *)
Record rx : Type := mkRx {
  rx_c : RelayConnection;
  rx_d : dispatch_pc;
  rx_a : ack_pc;
  rx_r : option (enqueue_snapshot * RelayEnvelope);
  rx_log : list bytes;
  rx_out : list RelayEnvelope;
}.

(** Every [uint64] but the last one: [handleData] computes [Seq + 1]. *)
Definition valid_seq (env : RelayEnvelope) : Prop := 0 <= re_Seq env < two64 - 1.

(** What the goroutines of the send side, [Close] and the callers may change. *)
Definition other_change (c c' : RelayConnection) : Prop :=
  config c' = config c /\ rw c' = rw c /\ adm c' = adm c /\ ackw c' = ackw c /\
  recvCh c' = recvCh c /\ (is_closed c = true -> is_closed c' = true).

Inductive rx_step (net : RelayEnvelope -> Prop) : rx -> rx -> Prop :=
| rx_read c d a log out env :
    net env ->
    rx_step net (mkRx c d a None log out) (mkRx c d a (Some (take_snapshot c env, env)) log out)
| rx_enqueue c d a sn env log out :
    rx_step net (mkRx c d a (Some (sn, env)) log out)
      (mkRx (enqueueEnvelope c sn env) d a None log out)
| rx_dispatch c d a r log out now b c' d' o :
    dispatch_step now b c d = Some (c', d', o) ->
    rx_step net (mkRx c d a r log out)
      (mkRx c' d' a r (log ++ drop (length (recvCh c)) (recvCh c')) (out ++ o))
| rx_ack c d a r log out b res c' a' o :
    ack_step b res c a = Some (c', a', o) ->
    rx_step net (mkRx c d a r log out) (mkRx c' d a' r log (out ++ o))
| rx_receive c d a r log out t case res c' :
    ReceiveTimeout c t case = Some (res, c') ->
    rx_step net (mkRx c d a r log out) (mkRx c' d a r log out)
| rx_close c d a r log out reason remote :
    rx_step net (mkRx c d a r log out) (mkRx (closeWithSource c reason remote).1 d a r log out)
| rx_other c d a r log out c' :
    other_change c c' -> rx_step net (mkRx c d a r log out) (mkRx c' d a r log out).

Inductive rx_reachable (net : RelayEnvelope -> Prop) (c0 : RelayConnection) : rx -> Prop :=
| rxr_init : rx_reachable net c0 (mkRx c0 DSelect AIdle None [] [])
| rxr_step x x' : rx_reachable net c0 x -> rx_step net x x' -> rx_reachable net c0 x'.

(** A connection as [newConnection] makes it. *)
Definition fresh (c : RelayConnection) : Prop :=
  rw c = mkRecvWindow 1 ∅ 0 0 /\ adm c = mkAdmission None ∅ 0 false false /\
  ackw c = mkAckWorker None 0 None None 0 false /\ recvCh c = [].

(** ** The invariant *)

Definition is_data (env : RelayEnvelope) : bool := bool_decide (re_Kind env = RelayKindData).
Definition data_count (l : list RelayEnvelope) : Z := len (List.filter is_data l).
Definition seqs (l : list RelayEnvelope) : list Z := re_Seq <$> List.filter is_data l.

(** The frame the dispatcher holds, and whether its receive-ACK is still registered. *)
Definition held (d : dispatch_pc) : list RelayEnvelope :=
  match d with
  | DSelect | DDead => []
  | DWait env _ | DHandle env | DDeliverOne env | DDeliver env _ _ | DTaken env _ _
  | DMark env _ | DQueue env _ | DFinish env | DPost env => [env]
  end.
Definition ack_held (d : dispatch_pc) : list RelayEnvelope :=
  match d with DPost _ => [] | _ => held d end.

Definition queued (c : RelayConnection) : list RelayEnvelope := default [] (inbox (adm c)).

(** The in-order payloads the dispatcher has taken but not published yet. *)
Definition batch (d : dispatch_pc) : list bytes :=
  match d with DDeliver _ ready _ | DTaken _ ready _ => ready | _ => [] end.

Definition window (c : RelayConnection) : Z := rc_WindowSize (config c).

(** Bounded storage. *)
Record rx_bounds (c : RelayConnection) (d : dispatch_pc) : Prop := {
  rb_recvCh : len (recvCh c) <= recvChCap;
  rb_inbox : len (queued c) <= inbox_budget (config c) + 8;
}.

(** Admission bookkeeping. *)
Record rx_admission (c : RelayConnection) (d : dispatch_pc) : Prop := {
  ra_data : inboxData (adm c) = data_count (queued c ++ held d);
  ra_dead : d = DDead -> inboxFailed (adm c) = true /\ is_closed c = true;
  ra_none : inbox (adm c) = None -> d = DSelect;
}.

(** Nothing registered, nothing pending, nothing being sent. *)
Definition ack_quiet (a : ack_worker) : Prop :=
  ackGenerating a = 0 /\ ackSending a = false /\ ackPending a = None.

(** A nil [ackIdle] means quiet, and channel numbers are not reused. *)
Definition ack_ok (a : ack_worker) : Prop :=
  (ackIdle a = None -> ack_quiet a) /\ (forall g, ackIdle a = Some g -> (g < ackIdleNext a)%nat).

(** Something for the owner of [ackIdle] to wait for. *)
Definition ack_busy (a : ack_worker) : Prop :=
  ackGenerating a <> 0 \/ ackSending a = true \/ is_Some (ackPending a).

(** Registration of receive-ACK work, and the worker. *)
Record rx_acks (c : RelayConnection) (d : dispatch_pc) (a : ack_pc) : Prop := {
  rk_generating : best_effort c = false -> d <> DDead ->
    ackGenerating (ackw c) = data_count (queued c ++ ack_held d);
  rk_ok : ack_ok (ackw c);
  rk_sending : ackSending (ackw c) = true <-> exists env, a = ASend env;
  rk_wakeup : is_Some (ackPending (ackw c)) ->
    ackOut (ackw c) = Some true \/ a = ATake \/ (exists env, a = ASend env) \/ is_closed c = true;
  rk_live : ackIdle (ackw c) <> None -> ack_busy (ackw c) \/ is_closed c = true;
}.

(** ** What [enqueueEnvelope] can do *)

Definition begun (c : RelayConnection) : RelayConnection :=
  let a := ackw c in
  set_ackw (makeACKIdle (mkAckWorker (ackIdle a) (ackIdleNext a) (ackOut a) (ackPending a)
                           (ackGenerating a + 1) (ackSending a))) c.

Inductive enqueue_case (c : RelayConnection) (sn : enqueue_snapshot) (env : RelayEnvelope)
    : RelayConnection -> Prop :=
| ec_drop : enqueue_case c sn env c
| ec_ack : re_Kind env = RelayKindAck -> enqueue_case c sn env (handleAck c env)
| ec_replay :
    0 < sn_delivered sn -> re_Kind env = RelayKindData -> inboxTerminal (adm c) = false ->
    enqueue_case c sn env (queueACK c (makeEnvelope c RelayKindAck 0 (sn_delivered sn) [] 0))
| ec_budget :
    inboxFailed (adm c) = false ->
    enqueue_case c sn env (set_adm (ensureInbox (adm c)) c)
| ec_fail :
    inboxFailed (adm c) = false ->
    enqueue_case c sn env (failAdmission (set_adm (ensureInbox (adm c)) c))
| ec_admit dedup :
    inboxFailed (adm c) = false ->
    is_data env && negb (best_effort c) = false ->
    (is_data env = true -> inboxTerminal (adm c) = false) ->
    dedup = is_data env && bool_decide (reliability c = ReliabilityReliableOrdered) ->
    len (default [] (inbox (adm c))) < inbox_budget (config c) + 8 ->
    enqueue_case c sn env (admitted (set_adm (ensureInbox (adm c)) c) env dedup)
| ec_admit_ack dedup :
    inboxFailed (adm c) = false -> is_closed c = false ->
    is_data env = true -> best_effort c = false -> inboxTerminal (adm c) = false ->
    dedup = bool_decide (reliability c = ReliabilityReliableOrdered) ->
    len (default [] (inbox (adm c))) < inbox_budget (config c) + 8 ->
    inboxData (adm c) + len (recvCh c) + sn_buffered sn < inbox_budget (config c) ->
    enqueue_case c sn env (admitted (begun (set_adm (ensureInbox (adm c)) c)) env dedup)
| ec_overflow :
    inboxFailed (adm c) = false -> is_closed c = false ->
    is_data env = true -> inboxTerminal (adm c) = false ->
    enqueue_case c sn env (finishReceiveACK (begun (set_adm (ensureInbox (adm c)) c)))
| ec_overflow_fail :
    inboxFailed (adm c) = false -> is_closed c = false ->
    is_data env = true -> inboxTerminal (adm c) = false ->
    enqueue_case c sn env (failAdmission (finishReceiveACK (begun (set_adm (ensureInbox (adm c)) c)))).

Lemma is_data_spec env : is_data env = true <-> re_Kind env = RelayKindData.
Proof. apply bool_decide_eq_true. Qed.

Lemma ensureInbox_queue a : default [] (inbox (ensureInbox a)) = default [] (inbox a).
Proof. unfold ensureInbox. by destruct (inbox a) eqn:E; [rewrite E|]. Qed.

Lemma begin_spec c : beginReceiveACK c = if is_closed c then (false, c) else (true, begun c).
Proof. done. Qed.

(** After the filters, by the kind of the frame. *)
Lemma enqueueAdmit_cases c sn env dedup :
  inboxFailed (adm c) = false ->
  (is_data env = true -> inboxTerminal (adm c) = false) ->
  dedup = is_data env && bool_decide (reliability c = ReliabilityReliableOrdered) ->
  enqueue_case c sn env (enqueueAdmit c (sn_buffered sn) env dedup).
Proof.
  intros Hf Ht Hd. unfold enqueueAdmit. fold (is_data env).
  destruct (bool_decide (inbox (adm c) = None) && is_closed c) eqn:E0; [by apply ec_drop|].
  cbv zeta. change (adm (set_adm (ensureInbox (adm c)) c)) with (ensureInbox (adm c)).
  change (recvCh (set_adm (ensureInbox (adm c)) c)) with (recvCh c).
  change (config (set_adm (ensureInbox (adm c)) c)) with (config c).
  change (best_effort (set_adm (ensureInbox (adm c)) c)) with (best_effort c).
  assert (inboxData (ensureInbox (adm c)) = inboxData (adm c)) as ->
    by (unfold ensureInbox; by case_match).
  destruct (is_data env && (_ <=? _)) eqn:E1.
  { destruct dedup; [by apply ec_budget|by apply ec_fail]. }
  rewrite begin_spec. change (is_closed (set_adm _ c)) with (is_closed c).
  unfold admitFrame. change (adm (begun _)) with (ensureInbox (adm c)).
  change (adm (set_adm (ensureInbox (adm c)) c)) with (ensureInbox (adm c)).
  change (config (begun _)) with (config c).
  change (config (set_adm (ensureInbox (adm c)) c)) with (config c).
  rewrite ensureInbox_queue.
  destruct (is_data env && negb (best_effort c)) eqn:E2.
  - destruct (is_closed c) eqn:E3.
    { by apply ec_budget. }
    bool_facts. destruct (_ <? _) eqn:E4.
    + apply Z.ltb_lt in E4. change (adm (begun _)) with (ensureInbox (adm c)) in E4.
      rewrite ensureInbox_queue in E4.
      apply ec_admit_ack; try done; [by auto|by subst; rewrite H|].
      destruct E1 as [E1|E1]; [by rewrite H in E1|]. by apply Z.leb_gt in E1.
    + destruct dedup; [apply ec_overflow|apply ec_overflow_fail]; auto.
  - destruct (_ <? _) eqn:E4.
    + apply Z.ltb_lt in E4.
      by apply ec_admit.
    + destruct dedup; [by apply ec_budget|by apply ec_fail].
Qed.

Lemma enqueue_cases c sn env : enqueue_case c sn env (enqueueEnvelope c sn env).
Proof.
  unfold enqueueEnvelope. fold (is_data env).
  destruct (sn_closed sn || inboxFailed (adm c)) eqn:E0; [apply ec_drop|]. cbv zeta.
  destruct (bool_decide (re_Kind env = RelayKindAck) && _) eqn:E1.
  { bool_facts. by apply ec_ack. }
  destruct (is_data env && inboxTerminal (adm c)) eqn:E2; [apply ec_drop|].
  set (dedup := is_data env && _).
  destruct (dedup && (_ || _)) eqn:E3; [apply ec_drop|].
  assert (Ht : is_data env = true -> inboxTerminal (adm c) = false)
    by (intros Hd; rewrite Hd in E2; done).
  destruct (dedup && (re_Seq env <? sn_expected sn)) eqn:E4.
  { case_match; [|apply ec_drop]. subst dedup. bool_facts.
    apply ec_replay; [done|by apply is_data_spec|auto]. }
  destruct (dedup && _ && _) eqn:E5; [apply ec_drop|].
  apply enqueueAdmit_cases; [|done..]. by apply orb_false_iff in E0 as [].
Qed.

(** ** Storage and accounting *)

Definition rx_inv (c : RelayConnection) (d : dispatch_pc) (a : ack_pc) : Prop :=
  rx_bounds c d /\ rx_admission c d /\ rx_acks c d a.

Lemma data_count_app l k : data_count (l ++ k) = data_count l + data_count k.
Proof. unfold data_count. rewrite List.filter_app. apply len_app. Qed.

Lemma data_count_cons e l : data_count (e :: l) = (if is_data e then 1 else 0) + data_count l.
Proof. unfold data_count. simpl. case_match; [by rewrite len_cons|lia]. Qed.

Lemma data_count_nonneg l : 0 <= data_count l.
Proof. apply len_nonneg. Qed.
#[export] Hint Resolve data_count_nonneg : go.
#[export] Hint Rewrite data_count_app data_count_cons : go_rw.

(** The fields [rx_inv] reads, so that changes elsewhere preserve it. *)
Definition same_rx (c c' : RelayConnection) : Prop :=
  config c' = config c /\ adm c' = adm c /\ ackw c' = ackw c /\ recvCh c' = recvCh c /\
  (is_closed c = true -> is_closed c' = true).

Lemma rx_inv_same c c' d a : same_rx c c' -> rx_inv c d a -> rx_inv c' d a.
Proof.
  intros (Hc & Ha & Hk & Hr & Hcl) ([B1 B2] & [A1 A2 A3] & [K1 K2 K3 K4 K5]).
  unfold rx_inv. split_and!; split; unfold queued, best_effort, reliability in *;
    rewrite ?Hc, ?Ha, ?Hk, ?Hr; auto; intros.
  - destruct A2; auto.
  - destruct K4 as [|[|[|]]]; auto.
  - destruct K5; auto.
Qed.

Lemma same_rx_close c reason remote : same_rx c (closeWithSource c reason remote).1.
Proof. unfold closeWithSource. case_match eqn:E; [|]; repeat split; done. Qed.

Lemma same_rx_other c c' : other_change c c' -> same_rx c c'.
Proof. unfold other_change, same_rx. intros (? & ? & ? & ? & ? & ?). done. Qed.

Lemma same_rx_handleAck c env : same_rx c (handleAck c env).
Proof. unfold handleAck. repeat case_match; repeat split; done. Qed.

Lemma same_rx_failAdmission c :
  same_rx (set_adm (mkAdmission (inbox (adm c)) (inboxSeq (adm c)) (inboxData (adm c)) true
                      (inboxTerminal (adm c))) c) (failAdmission c).
Proof. apply same_rx_close. Qed.

Lemma rx_inv_failAdmission c d a : rx_inv c d a -> rx_inv (failAdmission c) d a.
Proof.
  intros ([B1 B2] & [A1 A2 A3] & [K1 K2 K3 K4 K5]).
  apply (rx_inv_same _ _ _ _ (same_rx_failAdmission c)).
  unfold rx_inv; split_and!; split; try done. intros Hd. split; [done|by apply A2].
Qed.

Lemma makeACKIdle_ok a :
  (forall g, ackIdle a = Some g -> (g < ackIdleNext a)%nat) -> ack_ok (makeACKIdle a).
Proof.
  intros H. unfold makeACKIdle, ack_ok. destruct (ackIdle a) eqn:E; simpl.
  - split; [by rewrite E|]. by intros g; rewrite E; apply H.
  - split; [done|]. intros g [= <-]. lia.
Qed.

Lemma closeACKIdle_ok a :
  (ackIdle a = None -> ack_quiet a) -> (forall g, ackIdle a = Some g -> (g < ackIdleNext a)%nat) ->
  ack_ok (closeACKIdleLocked a).
Proof.
  intros H1 H2. unfold closeACKIdleLocked. case_match eqn:E; [|done].
  bool_facts. split; simpl; [|done]. intros _. by repeat split.
Qed.

Lemma makeACKIdle_same a :
  ackOut (makeACKIdle a) = ackOut a /\ ackPending (makeACKIdle a) = ackPending a /\
  ackGenerating (makeACKIdle a) = ackGenerating a /\ ackSending (makeACKIdle a) = ackSending a.
Proof. unfold makeACKIdle. by case_match. Qed.

Lemma closeACKIdle_same a :
  ackOut (closeACKIdleLocked a) = ackOut a /\ ackPending (closeACKIdleLocked a) = ackPending a /\
  ackGenerating (closeACKIdleLocked a) = ackGenerating a /\
  ackSending (closeACKIdleLocked a) = ackSending a.
Proof. unfold closeACKIdleLocked. by case_match. Qed.

(** Closing [ackIdle] when quiet leaves it open only while there is work. *)
Lemma closeACKIdle_live a : ackIdle (closeACKIdleLocked a) <> None -> ack_busy (closeACKIdleLocked a).
Proof.
  unfold closeACKIdleLocked, ack_busy. destruct (_ && _) eqn:E; [done|]. intros _.
  apply andb_false_iff in E as [E|E]; [apply andb_false_iff in E as [E|E]|]; bool_facts; auto.
  right; right. destruct (ackPending a); [by eexists|done].
Qed.

(** A nil [ackIdle] is impossible while a receive-ACK is registered. *)
Lemma ack_ok_busy a : ack_ok a -> 0 < ackGenerating a -> ackIdle a <> None.
Proof. intros [H _] Hg Hn. destruct (H Hn). lia. Qed.

Lemma rx_bounds_ackw c d k : rx_bounds c d -> rx_bounds (set_ackw k c) d.
Proof. intros [B1 B2]. exact (Build_rx_bounds (set_ackw k c) d B1 B2). Qed.
Lemma rx_admission_ackw c d k : rx_admission c d -> rx_admission (set_ackw k c) d.
Proof. intros [A1 A2 A3]. exact (Build_rx_admission (set_ackw k c) d A1 A2 A3). Qed.
#[local] Hint Resolve rx_bounds_ackw rx_admission_ackw : core.

Lemma rx_inv_queueACK c d a env : rx_inv c d a -> rx_inv (queueACK c env) d a.
Proof.
  intros HI. pose proof HI as (B & A & [K1 K2 K3 K4 K5]). unfold queueACK. destruct (is_closed c) eqn:E; [done|]. cbv zeta.
  set (a0 := mkAckWorker _ _ _ _ _ _).
  destruct (makeACKIdle_same a0) as (E1 & E2 & E3 & E4).
  unfold rx_inv; split_and!; [auto..|]. split; simpl; unfold ack_busy; rewrite ?E1, ?E2, ?E3, ?E4; auto.
  apply makeACKIdle_ok. apply K2.
Qed.

Lemma rx_inv_ensure c d a :
  inboxFailed (adm c) = false -> rx_inv c d a -> rx_inv (set_adm (ensureInbox (adm c)) c) d a.
Proof.
  intros Hf ([B1 B2] & [A1 A2 A3] & [K1 K2 K3 K4 K5]).
  assert (Hq : queued (set_adm (ensureInbox (adm c)) c) = queued c) by apply ensureInbox_queue.
  assert (Hd : inboxData (ensureInbox (adm c)) = inboxData (adm c)) by (unfold ensureInbox; by case_match).
  unfold rx_inv; split_and!; split; rewrite ?Hq; simpl; rewrite ?Hd; auto.
  - intros ->. destruct A2; [done|]. congruence.
  - unfold ensureInbox. destruct (inbox (adm c)) eqn:E; [by rewrite E|done].
Qed.

Lemma rx_inv_begun c d a :
  rx_inv c d a -> d <> DDead ->
  rx_bounds (begun c) d /\ rx_admission (begun c) d /\
  ack_ok (ackw (begun c)) /\
  ackGenerating (ackw (begun c)) = ackGenerating (ackw c) + 1 /\
  ackSending (ackw (begun c)) = ackSending (ackw c) /\
  ackPending (ackw (begun c)) = ackPending (ackw c) /\ ackOut (ackw (begun c)) = ackOut (ackw c).
Proof.
  intros (B & A & [K1 K2 K3 K4 K5]) Hd. unfold begun. set (a0 := mkAckWorker _ _ _ _ _ _).
  destruct (makeACKIdle_same a0) as (E1 & E2 & E3 & E4).
  unfold rx_inv; split_and!; [auto..| | | | |]; simpl; rewrite ?E1, ?E2, ?E3, ?E4; auto.
  apply makeACKIdle_ok. apply K2.
Qed.

Lemma rx_live c d a : rx_inv c d a -> inboxFailed (adm c) = false -> d <> DDead.
Proof. intros (_ & [_ A2 _] & _) Hf ->. destruct A2; [done|congruence]. Qed.

Lemma rx_admission_admitted c d env dedup :
  rx_admission c d -> inbox (adm c) <> None -> d <> DDead -> rx_admission (admitted c env dedup) d.
Proof.
  intros [A1 A2 A3] Hn Hd. split; simpl; [|done..].
  unfold queued, is_data in *. simpl. autorewrite with go_rw in *.
  change (data_count []) with 0. unfold is_data. case_match; lia.
Qed.

Lemma rx_bounds_admitted c d env dedup :
  len (queued c) < inbox_budget (config c) + 8 -> rx_bounds c d ->
  rx_bounds (admitted c env dedup) d.
Proof. intros H [B1 B2]. split; [done|]. unfold queued in *. simpl. len_lia. Qed.

Lemma rx_inv_admitted_ctl c d a env dedup :
  rx_inv c d a -> inbox (adm c) <> None -> inboxFailed (adm c) = false ->
  is_data env && negb (best_effort c) = false ->
  len (queued c) < inbox_budget (config c) + 8 -> rx_inv (admitted c env dedup) d a.
Proof.
  intros HI Hn Hf Hd Hl. pose proof (rx_live _ _ _ HI Hf). destruct HI as (B & A & [K1 K2 K3 K4 K5]).
  split; [by apply rx_bounds_admitted|]. split; [by apply rx_admission_admitted|].
  split; [|exact K2|exact K3|exact K4|exact K5]. intros Hbe Hdd.
  change (best_effort (admitted c env dedup)) with (best_effort c) in Hbe.
  rewrite Hbe, andb_true_r in Hd. simpl. rewrite (K1 Hbe Hdd).
  unfold queued. simpl. autorewrite with go_rw. rewrite Hd. change (data_count []) with 0. lia.
Qed.

Lemma rx_inv_admitted_data c d a env dedup :
  rx_inv c d a -> inbox (adm c) <> None -> inboxFailed (adm c) = false -> is_data env = true ->
  best_effort c = false -> len (queued c) < inbox_budget (config c) + 8 -> rx_inv (admitted (begun c) env dedup) d a.
Proof.
  intros HI Hn Hf Hd Hb Hl. pose proof (rx_live _ _ _ HI Hf) as Hdd.
  destruct (rx_inv_begun _ _ _ HI Hdd) as (B & A & O & G & S & P & U).
  destruct HI as (_ & _ & [K1 K2 K3 K4 K5]).
  split; [by apply rx_bounds_admitted|]. split; [by apply rx_admission_admitted|].
  change (ackw (admitted (begun c) env dedup)) with (ackw (begun c)).
  split; change (ackw (admitted (begun c) env dedup)) with (ackw (begun c));
    unfold ack_busy; rewrite ?G, ?S, ?P, ?U; auto; [intros Hbe _|intros _; left; left]; rewrite (K1 Hb Hdd).
  - unfold queued. simpl. autorewrite with go_rw. rewrite Hd. change (data_count []) with 0. lia.
  - pose proof (data_count_nonneg (queued c ++ ack_held d)). lia.
Qed.

(** [finishReceiveACK] after [beginReceiveACK] changes at most the channel's number. *)
Lemma rx_inv_begun_finish c d a :
  rx_inv c d a -> d <> DDead -> rx_inv (finishReceiveACK (begun c)) d a.
Proof.
  intros HI Hdd. pose proof HI as (B & A & [K1 K2 K3 K4 K5]). unfold finishReceiveACK. cbv zeta.
  destruct (rx_inv_begun _ _ _ HI Hdd) as (_ & _ & O & G & S & P & U).
  set (a1 := mkAckWorker _ _ _ _ _ _). destruct (closeACKIdle_same a1) as (E1 & E2 & E3 & E4).
  unfold rx_inv; split_and!; [by apply rx_bounds_ackw, rx_bounds_ackw| |].
  { by apply rx_admission_ackw, rx_admission_ackw. }
  split; change (ackw (set_ackw ?k _)) with k; rewrite ?E1, ?E2, ?E3, ?E4; subst a1;
    change (ackGenerating (mkAckWorker _ _ _ _ ?g _)) with g;
    change (ackOut (mkAckWorker _ _ ?g _ _ _)) with g;
    change (ackPending (mkAckWorker _ _ _ ?g _ _)) with g;
    change (ackSending (mkAckWorker _ _ _ _ _ ?g)) with g; rewrite ?G, ?S, ?P, ?U; auto.
  - intros Hbe _. rewrite Z.add_simpl_r. exact (K1 Hbe Hdd).
  - apply closeACKIdle_ok; [|apply O]. simpl. unfold makeACKIdle. simpl. intros Hn.
    destruct (ackIdle (ackw c)) eqn:E; simpl in Hn; congruence.
  - intros Hn. left. by apply closeACKIdle_live.
Qed.

Lemma rx_inv_enqueue c d a sn env : rx_inv c d a -> rx_inv (enqueueEnvelope c sn env) d a.
Proof.
  intros HI. assert (Hq : queued (set_adm (ensureInbox (adm c)) c) = queued c) by apply ensureInbox_queue.
  assert (Hn : inbox (ensureInbox (adm c)) <> None).
  { unfold ensureInbox. destruct (inbox (adm c)) eqn:E; [by rewrite E|done]. }
  assert (Hf : inboxFailed (ensureInbox (adm c)) = inboxFailed (adm c)).
  { unfold ensureInbox. by case_match. }
  destruct (enqueue_cases c sn env); [done|..].
  - apply (rx_inv_same c); [apply same_rx_handleAck|done].
  - by apply rx_inv_queueACK.
  - by apply rx_inv_ensure.
  - by apply rx_inv_failAdmission, rx_inv_ensure.
  - apply rx_inv_admitted_ctl; [by apply rx_inv_ensure|done|by simpl; rewrite Hf|done|by rewrite Hq].
  - apply rx_inv_admitted_data; [by apply rx_inv_ensure|done|by simpl; rewrite Hf|done|done|by rewrite Hq].
  - apply rx_inv_begun_finish; [by apply rx_inv_ensure|by eapply rx_live].
  - apply rx_inv_failAdmission, rx_inv_begun_finish; [by apply rx_inv_ensure|by eapply rx_live].
Qed.

Lemma rx_inv_pc c d d' a env :
  held d = [env] -> held d' = [env] -> ack_held d' = ack_held d -> rx_inv c d a -> rx_inv c d' a.
Proof.
  intros H1 H2 H3 ([B1 B2] & [A1 A2 A3] & [K1 K2 K3 K4 K5]).
  assert (d <> DDead) by (by intros ->). assert (d' <> DDead) by (by intros ->).
  split; [done|]. split; split; rewrite ?H2, ?H3; auto.
  - by rewrite <- H1.
  - intros Hn. apply A3 in Hn as ->. done.
Qed.

Lemma rx_inv_push c d a data :
  rx_inv c d a -> len (recvCh c) < recvChCap -> rx_inv (set_recvCh (recvCh c ++ [data]) c) d a.
Proof.
  intros ([B1 B2] & [A1 A2 A3] & [K1 K2 K3 K4 K5]) Hl.
  split; [split; [simpl; len_lia|exact B2]|]. split; split; assumption.
Qed.

Lemma rx_inv_deliver c d a data b ok c' :
  rx_inv c d a -> deliverOrdered c data b = Some (ok, c') -> rx_inv c' d a.
Proof.
  intros HI. unfold deliverOrdered. repeat case_match; intros; simplify_eq; [done| |done].
  bool_facts. by apply rx_inv_push.
Qed.

Lemma same_rx_rw c w : same_rx c (set_rw w c).
Proof. by repeat split. Qed.

Lemma same_rx_reorder c env : same_rx c (reorder c env).2.
Proof. unfold reorder. repeat case_match; by repeat split. Qed.

Lemma same_rx_control c env now : same_rx c (handleControl c env now).1.
Proof.
  unfold handleControl. case_match; try (by repeat split); try apply same_rx_close.
  - case_match eqn:E; [|by repeat split]. repeat split; try done.
    unfold is_closed. bool_facts. by rewrite E.
  - apply same_rx_handleAck.
Qed.

Lemma rx_inv_exit c d a :
  rx_inv c d a -> is_closed c = true -> inbox (adm c) <> None -> rx_inv (dispatcherExit c) DDead a.
Proof.
  intros ([B1 B2] & [A1 A2 A3] & [K1 K2 K3 K4 K5]) Hc Hn. unfold dispatcherExit.
  destruct (inbox (adm c)) as [q|] eqn:E; [|done]. simpl.
  split; [split; [done|]|]; [unfold queued; simpl; rewrite len_nil; len_lia|]. split; split; simpl; try done.
Qed.

Lemma rx_inv_pop c a env rest d' :
  rx_inv c DSelect a -> inbox (adm c) = Some (env :: rest) -> held d' = [env] -> ack_held d' = [env] ->
  rx_inv (set_adm (mkAdmission (Some rest) (inboxSeq (adm c)) (inboxData (adm c))
                     (inboxFailed (adm c)) (inboxTerminal (adm c))) c) d' a.
Proof.
  intros ([B1 B2] & [A1 A2 A3] & [K1 K2 K3 K4 K5]) E H1 H2.
  assert (d' <> DDead) by (by intros ->).
  unfold queued in *. rewrite E in *. simpl in *. autorewrite with go_rw in *.
  split; [split; [done|]; unfold queued; simpl; lia|].
  split; split; rewrite ?H1, ?H2; try done; unfold queued; simpl; autorewrite with go_rw.
  - lia.
  - intros Hbe _. rewrite K1 by done. lia.
Qed.

Lemma rx_inv_finish c a env :
  rx_inv c (DFinish env) a -> is_data env = true -> best_effort c = false ->
  rx_inv (finishReceiveACK c) (DPost env) a.
Proof.
  intros ([B1 B2] & [A1 A2 A3] & [K1 K2 K3 K4 K5]) Hd Hbe. unfold finishReceiveACK. cbv zeta.
  specialize (K1 Hbe ltac:(done)). simpl in K1. autorewrite with go_rw in K1. rewrite Hd in K1.
  pose proof (data_count_nonneg (queued c)). change (data_count []) with 0 in K1.
  set (a1 := mkAckWorker _ _ _ _ _ _). destruct (closeACKIdle_same a1) as (E1 & E2 & E3 & E4).
  split; [by apply rx_bounds_ackw|].
  split; [apply rx_admission_ackw; split; [done..|]; intros Hn; by apply A3 in Hn|].
  split; change (ackw (set_ackw ?k _)) with k; rewrite ?E1, ?E2, ?E3, ?E4; subst a1; try done.
  - intros _ _. simpl. change (queued (set_ackw _ c)) with (queued c).
    rewrite data_count_app. change (data_count []) with 0. lia.
  - apply closeACKIdle_ok; [|apply K2]. simpl. intros Hn. exfalso.
    apply (ack_ok_busy _ K2); [lia|done].
  - intros Hn. left. by apply closeACKIdle_live.
Qed.

Lemma rx_inv_release c a env :
  rx_inv c (DPost env) a -> rx_inv (releaseAdmission c env) DSelect a.
Proof.
  intros ([B1 B2] & [A1 A2 A3] & [K1 K2 K3 K4 K5]). simpl in *. autorewrite with go_rw in *.
  unfold releaseAdmission. fold (is_data env). change (data_count []) with 0 in *.
  destruct (is_data env) eqn:E; (split; [by split|]); split; split; simpl; try done;
    autorewrite with go_rw; change (data_count []) with 0 in *; unfold queued in *; simpl; try done; try lia.
  all: intros Hbe _; rewrite ?K1 by done; lia.
Qed.

Lemma rx_inv_dispatch now b c d a c' d' o :
  dispatch_step now b c d = Some (c', d', o) -> rx_inv c d a -> rx_inv c' d' a.
Proof.
  intros Hs HI. destruct d as [|env idle|env|env|env ready k|env ready k|env k|env ack|env|env|]; simpl in Hs.
  - destruct (inbox (adm c)) as [[|env rest]|] eqn:Ei; [| |done].
    + destruct (is_closed c) eqn:Ec; [|done]. injection Hs as <- <- <-.
      apply (rx_inv_exit c DSelect); [done..|congruence].
    + destruct (is_closed c && b) eqn:Ecb.
      { injection Hs as <- <- <-. bool_facts. apply (rx_inv_exit c DSelect); [done..|congruence]. }
      set (c1 := set_adm _ c) in Hs.
      destruct (is_closed c) eqn:Ec.
      { injection Hs as <- <- <-. apply (rx_inv_exit c1 (DHandle env)); [|done..]. by eapply rx_inv_pop. }
      destruct (_ || _); injection Hs as <- <- <-; by eapply rx_inv_pop.
  - case_match; [|done]. injection Hs as <- <- <-. by apply (rx_inv_pc c (DWait env idle) _ a env).
  - injection Hs as Hs. unfold handleEnvelope in Hs.
    destruct (decide (re_Kind env = RelayKindData)) as [Ek|Ek].
    + rewrite Ek in Hs. destruct (reliability c) eqn:Er; try (injection Hs as <- <- <-;
        by apply (rx_inv_pc c (DHandle env) _ a env)).
      pose proof (same_rx_reorder c env) as Hr. destruct (reorder c env) as [[[ready k]|] c1];
        injection Hs as <- <- <-; apply (rx_inv_same _ _ _ _ Hr); by apply (rx_inv_pc c (DHandle env) _ a env).
    + pose proof (same_rx_control c env now) as Hr.
      assert (Hs' : (let '(c', out) := handleControl c env now in (c', DFinish env, out)) = (c', d', o))
        by (by destruct (re_Kind env)).
      clear Hs. destruct (handleControl c env now) as [c1 out]. injection Hs' as <- <- <-.
      apply (rx_inv_same _ _ _ _ Hr). by apply (rx_inv_pc c (DHandle env) _ a env).
  - destruct (deliverOrdered c _ b) as [[[] c1]|] eqn:Ed; [| |done].
    all: eapply rx_inv_deliver in Ed; [|exact HI].
    + case_match; injection Hs as <- <- <-; by apply (rx_inv_pc c1 (DDeliverOne env) _ a env).
    + injection Hs as <- <- <-. by apply (rx_inv_pc c1 (DDeliverOne env) _ a env).
  - destruct ready as [|data ready]; [injection Hs as <- <- <-; by apply (rx_inv_pc c (DDeliver env [] k) _ a env)|].
    destruct (deliverOrdered c _ b) as [[[] c1]|] eqn:Ed; [| |done]; injection Hs as <- <- <-.
    all: eapply rx_inv_deliver in Ed; [|exact HI].
    all: by apply (rx_inv_pc c1 (DDeliver env (data :: ready) k) _ a env).
  - injection Hs as <- <- <-. apply (rx_inv_same c); [apply same_rx_rw|].
    by apply (rx_inv_pc c (DTaken env ready k) _ a env).
  - case_match; injection Hs as <- <- <-; (apply (rx_inv_same c); [apply same_rx_rw|]);
      by apply (rx_inv_pc c (DMark env k) _ a env).
  - injection Hs as <- <- <-. apply rx_inv_queueACK. by apply (rx_inv_pc c (DQueue env ack) _ a env).
  - destruct (_ && _) eqn:E; injection Hs as <- <- <-.
    + bool_facts. apply rx_inv_finish; [done|by apply is_data_spec|done].
    + destruct HI as (B & A & [K1 K2 K3 K4 K5]). split; [by destruct B; split|].
      split; [destruct A as [A1 A2 A3]; split; [done..|]; intros Hn; by apply A3 in Hn|].
      split; try done. intros Hbe Hd. rewrite K1 by done. simpl. autorewrite with go_rw.
      unfold is_data. rewrite Hbe in E. by destruct (bool_decide _).
  - injection Hs as <- <- <-. by apply rx_inv_release.
  - done.
Qed.

Lemma rx_acks_set c d a a' k :
  rx_acks c d a -> ack_ok k -> ackGenerating k = ackGenerating (ackw c) ->
  (ackSending k = true <-> exists env, a' = ASend env) ->
  (is_Some (ackPending k) ->
   ackOut k = Some true \/ a' = ATake \/ (exists env, a' = ASend env) \/ is_closed c = true) ->
  (ackIdle k <> None -> ack_busy k \/ is_closed c = true) ->
  rx_acks (set_ackw k c) d a'.
Proof. intros [K1 K2 K3 K4 K5] Ho Hg Hs Hw Hl. split; [|done..]. simpl. rewrite Hg. apply K1. Qed.

Lemma closeWithSource_closed c reason remote : is_closed (closeWithSource c reason remote).1 = true.
Proof. unfold closeWithSource. by destruct (is_closed c) eqn:E. Qed.

Lemma rx_inv_set c d a a' k :
  rx_inv c d a -> ack_ok k -> ackGenerating k = ackGenerating (ackw c) ->
  (ackSending k = true <-> exists env, a' = ASend env) ->
  (is_Some (ackPending k) ->
   ackOut k = Some true \/ a' = ATake \/ (exists env, a' = ASend env) \/ is_closed c = true) ->
  (ackIdle k <> None -> ack_busy k \/ is_closed c = true) ->
  rx_inv (set_ackw k c) d a'.
Proof.
  intros (B & A & K) Ho Hg Hs Hw Hl. split; [by apply rx_bounds_ackw|].
  split; [by apply rx_admission_ackw|]. by eapply rx_acks_set.
Qed.

Lemma not_sending (a : ack_pc) : (forall env, a <> ASend env) -> (false = true <-> exists env, a = ASend env).
Proof. intros H. split; [done|]. intros [env ->]. by destruct (H env). Qed.

Lemma rx_inv_adead c d a :
  rx_inv c d a -> is_closed c = true -> ackSending (ackw c) = false -> rx_inv c d ADead.
Proof.
  intros (B & A & [K1 K2 K3 K4 K5]) Hc Hs. split_and!; [done..|]. split; auto.
  rewrite Hs. by apply not_sending.
Qed.

Lemma rx_inv_take c d : rx_inv c d ATake ->
  forall a', a' = match ackPending (ackw c) with None => AIdle | Some env => ASend env end ->
  rx_inv (ackTake c).2 d a'.
Proof.
  intros HI a' ->. pose proof HI as (_ & _ & [_ K2 _ _ _]). unfold ackTake. cbv zeta. simpl snd.
  set (k := mkAckWorker _ _ _ _ _ _). destruct (closeACKIdle_same k) as (E1 & E2 & E3 & E4).
  eapply rx_inv_set; [done| |by rewrite E3|rewrite E4|rewrite E2|by left; apply closeACKIdle_live]; simpl.
  - apply closeACKIdle_ok; [|apply K2]. intros Hn. destruct (proj1 K2 Hn) as (? & ? & Hp).
    repeat split; simpl; [done|by rewrite Hp].
  - destruct (ackPending (ackw c)); simpl; [|by apply not_sending]. split; [by eexists|done].
  - by intros [].
Qed.

Lemma rx_inv_done c d env res : rx_inv c d (ASend env) ->
  forall a', a' = match res with None => ATake | Some _ => ADead end -> rx_inv (ackDone c res) d a'.
Proof.
  intros HI a' ->. pose proof HI as (_ & _ & [_ K2 K3 K4 K5]).
  assert (ackIdle (ackw c) <> None) as Hid.
  { intros Hn. destruct (proj1 K2 Hn) as (_ & Hx & _). rewrite (proj2 K3) in Hx; [done|by eexists]. }
  unfold ackDone. cbv zeta. set (k := mkAckWorker _ _ _ _ _ _). destruct res as [e|].
  - apply (rx_inv_same (set_ackw k (closeConnection c (Some e)))).
    { unfold handleClose, closeConnection, closeWithSource. change (is_closed (set_ackw k c)) with (is_closed c).
      destruct (is_closed c) eqn:E; by repeat split. }
    eapply rx_inv_set; [apply (rx_inv_same c); [apply same_rx_close|done]| | |by apply not_sending| |].
    + split; [by intros Hn|]. apply K2.
    + unfold closeConnection, closeWithSource. by destruct (is_closed c).
    + intros _. right; right; right. apply closeWithSource_closed.
    + intros _. right. apply closeWithSource_closed.
  - destruct (closeACKIdle_same k) as (E1 & E2 & E3 & E4).
    eapply rx_inv_set; [done| |by rewrite E3|rewrite E4; by apply not_sending|by auto|by left; apply closeACKIdle_live].
    apply closeACKIdle_ok; [by intros Hn|apply K2].
Qed.

Lemma rx_inv_ack b res c d a c' a' o :
  ack_step b res c a = Some (c', a', o) -> rx_inv c d a -> rx_inv c' d a'.
Proof.
  intros Hs HI. pose proof HI as (_ & _ & [_ K2 K3 _ K5]).
  destruct a as [| |env|]; simpl in Hs; [| | |done].
  - assert (ackSending (ackw c) = false) as Hsd.
    { destruct (ackSending (ackw c)); [|done]. by destruct (proj1 K3 eq_refl). }
    destruct (is_closed c && b) eqn:E1; [|destruct (bool_decide _) eqn:E2; [|destruct (is_closed c) eqn:E3; [|done]]];
      injection Hs as <- <- <-.
    + bool_facts. by eapply rx_inv_adead.
    + eapply rx_inv_set; [done|exact K2|done| |by auto|exact K5]. simpl. rewrite Hsd. by apply not_sending.
    + by eapply rx_inv_adead.
  - pose proof (rx_inv_take c d HI _ eq_refl) as Ht. unfold ackTake in Hs, Ht. cbv zeta in Hs, Ht.
    destruct (ackPending (ackw c)) as [env|] eqn:Ep; injection Hs as <- <- <-; exact Ht.
  - injection Hs as <- <- <-. by eapply rx_inv_done.
Qed.

Lemma rx_inv_receive c d a t case res c' :
  ReceiveTimeout c t case = Some (res, c') -> rx_inv c d a -> rx_inv c' d a.
Proof.
  intros Hs HI.
  assert (c' = c \/ exists rest, c' = set_recvCh rest c /\ len rest <= len (recvCh c)) as [->|(rest & -> & Hl)].
  { unfold ReceiveTimeout, receiveTerminal in Hs.
    repeat case_match; simplify_eq; auto; right; eexists; (split; [done|]); len_lia. }
  - done.
  - destruct HI as ([B1 B2] & [A1 A2 A3] & [K1 K2 K3 K4 K5]).
    split; [split; [simpl; lia|exact B2]|]. split; split; assumption.
Qed.

Lemma rx_inv_step net x x' :
  rx_step net x x' -> rx_inv (rx_c x) (rx_d x) (rx_a x) -> rx_inv (rx_c x') (rx_d x') (rx_a x').
Proof.
  destruct 1; simpl; intros HI; [done|..].
  - by apply rx_inv_enqueue.
  - by eapply rx_inv_dispatch.
  - by eapply rx_inv_ack.
  - by eapply rx_inv_receive.
  - by apply (rx_inv_same c); [apply same_rx_close|].
  - by apply (rx_inv_same c); [apply same_rx_other|].
Qed.

Lemma rx_inv_fresh c : fresh c -> rx_inv c DSelect AIdle.
Proof.
  intros (_ & Ha & Hk & Hr). split_and!; split; unfold queued; rewrite ?Ha, ?Hk, ?Hr; simpl; try done.
  - unfold inbox_budget, inbox_window, recvChCap, len. simpl. case_match; bool_facts; lia.
  - by apply not_sending.
Qed.

Lemma rx_reachable_inv net c0 x :
  fresh c0 -> rx_reachable net c0 x -> rx_inv (rx_c x) (rx_d x) (rx_a x).
Proof. intros Hf. induction 1; [by apply rx_inv_fresh|by eapply rx_inv_step]. Qed.

(** ** Running the machine *)

Inductive rx_move : Type :=
| MRead (env : RelayEnvelope)
| MEnqueue
| MDispatch (now : Z) (prefer_done : bool)
| MAck (prefer_done : bool) (result : option error)
| MReceive (case : receive_case)
| MClose (reason : option error).

Definition rx_exec (m : rx_move) (x : rx) : option rx :=
  let '(mkRx c d a r log out) := x in
  match m, r with
  | MRead env, None => Some (mkRx c d a (Some (take_snapshot c env, env)) log out)
  | MEnqueue, Some (sn, env) => Some (mkRx (enqueueEnvelope c sn env) d a None log out)
  | MDispatch now b, _ =>
      '(c', d', o) ← (dispatch_step now b c d);
      Some (mkRx c' d' a r (log ++ drop (length (recvCh c)) (recvCh c')) (out ++ o))
  | MAck b res, _ =>
      '(c', a', o) ← (ack_step b res c a); Some (mkRx c' d a' r log (out ++ o))
  | MReceive case, _ => '(_, c') ← (ReceiveTimeout c 0 case); Some (mkRx c' d a r log out)
  | MClose reason, _ => Some (mkRx (closeWithSource c reason false).1 d a r log out)
  | _, _ => None
  end.

Fixpoint rx_run (ms : list rx_move) (x : rx) : option rx :=
  match ms with
  | [] => Some x
  | m :: ms => x' ← rx_exec m x; rx_run ms x'
  end.

(** The frames a run reads. *)
Definition reads (ms : list rx_move) : list RelayEnvelope :=
  omap (fun m => match m with MRead env => Some env | _ => None end) ms.

Lemma rx_exec_sound (net : RelayEnvelope -> Prop) m x x' :
  (forall env, m = MRead env -> net env) -> rx_exec m x = Some x' -> rx_step net x x'.
Proof.
  destruct x as [c d a r log out]. intros Hn Hx. destruct m as [env| |now b|b res|case|reason]; simpl in Hx.
  - destruct r; [done|]. injection Hx as <-. by constructor; apply Hn.
  - destruct r as [[sn env]|]; [|done]. injection Hx as <-. constructor.
  - destruct (dispatch_step now b c d) as [[[c' d'] o]|] eqn:E; simpl in Hx; [|done].
    injection Hx as <-. by eapply rx_dispatch.
  - destruct (ack_step b res c a) as [[[c' a'] o]|] eqn:E; simpl in Hx; [|done].
    injection Hx as <-. by eapply rx_ack.
  - destruct (ReceiveTimeout c 0 case) as [[res c']|] eqn:E; simpl in Hx; [|done].
    injection Hx as <-. by eapply rx_receive.
  - injection Hx as <-. constructor.
Qed.

Lemma rx_run_reachable net c0 ms x x' :
  rx_reachable net c0 x -> Forall net (reads ms) -> rx_run ms x = Some x' -> rx_reachable net c0 x'.
Proof.
  revert x. induction ms as [|m ms IH]; intros x Hx Hn Hr; simpl in Hr; [by injection Hr as <-|].
  destruct (rx_exec m x) as [x1|] eqn:E; simpl in Hr; [|done].
  assert (rx_step net x x1).
  { apply (rx_exec_sound _ m); [|done]. intros env ->. simpl in Hn. by inv Hn. }
  apply (IH x1); [by eapply rxr_step| |done].
  destruct m; simpl in Hn; try done. by inv Hn.
Qed.

(** A connection to run on. *)
Definition demo_conn (cfg : RelayConfig) : RelayConnection :=
  match newConnection "r1" cfg RelayStateOpen (mkUserRef 1 2) (mkSessionRef 1 "s1") (mkSessionRef 2 "s2") with
  | Ok c => c
  | _ => mkRelayConnection "" cfg zero_UserRef zero_SessionRef zero_SessionRef
           (mkLifecycle RelayStateClosed false false [] None false)
           (mkSendWindow 1 1 ∅ 0 None) (mkRecvWindow 1 ∅ 0 0)
           (mkAdmission None ∅ 0 false false) (mkAckWorker None 0 None None 0 false) [] []
  end.
Definition start (c : RelayConnection) : rx := mkRx c DSelect AIdle None [] [].
Definition data_frame (seq : Z) (payload : bytes) : RelayEnvelope :=
  mkRelayEnvelope "r1" RelayKindData (mkSessionRef 1 "s1") (mkSessionRef 2 "s2") seq 0 payload 0.
Definition close_frame : RelayEnvelope :=
  mkRelayEnvelope "r1" RelayKindClose (mkSessionRef 1 "s1") (mkSessionRef 2 "s2") 0 0 [] 0.

(** The shared reader hands one frame over. *)
Definition deliver_moves (env : RelayEnvelope) : list rx_move := [MRead env; MEnqueue].
Definition steps (n : nat) : list rx_move := repeat (MDispatch 0 false) n.

Lemma fresh_demo cfg : (sendChCap cfg <? 0) = false -> fresh (demo_conn cfg).
Proof. intros H. unfold demo_conn, newConnection. rewrite H. by repeat split. Qed.

(** ** What holds of every run, whatever the peer sends *)

(** Storage on the receive side of a relay connection is bounded
    whatever frames arrive and however the goroutines interleave: the application channel
    never holds more than 64 payloads, the inbox never more than its budget of
    [64 + 2 * window] and eight reserved slots, and [inboxData] counts exactly the DATA
    frames in the inbox and in the dispatcher's hands. *)
Lemma receive_bounded net c0 x :
  fresh c0 -> rx_reachable net c0 x ->
  len (recvCh (rx_c x)) <= 64 /\
  len (queued (rx_c x)) <= 64 + 2 * inbox_window (config (rx_c x)) + 8 /\
  inboxData (adm (rx_c x)) = data_count (queued (rx_c x) ++ held (rx_d x)) /\
  (rx_d x = DDead -> inboxFailed (adm (rx_c x)) = true /\ is_closed (rx_c x) = true).
Proof.
  intros Hf Hr. destruct (rx_reachable_inv _ _ _ Hf Hr) as ([B1 B2] & [A1 A2 A3] & _).
  unfold inbox_budget, recvChCap in *. by split_and!.
Qed.

(** The acknowledgement worker never sleeps on pending work:
    while an acknowledgement is pending, its wake-up slot is full, or it is awake, or the
    connection is closed. A nil [ackIdle] (nothing for CLOSE to wait for) means that no
    receive-ACK is being generated, pending or sent, and [ackGenerating] is exactly the
    number of admitted DATA frames whose turn has not ended. *)
Lemma ack_no_lost_wakeup net c0 x :
  fresh c0 -> rx_reachable net c0 x ->
  (is_Some (ackPending (ackw (rx_c x))) ->
     ackOut (ackw (rx_c x)) = Some true \/ rx_a x = ATake \/ (exists env, rx_a x = ASend env) \/
     is_closed (rx_c x) = true) /\
  (ackIdle (ackw (rx_c x)) = None -> ack_quiet (ackw (rx_c x))) /\
  (best_effort (rx_c x) = false -> rx_d x <> DDead ->
     ackGenerating (ackw (rx_c x)) = data_count (queued (rx_c x) ++ ack_held (rx_d x))).
Proof.
  intros Hf Hr. destruct (rx_reachable_inv _ _ _ Hf Hr) as (_ & _ & [K1 [K2 _] K3 K4 _]). by split_and!.
Qed.

(** C32: relay_receive_side. Whatever frames arrive, the receive side of a connection stays within
    its budgets: the application's channel holds at most 64 payloads, the admitted frames are
    bounded by the window, the admission counter is exactly the admitted DATA frames, and a
    dispatcher that has stopped has failed the connection. Its acknowledgement worker never
    sleeps on pending work: while an acknowledgement is pending, its wake-up slot is full, or it
    is awake, or the connection is closed; a nil [ackIdle] means that nothing is being generated,
    pending or sent; and [ackGenerating] is exactly the DATA frames whose turn has not ended. *)
Theorem relay_receive_side net c0 x :
  fresh c0 -> rx_reachable net c0 x ->
  (len (recvCh (rx_c x)) <= 64 /\
   len (queued (rx_c x)) <= 64 + 2 * inbox_window (config (rx_c x)) + 8 /\
   inboxData (adm (rx_c x)) = data_count (queued (rx_c x) ++ held (rx_d x)) /\
   (rx_d x = DDead -> inboxFailed (adm (rx_c x)) = true /\ is_closed (rx_c x) = true)) /\
  (is_Some (ackPending (ackw (rx_c x))) ->
     ackOut (ackw (rx_c x)) = Some true \/ rx_a x = ATake \/ (exists env, rx_a x = ASend env) \/
     is_closed (rx_c x) = true) /\
  (ackIdle (ackw (rx_c x)) = None -> ack_quiet (ackw (rx_c x))) /\
  (best_effort (rx_c x) = false -> rx_d x <> DDead ->
     ackGenerating (ackw (rx_c x)) = data_count (queued (rx_c x) ++ ack_held (rx_d x))).
Proof. intros Hf Hr. split; [by eapply receive_bounded|by eapply ack_no_lost_wakeup]. Qed.

(** Two frames in, the first one through the dispatcher up to its queued acknowledgement. *)
Definition demo_moves : list rx_move :=
  deliver_moves (data_frame 1 [Byte.x61]) ++ deliver_moves (data_frame 2 [Byte.x62]) ++ steps 7.
Definition demo_rx : rx := default (start (demo_conn DefaultRelayConfig))
                             (rx_run demo_moves (start (demo_conn DefaultRelayConfig))).

Lemma demo_reachable (net : RelayEnvelope -> Prop) :
  net (data_frame 1 [Byte.x61]) -> net (data_frame 2 [Byte.x62]) ->
  rx_reachable net (demo_conn DefaultRelayConfig) demo_rx.
Proof.
  intros H1 H2.
  apply (rx_run_reachable net _ demo_moves (start (demo_conn DefaultRelayConfig))); [constructor| |].
  - simpl. by repeat constructor.
  - vm_compute. reflexivity.
Qed.

Lemma relay_receive_side_witness :
  inboxData (adm (rx_c demo_rx)) = 2 /\ inboxData (adm (rx_c demo_rx)) = data_count (queued (rx_c demo_rx) ++ held (rx_d demo_rx)) /\
  is_Some (ackPending (ackw (rx_c demo_rx))) /\ (ackOut (ackw (rx_c demo_rx)) = Some true \/ rx_a demo_rx = ATake \/
   (exists env, rx_a demo_rx = ASend env) \/ is_closed (rx_c demo_rx) = true).
Proof.
  assert (H : is_Some (ackPending (ackw (rx_c demo_rx)))) by (vm_compute; eexists; reflexivity).
  destruct (relay_receive_side (fun _ => True) (demo_conn DefaultRelayConfig) demo_rx) as ((_ & _ & Hdata & _) & Hack & _);
    [by apply fresh_demo|by apply demo_reachable|].
  split; [vm_compute; reflexivity|]. split; [exact Hdata|]. split; [exact H|exact (Hack H)].
Defined.
