(* ===== verification/RelayOrder.v ===== *)
(** * Reliable ordered delivery on the receive side

    The invariant of the reorder window, and what follows from it for every run of
    the machine of [RelayRx] on frames that carry payload [f seq] under sequence
    number [seq]: what the application can read is [f 1], [f 2], ... with no gap and
    no repetition, an acknowledgement never names a payload that is not published
    yet, and storage stays bounded whatever the peer sends. *)

From stdpp Require Import base list strings gmap numbers.
From S2P Require Import Prelude Errors Types RelayConn RelayDispatch RelayRx.

(** ** The in-order stream *)

Section stream.
Context (f : Z -> bytes).

(** The first [n] payloads. *)
Definition published (n : Z) : list bytes := f <$> seqZ 1 n.

Lemma len_published n : 0 <= n -> len (published n) = n.
Proof. intros. unfold published, len. rewrite length_fmap, length_seqZ. lia. Qed.

Lemma published_app n m :
  0 <= n -> 0 <= m -> published (n + m) = published n ++ (f <$> seqZ (1 + n) m).
Proof. intros. unfold published. by rewrite seqZ_app, fmap_app by lia. Qed.

Lemma published_prefix l k n : l ++ k = published n -> l = published (len l).
Proof.
  intros H. assert (len l + len k = Z.max n 0) as Hn.
  { rewrite <- len_app, H. unfold published, len. rewrite length_fmap, length_seqZ. lia. }
  pose proof (len_nonneg l). pose proof (len_nonneg k).
  destruct (decide (0 <= n)) as [Hp|Hp].
  - replace n with (len l + len k) in H by lia. rewrite published_app in H by lia.
    eapply app_inj_1 in H as [? _]; [done|]. apply Nat2Z.inj. 
    change (len l = len (published (len l))). by rewrite len_published.
  - assert (len l = 0) as Hl by lia. rewrite Hl. by apply len_zero_nil in Hl as ->.
Qed.

(** ** The reorder window *)

(** Buffered frames are genuine and strictly inside the window after [expectedSeq]. *)
Definition buf_ok (lo hi : Z) (buf : gmap Z bytes) : Prop :=
  forall k v, buf !! k = Some v -> v = f k /\ lo <= k < hi /\ k < two64 - 1.

Record window_ok (W : Z) (w : recv_window) : Prop := {
  wo_base : 1 <= expectedSeq w <= two64 - 1;
  wo_buf : buf_ok (expectedSeq w + 1) (expectedSeq w + W) (recvBuf w);
}.

Lemma buf_ok_delete lo hi buf : buf_ok lo hi buf -> buf_ok (lo + 1) hi (delete lo buf).
Proof.
  intros H k v. rewrite lookup_delete_Some. intros [Hne Hk].
  destruct (H k v Hk) as (? & ? & ?). repeat split; try done; lia.
Qed.

Lemma drain_spec fuel e hi buf ready e' buf' ready' :
  1 <= e <= two64 - 1 -> buf_ok e hi buf -> (size buf <= fuel)%nat ->
  drain fuel e buf ready = (e', buf', ready') ->
  e <= e' <= two64 - 1 /\ buf_ok (e' + 1) hi buf' /\ ready' = ready ++ (f <$> seqZ e (e' - e)).
Proof.
  revert e buf ready. induction fuel as [|fuel IH]; intros e buf ready He Hb Hs Hd; simpl in Hd.
  - injection Hd as <- <- <-. assert (buf = ∅) as -> by (apply map_size_empty_inv; lia).
    rewrite Z.sub_diag, app_nil_r. split; [lia|]. split; [|done]. intros k v Hk. by rewrite lookup_empty in Hk.
  - destruct (buf !! e) as [data|] eqn:E.
    + destruct (Hb e data E) as (-> & ? & ?). u64_simpl.
      apply IH in Hd as (H1 & H2 & ->); [|lia|by apply buf_ok_delete|].
      * split; [lia|]. split; [done|]. rewrite (seqZ_cons e) by lia. rewrite <- app_assoc.
        do 2 f_equal. simpl. do 2 f_equal. replace (Z.pred (e' - e)) with (e' - (e + 1)) by lia.
        by rewrite Z.add_1_r.
      * rewrite map_size_delete_Some by done. lia.
    + injection Hd as <- <- <-. rewrite Z.sub_diag, app_nil_r. split; [lia|]. split; [|done].
      intros k v Hk. destruct (Hb k v Hk) as (? & ? & ?). split; [done|]. split; [|done].
      assert (k <> e) by congruence. lia.
Qed.

(** What a genuine DATA frame does to the window: either it is beyond it and dropped, or
    the payloads it releases continue the stream exactly where it stood. *)
Lemma reorder_spec c env W r c' :
  0 < W -> u64 (rc_WindowSize (config c)) = W -> window_ok W (rw c) ->
  valid_seq env -> re_Payload env = f (re_Seq env) -> reorder c env = (r, c') ->
  exists w', c' = set_rw w' c /\ window_ok W w' /\ recvDelivered w' = recvDelivered (rw c) /\
    match r with
    | None => w' = rw c
    | Some (ready, ackSeq) =>
        ackSeq = expectedSeq w' - 1 /\ recvReady w' = recvReady (rw c) + len ready /\
        published (expectedSeq (rw c) - 1) ++ ready = published (expectedSeq w' - 1)
    end.
Proof.
  intros HW Hw [B1 B2] Hv Hp Hr. unfold reorder in Hr. cbv zeta in Hr. unfold valid_seq in Hv.
  destruct (re_Seq env =? expectedSeq (rw c)) eqn:E1; bool_facts.
  - destruct (drain _ _ _ _) as [[e' buf'] ready] eqn:Ed.
    assert (Hplus : expectedSeq (rw c) +u 1 = expectedSeq (rw c) + 1) by (u64_simpl; lia).
    rewrite Hplus in Ed.
    apply (drain_spec _ _ (expectedSeq (rw c) + W)) in Ed as (H1 & H2 & ->); [|lia|done|lia].
    injection Hr as <- <-. eexists. split; [done|]. simpl.
    split; [split; simpl; [lia|]; intros k v Hk; destruct (H2 k v Hk) as (? & ? & ?); repeat split; done || lia|].
    split; [done|]. split; [u64_simpl; lia|]. split; [done|].
    replace (e' - 1) with ((expectedSeq (rw c) - 1) + (e' - expectedSeq (rw c))) by lia.
    rewrite published_app by lia. f_equal.
    replace (1 + (expectedSeq (rw c) - 1)) with (expectedSeq (rw c)) by lia.
    rewrite (seqZ_cons (expectedSeq (rw c))) by lia. simpl. rewrite Hp, E1. f_equal. f_equal.
    f_equal; lia.
  - destruct (expectedSeq (rw c) <? re_Seq env) eqn:E2; bool_facts.
    + rewrite Hw in Hr. destruct (W <=? _) eqn:E3; bool_facts; injection Hr as <- <-.
      { exists (rw c). by destruct c. }
      u64_simpl. eexists. split; [done|]. simpl.
      split; [split; simpl; [lia|]|].
      * intros k v. rewrite lookup_insert_Some. intros [[<- <-]|[_ Hk]]; [repeat split; done || lia|].
        by apply B2.
      * rewrite app_nil_r. split; [done|]. split; [u64_simpl; lia|]. by rewrite len_nil.
    + injection Hr as <- <-. eexists. split; [done|]. simpl. split; [by split|].
      split; [done|]. split; [u64_simpl; lia|]. split; [by rewrite len_nil|]. by rewrite app_nil_r.
Qed.

(** ** The invariant *)

(** A DATA frame carries the payload its sequence number stands for. *)
Definition genuine (env : RelayEnvelope) : Prop :=
  valid_seq env /\ (re_Kind env = RelayKindData -> re_Payload env = f (re_Seq env)).

(** Where a dispatcher that gave up on a batch can still be. *)
Definition dying (d : dispatch_pc) : Prop :=
  match d with DFinish _ | DPost _ | DSelect | DDead => True | _ => False end.
Definition taken (d : dispatch_pc) : Z := match d with DTaken _ _ _ => 1 | _ => 0 end.

(** The window, the log and the point the dispatcher has reached. *)
Record ord_log (W : Z) (c : RelayConnection) (d : dispatch_pc) (log : list bytes) : Prop := {
  ol_rel : reliability c = ReliabilityReliableOrdered;
  ol_W : u64 (rc_WindowSize (config c)) = W;
  ol_win : window_ok W (rw c);
  ol_log :
    (log ++ batch d = published (expectedSeq (rw c) - 1) /\
     recvReady (rw c) = len (batch d) + taken d) \/
    (is_closed c = true /\ dying d /\ exists k, log ++ k = published (expectedSeq (rw c) - 1));
  ol_pc :
    match d with
    | DDeliver _ _ k | DTaken _ _ k | DMark _ k => k = expectedSeq (rw c) - 1
    | DQueue _ ack => re_AckSeq ack <= recvDelivered (rw c)
    | DDeliverOne _ => False
    | _ => True
    end;
  ol_delivered : 0 <= recvDelivered (rw c) <= len log;
}.

(** Everything on its way to the dispatcher is genuine. *)
Record ord_net (c : RelayConnection) (d : dispatch_pc)
    (r : option (enqueue_snapshot * RelayEnvelope)) : Prop := {
  on_queue : Forall genuine (queued c ++ held d);
  on_read : forall sn env, r = Some (sn, env) -> genuine env;
}.

(** Acknowledgements in preparation or sent name published payloads only. *)
Record ord_ack (c : RelayConnection) (a : ack_pc) (r : option (enqueue_snapshot * RelayEnvelope))
    (n : Z) (out : list RelayEnvelope) : Prop := {
  oa_pending : forall env, ackPending (ackw c) = Some env -> re_AckSeq env <= n;
  oa_sending : forall env, a = ASend env -> re_AckSeq env <= n;
  oa_read : forall sn env, r = Some (sn, env) -> sn_delivered sn <= n;
  oa_out : Forall (fun env => re_AckSeq env <= n) out;
}.

Definition ord (W : Z) (x : rx) : Prop :=
  ord_log W (rx_c x) (rx_d x) (rx_log x) /\ ord_net (rx_c x) (rx_d x) (rx_r x) /\
  ord_ack (rx_c x) (rx_a x) (rx_r x) (len (rx_log x)) (rx_out x).

Lemma ord_ack_mono c a r n n' out : n <= n' -> ord_ack c a r n out -> ord_ack c a r n' out.
Proof.
  intros Hn [P1 P2 P3 P4]. split.
  - intros env H. specialize (P1 env H). lia.
  - intros env H. specialize (P2 env H). lia.
  - intros sn env H. specialize (P3 sn env H). lia.
  - eapply List.Forall_impl; [|exact P4]. simpl. lia.
Qed.

Lemma ord_ack_same c c' a r n out :
  ackPending (ackw c') = ackPending (ackw c) -> ord_ack c a r n out -> ord_ack c' a r n out.
Proof. intros H [P1 P2 P3 P4]. split; [by rewrite H|done..]. Qed.

Lemma ord_ack_queue c a r n out ack :
  re_AckSeq ack <= n -> ord_ack c a r n out -> ord_ack (queueACK c ack) a r n out.
Proof.
  intros Hn [P1 P2 P3 P4]. split; [|done..]. intros env. unfold queueACK. case_match; [by auto|].
  cbv zeta. simpl. rewrite (proj1 (proj2 (makeACKIdle_same _))). simpl. intros [= <-].
  destruct (ackPending (ackw c)) as [p|] eqn:E; [|done]. case_match; [done|by auto].
Qed.

(** Only the window, the configuration and the closed bit matter to [ord_log]. *)
Lemma ord_log_same W c c' d log :
  config c' = config c -> rw c' = rw c -> (is_closed c = true -> is_closed c' = true) ->
  ord_log W c d log -> ord_log W c' d log.
Proof.
  intros Hc Hr Hcl [L1 L2 L3 L4 L5 L6]. split; unfold reliability in *; rewrite ?Hc, ?Hr; try done.
  destruct L4 as [L4|(? & ? & ?)]; [by left|right; auto].
Qed.

Lemma ord_net_same c c' d d' r :
  queued c' ++ held d' = queued c ++ held d -> ord_net c d r -> ord_net c' d' r.
Proof. intros H [N1 N2]. split; [by rewrite H|done]. Qed.

(** ** [enqueueEnvelope] *)

Lemma enqueue_frame c sn env c' :
  enqueueEnvelope c sn env = c' ->
  config c' = config c /\ rw c' = rw c /\ recvCh c' = recvCh c /\
  (is_closed c = true -> is_closed c' = true) /\
  (queued c' = queued c \/ queued c' = queued c ++ [env]).
Proof.
  intros <-. assert (Hq : queued (set_adm (ensureInbox (adm c)) c) = queued c) by apply ensureInbox_queue.
  assert (Hfail : forall c1, rw (failAdmission c1) = rw c1 /\ config (failAdmission c1) = config c1 /\
    recvCh (failAdmission c1) = recvCh c1 /\ queued (failAdmission c1) = queued c1 /\
    is_closed (failAdmission c1) = true).
  { intros c1. unfold failAdmission. split_and!; try apply closeWithSource_closed;
      unfold closeConnection, closeWithSource; by case_match. }
  destruct (enqueue_cases c sn env); try (split_and!; first [done|by left]).
  - unfold handleAck. destruct (best_effort c); [split_and!; first [done|by left]|].
    cbv zeta. destruct (_ && _); split_and!; first [done|by left|idtac].
  - unfold queueACK. destruct (is_closed c) eqn:E; split_and!; first [done|by left|idtac].
  - destruct (Hfail (set_adm (ensureInbox (adm c)) c)) as (-> & -> & -> & -> & ->). rewrite Hq. split_and!; first [done|by left|idtac].
  - split_and!; try done. right. unfold queued in *. simpl in *. by rewrite Hq.
  - split_and!; try done. right. unfold queued in *. simpl in *. by rewrite Hq.
  - destruct (Hfail (finishReceiveACK (begun (set_adm (ensureInbox (adm c)) c)))) as (-> & -> & -> & -> & ->).
    change (queued (finishReceiveACK (begun (set_adm (ensureInbox (adm c)) c)))) with
      (queued (set_adm (ensureInbox (adm c)) c)). rewrite Hq. split_and!; first [done|by left|idtac].
Qed.

Lemma ackPending_failAdmission c : ackPending (ackw (failAdmission c)) = ackPending (ackw c).
Proof. unfold failAdmission, closeConnection, closeWithSource. by case_match. Qed.

Lemma ackPending_begun_finish c : ackPending (ackw (finishReceiveACK (begun c))) = ackPending (ackw c).
Proof.
  unfold finishReceiveACK. cbv zeta. simpl.
  rewrite (proj1 (proj2 (closeACKIdle_same _))). simpl. by rewrite (proj1 (proj2 (makeACKIdle_same _))).
Qed.

Lemma ord_ack_enqueue c a sn env r n out :
  sn_delivered sn <= n -> ord_ack c a r n out -> ord_ack (enqueueEnvelope c sn env) a r n out.
Proof.
  intros Hn HI. destruct (enqueue_cases c sn env); try (by apply (ord_ack_same c)).
  - apply (ord_ack_same c); [|done]. unfold handleAck. by repeat case_match.
  - by apply ord_ack_queue.
  - apply (ord_ack_same c); [by rewrite ackPending_failAdmission|done].
  - apply (ord_ack_same c); [|done]. simpl. by rewrite (proj1 (proj2 (makeACKIdle_same _))).
  - apply (ord_ack_same c); [by rewrite ackPending_begun_finish|done].
  - apply (ord_ack_same c); [by rewrite ackPending_failAdmission, ackPending_begun_finish|done].
Qed.

(** ** The dispatcher *)

(** A turn that moves on with the same batch. *)
Lemma ord_log_pc W c d d' log :
  ord_log W c d log -> batch d' = batch d -> taken d' = taken d -> (dying d -> dying d') ->
  match d' with
  | DDeliver _ _ k | DTaken _ _ k | DMark _ k => k = expectedSeq (rw c) - 1
  | DQueue _ ack => re_AckSeq ack <= recvDelivered (rw c)
  | DDeliverOne _ => False
  | _ => True
  end -> ord_log W c d' log.
Proof.
  intros [L1 L2 L3 L4 L5 L6] Hb Ht Hd Hp. split; rewrite ?Hb, ?Ht; try done.
  destruct L4 as [?|(? & ? & ?)]; [by left|right; auto].
Qed.

(** The dispatcher gives up on the rest of the batch. *)
Lemma ord_log_give_up W c d d' log :
  ord_log W c d log -> is_closed c = true -> dying d' -> ord_log W c d' log.
Proof.
  intros [L1 L2 L3 L4 L5 L6] Hc Hd. split; try done; [|by destruct d'].
  right. split; [done|]. split; [done|]. destruct L4 as [[? ?]|(_ & _ & ?)]; [by eexists|done].
Qed.

Lemma ord_log_publish W c env data ready k log :
  ord_log W c (DDeliver env (data :: ready) k) log ->
  ord_log W (set_recvCh (recvCh c ++ [data]) c) (DTaken env ready k) (log ++ [data]).
Proof.
  intros [L1 L2 L3 L4 L5 L6]. destruct L4 as [[L4 L4']|(_ & [] & _)].
  split; try done; simpl in *; [|len_lia].
  left. rewrite <- app_assoc. split; [done|]. rewrite L4'. len_lia.
Qed.

Lemma drop_same {A} (l k : list A) : drop (length l) (l ++ k) = k.
Proof. by rewrite drop_app_length. Qed.
Lemma drop_self {A} (l : list A) : drop (length l) l = [].
Proof. by apply drop_ge. Qed.

Lemma control_frame c env now :
  config (handleControl c env now).1 = config c /\ rw (handleControl c env now).1 = rw c /\
  recvCh (handleControl c env now).1 = recvCh c /\ queued (handleControl c env now).1 = queued c /\
  ackPending (ackw (handleControl c env now).1) = ackPending (ackw c) /\
  Forall (fun e => re_AckSeq e = 0) (handleControl c env now).2.
Proof.
  unfold handleControl, handleAck, handleClose, closeConnection, closeWithSource.
  split_and!; repeat case_match; simpl; auto.
Qed.

(** [handleEnvelope] in this mode. *)
Lemma ord_log_handle W c env now c' d' o log :
  0 < W -> genuine env -> handleEnvelope c env now = (c', d', o) -> ord_log W c (DHandle env) log ->
  ord_log W c' d' log /\ recvCh c' = recvCh c /\ queued c' = queued c /\ held d' = [env] /\
  ackPending (ackw c') = ackPending (ackw c) /\ Forall (fun e => re_AckSeq e = 0) o.
Proof.
  intros HW [Hv Hg] Hh HL. unfold handleEnvelope in Hh.
  destruct (decide (re_Kind env = RelayKindData)) as [Ek|Ek].
  - rewrite Ek, (ol_rel _ _ _ _ HL) in Hh. destruct (reorder c env) as [r c1] eqn:Er.
    apply (reorder_spec c env W) in Er as (w' & -> & Hw' & Hd & Hr); [|done|by apply HL|by apply HL|done|by auto].
    destruct HL as [L1 L2 L3 L4 L5 L6]. destruct L4 as [[L4 L4']|(_ & [] & _)]. simpl in *.
    rewrite app_nil_r in L4.
    destruct r as [[ready k]|]; injection Hh as <- <- <-; (split; [split|by repeat split]); simpl; try done.
    + left. destruct Hr as (-> & Hr & <-). rewrite L4. split; [done|]. rewrite Hr, L4'. len_lia.
    + by destruct Hr.
    + lia.
    + left. by rewrite Hr, L4, app_nil_r.
    + lia.
  - assert (Hs : (let '(c', out) := handleControl c env now in (c', DFinish env, out)) = (c', d', o))
      by (by destruct (re_Kind env)). clear Hh.
    destruct (control_frame c env now) as (E1 & E2 & E3 & E4 & E5 & E6).
    pose proof (same_rx_control c env now) as (_ & _ & _ & _ & Hcl).
    destruct (handleControl c env now) as [c1 out]. injection Hs as <- <- <-. simpl in *.
    split_and!; try done. apply (ord_log_same W c); try done. by apply (ord_log_pc W c (DHandle env)).
Qed.

(** The select of the loop: the next frame, or the end. *)
Lemma ord_log_select W now b c c' d' o log :
  dispatch_step now b c DSelect = Some (c', d', o) -> ord_log W c DSelect log ->
  ord_log W c' d' (log ++ drop (length (recvCh c)) (recvCh c')).
Proof.
  intros Hs HL. simpl in Hs. assert (c' = c \/ recvCh c' = recvCh c) as Hch by (repeat case_match; simplify_eq; auto).
  assert (drop (length (recvCh c)) (recvCh c') = []) as -> by (destruct Hch as [->| ->]; apply drop_self).
  rewrite app_nil_r. destruct (inbox (adm c)) as [[|env rest]|] eqn:Ei; [| |done].
  - destruct (is_closed c) eqn:Ec; [|done]. injection Hs as <- <- <-.
    apply (ord_log_same W c); try done. by eapply ord_log_give_up.
  - destruct (is_closed c) eqn:Ec; simpl in Hs.
    + assert (ord_log W c DDead log) by (by eapply ord_log_give_up).
      destruct b; injection Hs as <- <- <-; by apply (ord_log_same W c).
    + assert (ord_log W c (DHandle env) log /\ ord_log W c (DWait env (waitReceiveACK c)) log) as [H1 H2].
      { destruct HL as [L1 L2 L3 [L4|(? & ? & ?)] L5 L6]; [|congruence].
        split; split; try done; by left. }
      destruct (_ || _); injection Hs as <- <- <-; by apply (ord_log_same W c).
Qed.

(** A batch has been delivered: its acknowledgement names what is published. *)
Lemma ord_log_mark W c env k log : 0 < W -> ord_log W c (DMark env k) log ->
  ord_log W (markDelivered c k) (DFinish env) log /\
  forall ack, re_AckSeq ack = k -> ord_log W (markDelivered c k) (DQueue env ack) log.
Proof.
  intros HW [L1 L2 [W1 W2] L4 L5 L6]. destruct L4 as [[L4 L4']|(_ & [] & _)]. simpl in *.
  assert (len log = expectedSeq (rw c) - 1).
  { rewrite app_nil_r in L4. rewrite L4, len_published; lia. }
  split; [|intros ack Hack]; split; try done; simpl; try (by left); lia.
Qed.

Lemma ord_log_dispatch W now b c d c' d' o log r :
  0 < W -> dispatch_step now b c d = Some (c', d', o) -> ord_net c d r -> ord_log W c d log ->
  ord_log W c' d' (log ++ drop (length (recvCh c)) (recvCh c')).
Proof.
  intros HW Hs HN HL.
  destruct d as [|env idle|env|env|env ready k|env ready k|env k|env ack|env|env|]; simpl in Hs.
  - by apply (ord_log_select W now b c c' d' o log).
  - case_match; [|done]. injection Hs as <- <- <-. rewrite drop_self, app_nil_r.
    by apply (ord_log_pc W c (DWait env idle)).
  - injection Hs as Hs. destruct HN as [N1 _]. apply Forall_app in N1 as [_ N1].
    apply Forall_inv in N1. eapply ord_log_handle in Hs as (H1 & -> & _); [|done..].
    by rewrite drop_self, app_nil_r.
  - by destruct (ol_pc _ _ _ _ HL).
  - destruct ready as [|data ready].
    { injection Hs as <- <- <-. rewrite drop_self, app_nil_r.
      apply (ord_log_pc W c (DDeliver env [] k)); try done. apply HL. }
    destruct (deliverOrdered c data b) as [[ok c1]|] eqn:Ed; [|done].
    apply deliver_spec in Ed as [(-> & -> & Hc)|(-> & ->)]; injection Hs as <- <- <-.
    + rewrite drop_self, app_nil_r. by eapply ord_log_give_up.
    + simpl. rewrite drop_same. by apply ord_log_publish.
  - injection Hs as <- <- <-. simpl. rewrite drop_self, app_nil_r.
    destruct HL as [L1 L2 [W1 W2] L4 L5 L6]. split; try done; simpl.
    destruct L4 as [[L4 L4']|(_ & [] & _)]. left. split; [done|]. simpl in L4'. lia.
  - destruct (ord_log_mark W c env k log HW HL) as [HM1 HM2].
    destruct (k =? 0); injection Hs as <- <- <-; simpl; rewrite drop_self, app_nil_r; [done|].
    by apply HM2.
  - injection Hs as <- <- <-.
    assert (recvCh (queueACK c ack) = recvCh c) as -> by (unfold queueACK; by case_match).
    rewrite drop_self, app_nil_r. apply (ord_log_same W c); [unfold queueACK; by case_match..| |].
    { unfold queueACK. by case_match. }
    by apply (ord_log_pc W c (DQueue env ack)).
  - destruct (_ && _); injection Hs as <- <- <-; simpl; rewrite drop_self, app_nil_r.
    + apply (ord_log_same W c); try done. by apply (ord_log_pc W c (DFinish env)).
    + by apply (ord_log_pc W c (DFinish env)).
  - injection Hs as <- <- <-. unfold releaseAdmission.
    case_match; simpl; rewrite drop_self, app_nil_r.
    + apply (ord_log_same W c); try done. by apply (ord_log_pc W c (DPost env)).
    + by apply (ord_log_pc W c (DPost env)).
  - done.
Qed.

Lemma deliver_frame c data b ok c' :
  deliverOrdered c data b = Some (ok, c') ->
  queued c' = queued c /\ ackPending (ackw c') = ackPending (ackw c) /\ config c' = config c.
Proof. intros H. by apply deliver_spec in H as [(-> & -> & _)|(-> & ->)]. Qed.

Lemma reorder_frame c env :
  queued (reorder c env).2 = queued c /\ ackPending (ackw (reorder c env).2) = ackPending (ackw c) /\
  config (reorder c env).2 = config c.
Proof. unfold reorder. by repeat case_match. Qed.

Lemma handle_frame c env now c' d' o :
  handleEnvelope c env now = (c', d', o) ->
  queued c' = queued c /\ ackPending (ackw c') = ackPending (ackw c) /\ held d' = [env] /\
  Forall (fun e => re_AckSeq e = 0) o.
Proof.
  intros H. destruct (decide (re_Kind env = RelayKindData)) as [Ek|Ek].
  - unfold handleEnvelope in H. rewrite Ek in H. destruct (reorder_frame c env) as (E1 & E2 & _).
    destruct (reliability c); try (injection H as <- <- <-; by split_and!).
    destruct (reorder c env) as [[[ready k]|] c1]; injection H as <- <- <-; by split_and!.
  - assert (Hs : (let '(c', out) := handleControl c env now in (c', DFinish env, out)) = (c', d', o))
      by (unfold handleEnvelope in H; by destruct (re_Kind env)).
    destruct (control_frame c env now) as (_ & _ & _ & E4 & E5 & E6).
    destruct (handleControl c env now) as [c1 out]. injection Hs as <- <- <-. by split_and!.
Qed.

(** The dispatcher holds and leaves in the queue nothing that was not there. *)
Lemma ord_net_dispatch now b c d c' d' o r :
  dispatch_step now b c d = Some (c', d', o) -> ord_net c d r -> ord_net c' d' r.
Proof.
  intros Hs HN.
  destruct d as [|env idle|env|env|env ready k|env ready k|env k|env ack|env|env|]; simpl in Hs.
  - destruct HN as [N1 N2]. unfold queued in N1.
    assert (Hx : forall q e, inbox (adm c) = Some (e :: q) -> Forall genuine (q ++ [e])).
    { intros q e Hq. rewrite Hq in N1. simpl in N1. rewrite app_nil_r in N1.
      apply Forall_app. split; [by inv N1|]. constructor; [by inv N1|done]. }
    destruct (inbox (adm c)) as [[|env rest]|] eqn:Ei; [| |done].
    + destruct (is_closed c); [|done]. injection Hs as <- <- <-. split; [|done].
      unfold queued, dispatcherExit. simpl. rewrite Ei. simpl. constructor.
    + repeat case_match; injection Hs as <- <- <-; (split; [|done]);
        unfold queued, dispatcherExit; simpl; rewrite ?Ei; simpl; try constructor; by apply Hx.
  - case_match; [|done]. injection Hs as <- <- <-. by apply (ord_net_same c c (DWait env idle)).
  - injection Hs as Hs. apply handle_frame in Hs as (E1 & _ & E2 & _).
    apply (ord_net_same c _ (DHandle env)); [by rewrite E1, E2|done].
  - destruct (deliverOrdered c _ b) as [[[] c1]|] eqn:Ed; [| |done];
      apply deliver_frame in Ed as (E1 & _); [case_match|]; injection Hs as <- <- <-;
      (apply (ord_net_same c _ (DDeliverOne env)); [by rewrite E1|done]).
  - destruct ready as [|data ready];
      [injection Hs as <- <- <-; by apply (ord_net_same c _ (DDeliver env [] k))|].
    destruct (deliverOrdered c _ b) as [[[] c1]|] eqn:Ed; [| |done];
      apply deliver_frame in Ed as (E1 & _); injection Hs as <- <- <-;
      (apply (ord_net_same c _ (DDeliver env (data :: ready) k)); [by rewrite E1|done]).
  - injection Hs as <- <- <-. by apply (ord_net_same c _ (DTaken env ready k)).
  - case_match; injection Hs as <- <- <-; by apply (ord_net_same c _ (DMark env k)).
  - injection Hs as <- <- <-. apply (ord_net_same c _ (DQueue env ack)); [|done].
    unfold queueACK. by case_match.
  - case_match; injection Hs as <- <- <-; by apply (ord_net_same c _ (DFinish env)).
  - injection Hs as <- <- <-. destruct HN as [N1 N2]. apply Forall_app in N1 as [N1 _].
    split; [|done]. rewrite app_nil_r. unfold releaseAdmission. by case_match.
  - done.
Qed.

Lemma ord_ack_dispatch W now b c d c' d' o a r log out :
  0 < W -> dispatch_step now b c d = Some (c', d', o) -> ord_log W c d log ->
  ord_ack c a r (len log) out -> ord_ack c' a r (len log) (out ++ o).
Proof.
  intros HW Hs HL HA.
  assert (Hgen : ackPending (ackw c') = ackPending (ackw c) -> Forall (fun e => re_AckSeq e = 0) o ->
    ord_ack c' a r (len log) (out ++ o)).
  { intros Hp Ho. apply (ord_ack_same c c') in HA as [P1 P2 P3 P4]; [|done]. split; try done.
    apply Forall_app. split; [done|]. eapply List.Forall_impl; [|exact Ho]. simpl. intros e ->. apply len_nonneg. }
  destruct d as [|env idle|env|env|env ready k|env ready k|env k|env ack|env|env|]; simpl in Hs.
  - apply Hgen; repeat case_match; by simplify_eq.
  - apply Hgen; repeat case_match; by simplify_eq.
  - injection Hs as Hs. apply handle_frame in Hs as (_ & E1 & _ & E2). by apply Hgen.
  - by destruct (ol_pc _ _ _ _ HL).
  - destruct ready as [|data ready]; [injection Hs as <- <- <-; by apply Hgen|].
    destruct (deliverOrdered c _ b) as [[[] c1]|] eqn:Ed; [| |done];
      apply deliver_frame in Ed as (_ & E1 & _); injection Hs as <- <- <-; by apply Hgen.
  - injection Hs as <- <- <-; by apply Hgen.
  - case_match; injection Hs as <- <- <-; by apply Hgen.
  - injection Hs as <- <- <-. rewrite app_nil_r. apply ord_ack_queue; [|done].
    pose proof (ol_pc _ _ _ _ HL) as Hp. pose proof (ol_delivered _ _ _ _ HL). simpl in Hp. lia.
  - case_match; injection Hs as <- <- <-; apply Hgen; try done.
    unfold finishReceiveACK. cbv zeta. simpl. by rewrite (proj1 (proj2 (closeACKIdle_same _))).
  - injection Hs as <- <- <-. apply Hgen; [|done]. unfold releaseAdmission. by case_match.
  - done.
Qed.

(** ** The worker, the application and the others *)

Lemma ack_frame b res c a c' a' o :
  ack_step b res c a = Some (c', a', o) ->
  config c' = config c /\ rw c' = rw c /\ recvCh c' = recvCh c /\ adm c' = adm c /\
  (is_closed c = true -> is_closed c' = true).
Proof.
  intros Hs. destruct a; simpl in Hs; [| | |done].
  - repeat case_match; simplify_eq; by split_and!.
  - unfold ackTake in Hs. repeat case_match; simplify_eq; by split_and!.
  - unfold ackDone, handleClose, closeConnection, closeWithSource in Hs.
    repeat case_match; simplify_eq; by split_and!.
Qed.

Lemma ord_ack_ack b res c a c' a' o r n out :
  ack_step b res c a = Some (c', a', o) -> ord_ack c a r n out -> ord_ack c' a' r n (out ++ o).
Proof.
  intros Hs [P1 P2 P3 P4]. destruct a as [| |env|]; simpl in Hs; [| | |done].
  - repeat case_match; simplify_eq; rewrite app_nil_r; by split.
  - unfold ackTake in Hs. cbv zeta in Hs. set (k := mkAckWorker _ _ _ _ _ _) in Hs.
    destruct (ackPending (ackw c)) as [env|] eqn:Ep; injection Hs as <- <- <-;
      (split; simpl; [rewrite (proj1 (proj2 (closeACKIdle_same _))); done| |done|]).
    + intros e [= <-]. by apply P1.
    + apply Forall_app. split; [done|]. constructor; [by apply P1|constructor].
    + done.
    + by rewrite app_nil_r.
  - injection Hs as <- <- <-. rewrite app_nil_r. unfold ackDone. cbv zeta. split; try done.
    + destruct res; [unfold handleClose, closeConnection, closeWithSource; case_match; exact P1|].
      simpl. rewrite (proj1 (proj2 (closeACKIdle_same _))). exact P1.
    + by destruct res.
Qed.

Lemma receive_frame c t case res c' :
  ReceiveTimeout c t case = Some (res, c') ->
  config c' = config c /\ rw c' = rw c /\ adm c' = adm c /\ ackw c' = ackw c /\
  is_closed c' = is_closed c.
Proof.
  unfold ReceiveTimeout, receiveTerminal. intros. repeat case_match; simplify_eq; by split_and!.
Qed.

Lemma ord_step W x x' : 0 < W -> rx_step genuine x x' -> ord W x -> ord W x'.
Proof.
  intros HW Hs (HL & HN & HA). destruct Hs; unfold ord; simpl in *.
  - split_and!; [done| |].
    + destruct HN as [N1 _]. split; [done|]. by intros sn' env' [= <- <-].
    + destruct HA as [P1 P2 _ P4]. split; try done. intros sn' env' [= <- <-]. apply HL.
  - destruct (enqueue_frame c sn env _ eq_refl) as (E1 & E2 & E3 & E4 & E5). split_and!.
    + by apply (ord_log_same W c).
    + destruct HN as [N1 N2]. split; [|done]. apply Forall_app in N1 as [N1 N1']. apply Forall_app.
      split; [|done]. destruct E5 as [-> | ->]; [done|]. apply Forall_app. split; [done|].
      constructor; [by eapply N2|constructor].
    + apply ord_ack_enqueue; [by eapply (oa_read _ _ _ _ _ HA)|]. destruct HA; by split.
  - split_and!.
    + by eapply ord_log_dispatch.
    + by eapply ord_net_dispatch.
    + eapply (ord_ack_mono _ _ _ (len log)); [rewrite len_app; pose proof (len_nonneg (drop (length (recvCh c)) (recvCh c'))); lia|].
      by eapply ord_ack_dispatch.
  - destruct (ack_frame _ _ _ _ _ _ _ H) as (E1 & E2 & E3 & E4 & E5). split_and!.
    + by apply (ord_log_same W c).
    + apply (ord_net_same c c' d d); [unfold queued; by rewrite E4|done].
    + by eapply ord_ack_ack.
  - destruct (receive_frame _ _ _ _ _ H) as (E1 & E2 & E3 & E4 & E5). split_and!.
    + apply (ord_log_same W c); try done. by rewrite E5.
    + apply (ord_net_same c c' d d); [unfold queued; by rewrite E3|done].
    + apply (ord_ack_same c); [by rewrite E4|done].
  - pose proof (same_rx_close c reason remote) as (E1 & E2 & E3 & E4 & E5). split_and!.
    + apply (ord_log_same W c); try done. unfold closeWithSource. by case_match.
    + apply (ord_net_same c _ d d); [unfold queued; by rewrite E2|done].
    + apply (ord_ack_same c); [by rewrite E3|done].
  - destruct H as (E1 & E2 & E3 & E4 & E5 & E6). split_and!.
    + by apply (ord_log_same W c).
    + apply (ord_net_same c c' d d); [unfold queued; by rewrite E3|done].
    + apply (ord_ack_same c); [by rewrite E4|done].
Qed.

Lemma ord_fresh c W :
  fresh c -> reliability c = ReliabilityReliableOrdered -> u64 (rc_WindowSize (config c)) = W ->
  ord W (mkRx c DSelect AIdle None [] []).
Proof.
  intros (Hw & Ha & Hk & Hr) Hrel HW. unfold ord; simpl. split_and!.
  - split; rewrite ?Hw; simpl; try done.
    by left.
  - split; [unfold queued; rewrite Ha; simpl; constructor|done].
  - split; rewrite ?Hk; simpl; try done.
Qed.

Lemma ord_reachable c0 W x :
  fresh c0 -> reliability c0 = ReliabilityReliableOrdered -> u64 (rc_WindowSize (config c0)) = W ->
  0 < W -> rx_reachable genuine c0 x -> ord W x.
Proof. intros Hf Hr HW HW0. induction 1; [by apply ord_fresh|by eapply ord_step]. Qed.

End stream.

(** The buffered frames fit in the window. *)
Lemma window_size f W w : 0 < W -> window_ok f W w -> Z.of_nat (size (recvBuf w)) <= W - 1.
Proof.
  intros HW [_ Hb].
  assert (Hsub : elements (dom (recvBuf w)) ⊆ seqZ (expectedSeq w + 1) (W - 1)).
  { intros k Hk. apply elem_of_elements, elem_of_dom in Hk as [v Hk].
    apply elem_of_seqZ. destruct (Hb k v Hk) as (_ & ? & _). lia. }
  apply submseteq_length in Hsub || (apply NoDup_submseteq in Hsub; [|apply NoDup_elements]; apply submseteq_length in Hsub).
  rewrite length_seqZ in Hsub.
  rewrite <- size_dom. unfold size, set_size. simpl. lia.
Qed.

(** A step of the dispatcher appends to the application channel or leaves it alone. *)
Lemma dispatch_recvCh now b c d c' d' o :
  dispatch_step now b c d = Some (c', d', o) ->
  recvCh c' = recvCh c \/ exists l, recvCh c' = recvCh c ++ l.
Proof.
  intros Hd.
  destruct d as [|env idle|env|env|env ready k|env ready k|env k|env ack|env|env|]; simpl in Hd.
  + left. repeat case_match; by simplify_eq.
  + left. repeat case_match; by simplify_eq.
  + left. injection Hd as Hd. unfold handleEnvelope in Hd.
    destruct (decide (re_Kind env = RelayKindData)) as [Ek|Ek].
    * rewrite Ek in Hd. pose proof (same_rx_reorder c env) as (_ & _ & _ & Hr & _).
      destruct (reliability c); try (by injection Hd as <- <- <-).
      destruct (reorder c env) as [[[ready k]|] c1]; by injection Hd as <- <- <-.
    * pose proof (same_rx_control c env now) as (_ & _ & _ & Hr & _).
      assert (Hs' : (let '(c', out) := handleControl c env now in (c', DFinish env, out)) = (c', d', o))
        by (by destruct (re_Kind env)).
      destruct (handleControl c env now). by injection Hs' as <- <- <-.
  + destruct (deliverOrdered c _ b) as [[ok c1]|] eqn:Ed; [|done].
    apply deliver_spec in Ed as [(-> & -> & _)|(-> & ->)]; [left|right; case_match]; injection Hd as <- <- <-; simpl; eauto.
  + destruct ready; [left; by injection Hd as <- <- <-|].
    destruct (deliverOrdered c _ b) as [[ok c1]|] eqn:Ed; [|done].
    apply deliver_spec in Ed as [(-> & -> & _)|(-> & ->)]; [left|right]; injection Hd as <- <- <-; simpl; eauto.
  + left. by injection Hd as <- <- <-.
  + left. case_match; by injection Hd as <- <- <-.
  + left. injection Hd as <- <- <-. unfold queueACK. by case_match.
  + left. case_match; by injection Hd as <- <- <-.
  + left. injection Hd as <- <- <-. unfold releaseAdmission. by case_match.
  + done.
Qed.

(** The application channel holds the end of the log. *)
Lemma rx_log_suffix net c0 x :
  fresh c0 -> rx_reachable net c0 x -> exists got, rx_log x = got ++ recvCh (rx_c x).
Proof.
  intros (_ & _ & _ & Hr0). induction 1 as [|x x' _ IH Hs]; [exists []; simpl; by rewrite Hr0|].
  destruct IH as [got IH]. destruct Hs as [| |? ? ? ? ? ? ? ? ? ? ? Hd| |? ? ? ? ? ? ? ? ? ? Hrt| |]; simpl in *.
  - by exists got.
  - exists got. destruct (enqueue_frame c sn env _ eq_refl) as (_ & _ & -> & _). done.
  - exists got. rewrite IH, <- app_assoc. f_equal.
    assert (exists l, recvCh c' = recvCh c ++ l) as [l ->]; [|by rewrite drop_same].
    destruct (dispatch_recvCh _ _ _ _ _ _ _ Hd) as [->|?]; [by exists []; rewrite app_nil_r|done].
  - exists got. by destruct (ack_frame _ _ _ _ _ _ _ H) as (_ & _ & -> & _).
  - assert (c' = c \/ exists data, recvCh c = data :: recvCh c') as [->|[data Hd]]; [|by exists got|].
    { unfold ReceiveTimeout, receiveTerminal in Hrt. repeat case_match; simplify_eq; eauto. }
    exists (got ++ [data]). by rewrite IH, Hd, <- app_assoc.
  - exists got. by destruct (same_rx_close c reason remote) as (_ & _ & _ & -> & _).
  - exists got. by destruct H as (_ & _ & _ & _ & -> & _).
Qed.

(** ** The properties *)

(** C4: relay_receive_in_order. In reliable ordered mode, whatever the network drops,
    duplicates or reorders and however the goroutines interleave, the payloads published
    to the application are exactly the payloads of sequence numbers 1, 2, 3, ... in order,
    without a gap or a repetition; the application channel holds the end of that stream;
    and no acknowledgement that is pending, being sent or was ever sent names a payload
    that is not published yet. *)
Theorem relay_receive_in_order f c0 x :
  fresh c0 -> reliability c0 = ReliabilityReliableOrdered ->
  0 < u64 (rc_WindowSize (config c0)) -> rx_reachable (genuine f) c0 x ->
  rx_log x = published f (len (rx_log x)) /\
  (exists got, rx_log x = got ++ recvCh (rx_c x)) /\
  Forall (fun ack => re_AckSeq ack <= len (rx_log x)) (rx_out x) /\
  (forall ack, ackPending (ackw (rx_c x)) = Some ack \/ rx_a x = ASend ack ->
     re_AckSeq ack <= len (rx_log x)).
Proof.
  intros Hf Hrel HW Hr. destruct (ord_reachable f _ _ _ Hf Hrel eq_refl HW Hr) as ([_ _ _ L4 _ _] & _ & [P1 P2 _ P4]).
  split_and!; [|by eapply rx_log_suffix|done|by intros ack [?|?]; auto].
  destruct L4 as [[L4 _]|(_ & _ & k & L4)]; by eapply published_prefix.
Qed.

(** C13: relay_reorder_window. The reorder buffer holds fewer frames than the window, all of
    them strictly after [expectedSeq] and inside its window; the payloads delivered and in
    the dispatcher's hands are exactly those below [expectedSeq], and [recvReady] counts
    the ones in its hands, until the connection is closed; the delivered watermark never
    exceeds what was published. *)
Theorem relay_reorder_window f c0 x :
  fresh c0 -> reliability c0 = ReliabilityReliableOrdered ->
  0 < u64 (rc_WindowSize (config c0)) -> rx_reachable (genuine f) c0 x ->
  let W := u64 (rc_WindowSize (config c0)) in
  let w := rw (rx_c x) in
  Z.of_nat (size (recvBuf w)) <= W - 1 /\
  (forall seq v, recvBuf w !! seq = Some v -> v = f seq /\ expectedSeq w < seq < expectedSeq w + W) /\
  0 <= recvDelivered w <= len (rx_log x) /\
  (is_closed (rx_c x) = false ->
     rx_log x ++ batch (rx_d x) = published f (expectedSeq w - 1) /\
     recvReady w = len (batch (rx_d x)) + taken (rx_d x)).
Proof.
  intros Hf Hrel HW Hr W w. destruct (ord_reachable f _ _ _ Hf Hrel eq_refl HW Hr) as ([_ _ L3 L4 _ L6] & _).
  split_and!; try apply L6.
  - by eapply window_size.
  - intros seq v Hl. destruct (wo_buf _ _ _ L3 seq v Hl) as (? & ? & _). split; [done|]. subst w. lia.
  - intros Hc. destruct L4 as [L4|(Hc' & _)]; [done|congruence].
Qed.

(** Frame 2 before frame 1, then frame 1 again: both payloads come out once, in order. *)
Definition ooo_f (seq : Z) : bytes := [Z_byte (96 + seq)].
Definition ooo_moves : list rx_move :=
  deliver_moves (data_frame 2 (ooo_f 2)) ++ steps 6 ++
  deliver_moves (data_frame 1 (ooo_f 1)) ++ steps 10 ++ [MAck false None; MAck false None; MReceive ReceiveData] ++
  deliver_moves (data_frame 1 (ooo_f 1)).
Definition ooo_rx : rx := default (start (demo_conn DefaultRelayConfig))
                            (rx_run ooo_moves (start (demo_conn DefaultRelayConfig))).

Lemma ooo_reachable : rx_reachable (genuine ooo_f) (demo_conn DefaultRelayConfig) ooo_rx.
Proof.
  apply (rx_run_reachable _ _ ooo_moves (start (demo_conn DefaultRelayConfig))); [constructor| |].
  - repeat constructor; simpl; done.
  - vm_compute. reflexivity.
Qed.

Lemma relay_receive_in_order_witness :
  rx_log ooo_rx = [ooo_f 1; ooo_f 2] /\ rx_log ooo_rx = published ooo_f (len (rx_log ooo_rx)).
Proof.
  split; [vm_compute; reflexivity|].
  apply (relay_receive_in_order ooo_f (demo_conn DefaultRelayConfig) ooo_rx).
  - by apply fresh_demo.
  - reflexivity.
  - vm_compute; reflexivity.
  - apply ooo_reachable.
Defined.

Lemma relay_reorder_window_witness :
  expectedSeq (rw (rx_c ooo_rx)) = 3 /\
  0 <= recvDelivered (rw (rx_c ooo_rx)) <= len (rx_log ooo_rx).
Proof.
  split; [vm_compute; reflexivity|].
  apply (relay_reorder_window ooo_f (demo_conn DefaultRelayConfig) ooo_rx).
  - by apply fresh_demo.
  - reflexivity.
  - vm_compute; reflexivity.
  - apply ooo_reachable.
Defined.
