(* ===== verification/RelayClose.v ===== *)
(** * CLOSE and ERROR wait for the receive acknowledgements

    A terminal frame is handled only when the acknowledgement worker has sent what was
    pending ([waitReceiveACK]), and no DATA is admitted behind it, so the wait is never
    for work that is queued after it. *)

From stdpp Require Import base list strings gmap.
From S2P Require Import Prelude Errors Types RelayConn RelayDispatch RelayRx.

Definition is_terminal (env : RelayEnvelope) : bool :=
  bool_decide (re_Kind env = RelayKindClose) || bool_decide (re_Kind env = RelayKindError).

Fixpoint no_data_after (l : list RelayEnvelope) : Prop :=
  match l with
  | [] => True
  | e :: l' => (is_terminal e = true -> data_count l' = 0) /\ no_data_after l'
  end.

Record close_inv (c : RelayConnection) (d : dispatch_pc) : Prop := {
  cl_flag : forall e, e ∈ held d ++ queued c -> is_terminal e = true -> inboxTerminal (adm c) = true;
  cl_order : no_data_after (held d ++ queued c);
  cl_wait : forall env idle, d = DWait env idle ->
    is_terminal env = true /\ (ackIdle (ackw c) = idle \/ ackIdle (ackw c) = None);
  cl_handle : forall env, d = DHandle env -> is_terminal env = true ->
    is_closed c = true \/ ackIdle (ackw c) = None;
}.

Lemma terminal_not_data e : is_terminal e = true -> is_data e = false.
Proof. unfold is_terminal, is_data. by destruct (re_Kind e). Qed.

Lemma no_data_after_snoc l e :
  no_data_after l -> (is_data e = true -> forall x, x ∈ l -> is_terminal x = false) ->
  no_data_after (l ++ [e]).
Proof.
  induction l as [|x l IH]; simpl; intros Hl He; [done|]. destruct Hl as [H1 H2]. split.
  - intros Hx. autorewrite with go_rw. rewrite H1 by done. change (data_count []) with 0.
    destruct (is_data e) eqn:E; [|lia]. rewrite He in Hx; [done..|by left].
  - apply IH; [done|]. intros Hd y Hy. apply He; [done|by right].
Qed.

Lemma no_data_after_tail l k : no_data_after (l ++ k) -> no_data_after k.
Proof. induction l as [|x l IH]; simpl; [done|]. intros [_ H]. auto. Qed.

(** Steps that leave the queue, the flag and the program counter alone. *)
Lemma close_inv_same c c' d :
  close_inv c d -> queued c' = queued c -> inboxTerminal (adm c') = inboxTerminal (adm c) ->
  (is_closed c = true -> is_closed c' = true) ->
  (ackIdle (ackw c') = ackIdle (ackw c) \/ ackIdle (ackw c') = None \/
   forall e, e ∈ held d -> is_terminal e = false) -> close_inv c' d.
Proof.
  intros [C1 C2 C3 C4] Hq Ht Hcl Hi. split; rewrite ?Hq, ?Ht; try done.
  - intros env idle ->. destruct (C3 _ _ eq_refl) as [C5 C6]. split; [done|].
    destruct Hi as [->|[->|Hi]]; [done|by right|]. rewrite Hi in C5; [done|by left].
  - intros env -> Hte. destruct (C4 _ eq_refl Hte) as [C5|C5]; [left; auto|].
    destruct Hi as [->|[->|Hi]]; [by right|by right|]. rewrite Hi in Hte; [done|by left].
Qed.

Lemma close_inv_same_rx c c' d : same_rx c c' -> close_inv c d -> close_inv c' d.
Proof.
  intros (_ & Ha & Hk & _ & Hcl) HI. apply (close_inv_same c); try done.
  - unfold queued. by rewrite Ha.
  - by rewrite Ha.
  - left. by rewrite Hk.
Qed.

(** Outside the wait and the call that follows it nothing is asked of the worker. *)
Lemma close_inv_pc c c' d d' env :
  close_inv c d -> held d = [env] -> held d' = [env] -> queued c' = queued c ->
  inboxTerminal (adm c') = inboxTerminal (adm c) ->
  match d' with DWait _ _ | DHandle _ => False | _ => True end -> close_inv c' d'.
Proof.
  intros [C1 C2 C3 C4] H1 H2 Hq Ht Hd. rewrite H1 in *.
  split; rewrite ?Hq, ?Ht, ?H2; try done; by intros; subst.
Qed.

(** No frame is terminal while the flag is down. *)
Lemma close_inv_flag c d :
  close_inv c d -> inboxTerminal (adm c) = false -> forall e, e ∈ held d ++ queued c -> is_terminal e = false.
Proof.
  intros HI Ht e He. destruct (is_terminal e) eqn:E; [|done]. by rewrite (cl_flag _ _ HI e He E) in Ht.
Qed.

Lemma close_inv_failAdmission c d : close_inv c d -> close_inv (failAdmission c) d.
Proof.
  intros HI. apply (close_inv_same_rx _ _ _ (same_rx_failAdmission c)).
  apply (close_inv_same c); try done. by left.
Qed.

Lemma close_inv_ensure c d : close_inv c d -> close_inv (set_adm (ensureInbox (adm c)) c) d.
Proof.
  intros HI. apply (close_inv_same c); try done; [apply ensureInbox_queue| |by left].
  simpl. unfold ensureInbox. by case_match.
Qed.

Lemma close_inv_admitted c c1 d env dedup :
  close_inv c d -> queued c1 = queued c -> inboxTerminal (adm c1) = inboxTerminal (adm c) ->
  is_closed c1 = is_closed c ->
  (is_data env = true -> inboxTerminal (adm c) = false) ->
  ackIdle (ackw c1) = ackIdle (ackw c) \/ inboxTerminal (adm c) = false ->
  close_inv (admitted c1 env dedup) d.
Proof.
  intros HI Hq Ht Hcl Hd Hi. pose proof HI as [C1 C2 C3 C4].
  assert (Hqa : queued (admitted c1 env dedup) = queued c ++ [env]) by (rewrite <- Hq; done).
  split; rewrite ?Hqa, ?app_assoc; simpl inboxTerminal; fold (is_terminal env); rewrite ?Ht.
  - intros e. rewrite elem_of_app, list_elem_of_singleton. intros [He| ->] Hte.
    + by rewrite (C1 e).
    + by rewrite Hte, orb_true_r.
  - apply no_data_after_snoc; [done|]. intros Hde. apply close_inv_flag; auto.
  - intros e idle ->. destruct (C3 _ _ eq_refl) as [C5 C6]. split; [done|].
    destruct Hi as [Hi|Hi]; [by rewrite <- Hi in C6|].
    rewrite (close_inv_flag c _ HI Hi e) in C5; [done|by left].
  - intros e -> Hte. destruct Hi as [Hi|Hi].
    + change (is_closed (admitted c1 env dedup)) with (is_closed c1). rewrite Hcl.
      change (ackw (admitted c1 env dedup)) with (ackw c1). rewrite Hi. by apply (C4 e).
    + rewrite (close_inv_flag c _ HI Hi e) in Hte; [done|by left].
Qed.

Lemma closeACKIdle_idle a : ackIdle (closeACKIdleLocked a) = ackIdle a \/ ackIdle (closeACKIdleLocked a) = None.
Proof. unfold closeACKIdleLocked. case_match; auto. Qed.

Lemma close_inv_enqueue c d sn env : close_inv c d -> close_inv (enqueueEnvelope c sn env) d.
Proof.
  intros HI.
  assert (Hq : queued (set_adm (ensureInbox (adm c)) c) = queued c) by apply ensureInbox_queue.
  assert (Ht : inboxTerminal (ensureInbox (adm c)) = inboxTerminal (adm c)) by (unfold ensureInbox; by case_match).
  assert (Hnt : inboxTerminal (adm c) = false -> forall e, e ∈ held d -> is_terminal e = false).
  { intros Hf e He. apply (close_inv_flag c d HI Hf). apply elem_of_app. by left. }
  destruct (enqueue_cases c sn env); [done|..].
  - apply (close_inv_same_rx c); [apply same_rx_handleAck|done].
  - apply (close_inv_same c); try done; try (unfold queueACK; by case_match). right; right. by apply Hnt.
  - by apply close_inv_ensure.
  - by apply close_inv_failAdmission, close_inv_ensure.
  - by apply (close_inv_admitted c); [..|left].
  - by apply (close_inv_admitted c); [..|right].
  - apply (close_inv_same c); try done. right; right. by apply Hnt.
  - apply close_inv_failAdmission, (close_inv_same c); try done. right; right. by apply Hnt.
Qed.

Lemma close_inv_pop c env rest idle :
  close_inv c DSelect -> inbox (adm c) = Some (env :: rest) ->
  let c' := set_adm (mkAdmission (Some rest) (inboxSeq (adm c)) (inboxData (adm c))
                       (inboxFailed (adm c)) (inboxTerminal (adm c))) c in
  if is_terminal env then idle = ackIdle (ackw c) -> close_inv c' (DWait env idle)
  else close_inv c' (DHandle env).
Proof.
  intros [C1 C2 C3 C4] Ei c'. unfold queued in *. rewrite Ei in C1, C2.
  destruct (is_terminal env) eqn:Et; [intros ->|]; split; unfold queued; simpl; try done.
  - intros e idle' [= <- <-]. split; [done|by left].
  - intros e [= <-]. congruence.
Qed.

Lemma close_inv_dead c : is_closed c = true -> close_inv (dispatcherExit c) DDead.
Proof.
  intros Hc. split; unfold queued, dispatcherExit; destruct (inbox (adm c)); simpl; try done;
    intros e He; by apply not_elem_of_nil in He.
Qed.

(** Steps that keep the frame held. *)
Ltac pc_step c env := eapply (close_inv_pc c _ _ _ env); try done.

Lemma close_inv_dispatch now b c d c' d' o :
  dispatch_step now b c d = Some (c', d', o) -> close_inv c d -> close_inv c' d'.
Proof.
  intros Hs HI.
  destruct d as [|env idle|env|env|env ready k|env ready k|env k|env ack|env|env|]; simpl in Hs.
  - destruct (inbox (adm c)) as [[|env rest]|] eqn:Ei; [| |done].
    + destruct (is_closed c) eqn:Ec; [|done]. injection Hs as <- <- <-. by apply close_inv_dead.
    + destruct (is_closed c) eqn:Ec; simpl in Hs.
      * destruct b; injection Hs as <- <- <-; by apply close_inv_dead.
      * pose proof (close_inv_pop c env rest (waitReceiveACK c) HI Ei) as Hp. simpl in Hp.
        unfold is_terminal in Hp. destruct (_ || _); injection Hs as <- <- <-; [by apply Hp|done].
  - destruct (ackIdleReleased c idle || is_closed c) eqn:E; [|done]. injection Hs as <- <- <-.
    destruct HI as [C1 C2 C3 C4]. destruct (C3 _ _ eq_refl) as [C5 C6]. split; try done.
    intros e [= <-] _. apply orb_true_iff in E as [E|E]; [right|by left].
    destruct C6 as [C6|C6]; [|done]. unfold ackIdleReleased in E. destruct idle as [g|]; [|done].
    rewrite C6 in E. by rewrite bool_decide_true in E.
  - injection Hs as Hs. unfold handleEnvelope in Hs.
    destruct (decide (re_Kind env = RelayKindData)) as [Ek|Ek].
    + rewrite Ek in Hs. pose proof (same_rx_reorder c env) as (_ & Hr & _).
      destruct (reliability c); try (injection Hs as <- <- <-; pc_step c env).
      destruct (reorder c env) as [[[ready k]|] c1]; simpl in Hr; injection Hs as <- <- <-; pc_step c env;
        unfold queued; by rewrite ?Hr.
    + pose proof (same_rx_control c env now) as (_ & Hr & _).
      assert (Hs' : (let '(c', out) := handleControl c env now in (c', DFinish env, out)) = (c', d', o))
        by (by destruct (re_Kind env)). clear Hs.
      destruct (handleControl c env now) as [c1 out]. simpl in Hr. injection Hs' as <- <- <-. pc_step c env;
        unfold queued; by rewrite ?Hr.
  - destruct (deliverOrdered c _ b) as [[ok c1]|] eqn:Ed; [|done].
    apply deliver_spec in Ed as [(-> & -> & _)|(-> & ->)]; [|case_match]; injection Hs as <- <- <-; pc_step c env.
  - destruct ready as [|data ready]; [injection Hs as <- <- <-; pc_step c env|].
    destruct (deliverOrdered c _ b) as [[ok c1]|] eqn:Ed; [|done].
    apply deliver_spec in Ed as [(-> & -> & _)|(-> & ->)]; injection Hs as <- <- <-; pc_step c env.
  - injection Hs as <- <- <-. pc_step c env.
  - case_match; injection Hs as <- <- <-; pc_step c env.
  - injection Hs as <- <- <-. pc_step c env; unfold queueACK; by case_match.
  - case_match; injection Hs as <- <- <-; pc_step c env.
  - injection Hs as <- <- <-. destruct HI as [C1 C2 C3 C4].
    assert (queued (releaseAdmission c env) = queued c) as Hq by (unfold releaseAdmission; by case_match).
    assert (inboxTerminal (adm (releaseAdmission c env)) = inboxTerminal (adm c)) as Ht
      by (unfold releaseAdmission; by case_match).
    split; rewrite ?Hq, ?Ht; try done.
    + intros e He. apply C1. simpl. by right.
    + by apply (no_data_after_tail [env]).
  - done.
Qed.

Lemma close_inv_ack b res c d a c' a' o :
  ack_step b res c a = Some (c', a', o) -> close_inv c d -> close_inv c' d.
Proof.
  intros Hs HI. destruct a as [| |env|]; simpl in Hs; [| | |done].
  - repeat case_match; simplify_eq; try done. apply (close_inv_same c); try done. by left.
  - unfold ackTake in Hs. cbv zeta in Hs. set (k := mkAckWorker _ _ _ _ _ _) in Hs.
    destruct (closeACKIdle_idle k) as [E|E];
      (destruct (ackPending (ackw c)); injection Hs as <- <- <-;
       (apply (close_inv_same c); [done..|by rewrite ?E; auto])).
  - injection Hs as <- <- <-. unfold ackDone. cbv zeta. set (k := mkAckWorker _ _ _ _ _ _).
    destruct res.
    + apply (close_inv_same_rx (set_ackw k c)); [apply same_rx_close|].
      apply (close_inv_same c); try done. by left.
    + destruct (closeACKIdle_idle k) as [E|E]; apply (close_inv_same c); try done; simpl; rewrite E; auto.
Qed.

Lemma close_inv_step net x x' :
  rx_step net x x' -> close_inv (rx_c x) (rx_d x) -> close_inv (rx_c x') (rx_d x').
Proof.
  destruct 1; simpl; intros HI; [done|..].
  - by apply close_inv_enqueue.
  - by eapply close_inv_dispatch.
  - by eapply close_inv_ack.
  - assert (adm c' = adm c /\ ackw c' = ackw c /\ is_closed c' = is_closed c) as (Ha & Hk & Hc).
    { unfold ReceiveTimeout, receiveTerminal in H. repeat case_match; by simplify_eq. }
    apply (close_inv_same c); [done|unfold queued; by rewrite Ha|by rewrite Ha|by rewrite Hc|left; by rewrite Hk].
  - apply (close_inv_same_rx c); [apply same_rx_close|done].
  - apply (close_inv_same_rx c); [by apply same_rx_other|done].
Qed.

Lemma close_inv_reachable net c0 x :
  fresh c0 -> rx_reachable net c0 x -> close_inv (rx_c x) (rx_d x).
Proof.
  intros (_ & Ha & _). induction 1; [|by eapply close_inv_step].
  split; simpl; unfold queued; rewrite ?Ha; simpl; try done. intros e He. by apply not_elem_of_nil in He.
Qed.

(** When the dispatcher goes on to handle a remote CLOSE or
    ERROR on a connection that is still open, no receive acknowledgement is being generated,
    pending or sent: everything acknowledged so far has reached the transport. *)
Lemma close_waits_for_acks net c0 x env :
  fresh c0 -> rx_reachable net c0 x -> rx_d x = DHandle env -> is_terminal env = true ->
  is_closed (rx_c x) = false -> ack_quiet (ackw (rx_c x)).
Proof.
  intros Hf Hr Hd Ht Hc. destruct (rx_reachable_inv _ _ _ Hf Hr) as (_ & _ & [_ [K2 _] _ _ _]).
  apply K2. destruct (cl_handle _ _ (close_inv_reachable _ _ _ Hf Hr) env Hd Ht) as [H|H]; congruence.
Qed.

(** The dispatcher only waits before a terminal frame, and never for work queued behind the terminal frame: no
    DATA is admitted after it, so while the dispatcher waits no receive-ACK is registered; and
    until the wait is released the acknowledgement worker has an acknowledgement pending or
    is sending one, or the connection is closed. *)
Lemma close_wait_ends net c0 x env idle :
  fresh c0 -> rx_reachable net c0 x -> rx_d x = DWait env idle -> best_effort (rx_c x) = false ->
  is_terminal env = true /\ ackGenerating (ackw (rx_c x)) = 0 /\ data_count (queued (rx_c x)) = 0 /\
  (ackIdleReleased (rx_c x) idle = true \/ ackSending (ackw (rx_c x)) = true \/
   is_Some (ackPending (ackw (rx_c x))) \/ is_closed (rx_c x) = true).
Proof.
  intros Hf Hr Hd Hb. destruct (rx_reachable_inv _ _ _ Hf Hr) as (_ & _ & [K1 [K2 _] _ _ K5]).
  pose proof (close_inv_reachable _ _ _ Hf Hr) as [C1 C2 C3 C4]. rewrite Hd in *.
  destruct (C3 env idle eq_refl) as [Ht Hi]. simpl in C2. destruct C2 as [C2 _].
  assert (data_count (queued (rx_c x)) = 0) as Hq by auto.
  assert (ackGenerating (ackw (rx_c x)) = 0) as Hg.
  { rewrite K1 by done. rewrite data_count_app, Hq. simpl. rewrite data_count_cons.
    by rewrite (terminal_not_data _ Ht). }
  do 3 (split; [done|]). unfold ackIdleReleased. destruct idle as [g|]; [|by left].
  destruct Hi as [Hi|Hi]; [|left; rewrite Hi; by rewrite bool_decide_false].
  right. destruct K5 as [[?|[?|?]]|?]; [congruence|done|auto..].
Qed.

(** C14: relay_close_waits. A remote CLOSE or ERROR waits for the acknowledgements before it, and
    for nothing else. When the dispatcher goes on to handle it on a connection that is still open,
    no receive acknowledgement is being generated, pending or sent: everything acknowledged so far
    has reached the transport. While it waits, no DATA is admitted behind the terminal frame and
    no acknowledgement is registered, and until the wait is released the worker has an
    acknowledgement pending or is sending one, or the connection is closed: the wait ends. *)
Theorem relay_close_waits net c0 x :
  fresh c0 -> rx_reachable net c0 x ->
  (forall env, rx_d x = DHandle env -> is_terminal env = true -> is_closed (rx_c x) = false -> ack_quiet (ackw (rx_c x))) /\
  (forall env idle, rx_d x = DWait env idle -> best_effort (rx_c x) = false ->
     is_terminal env = true /\ ackGenerating (ackw (rx_c x)) = 0 /\ data_count (queued (rx_c x)) = 0 /\
     (ackIdleReleased (rx_c x) idle = true \/ ackSending (ackw (rx_c x)) = true \/
      is_Some (ackPending (ackw (rx_c x))) \/ is_closed (rx_c x) = true)).
Proof. intros Hf Hr. split; intros; [by eapply close_waits_for_acks|by eapply close_wait_ends]. Qed.

(** A frame and a CLOSE behind it; then the worker sends and the CLOSE is handled. *)
Definition close_moves1 : list rx_move :=
  deliver_moves (data_frame 1 [Byte.x61]) ++ deliver_moves close_frame ++ steps 10.
Definition close_moves2 : list rx_move :=
  [MAck false None; MAck false None; MAck false None; MAck false None; MDispatch 0 false].
Definition close_rx1 : rx := default (start (demo_conn DefaultRelayConfig))
                               (rx_run close_moves1 (start (demo_conn DefaultRelayConfig))).
Definition close_rx2 : rx := default close_rx1 (rx_run close_moves2 close_rx1).

Lemma close_reachable1 : rx_reachable (fun _ => True) (demo_conn DefaultRelayConfig) close_rx1.
Proof.
  apply (rx_run_reachable _ _ close_moves1 (start (demo_conn DefaultRelayConfig))); [constructor| |].
  - by repeat constructor.
  - vm_compute. reflexivity.
Qed.

Lemma close_reachable2 : rx_reachable (fun _ => True) (demo_conn DefaultRelayConfig) close_rx2.
Proof.
  apply (rx_run_reachable _ _ close_moves2 close_rx1); [apply close_reachable1|by repeat constructor|].
  vm_compute. reflexivity.
Qed.

Lemma relay_close_waits_witness :
  (exists idle, rx_d close_rx1 = DWait close_frame (Some idle) /\ ackGenerating (ackw (rx_c close_rx1)) = 0) /\
  rx_out close_rx2 <> [] /\ ack_quiet (ackw (rx_c close_rx2)).
Proof.
  split.
  - assert (H : rx_d close_rx1 = DWait close_frame (Some 0%nat)) by (vm_compute; reflexivity).
    exists 0%nat. split; [exact H|].
    refine (proj1 (proj2 (proj2 (relay_close_waits (fun _ => True) (demo_conn DefaultRelayConfig) close_rx1 _ _) close_frame (Some 0%nat) H _)));
      [by apply fresh_demo|apply close_reachable1|vm_compute; reflexivity].
  - split; [vm_compute; discriminate|].
    refine (proj1 (relay_close_waits (fun _ => True) (demo_conn DefaultRelayConfig) close_rx2 _ _) close_frame _ _ _);
      [by apply fresh_demo|apply close_reachable2|vm_compute; reflexivity|reflexivity|vm_compute; reflexivity].
Defined.
