(* ===== verification/RelaySend.v ===== *)
(** * The send side of a connection (sendLoop and retransmit of relay.go, Send, Flush, Close)

    [loop_step] is one step of the [sendLoop] goroutine and [retry_step] one of the
    retransmission coordinator it starts; [rpc_done] is the end of one acceptance RPC.
    The callers of [Send], [Flush] and [Close] hold [enqueueMu] between the two steps
    of their enqueue. *)

From stdpp Require Import base list strings gmap numbers.
From S2P Require Import Prelude Errors Types RelayConn.

(** ** The goroutine *)

Inductive send_pc : Type :=
| LSelect                              (* the select at the top of the loop *)
| LBarrier (id : nat)                  (* sends.Wait() before a Flush barrier *)
| LFlush                               (* sends.Wait() before close(c.flushCh) *)
| LBestEffort (env : RelayEnvelope)    (* in sendRelayEnvelope, best effort *)
| LWindow (data : bytes)               (* at the condition of the window loop *)
| LWindowWait (data : bytes)           (* in its select *)
| LSlot (env : RelayEnvelope)          (* waiting for an inflight slot *)
| LDead.

(** [sl_rpcs]: frames whose acceptance RPC is running, one inflight slot each;
    [sl_retry]: the frames the retransmission coordinator has left, when it runs. *)
Record send_loop : Type := mkSendLoop {
  sl_pc : send_pc;
  sl_rpcs : list RelayEnvelope;
  sl_retry : option (list RelayEnvelope);
}.

Inductive loop_effect : Type :=
| FxNone
| FxAssigned (data : bytes)
| FxFrame (env : RelayEnvelope)
| FxReply (id : nat) (target : Z).

(** The case of the [select] that is taken. *)
Inductive loop_case : Type := LTake | LAck | LTimer | LClosed.

(** [limit]: the capacity of [inflight]. *)
Definition send_limit (cfg : RelayConfig) : Z :=
  let limit := if rc_WindowSize cfg <? 1 then 1 else rc_WindowSize cfg in
  if 64 <? limit then 64 else limit.

(** [c.ackCh = make(chan struct{}, 1)] at the start of [sendLoop]. *)
Definition set_ackCh (v : option bool) (c : RelayConnection) : RelayConnection :=
  let w := sw c in set_sw (mkSendWindow (sendBase w) (nextSeq w) (unacked w) (retransCnt w) v) c.

(** [close(c.flushCh)] *)
Definition closeFlushCh (c : RelayConnection) : RelayConnection :=
  let l := life c in
  set_life (mkLifecycle (state l) (openChClosed l) true (onClose l) (closeErr l) (remoteClosed l)) c.

Definition sends_idle (s : send_loop) : bool :=
  bool_decide (sl_rpcs s = []) && bool_decide (sl_retry s = None).

(** One step of [sendLoop]; [None] when the chosen case is not ready. *)
Definition loop_step (now : Z) (case : loop_case) (c : RelayConnection) (s : send_loop)
    : option (RelayConnection * send_loop * loop_effect) :=
  let goto pc := mkSendLoop pc (sl_rpcs s) (sl_retry s) in
  match sl_pc s, case with
  | LSelect, LTake =>
      match sendCh c with
      | [] => None
      | ItemBarrier id :: rest => Some (set_sendCh rest c, goto (LBarrier id), FxNone)
      | ItemFlush :: rest => Some (set_sendCh rest c, goto LFlush, FxNone)
      | ItemData data :: rest =>
          if best_effort c
          then
            let env := makeEnvelope c RelayKindData 0 0 data now in
            Some (set_sendCh rest c, goto (LBestEffort env), FxFrame env)
          else Some (set_sendCh rest c, goto (LWindow data), FxNone)
      end
  | LSelect, LClosed | LWindowWait _, LClosed | LSlot _, LClosed =>
      if is_closed c then Some (c, goto LDead, FxNone) else None
  | LBarrier id, _ =>
      if sends_idle s then Some (c, goto LSelect, FxReply id (nextSeq (sw c))) else None
  | LFlush, _ => if sends_idle s then Some (closeFlushCh c, goto LSelect, FxNone) else None
  | LWindow data, _ =>
      if window_full c then Some (c, goto (LWindowWait data), FxNone)
      else let '(env, c') := assignSeq c data now in Some (c', goto (LSlot env), FxAssigned data)
  | LWindowWait data, LAck =>
      match ackCh (sw c) with
      | Some true => Some (set_ackCh (Some false) c, goto (LWindow data), FxNone)
      | _ => None
      end
  | LWindowWait data, LTimer => Some (c, goto (LWindow data), FxNone)
  | LSlot env, LTake =>
      if len (sl_rpcs s) <? send_limit (config c)
      then Some (c, mkSendLoop LSelect (sl_rpcs s ++ [env]) (sl_retry s), FxFrame env)
      else None
  | _, _ => None
  end.

(** The end of the best-effort send the loop itself makes, or of the [i]-th acceptance RPC;
    [outcome] is what the transport returned. *)
Definition bestEffort_done (outcome : option error) (c : RelayConnection) (s : send_loop)
    : option (RelayConnection * send_loop) :=
  match sl_pc s with
  | LBestEffort env =>
      let err := sendRelayEnvelope (config c) (is_closed c) env outcome in
      Some (match err with None => c | Some e => handleClose c (Some e) end,
            mkSendLoop LSelect (sl_rpcs s) (sl_retry s))
  | _ => None
  end.

Definition rpc_done (i : nat) (outcome : option error) (c : RelayConnection) (s : send_loop)
    : option (RelayConnection * send_loop) :=
  match sl_rpcs s !! i with
  | Some env =>
      let err := sendRelayEnvelope (config c) (is_closed c) env outcome in
      Some (match err with None => c | Some e => handleClose c (Some e) end,
            mkSendLoop (sl_pc s) (delete i (sl_rpcs s)) (sl_retry s))
  | None => None
  end.

(** The coordinator: its locked section, then one frame at a time. *)
Definition retry_step (now : Z) (c : RelayConnection) (s : send_loop)
    : option (RelayConnection * send_loop * loop_effect) :=
  match sl_retry s with
  | None =>
      if best_effort c then None
      else
        match retransmit c now with
        | RetransmitNothing => Some (c, s, FxNone)
        | RetransmitExceeded c' => Some (c', s, FxNone)
        | RetransmitFrames frames c' =>
            Some (c', mkSendLoop (sl_pc s) (sl_rpcs s) (Some frames), FxNone)
        end
  | Some [] => Some (c, mkSendLoop (sl_pc s) (sl_rpcs s) None, FxNone)
  | Some (env :: rest) =>
      if negb (retryStillPending c (re_Seq env))
      then Some (c, mkSendLoop (sl_pc s) (sl_rpcs s) (Some rest), FxNone)
      else if len (sl_rpcs s) <? send_limit (config c)
      then Some (c, mkSendLoop (sl_pc s) (sl_rpcs s ++ [env]) (Some rest), FxFrame env)
      else if is_closed c then Some (c, mkSendLoop (sl_pc s) (sl_rpcs s) None, FxNone) else None
  end.

(** ** [enqueueMu]: the mutex that a context interrupts (relay_flush.go) *)

(** Whether the token is in the channel. *)
Definition cancelMutex : Type := bool.

(** [LockContext]: a context that has ended refuses first; then the send of the token and the
    end of the context race, and [pick] decides when both are ready. [None] waits. *)
Definition LockContext (begun pick : bool) (ctxErr : option error) (m : cancelMutex) : option (option error * cancelMutex) :=
  match ctxErr, m with
  | None, false => Some (None, true)
  | None, true => None
  | Some e, false => if begun && pick then Some (None, true) else Some (Some e, m)
  | Some e, true => Some (Some e, m)
  end.
Definition TryLock (m : cancelMutex) : bool * cancelMutex := (negb m, true).
Definition Unlock (m : cancelMutex) : option cancelMutex := if m then Some false else None.

(** Nobody gets the mutex while it is held, a refusal leaves it alone, and what was taken can
    be given back. *)
Lemma cancelMutex_spec begun pick ctxErr m err m' : LockContext begun pick ctxErr m = Some (err, m') ->
  (err = None <-> m = false /\ m' = true) /\ (err <> None -> err = ctxErr /\ m' = m) /\
  (err = None -> TryLock m' = (false, m') /\ Unlock m' = Some m).
Proof.
  unfold LockContext, TryLock, Unlock. destruct ctxErr as [e|], m; [|destruct (begun && pick)|..]; intros; simplify_eq; naive_solver.
Qed.

(** ** The callers, under [enqueueMu] *)

(** [Close()]: the test and the change of state; [inr] is an early return. *)
Definition CloseBegin (c : RelayConnection) : RelayConnection + option error :=
  if negb (bool_decide (State c = RelayStateOpen)) then inr (closeErr (life c))
  else
    let l := life c in
    inl (set_life (mkLifecycle RelayStateClosing (openChClosed l) (flushChClosed l) (onClose l)
                     (closeErr l) (remoteClosed l)) c).

(** [Flush(ctx)]: the test under the lock. *)
Definition FlushBegin (c : RelayConnection) : option error :=
  if bool_decide (State c = RelayStateOpen) then None else Some (flushError c).

(** [c.sendCh <- item] of [Close] and [Flush], blocking until there is room. *)
Definition enqueueItem (c : RelayConnection) (handoff : bool) (item : relaySendItem)
    : option RelayConnection :=
  if sendChReady c handoff then Some (set_sendCh (sendCh c ++ [item]) c) else None.

(** [Close] after its item is queued: everything flushed, acknowledged (unless best effort),
    and no receive acknowledgement outstanding; only then the CLOSE frame is built. *)
Definition closeReady (c : RelayConnection) (idle : option nat) : bool :=
  flushChClosed (life c) && (best_effort c || bool_decide (unacked (sw c) = ∅)) &&
  ackIdleReleased c idle && negb (is_closed c).
Definition closeFrame (c : RelayConnection) (now : Z) : RelayEnvelope :=
  makeEnvelope c RelayKindClose 0 0 [] now.

(** The RPC of the CLOSE frame: it starts unless the connection has been closed, and its
    outcome closes the connection. *)
Definition closeSend (c : RelayConnection) : option (option error) :=
  if is_closed c then Some (closeErr (life c)) else None.
Definition closeSent (outcome : option error) (c : RelayConnection) : option error * RelayConnection :=
  let c := closeConnection c outcome in (closeResult c, c).

(** [Close] leaves the connection closed and reports what closed it first. *)
Lemma closeSent_spec outcome c :
  is_closed (closeSent outcome c).2 = true /\
  (closeSent outcome c).1 = (if is_closed c then closeErr (life c) else outcome).
Proof. unfold closeSent, closeConnection, closeWithSource, closeResult. by destruct (is_closed c) eqn:E. Qed.

(** The deadline of [Close] and its effect on the connection. *)
Definition closeTimeout (cfg : RelayConfig) : Z :=
  let timeout := i64 (rc_CloseTimeoutMs cfg * 1000000) in
  if timeout <=? 0 then 5000000000 else timeout.
Definition closeDeadline (c : RelayConnection) : RelayConnection :=
  closeConnection c (Some (ERelay RelayErrorCloseTimeout
    "close timeout waiting for queued data acknowledgement")).
