(* ===== verification/RelayTx.v ===== *)
(** * The send side as a machine

    Callers of [Send], [Flush] and [Close] (serialized by [enqueueMu]), the [sendLoop]
    goroutine, its retransmission coordinator, the acceptance RPCs and the arrival of
    acknowledgements, interleaved. The invariant says what the window holds, that every
    frame handed to the transport carries the payload its sequence number stands for,
    that payloads get their numbers in the order they were queued, and what the reply to
    a Flush barrier means. *)

From stdpp Require Import base list strings gmap numbers.
From S2P Require Import Prelude Errors Types RelayConn RelaySend.

(** Who holds [enqueueMu], between the test of the state and the end of the select. *)
Inductive holder : Type := HSend (data : bytes) | HFlush | HClose.

(** History: [tx_sent] the payloads queued by [Send] in order, [tx_assigned] those that got
    a sequence number, [tx_out] the frames handed to the transport, [tx_counts] how many
    payloads were queued before each Flush barrier, [tx_replies] the barrier replies. *)
Record tx : Type := mkTx {
  tx_c : RelayConnection;
  tx_s : send_loop;
  tx_lock : option holder;
  tx_closing : bool;
  tx_sent : list bytes;
  tx_assigned : list bytes;
  tx_out : list RelayEnvelope;
  tx_counts : list Z;
  tx_replies : list (nat * Z);
}.

(** Closing or closed: [Send] is refused from now on. *)
Definition shut (c : RelayConnection) : Prop :=
  State c = RelayStateClosing \/ State c = RelayStateClosed.

(** What the goroutines of the receive side and [closeWithSource] may change. *)
Definition rx_change (c c' : RelayConnection) : Prop :=
  config c' = config c /\ sw c' = sw c /\ sendCh c' = sendCh c /\
  flushChClosed (life c') = flushChClosed (life c) /\
  (is_closed c = true -> is_closed c' = true) /\
  (State c = RelayStateClosing -> shut c').

Definition fx_assigned (fx : loop_effect) : list bytes :=
  match fx with FxAssigned data => [data] | _ => [] end.
Definition fx_out (fx : loop_effect) : list RelayEnvelope :=
  match fx with FxFrame env => [env] | _ => [] end.
Definition fx_replies (fx : loop_effect) : list (nat * Z) :=
  match fx with FxReply id target => [(id, target)] | _ => [] end.

(** [acks] says which acknowledgements the network may deliver. No run numbers [2^64 - 2]
    payloads: the guard of [tx_loop] is that sequence numbers do not wrap. *)
Inductive tx_step (acks : RelayEnvelope -> Prop) : tx -> tx -> Prop :=
| tx_send_begin c s cl sent asg out cnt rep data :
    SendCheck c data = None ->
    tx_step acks (mkTx c s None cl sent asg out cnt rep) (mkTx c s (Some (HSend data)) cl sent asg out cnt rep)
| tx_send_end c s cl sent asg out cnt rep data handoff case err c' :
    SendSelect c data handoff case = Some (err, c') ->
    tx_step acks (mkTx c s (Some (HSend data)) cl sent asg out cnt rep)
      (mkTx c' s None cl (if bool_decide (err = None) then sent ++ [data] else sent) asg out cnt rep)
| tx_flush_begin c s cl sent asg out cnt rep :
    FlushBegin c = None ->
    tx_step acks (mkTx c s None cl sent asg out cnt rep) (mkTx c s (Some HFlush) cl sent asg out cnt rep)
| tx_flush_queue c s cl sent asg out cnt rep handoff c' :
    enqueueItem c handoff (ItemBarrier (length cnt)) = Some c' ->
    tx_step acks (mkTx c s (Some HFlush) cl sent asg out cnt rep)
      (mkTx c' s None cl sent asg out (cnt ++ [len sent]) rep)
| tx_flush_abandon c s cl sent asg out cnt rep :
    tx_step acks (mkTx c s (Some HFlush) cl sent asg out cnt rep) (mkTx c s None cl sent asg out cnt rep)
| tx_close_begin c s cl sent asg out cnt rep c' :
    CloseBegin c = inl c' ->
    tx_step acks (mkTx c s None cl sent asg out cnt rep) (mkTx c' s (Some HClose) cl sent asg out cnt rep)
| tx_close_queue c s cl sent asg out cnt rep handoff c' :
    enqueueItem c handoff ItemFlush = Some c' ->
    tx_step acks (mkTx c s (Some HClose) cl sent asg out cnt rep) (mkTx c' s None true sent asg out cnt rep)
| tx_close_abandon c s cl sent asg out cnt rep :
    is_closed c = true ->
    tx_step acks (mkTx c s (Some HClose) cl sent asg out cnt rep) (mkTx c s None cl sent asg out cnt rep)
| tx_loop c s lk cl sent asg out cnt rep now case c' s' fx :
    loop_step now case c s = Some (c', s', fx) -> len asg < two64 - 2 ->
    tx_step acks (mkTx c s lk cl sent asg out cnt rep)
      (mkTx c' s' lk cl sent (asg ++ fx_assigned fx) (out ++ fx_out fx) cnt (rep ++ fx_replies fx))
| tx_rpc c s lk cl sent asg out cnt rep i outcome c' s' :
    rpc_done i outcome c s = Some (c', s') ->
    tx_step acks (mkTx c s lk cl sent asg out cnt rep) (mkTx c' s' lk cl sent asg out cnt rep)
| tx_retry c s lk cl sent asg out cnt rep now c' s' fx :
    retry_step now c s = Some (c', s', fx) ->
    tx_step acks (mkTx c s lk cl sent asg out cnt rep)
      (mkTx c' s' lk cl sent asg (out ++ fx_out fx) cnt rep)
| tx_ack c s lk cl sent asg out cnt rep env :
    acks env ->
    tx_step acks (mkTx c s lk cl sent asg out cnt rep) (mkTx (handleAck c env) s lk cl sent asg out cnt rep)
| tx_abort c s lk cl sent asg out cnt rep reason remote :
    tx_step acks (mkTx c s lk cl sent asg out cnt rep)
      (mkTx (closeWithSource c reason remote).1 s lk cl sent asg out cnt rep)
| tx_other c s lk cl sent asg out cnt rep c' :
    rx_change c c' ->
    tx_step acks (mkTx c s lk cl sent asg out cnt rep) (mkTx c' s lk cl sent asg out cnt rep).

(** A new connection whose [sendLoop] has started. *)
Definition tx_init (c : RelayConnection) : tx :=
  mkTx (set_ackCh (Some false) c) (mkSendLoop LSelect [] None) None false [] [] [] [] [].

Inductive tx_reachable (acks : RelayEnvelope -> Prop) (c0 : RelayConnection) : tx -> Prop :=
| txr_init : tx_reachable acks c0 (tx_init c0)
| txr_step t t' : tx_reachable acks c0 t -> tx_step acks t t' -> tx_reachable acks c0 t'.

Definition tx_fresh (c : RelayConnection) : Prop :=
  sw c = mkSendWindow 1 1 ∅ 0 None /\ sendCh c = [] /\ flushChClosed (life c) = false.

(** ** The invariant *)

(** The frame of sequence number [seq], from the payloads numbered so far. *)
Definition numbered (asg : list bytes) (seq : Z) (payload : bytes) : Prop :=
  1 <= seq /\ asg !! Z.to_nat (seq - 1) = Some payload.
Definition frame_ok (asg : list bytes) (env : RelayEnvelope) : Prop :=
  re_Kind env = RelayKindData /\ re_AckSeq env = 0 /\ numbered asg (re_Seq env) (re_Payload env).

(** The window: [unacked] is exactly the numbered payloads from [sendBase] on. *)
Record window_inv (W : Z) (w : send_window) (asg : list bytes) : Prop := {
  wi_next : nextSeq w = len asg + 1;
  wi_base : 1 <= sendBase w <= nextSeq w;
  wi_size : nextSeq w - sendBase w <= W;
  wi_u64 : nextSeq w < two64;
  wi_unacked : forall seq v, unacked w !! seq = Some v <-> sendBase w <= seq /\ numbered asg seq v;
}.

(** Every frame on its way out. *)
Definition frames_inv (asg : list bytes) (s : send_loop) (out : list RelayEnvelope) : Prop :=
  Forall (frame_ok asg) (sl_rpcs s) /\ Forall (frame_ok asg) (default [] (sl_retry s)) /\
  Forall (frame_ok asg) out /\ (forall env, sl_pc s = LSlot env -> frame_ok asg env) /\
  (forall env, sl_pc s <> LBestEffort env).

(** Payloads waiting in the loop and in the channel. *)
Definition hold (pc : send_pc) : list bytes :=
  match pc with LWindow data | LWindowWait data => [data] | _ => [] end.
Definition item_data (i : relaySendItem) : list bytes :=
  match i with ItemData data => [data] | _ => [] end.
Definition queue_data (q : list relaySendItem) : list bytes := concat (item_data <$> q).

(** What a barrier number stands for, wherever its item is. *)
Definition barrier_at (cnt : list Z) (id : nat) (n : Z) : Prop := cnt !! id = Some n.
Fixpoint barriers_ok (cnt : list Z) (n : Z) (q : list relaySendItem) : Prop :=
  match q with
  | [] => True
  | ItemBarrier id :: q' => barrier_at cnt id n /\ barriers_ok cnt n q'
  | i :: q' => barriers_ok cnt (n + len (item_data i)) q'
  end.

(** Nothing is queued behind the item of [Close]. *)
Fixpoint flush_last (q : list relaySendItem) : Prop :=
  match q with
  | [] => True
  | ItemFlush :: q' => queue_data q' = []
  | _ :: q' => flush_last q'
  end.

Record queue_inv (c : RelayConnection) (s : send_loop) (lk : option holder) (cl : bool)
    (sent asg : list bytes) (cnt : list Z) (rep : list (nat * Z)) : Prop := {
  qi_dead : sl_pc s = LDead -> is_closed c = true;
  qi_sent : sl_pc s <> LDead -> sent = asg ++ hold (sl_pc s) ++ queue_data (sendCh c);
  qi_prefix : asg `prefix_of` sent;
  qi_barriers : sl_pc s <> LDead -> barriers_ok cnt (len asg + len (hold (sl_pc s))) (sendCh c);
  qi_barrier : forall id, sl_pc s = LBarrier id -> barrier_at cnt id (len asg);
  qi_replies : forall id target, (id, target) ∈ rep -> barrier_at cnt id (target - 1) /\ target <= len asg + 1;
  qi_flush : flush_last (sendCh c);
  qi_closing : cl = true -> shut c /\ (forall data, lk <> Some (HSend data)) /\ lk <> Some HClose;
  qi_open : lk = Some HClose -> shut c;
  qi_item : ItemFlush ∈ sendCh c \/ sl_pc s = LFlush \/ flushChClosed (life c) = true -> cl = true;
  qi_done : sl_pc s = LFlush \/ flushChClosed (life c) = true ->
    queue_data (sendCh c) = [] /\ hold (sl_pc s) = [];
}.

(** ** The window *)

Lemma numbered_app asg data seq v :
  numbered (asg ++ [data]) seq v <-> numbered asg seq v \/ (seq = len asg + 1 /\ v = data).
Proof.
  unfold numbered, len. rewrite lookup_app_Some. split.
  - intros [H1 [H2|[H2 H3]]]; [by left|]. apply list_lookup_singleton_Some in H3 as [H3 <-].
    right. split; [lia|done].
  - intros [[H1 H2]|[-> ->]]; [by auto|]. split; [lia|]. right. split; [lia|].
    by replace (Z.to_nat _ - length asg)%nat with 0%nat by lia.
Qed.

Lemma numbered_mono asg l seq v : numbered asg seq v -> numbered (asg ++ l) seq v.
Proof. intros [H1 H2]. split; [done|]. by apply lookup_app_l_Some. Qed.

Lemma numbered_bound asg seq v : numbered asg seq v -> 1 <= seq <= len asg.
Proof. intros [H1 H2]. apply lookup_lt_Some in H2. unfold len. lia. Qed.

Lemma frame_ok_mono asg l env : frame_ok asg env -> frame_ok (asg ++ l) env.
Proof. intros (H1 & H2 & H3). split_and!; try done. by apply numbered_mono. Qed.

Lemma window_inv_eq W w w' asg :
  sendBase w' = sendBase w -> nextSeq w' = nextSeq w -> unacked w' = unacked w ->
  window_inv W w asg -> window_inv W w' asg.
Proof. intros E1 E2 E3 [H1 H2 H3 H4 H5]. split; rewrite ?E1, ?E2, ?E3; done. Qed.

Lemma window_inv_assign W c asg data now :
  u64 (rc_WindowSize (config c)) = W -> window_inv W (sw c) asg -> window_full c = false ->
  len asg < two64 - 2 ->
  window_inv W (sw (assignSeq c data now).2) (asg ++ [data]) /\
  frame_ok (asg ++ [data]) (assignSeq c data now).1.
Proof.
  intros HW [H1 H2 H3 H4 H5] Hf Hl. unfold window_full in Hf. rewrite HW in Hf. bool_facts.
  pose proof (len_nonneg asg). u64_simpl. unfold assignSeq. simpl. split.
  - assert ((sendBase (sw c) =? 0) = false) as -> by (apply Z.eqb_neq; lia).
    assert (nextSeq (sw c) +u 1 = nextSeq (sw c) + 1) as E by (u64_simpl; lia).
    split; simpl; rewrite ?E; try (len_lia).
    intros seq v. rewrite numbered_app, lookup_insert_Some, H5. rewrite <- H1. split.
    + intros [[<- <-]|[Hne [Hb Hn]]]; [split; [lia|by right]|]. split; [done|by left].
    + intros [Hb [Hn|[-> ->]]]; [|by left]. right. pose proof (numbered_bound _ _ _ Hn).
      split; [lia|done].
  - repeat split; simpl; [lia|]. rewrite H1. unfold len. apply lookup_app_Some. right.
    split; [lia|]. by replace (Z.to_nat _ - length asg)%nat with 0%nat by lia.
Qed.

Lemma window_inv_ack W c asg env :
  window_inv W (sw c) asg -> window_inv W (sw (handleAck c env)) asg.
Proof.
  intros HI. pose proof HI as [H1 H2 H3 H4 H5]. unfold handleAck. destruct (best_effort c); [done|]. cbv zeta.
  destruct (_ && _) eqn:E; [|done]. bool_facts. simpl.
  assert (re_AckSeq env +u 1 = re_AckSeq env + 1) as E by (u64_simpl; lia).
  split; simpl; rewrite ?E; try lia.
  intros seq v. rewrite map_lookup_filter_Some, H5. simpl. intuition lia.
Qed.

(** [sendBase] only grows, to one past an acknowledged number. *)
Lemma handleAck_base W c asg env :
  window_inv W (sw c) asg ->
  sendBase (sw (handleAck c env)) = sendBase (sw c) \/
  sendBase (sw (handleAck c env)) = re_AckSeq env + 1.
Proof.
  intros [H1 H2 H3 H4 H5]. unfold handleAck. destruct (best_effort c); [by left|]. cbv zeta.
  destruct (_ && _) eqn:E; [|by left]. bool_facts. right. simpl. u64_simpl. lia.
Qed.

Lemma retransmit_ok W c asg now :
  window_inv W (sw c) asg ->
  match retransmit c now with
  | RetransmitNothing => True
  | RetransmitExceeded c' =>
      window_inv W (sw c') asg /\ sendCh c' = sendCh c /\ config c' = config c /\ is_closed c' = true /\
      flushChClosed (life c') = flushChClosed (life c)
  | RetransmitFrames frames c' =>
      window_inv W (sw c') asg /\ Forall (frame_ok asg) frames /\ sendCh c' = sendCh c /\
      config c' = config c /\ life c' = life c
  end.
Proof.
  intros HI. unfold retransmit. destruct (bool_decide _); [done|]. cbv zeta. destruct (_ <? _).
  - split_and!; try (unfold handleClose, closeConnection, closeWithSource; by case_match).
    + unfold handleClose, closeConnection, closeWithSource. by case_match; apply (window_inv_eq W (sw c)).
  - split_and!; try done; [by apply (window_inv_eq W (sw c))|].
    apply Forall_forall. intros env Hin. apply list_elem_of_In, list_elem_of_omap in Hin as (seq & Hseq & Hv).
    destruct (unacked (sw c) !! seq) as [v|] eqn:E; [|done]. injection Hv as <-.
    apply (wi_unacked _ _ _ HI) in E as [_ Hn]. by repeat split; simpl; apply Hn.
Qed.

(** ** The queue *)

Definition quiet_pc (pc : send_pc) : Prop :=
  hold pc = [] /\ pc <> LDead /\ pc <> LFlush /\ forall id, pc <> LBarrier id.

(** Moves of the loop that neither take an item nor number one. *)
Lemma queue_inv_pc c c' s s' lk cl sent asg cnt rep :
  queue_inv c s lk cl sent asg cnt rep -> sl_pc s <> LDead -> sendCh c' = sendCh c -> life c' = life c ->
  hold (sl_pc s') = hold (sl_pc s) -> sl_pc s' <> LDead -> sl_pc s' <> LFlush ->
  (forall id, sl_pc s' <> LBarrier id) -> queue_inv c' s' lk cl sent asg cnt rep.
Proof.
  intros [Q1 Q2 Q3 Q4 Q5 Q6 Q7 Q8 Q9 Q10 Q11] Hd Hs Hl Hh Hd' Hf' Hb'.
  split; unfold shut, State, is_closed in *; rewrite ?Hs, ?Hl, ?Hh; try done; auto.
  - intros id Hi. by destruct (Hb' id).
  - intros [?|[?|?]]; auto; congruence.
  - intros [?|?]; auto; congruence.
Qed.

(** Only [sendCh], the life cycle and the program counter matter. *)
Lemma queue_inv_same c c' s s' lk cl sent asg cnt rep :
  queue_inv c s lk cl sent asg cnt rep -> sendCh c' = sendCh c -> sl_pc s' = sl_pc s ->
  flushChClosed (life c') = flushChClosed (life c) ->
  (is_closed c = true -> is_closed c' = true) -> (shut c -> shut c') ->
  queue_inv c' s' lk cl sent asg cnt rep.
Proof.
  intros [Q1 Q2 Q3 Q4 Q5 Q6 Q7 Q8 Q9 Q10 Q11] Hs Hp Hf Hc Hsh.
  split; rewrite ?Hs, ?Hp, ?Hf; auto. intros Hcl. destruct (Q8 Hcl) as (? & ? & ?). auto.
Qed.

Lemma queue_inv_die c s lk cl sent asg cnt rep rp rt :
  queue_inv c s lk cl sent asg cnt rep -> is_closed c = true -> sl_pc s <> LFlush ->
  queue_inv c (mkSendLoop LDead rp rt) lk cl sent asg cnt rep.
Proof.
  intros [Q1 Q2 Q3 Q4 Q5 Q6 Q7 Q8 Q9 Q10 Q11] Hc Hf. split; simpl; try done; auto.
  - intros [?|[?|?]]; auto; done.
  - intros [?|?]; [done|]. split; [by apply Q11; right|done].
Qed.

Lemma queue_data_cons i q : queue_data (i :: q) = item_data i ++ queue_data q.
Proof. done. Qed.

Lemma queue_data_app q q' : queue_data (q ++ q') = queue_data q ++ queue_data q'.
Proof. unfold queue_data. by rewrite fmap_app, concat_app. Qed.

(** [sendLoop] takes the next item of the channel. *)
Lemma queue_inv_take c s i rest lk cl sent asg cnt rep pc :
  queue_inv c s lk cl sent asg cnt rep -> sl_pc s = LSelect -> sendCh c = i :: rest ->
  pc = match i with ItemData data => LWindow data | ItemBarrier id => LBarrier id | ItemFlush => LFlush end ->
  queue_inv (set_sendCh rest c) (mkSendLoop pc (sl_rpcs s) (sl_retry s)) lk cl sent asg cnt rep.
Proof.
  intros [Q1 Q2 Q3 Q4 Q5 Q6 Q7 Q8 Q9 Q10 Q11] Hp Hs ->. rewrite Hp, Hs in *. simpl in *.
  specialize (Q2 ltac:(done)). specialize (Q4 ltac:(done)). rewrite Z.add_0_r in Q4.
  assert (H10 : ItemFlush ∈ rest \/ flushChClosed (life c) = true -> cl = true).
  { intros [?|?]; apply Q10; [left; by right|by right; right]. }
  assert (H11 : flushChClosed (life c) = true -> queue_data (i :: rest) = []).
  { intros ?. apply Q11. by right. }
  destruct i as [data|id|]; split; simpl; try done; rewrite ?Z.add_0_r; auto.
  - intros [?|[?|?]]; auto; done.
  - intros [?|?]; [done|]. by specialize (H11 H).
  - intros _. by destruct Q4.
  - intros id' [= <-]. by destruct Q4.
  - intros [?|[?|?]]; auto; done.
  - intros [?|?]; [done|]. split; [|done]. by apply H11.
  - clear -Q7. induction rest as [|[d|id|] rest IH]; simpl in *; try done; by apply IH.
  - intros _. apply Q10. left. by left.
Qed.

Lemma queue_inv_assign c c' s lk cl sent asg cnt rep data env :
  queue_inv c s lk cl sent asg cnt rep -> sl_pc s = LWindow data -> sendCh c' = sendCh c -> life c' = life c ->
  queue_inv c' (mkSendLoop (LSlot env) (sl_rpcs s) (sl_retry s)) lk cl sent (asg ++ [data]) cnt rep.
Proof.
  intros [Q1 Q2 Q3 Q4 Q5 Q6 Q7 Q8 Q9 Q10 Q11] Hp Hs Hl. rewrite Hp in *. simpl in *.
  specialize (Q2 ltac:(done)). specialize (Q4 ltac:(done)).
  split; simpl; unfold shut, State, is_closed in *; rewrite ?Hs, ?Hl; try done.
  - intros _. by rewrite <- app_assoc.
  - rewrite Q2. exists (queue_data (sendCh c)). by rewrite <- app_assoc.
  - intros _. by rewrite len_app, Z.add_0_r.
  - intros id target Hin. destruct (Q6 id target Hin) as [? ?]. split; [done|len_lia].
  - intros [?|[?|?]]; auto; done.
  - intros [?|?]; [done|]. by destruct Q11; [right|].
Qed.

Record tx_inv (W : Z) (t : tx) : Prop := {
  ti_W : u64 (rc_WindowSize (config (tx_c t))) = W;
  ti_be : best_effort (tx_c t) = false;
  ti_win : window_inv W (sw (tx_c t)) (tx_assigned t);
  ti_frames : frames_inv (tx_assigned t) (tx_s t) (tx_out t);
  ti_queue : queue_inv (tx_c t) (tx_s t) (tx_lock t) (tx_closing t) (tx_sent t) (tx_assigned t)
               (tx_counts t) (tx_replies t);
}.

Lemma best_effort_config c c' : config c' = config c -> best_effort c' = best_effort c.
Proof. unfold best_effort, reliability. by intros ->. Qed.

Lemma frames_inv_mono asg l s out : frames_inv asg s out -> frames_inv (asg ++ l) s out.
Proof.
  intros (H1 & H2 & H3 & H4 & H5).
  assert (Hm : forall l', Forall (frame_ok asg) l' -> Forall (frame_ok (asg ++ l)) l').
  { intros l' H. eapply List.Forall_impl; [|exact H]. intros. by apply frame_ok_mono. }
  split_and!; auto. intros env He. apply frame_ok_mono. auto.
Qed.

Lemma frames_inv_pc asg s s' out :
  frames_inv asg s out -> sl_rpcs s' = sl_rpcs s -> sl_retry s' = sl_retry s ->
  (forall env, sl_pc s' <> LSlot env) -> (forall env, sl_pc s' <> LBestEffort env) -> frames_inv asg s' out.
Proof.
  intros (H1 & H2 & H3 & H4 & H5) E1 E2 H6 H7. unfold frames_inv. rewrite E1, E2. split_and!; try done.
  intros env He. by destruct (H6 env).
Qed.

(** The program counter after a take. *)
Definition take_pc (i : relaySendItem) : send_pc :=
  match i with ItemData data => LWindow data | ItemBarrier id => LBarrier id | ItemFlush => LFlush end.

Lemma loop_take now c s c' s' fx :
  best_effort c = false -> sl_pc s = LSelect -> loop_step now LTake c s = Some (c', s', fx) ->
  exists i rest, sendCh c = i :: rest /\ c' = set_sendCh rest c /\
    s' = mkSendLoop (take_pc i) (sl_rpcs s) (sl_retry s) /\ fx = FxNone.
Proof.
  intros Hb Hp Hs. unfold loop_step in Hs. rewrite Hp in Hs. destruct (sendCh c) as [|i rest]; [done|].
  exists i, rest. destruct i; rewrite ?Hb in Hs; by simplify_eq.
Qed.

(** Splits [tx_inv] after a step that keeps the configuration: the frames and the queue remain. *)
Ltac tx_split c W :=
  split; simpl; [done|done|first [done|by apply (window_inv_eq W (sw c))]| |].

(** The loop ends because the connection is closed. *)
Ltac tx_dies c s W Hs Ec Ep :=
  destruct (is_closed c) eqn:Ec; [|done]; injection Hs as <- <- <-; simpl; rewrite !app_nil_r; tx_split c W;
  [by apply (frames_inv_pc _ s)|apply queue_inv_die with s; [done..|]; by rewrite Ep].

(** It moves on and neither the queue nor the window changes. *)
Ltac tx_moves c s W Hs Ep :=
  injection Hs as <- <- <-; simpl; rewrite !app_nil_r; tx_split c W;
  [by apply (frames_inv_pc _ s)|apply (queue_inv_pc c _ s); try done; simpl; by rewrite Ep].

Lemma tx_inv_loop W c s lk cl sent asg out cnt rep now case c' s' fx :
  loop_step now case c s = Some (c', s', fx) -> len asg < two64 - 2 ->
  tx_inv W (mkTx c s lk cl sent asg out cnt rep) ->
  tx_inv W (mkTx c' s' lk cl sent (asg ++ fx_assigned fx) (out ++ fx_out fx) cnt (rep ++ fx_replies fx)).
Proof.
  intros Hs Hl [HW Hb Hw Hf Hq]. simpl in *. pose proof Hf as (F1 & F2 & F3 & F4 & F5).
  destruct (sl_pc s) as [|id| |env|data|data|env|] eqn:Ep.
  - destruct case; try (unfold loop_step in Hs; rewrite Ep in Hs; done).
    + apply loop_take in Hs as (i & rest & Ei & -> & -> & ->); [|done..]. simpl. rewrite !app_nil_r.
      tx_split c W.
      * apply (frames_inv_pc _ s); try done; simpl; by destruct i.
      * by apply (queue_inv_take c s i).
    + unfold loop_step in Hs; rewrite Ep in Hs. tx_dies c s W Hs Ec Ep.
  - unfold loop_step in Hs; rewrite Ep in Hs. destruct (sends_idle s); [|done]. injection Hs as <- <- <-.
    simpl. rewrite !app_nil_r. tx_split c W; [by apply (frames_inv_pc _ s)|].
    assert (Hb' : barrier_at cnt id (len asg)) by (by apply (qi_barrier _ _ _ _ _ _ _ _ Hq)).
    pose proof (queue_inv_pc c c s (mkSendLoop LSelect (sl_rpcs s) (sl_retry s)) lk cl sent asg cnt rep Hq) as Hq'.
    rewrite Ep in Hq'. destruct Hq' as [Q1 Q2 Q3 Q4 Q5 Q6 Q7 Q8 Q9 Q10 Q11]; try done.
    split; try done. intros id' t. rewrite elem_of_app, list_elem_of_singleton.
    intros [?|[= -> ->]]; [auto|]. rewrite (wi_next _ _ _ Hw). by rewrite Z.add_simpl_r.
  - unfold loop_step in Hs; rewrite Ep in Hs. destruct (sends_idle s); [|done]. injection Hs as <- <- <-.
    simpl. rewrite !app_nil_r. tx_split c W; [by apply (frames_inv_pc _ s)|].
    destruct Hq as [Q1 Q2 Q3 Q4 Q5 Q6 Q7 Q8 Q9 Q10 Q11]. rewrite Ep in *.
    split; simpl; try done; auto.
  - by destruct (F5 env).
  - unfold loop_step in Hs; rewrite Ep in Hs. destruct (window_full c) eqn:Ew.
    + tx_moves c s W Hs Ep.
    + destruct (window_inv_assign W c asg data now HW Hw Ew Hl) as [Hw' Hok].
      destruct (assignSeq c data now) as [env c1] eqn:Ea.
      assert (sendCh c1 = sendCh c /\ life c1 = life c /\ config c1 = config c) as (E1 & E2 & E3)
        by (unfold assignSeq in Ea; by injection Ea as <- <-).
      injection Hs as <- <- <-. simpl. rewrite !app_nil_r.
      split; simpl; [by rewrite E3|by rewrite (best_effort_config c)|done| |by eapply queue_inv_assign].
      apply (frames_inv_mono _ [data]) in Hf as (G1 & G2 & G3 & _ & _). split_and!; simpl; try done. by intros ? [= <-].
  - unfold loop_step in Hs; rewrite Ep in Hs. destruct case; [done|..].
    + destruct (ackCh (sw c)) as [[]|]; try done. tx_moves c s W Hs Ep.
    + tx_moves c s W Hs Ep.
    + tx_dies c s W Hs Ec Ep.
  - unfold loop_step in Hs; rewrite Ep in Hs. destruct case; try done.
    + destruct (_ <? _); [|done]. injection Hs as <- <- <-. simpl. rewrite !app_nil_r.
      tx_split c W; [|apply (queue_inv_pc c _ s); try done; simpl; by rewrite Ep].
      split_and!; simpl; try done; apply Forall_snoc; auto.
    + tx_dies c s W Hs Ec Ep.
  - unfold loop_step in Hs; rewrite Ep in Hs. by destruct case.
Qed.

(** ** The other steps *)

Lemma close_frame_tx c e r :
  let c' := (closeWithSource c e r).1 in
  config c' = config c /\ sw c' = sw c /\ sendCh c' = sendCh c /\
  flushChClosed (life c') = flushChClosed (life c) /\ is_closed c' = true /\ shut c'.
Proof.
  unfold closeWithSource, shut. destruct (is_closed c) eqn:E; simpl; split_and!; try done; [|by right].
  right. unfold is_closed in E. by bool_facts.
Qed.

(** A step that may close the connection and otherwise leaves the send side alone. *)
Lemma tx_inv_conn W c c' s lk cl sent asg out cnt rep :
  config c' = config c -> sw c' = sw c -> sendCh c' = sendCh c ->
  flushChClosed (life c') = flushChClosed (life c) ->
  (is_closed c = true -> is_closed c' = true) -> (shut c -> shut c') ->
  tx_inv W (mkTx c s lk cl sent asg out cnt rep) -> tx_inv W (mkTx c' s lk cl sent asg out cnt rep).
Proof.
  intros E1 E2 E3 E4 E5 E6 [HW Hb Hw Hf Hq]. simpl in *.
  split; simpl; rewrite ?E1, ?E2, ?(best_effort_config c c'); try done.
  by apply (queue_inv_same c c' s s).
Qed.

Lemma tx_inv_closeConnection W c e s lk cl sent asg out cnt rep :
  tx_inv W (mkTx c s lk cl sent asg out cnt rep) ->
  tx_inv W (mkTx (closeConnection c e) s lk cl sent asg out cnt rep).
Proof. destruct (close_frame_tx c e false) as (E1 & E2 & E3 & E4 & E5 & E6). by apply tx_inv_conn. Qed.

(** Frames leave or move between the coordinator and the RPCs. *)
Lemma tx_inv_frames W c s s' lk cl sent asg out out' cnt rep :
  sl_pc s' = sl_pc s ->
  Forall (frame_ok asg) (sl_rpcs s') -> Forall (frame_ok asg) (default [] (sl_retry s')) ->
  Forall (frame_ok asg) out' ->
  tx_inv W (mkTx c s lk cl sent asg out cnt rep) -> tx_inv W (mkTx c s' lk cl sent asg out' cnt rep).
Proof.
  intros E H1 H2 H3 [HW Hb Hw (F1 & F2 & F3 & F4 & F5) Hq]. split; simpl in *; try done.
  - split_and!; try done; by rewrite E.
  - by apply (queue_inv_same c c s s').
Qed.

Lemma tx_inv_rpc W c s lk cl sent asg out cnt rep i outcome c' s' :
  rpc_done i outcome c s = Some (c', s') ->
  tx_inv W (mkTx c s lk cl sent asg out cnt rep) -> tx_inv W (mkTx c' s' lk cl sent asg out cnt rep).
Proof.
  unfold rpc_done. intros Hs HI. destruct (sl_rpcs s !! i) as [env|]; [|done]. injection Hs as <- <-.
  destruct (ti_frames _ _ HI) as (F1 & F2 & F3 & _). simpl in *.
  apply (tx_inv_frames W _ s _ _ _ _ _ out); try done.
  - simpl. by apply Forall_delete.
  - case_match; [by apply tx_inv_closeConnection|done].
Qed.

Lemma tx_inv_retry W c s lk cl sent asg out cnt rep now c' s' fx :
  retry_step now c s = Some (c', s', fx) ->
  tx_inv W (mkTx c s lk cl sent asg out cnt rep) ->
  tx_inv W (mkTx c' s' lk cl sent asg (out ++ fx_out fx) cnt rep).
Proof.
  unfold retry_step. intros Hs HI. destruct (ti_frames _ _ HI) as (F1 & F2 & F3 & _). simpl in *.
  destruct (sl_retry s) as [[|env rest]|].
  - injection Hs as <- <- <-. simpl. rewrite app_nil_r. by apply (tx_inv_frames W _ s _ _ _ _ _ out).
  - simpl in F2. destruct (retryStillPending c (re_Seq env)); simpl in Hs;
      [|injection Hs as <- <- <-; simpl; rewrite app_nil_r;
        apply (tx_inv_frames W _ s _ _ _ _ _ out); try done; by inv F2].
    destruct (_ <? _).
    + injection Hs as <- <- <-. apply (tx_inv_frames W _ s _ _ _ _ _ out); try done; simpl.
      * apply Forall_snoc; [done|by inv F2].
      * by inv F2.
      * apply Forall_snoc; [done|by inv F2].
    + destruct (is_closed c); [|done]. injection Hs as <- <- <-. simpl. rewrite app_nil_r.
      apply (tx_inv_frames W _ s _ _ _ _ _ out); try done; simpl; constructor.
  - destruct (best_effort c) eqn:Hb; [done|]. pose proof (retransmit_ok W c asg now (ti_win _ _ HI)) as Hr.
    destruct HI as [HW _ Hw Hf Hq]. simpl in *.
    destruct (retransmit c now) as [|c1|frames c1]; injection Hs as <- <- <-; simpl; rewrite app_nil_r.
    + by split.
    + destruct Hr as (G1 & G2 & G3 & G4 & G5).
      split; simpl; [by rewrite G3|by rewrite (best_effort_config c)|done..|].
      apply (queue_inv_same c c1 s s); try done. intros _. right. unfold is_closed in G4. by bool_facts.
    + destruct Hr as (G1 & G2 & G3 & G4 & G5).
      split; simpl; [by rewrite G4|by rewrite (best_effort_config c)|done| |].
      * destruct Hf as (_ & _ & _ & F4 & F5). by split_and!.
      * apply (queue_inv_same c c1 s); try done; unfold shut, is_closed, State; by rewrite G5.
Qed.

Lemma tx_inv_ack W c s lk cl sent asg out cnt rep env :
  tx_inv W (mkTx c s lk cl sent asg out cnt rep) ->
  tx_inv W (mkTx (handleAck c env) s lk cl sent asg out cnt rep).
Proof.
  intros [HW Hb Hw Hf Hq]. simpl in *.
  assert (config (handleAck c env) = config c /\ sendCh (handleAck c env) = sendCh c /\
          life (handleAck c env) = life c) as (E1 & E2 & E3) by (unfold handleAck; by repeat case_match).
  split; simpl; [by rewrite E1|by rewrite (best_effort_config c)|by apply window_inv_ack|done|].
  apply (queue_inv_same c _ s); try done; unfold shut, is_closed, State; by rewrite E3.
Qed.

(** *** The callers *)

Lemma barriers_ok_app cnt n q q' :
  barriers_ok cnt n (q ++ q') <-> barriers_ok cnt n q /\ barriers_ok cnt (n + len (queue_data q)) q'.
Proof.
  revert n. induction q as [|[d|id|] q IH]; intros n; simpl.
  - change (len (queue_data [])) with 0. rewrite Z.add_0_r. tauto.
  - rewrite IH, queue_data_cons, len_app. simpl. by rewrite Z.add_assoc.
  - rewrite IH, queue_data_cons. simpl. tauto.
  - rewrite IH, queue_data_cons, len_app. simpl. by rewrite Z.add_assoc.
Qed.

Lemma barriers_ok_mono cnt l n q : barriers_ok cnt n q -> barriers_ok (cnt ++ l) n q.
Proof.
  revert n. induction q as [|[d|id|] q IH]; intros n; simpl; auto.
  intros [H1 H2]. split; [by apply lookup_app_l_Some|auto].
Qed.

Lemma flush_last_app q q' :
  flush_last q -> (ItemFlush ∈ q -> queue_data q' = []) -> flush_last q' -> flush_last (q ++ q').
Proof.
  induction q as [|[d|id|] q IH]; simpl; intros H1 H2 H3; auto.
  - apply IH; auto. intros ?. apply H2. by right.
  - apply IH; auto. intros ?. apply H2. by right.
  - rewrite queue_data_app, H1. apply H2. by left.
Qed.

(** One more item in the channel. *)
Lemma queue_inv_put c s lk lk' cl cl' sent asg cnt rep item extra :
  queue_inv c s lk cl sent asg cnt rep ->
  (ItemFlush ∈ sendCh c \/ sl_pc s = LFlush \/ flushChClosed (life c) = true -> item_data item = []) ->
  match item with ItemBarrier id => extra = [len sent] /\ id = length cnt | _ => extra = [] end ->
  (cl = true -> cl' = true) -> (item = ItemFlush -> cl' = true) ->
  (cl' = true -> shut c) -> lk' = None ->
  queue_inv (set_sendCh (sendCh c ++ [item]) c) s lk' cl' (sent ++ item_data item) asg (cnt ++ extra) rep.
Proof.
  intros [Q1 Q2 Q3 Q4 Q5 Q6 Q7 Q8 Q9 Q10 Q11] Hd He Hcl Hcl' Hsh ->.
  split; simpl; try done.
  - intros Hp. rewrite (Q2 Hp), queue_data_app, !app_assoc. do 2 f_equal. by destruct item.
  - by apply prefix_app_r.
  - intros Hp. apply barriers_ok_app. split; [by apply barriers_ok_mono, Q4|].
    destruct item as [d|id|]; simpl; try done. destruct He as [-> ->]. split; [|done].
    unfold barrier_at. rewrite lookup_app_r, Nat.sub_diag by lia. simpl. rewrite (Q2 Hp). f_equal. len_lia.
  - intros id Hp. apply lookup_app_l_Some. exact (Q5 id Hp).
  - intros id t Hin. destruct (Q6 id t Hin) as [H ?]. split; [|done]. apply lookup_app_l_Some. exact H.
  - apply flush_last_app; [done| |by destruct item].
    intros Hin. rewrite queue_data_cons, Hd by auto. done.
  - intros Hc. split_and!; try done. exact (Hsh Hc).
  - rewrite elem_of_app, list_elem_of_singleton. intros [[?|?]|[?|?]]; auto.
  - intros Hf. rewrite queue_data_app. destruct (Q11 Hf) as [-> E]. split; [|done]. rewrite queue_data_cons, Hd by tauto. done.
Qed.

(** Taking or leaving the lock without touching the channel. *)
Lemma queue_inv_lock c s lk lk' cl sent asg cnt rep :
  queue_inv c s lk cl sent asg cnt rep ->
  (cl = true -> (forall data, lk' <> Some (HSend data)) /\ lk' <> Some HClose) ->
  (lk' = Some HClose -> shut c) -> queue_inv c s lk' cl sent asg cnt rep.
Proof.
  intros [Q1 Q2 Q3 Q4 Q5 Q6 Q7 Q8 Q9 Q10 Q11] H1 H2. split; auto.
  intros Hc. destruct (Q8 Hc) as (? & _). destruct (H1 Hc). auto.
Qed.

Lemma tx_inv_lock W c s lk lk' cl sent asg out cnt rep :
  (cl = true -> (forall data, lk' <> Some (HSend data)) /\ lk' <> Some HClose) ->
  (lk' = Some HClose -> shut c) ->
  tx_inv W (mkTx c s lk cl sent asg out cnt rep) -> tx_inv W (mkTx c s lk' cl sent asg out cnt rep).
Proof. intros H1 H2 [HW Hb Hw Hf Hq]. simpl in *. split; try done. by eapply queue_inv_lock. Qed.

Lemma tx_inv_send_end W c s cl sent asg out cnt rep data handoff case err c' :
  SendSelect c data handoff case = Some (err, c') ->
  tx_inv W (mkTx c s (Some (HSend data)) cl sent asg out cnt rep) ->
  tx_inv W (mkTx c' s None cl (if bool_decide (err = None) then sent ++ [data] else sent) asg out cnt rep).
Proof.
  intros Hs HI.
  assert (cl = false) as ->.
  { destruct cl; [|done].
    destruct (qi_closing _ _ _ _ _ _ _ _ (ti_queue _ _ HI) eq_refl) as (_ & H & _). by destruct (H data). }
  assert ((err = None /\ c' = set_sendCh (sendCh c ++ [ItemData data]) c) \/ (is_Some err /\ c' = c)) as [[-> ->]|[[e ->] ->]].
  { unfold SendSelect in Hs. repeat case_match; simplify_eq; eauto. }
  - rewrite bool_decide_true by done. destruct HI as [HW Hb Hw Hf Hq]. simpl in *. split; try done. simpl.
    pose proof (queue_inv_put _ _ _ None _ false _ _ _ _ (ItemData data) [] Hq) as H.
    rewrite app_nil_r in H. apply H; try done. intros Hx. exfalso.
    by apply (qi_item _ _ _ _ _ _ _ _ Hq) in Hx.
  - rewrite bool_decide_false by done. by apply (tx_inv_lock W c s (Some (HSend data))).
Qed.

Lemma enqueueItem_spec c handoff item c' :
  enqueueItem c handoff item = Some c' -> c' = set_sendCh (sendCh c ++ [item]) c.
Proof. unfold enqueueItem. case_match; [|done]. by intros [= <-]. Qed.

Lemma tx_inv_flush_queue W c s cl sent asg out cnt rep handoff c' :
  enqueueItem c handoff (ItemBarrier (length cnt)) = Some c' ->
  tx_inv W (mkTx c s (Some HFlush) cl sent asg out cnt rep) ->
  tx_inv W (mkTx c' s None cl sent asg out (cnt ++ [len sent]) rep).
Proof.
  intros ->%enqueueItem_spec [HW Hb Hw Hf Hq]. simpl in *. split; try done. simpl.
  pose proof (queue_inv_put _ _ _ None _ cl _ _ _ _ (ItemBarrier (length cnt)) [len sent] Hq) as H.
  simpl in H. rewrite app_nil_r in H. apply H; try done.
  intros Hc. by destruct (qi_closing _ _ _ _ _ _ _ _ Hq Hc).
Qed.

Lemma tx_inv_close_queue W c s cl sent asg out cnt rep handoff c' :
  enqueueItem c handoff ItemFlush = Some c' ->
  tx_inv W (mkTx c s (Some HClose) cl sent asg out cnt rep) ->
  tx_inv W (mkTx c' s None true sent asg out cnt rep).
Proof.
  intros ->%enqueueItem_spec [HW Hb Hw Hf Hq]. simpl in *. split; try done. simpl.
  pose proof (queue_inv_put _ _ _ None _ true _ _ _ _ ItemFlush [] Hq) as H.
  simpl in H. rewrite !app_nil_r in H. apply H; try done.
  intros _. by apply (qi_open _ _ _ _ _ _ _ _ Hq).
Qed.

Lemma tx_inv_step acks W t t' : tx_step acks t t' -> tx_inv W t -> tx_inv W t'.
Proof.
  destruct 1; intros HI.
  - apply (tx_inv_lock W c s None); [|done|done]. intros ->.
    destruct (qi_closing _ _ _ _ _ _ _ _ (ti_queue _ _ HI) eq_refl) as ([Hs|Hs] & _); simpl in Hs;
      unfold SendCheck in H; rewrite Hs in H; by destruct (len data =? 0).
  - by eapply tx_inv_send_end.
  - by apply (tx_inv_lock W c s None).
  - by eapply tx_inv_flush_queue.
  - by apply (tx_inv_lock W c s (Some HFlush)).
  - unfold CloseBegin in H. destruct (bool_decide _) eqn:E; [|done]. injection H as <-. bool_facts.
    assert (cl = false) as ->.
    { destruct cl; [|done]. destruct (qi_closing _ _ _ _ _ _ _ _ (ti_queue _ _ HI) eq_refl) as ([Hs|Hs] & _);
        simpl in Hs; congruence. }
    apply (tx_inv_lock W _ s None); [done|by left|].
    eapply (tx_inv_conn W c); try done; [|by left]. unfold is_closed. by rewrite E.
  - by eapply tx_inv_close_queue.
  - by apply (tx_inv_lock W c s (Some HClose)).
  - by eapply tx_inv_loop.
  - by eapply tx_inv_rpc.
  - by eapply tx_inv_retry.
  - by apply tx_inv_ack.
  - destruct (close_frame_tx c reason remote) as (E1 & E2 & E3 & E4 & E5 & E6). by eapply (tx_inv_conn W c).
  - destruct H as (E1 & E2 & E3 & E4 & E5 & E6). eapply (tx_inv_conn W c); try done.
    intros [Hs|Hs]; [auto|]. right. unfold is_closed in E5. rewrite Hs in E5. specialize (E5 eq_refl). by bool_facts.
Qed.

Lemma tx_inv_init c W :
  tx_fresh c -> best_effort c = false -> u64 (rc_WindowSize (config c)) = W -> 0 <= W -> tx_inv W (tx_init c).
Proof.
  intros (Hs & Hq & Hf) Hb HW HW0. unfold tx_init. split; simpl; try done.
  - rewrite Hs. split; simpl; [done|lia|lia|done|]. intros seq v. rewrite lookup_empty. split; [done|].
    intros [_ [_ Hn]]. by rewrite lookup_nil in Hn.
  - split; simpl; rewrite ?Hq; simpl; try done.
    + intros id t Hin. by apply not_elem_of_nil in Hin.
    + intros [Hin|[?|?]]; [by apply not_elem_of_nil in Hin|done|congruence].
Qed.

Lemma tx_reachable_inv acks c0 W t :
  tx_fresh c0 -> best_effort c0 = false -> u64 (rc_WindowSize (config c0)) = W -> 0 <= W ->
  tx_reachable acks c0 t -> tx_inv W t.
Proof. intros Hf Hb HW HW0. induction 1; [by apply tx_inv_init|by eapply tx_inv_step]. Qed.

(** ** Where [sendBase] comes from, and how many RPCs run *)

Lemma tx_reachable_mono (acks acks' : RelayEnvelope -> Prop) c0 t :
  (forall env, acks env -> acks' env) -> tx_reachable acks c0 t -> tx_reachable acks' c0 t.
Proof.
  intros H. induction 1 as [|t t' _ IH Hs]; [constructor|]. eapply txr_step; [exact IH|].
  destruct Hs; solve [econstructor; eauto].
Qed.

Lemma loop_step_base W now case c s c' s' fx asg :
  loop_step now case c s = Some (c', s', fx) -> window_inv W (sw c) asg -> sendBase (sw c') = sendBase (sw c).
Proof.
  unfold loop_step, assignSeq. intros Hs HI. pose proof (wi_base _ _ _ HI).
  repeat case_match; simplify_eq; simpl; try done; bool_facts; lia.
Qed.

Lemma rpc_done_frame i outcome c s c' s' :
  rpc_done i outcome c s = Some (c', s') ->
  sw c' = sw c /\ config c' = config c /\ (length (sl_rpcs s') <= length (sl_rpcs s))%nat.
Proof.
  unfold rpc_done. destruct (sl_rpcs s !! i) as [env|] eqn:E; [|done]. cbv zeta. intros Hs.
  assert (s' = mkSendLoop (sl_pc s) (delete i (sl_rpcs s)) (sl_retry s)) as -> by congruence.
  apply lookup_lt_Some in E as Hl.
  assert (c' = c \/ exists e, c' = closeConnection c (Some e)) as [->|[e ->]].
  { case_match; simplify_eq; eauto. }
  - split_and!; try done. simpl. rewrite length_delete by done. lia.
  - destruct (close_frame_tx c (Some e) false) as (E1 & E2 & _). split_and!; try done.
    simpl. rewrite length_delete by done. lia.
Qed.

Lemma retransmit_frame c now :
  match retransmit c now with
  | RetransmitNothing => True
  | RetransmitExceeded c' | RetransmitFrames _ c' =>
      sendBase (sw c') = sendBase (sw c) /\ config c' = config c
  end.
Proof.
  unfold retransmit. destruct (bool_decide _); [done|]. cbv zeta. destruct (_ <? _); [|done].
  unfold handleClose, closeConnection, closeWithSource. by case_match.
Qed.

Lemma retry_step_frame now c s c' s' fx :
  retry_step now c s = Some (c', s', fx) ->
  sendBase (sw c') = sendBase (sw c) /\ config c' = config c /\
  (sl_rpcs s' = sl_rpcs s \/ (len (sl_rpcs s) < send_limit (config c) /\ length (sl_rpcs s') = S (length (sl_rpcs s)))).
Proof.
  unfold retry_step. pose proof (retransmit_frame c now) as Hr. intros Hs.
  destruct (sl_retry s) as [[|env rest]|].
  - simplify_eq. auto.
  - destruct (negb _); [by simplify_eq; auto|]. destruct (_ <? _) eqn:E; [|destruct (is_closed c); by simplify_eq; auto].
    simplify_eq. bool_facts. split_and!; try done. right. split; [done|]. simpl. rewrite length_app. simpl. lia.
  - destruct (best_effort c); [done|]. destruct (retransmit c now); simplify_eq; auto; destruct Hr; auto.
Qed.

(** Apart from an acknowledgement nothing moves [sendBase]. *)
Lemma tx_step_base acks W t t' :
  tx_step acks t t' -> tx_inv W t ->
  sendBase (sw (tx_c t')) = sendBase (sw (tx_c t)) \/
  exists env, acks env /\ sendBase (sw (tx_c t')) = re_AckSeq env + 1.
Proof.
  destruct 1; intros HI; simpl; try (left; reflexivity).
  - left. unfold SendSelect in H. repeat case_match; by simplify_eq.
  - left. by apply enqueueItem_spec in H as ->.
  - left. unfold CloseBegin in H. case_match; by simplify_eq.
  - left. by apply enqueueItem_spec in H as ->.
  - left. eapply loop_step_base; [done|apply HI].
  - left. by destruct (rpc_done_frame _ _ _ _ _ _ H) as (-> & _).
  - left. by destruct (retry_step_frame _ _ _ _ _ _ H) as (-> & _).
  - destruct (handleAck_base W c asg env (ti_win _ _ HI)) as [->| ->]; [by left|right; by exists env].
  - left. by destruct (close_frame_tx c reason remote) as (_ & -> & _).
  - left. by destruct H as (_ & -> & _).
Qed.

(** If every acknowledgement names at most [n], the window has not moved past [n + 1]. *)
Lemma tx_base_bound acks c0 W n t :
  tx_fresh c0 -> best_effort c0 = false -> u64 (rc_WindowSize (config c0)) = W -> 0 <= W -> 0 <= n ->
  (forall env, acks env -> re_AckSeq env <= n) ->
  tx_reachable acks c0 t -> sendBase (sw (tx_c t)) <= n + 1.
Proof.
  intros Hf Hb HW HW0 Hn Ha Hr. induction Hr as [|t t' Hr IH Hs].
  - simpl. destruct Hf as (-> & _). simpl. lia.
  - pose proof (tx_reachable_inv _ _ _ _ Hf Hb HW HW0 Hr) as HI.
    destruct (tx_step_base _ _ _ _ Hs HI) as [->|(env & He & ->)]; [done|].
    specialize (Ha env He). lia.
Qed.

(** No more RPCs than slots. *)
Lemma tx_inflight acks c0 t :
  tx_reachable acks c0 t -> config (tx_c t) = config c0 /\ len (sl_rpcs (tx_s t)) <= send_limit (config c0).
Proof.
  induction 1 as [|t t' Hr [IH1 IH2] Hs].
  - split; [done|]. simpl. rewrite len_nil. unfold send_limit. cbv zeta. repeat case_match; bool_facts; lia.
  - destruct Hs; simpl in *; try done.
    + unfold SendSelect in H. repeat case_match; by simplify_eq.
    + by apply enqueueItem_spec in H as ->.
    + unfold CloseBegin in H. case_match; by simplify_eq.
    + by apply enqueueItem_spec in H as ->.
    + unfold loop_step, assignSeq in H. repeat case_match; simplify_eq; simpl; try done.
      split; [done|]. bool_facts. rewrite IH1 in *. len_lia.
    + destruct (rpc_done_frame _ _ _ _ _ _ H) as (_ & -> & Hl). split; [done|]. unfold len in *. lia.
    + destruct (retry_step_frame _ _ _ _ _ _ H) as (_ & -> & [->|[Hl1 Hl2]]); [done|]. split; [done|].
      rewrite IH1 in *. unfold len in *. lia.
    + unfold handleAck. by repeat case_match.
    + by destruct (close_frame_tx c reason remote) as (-> & _).
    + by destruct H as (-> & _).
Qed.

(** The window holds at most [W] payloads. *)
Lemma window_inv_size W w asg : window_inv W w asg -> Z.of_nat (size (unacked w)) <= W.
Proof.
  intros [H1 H2 H3 H4 H5].
  assert (Hsub : elements (dom (unacked w)) ⊆+ seqZ (sendBase w) (nextSeq w - sendBase w)).
  { apply NoDup_submseteq; [apply NoDup_elements|]. intros k Hk. apply elem_of_elements, elem_of_dom in Hk as [v Hk].
    apply H5 in Hk as [Hk Hn]. apply numbered_bound in Hn. apply elem_of_seqZ. lia. }
  apply submseteq_length in Hsub. rewrite length_seqZ in Hsub.
  rewrite <- size_dom. unfold size, set_size. simpl. lia.
Qed.
