(* ===== verification/RelayLink.v ===== *)
(** * Two ends of a relay connection over a hostile network

    End A runs the send machine of [RelayTx], end B the receive machine of [RelayRx].
    The network may drop, duplicate, delay and reorder what A hands to it, inject any
    frame that is not DATA at B, and deliver any acknowledgement B ever sent to A, at any
    time and any number of times. *)

From stdpp Require Import base list strings gmap numbers.
From S2P Require Import Prelude Errors Types RelayConn RelayDispatch RelayRx RelayOrder RelaySend RelayTx.

Record wire : Type := mkWire { wa : tx; wb : rx }.

(** What B can read and what A can be told. *)
Definition to_b (a : tx) (env : RelayEnvelope) : Prop :=
  valid_seq env /\ (re_Kind env = RelayKindData -> env ∈ tx_out a).
Definition to_a (b : rx) (env : RelayEnvelope) : Prop := env ∈ rx_out b.

Inductive wire_step : wire -> wire -> Prop :=
| wire_a a a' b : tx_step (to_a b) a a' -> wire_step (mkWire a b) (mkWire a' b)
| wire_b a b b' : rx_step (to_b a) b b' -> wire_step (mkWire a b) (mkWire a b').

Inductive wire_reachable (ca cb : RelayConnection) : wire -> Prop :=
| wr_init : wire_reachable ca cb (mkWire (tx_init ca) (start cb))
| wr_step l l' : wire_reachable ca cb l -> wire_step l l' -> wire_reachable ca cb l'.

(** Both ends new, reliable ordered, with windows of at least one frame. *)
Record wire_config (ca cb : RelayConnection) : Prop := {
  wc_a : tx_fresh ca;
  wc_b : fresh cb;
  wc_ra : best_effort ca = false;
  wc_rb : reliability cb = ReliabilityReliableOrdered;
  wc_wb : 0 < u64 (rc_WindowSize (config cb));
}.

(** ** Reduction to the two machines *)

(** The payload of a sequence number, [d] for the numbers not given yet. *)
Definition payload_of (d : bytes) (asg : list bytes) (seq : Z) : bytes :=
  default d (asg !! Z.to_nat (seq - 1)).

Definition numbered_frame (asg : list bytes) (env : RelayEnvelope) : Prop :=
  valid_seq env /\ (re_Kind env = RelayKindData -> numbered asg (re_Seq env) (re_Payload env)).

Lemma numbered_frame_mono asg l env : numbered_frame asg env -> numbered_frame (asg ++ l) env.
Proof. intros [H1 H2]. split; [done|]. intros Hk. by apply numbered_mono, H2. Qed.

Lemma numbered_frame_genuine asg d env : numbered_frame asg env -> genuine (payload_of d asg) env.
Proof.
  intros [H1 H2]. split; [done|]. intros Hk. destruct (H2 Hk) as [_ Hn]. unfold payload_of. by rewrite Hn.
Qed.

Lemma rx_reachable_mono (net net' : RelayEnvelope -> Prop) c0 x :
  (forall env, net env -> net' env) -> rx_reachable net c0 x -> rx_reachable net' c0 x.
Proof.
  intros H. induction 1 as [|x x' _ IH Hs]; [constructor|]. eapply rxr_step; [exact IH|].
  destruct Hs; solve [econstructor; eauto].
Qed.

Lemma published_lookup f n i : (i < Z.to_nat n)%nat -> published f n !! i = Some (f (1 + Z.of_nat i)).
Proof.
  intros Hi. unfold published. rewrite list_lookup_fmap.
  by rewrite (proj2 (lookup_seqZ 1 n i (1 + Z.of_nat i))) by lia.
Qed.

(** A stream that is the same whatever the numbers not given stand for uses given numbers only. *)
Lemma published_given asg d d' n :
  0 <= n -> d <> d' -> published (payload_of d asg) n = published (payload_of d' asg) n -> n <= len asg.
Proof.
  intros Hn Hd H. destruct (decide (n <= len asg)) as [|Hgt]; [done|]. exfalso. apply Hd.
  assert (Hi : (length asg < Z.to_nat n)%nat) by (unfold len in Hgt; lia).
  assert (Hx : forall e, published (payload_of e asg) n !! length asg = Some e).
  { intros e. rewrite published_lookup by done. unfold payload_of.
    rewrite lookup_ge_None_2 by lia. done. }
  pose proof (Hx d) as H1. rewrite H, Hx in H1. congruence.
Qed.

Lemma payload_of_published asg d n :
  0 <= n <= len asg -> published (payload_of d asg) n = take (Z.to_nat n) asg.
Proof.
  intros Hn. apply list_eq. intros i. destruct (decide (i < Z.to_nat n)%nat) as [Hi|Hi].
  - rewrite published_lookup, lookup_take by done. rewrite decide_True by done.
    unfold payload_of. replace (Z.to_nat (1 + Z.of_nat i - 1)) with i by lia.
    destruct (asg !! i) eqn:E; [done|]. apply lookup_ge_None in E. unfold len in Hn. lia.
  - rewrite !lookup_ge_None_2; [done|rewrite length_take; lia|]. unfold published.
    rewrite length_fmap, length_seqZ. lia.
Qed.

Lemma tx_step_assigned acks t t' : tx_step acks t t' ->
  (exists l, tx_assigned t' = tx_assigned t ++ l) /\ (exists l, tx_out t' = tx_out t ++ l).
Proof.
  destruct 1; simpl; split; try (by exists []; rewrite app_nil_r); by eexists.
Qed.

Lemma rx_step_log net x x' : rx_step net x x' ->
  (exists l, rx_log x' = rx_log x ++ l) /\ (exists l, rx_out x' = rx_out x ++ l).
Proof. destruct 1; simpl; split; try (by exists []; rewrite app_nil_r); by eexists. Qed.

(** The state of the whole and the two views of it. *)
Record wire_inv (ca cb : RelayConnection) (W : Z) (l : wire) : Prop := {
  li_a : tx_reachable (fun env => re_AckSeq env <= len (rx_log (wb l))) ca (wa l);
  li_b : rx_reachable (numbered_frame (tx_assigned (wa l))) cb (wb l);
  li_tx : tx_inv W (wa l);
}.

Lemma wire_reachable_inv ca cb l :
  wire_config ca cb -> wire_reachable ca cb l -> wire_inv ca cb (u64 (rc_WindowSize (config ca))) l.
Proof.
  intros [HA HB Hra Hrb Hwb]. set (W := u64 (rc_WindowSize (config ca))).
  assert (0 <= W) by (pose proof (u64_range (rc_WindowSize (config ca))) as [? ?]; done).
  induction 1 as [|l l' _ [I1 I2 I3] Hs].
  - split; simpl; [constructor|constructor|by apply tx_inv_init].
  - destruct Hs as [a a' b Hs|a b b' Hs]; simpl in *.
    + assert (Hack : forall env, to_a b env -> re_AckSeq env <= len (rx_log b)).
      { intros env He. apply (rx_reachable_mono _ _ _ _ (numbered_frame_genuine _ [])) in I2.
        destruct (ord_reachable _ _ _ _ HB Hrb eq_refl Hwb I2) as (_ & _ & [_ _ _ Ho]).
        rewrite List.Forall_forall in Ho. apply Ho. by apply list_elem_of_In. }
      split; simpl.
      * eapply txr_step; [exact I1|]. destruct Hs; solve [econstructor; eauto].
      * destruct (tx_step_assigned _ _ _ Hs) as [[k ->] _].
        eapply rx_reachable_mono; [|exact I2]. intros env. apply numbered_frame_mono.
      * by eapply tx_inv_step.
    + assert (Hnet : forall env, to_b a env -> numbered_frame (tx_assigned a) env).
      { intros env [Hv Hd]. split; [done|]. intros Hk. specialize (Hd Hk).
        destruct (ti_frames _ _ I3) as (_ & _ & Ho & _). rewrite List.Forall_forall in Ho.
        apply list_elem_of_In, Ho in Hd as (_ & _ & ?). done. }
      split; simpl; [|eapply rxr_step; [exact I2|]; destruct Hs; solve [econstructor; eauto]|done].
      eapply tx_reachable_mono; [|exact I1]. intros env He. simpl in *.
      destruct (rx_step_log _ _ _ Hs) as [[k ->] _]. rewrite len_app. pose proof (len_nonneg k). lia.
Qed.

(** B has published a prefix of what A numbered, and A still holds the rest. *)
Lemma wire_delivered ca cb l :
  wire_config ca cb -> wire_reachable ca cb l ->
  rx_log (wb l) = take (length (rx_log (wb l))) (tx_assigned (wa l)) /\
  len (rx_log (wb l)) <= len (tx_assigned (wa l)) /\
  sendBase (sw (tx_c (wa l))) <= len (rx_log (wb l)) + 1.
Proof.
  intros HC Hr. destruct (wire_reachable_inv _ _ _ HC Hr) as [I1 I2 I3]. destruct HC as [HA HB Hra Hrb Hwb].
  set (b := wb l) in *. set (asg := tx_assigned (wa l)) in *.
  assert (Hpub : forall d, rx_log b = published (payload_of d asg) (len (rx_log b))).
  { intros d. apply (rx_reachable_mono _ _ _ _ (numbered_frame_genuine _ d)) in I2.
    destruct (ord_reachable _ _ _ _ HB Hrb eq_refl Hwb I2) as ([_ _ _ L4 _ _] & _).
    destruct L4 as [[L4 _]|(_ & _ & k & L4)]; by eapply published_prefix. }
  assert (Hle : len (rx_log b) <= len asg).
  { apply (published_given asg [] [Byte.x00] (len (rx_log b))); [apply len_nonneg|done|]. by rewrite <- !Hpub. }
  split; [|split; [done|]].
  - rewrite (Hpub []) at 1. rewrite payload_of_published by (pose proof (len_nonneg (rx_log b)); lia).
    f_equal. unfold len. lia.
  - eapply (tx_base_bound _ ca _ (len (rx_log b)) (wa l)); [done|done|reflexivity|apply u64_range|apply len_nonneg| |exact I1].
    done.
Qed.

Lemma flushed_spec c target : flushed c target = true ->
  forall seq v, unacked (sw c) !! seq = Some v -> target <= seq.
Proof.
  unfold flushed. rewrite forallb_forall. intros H seq v Hl.
  specialize (H (seq, v)). simpl in H. apply Z.ltb_ge, negb_true_iff, H, list_elem_of_In, elem_of_map_to_list, Hl.
Qed.

(** Nothing below the target is held: everything below it was acknowledged. *)
Lemma flushed_base W w asg target :
  window_inv W w asg -> (forall seq v, unacked w !! seq = Some v -> target <= seq) ->
  target <= nextSeq w -> target <= sendBase w.
Proof.
  intros HI Hf Ht. pose proof (wi_base _ _ _ HI). pose proof (wi_next _ _ _ HI).
  destruct (decide (target <= sendBase w)) as [|Hlt]; [done|]. exfalso.
  destruct (lookup_lt_is_Some_2 asg (Z.to_nat (sendBase w - 1))) as [v Hv]; [unfold len in *; lia|].
  assert (unacked w !! sendBase w = Some v) as Hu.
  { apply (wi_unacked _ _ _ HI). split; [lia|]. by split; [lia|]. }
  apply Hf in Hu. lia.
Qed.

(** ** Running both ends *)

Inductive wire_move : Type :=
| WSend (data : bytes) | WFlush | WFlushQueue | WClose | WCloseQueue
| WLoop (case : loop_case) | WRpc (i : nat) (outcome : option error) | WRetry
| WAckAt (i : nat) | WReadAt (i : nat) | WRx (m : rx_move).

Definition wire_exec_a (m : wire_move) (a : tx) (b : rx) : option tx :=
  let '(mkTx c s lk cl sent asg out cnt rep) := a in
  match m, lk with
  | WSend data, None =>
      match SendCheck c data, SendSelect c data true SendQueued with
      | None, Some (None, c') => Some (mkTx c' s None cl (sent ++ [data]) asg out cnt rep)
      | _, _ => None
      end
  | WFlush, None => match FlushBegin c with Some _ => None | None => Some (mkTx c s (Some HFlush) cl sent asg out cnt rep) end
  | WFlushQueue, Some HFlush =>
      c' ← enqueueItem c true (ItemBarrier (length cnt)); Some (mkTx c' s None cl sent asg out (cnt ++ [len sent]) rep)
  | WClose, None =>
      match CloseBegin c with inl c' => Some (mkTx c' s (Some HClose) cl sent asg out cnt rep) | _ => None end
  | WCloseQueue, Some HClose =>
      c' ← enqueueItem c true ItemFlush; Some (mkTx c' s None true sent asg out cnt rep)
  | WLoop case, _ =>
      if len asg <? two64 - 2
      then
        '(c', s', fx) ← (loop_step 0 case c s);
        Some (mkTx c' s' lk cl sent (asg ++ fx_assigned fx) (out ++ fx_out fx) cnt (rep ++ fx_replies fx))
      else None
  | WRpc i outcome, _ => '(c', s') ← (rpc_done i outcome c s); Some (mkTx c' s' lk cl sent asg out cnt rep)
  | WRetry, _ =>
      '(c', s', fx) ← (retry_step 0 c s); Some (mkTx c' s' lk cl sent asg (out ++ fx_out fx) cnt rep)
  | WAckAt i, _ => env ← rx_out b !! i; Some (mkTx (handleAck c env) s lk cl sent asg out cnt rep)
  | _, _ => None
  end.

Definition wire_exec (m : wire_move) (l : wire) : option wire :=
  match m with
  | WReadAt i =>
      env ← tx_out (wa l) !! i;
      if (0 <=? re_Seq env) && (re_Seq env <? two64 - 1)
      then b ← rx_exec (MRead env) (wb l); Some (mkWire (wa l) b) else None
  | WRx (MRead env) => None
  | WRx m => b ← rx_exec m (wb l); Some (mkWire (wa l) b)
  | _ => a ← wire_exec_a m (wa l) (wb l); Some (mkWire a (wb l))
  end.

Fixpoint wire_run (ms : list wire_move) (l : wire) : option wire :=
  match ms with
  | [] => Some l
  | m :: ms => l' ← wire_exec m l; wire_run ms l'
  end.

Lemma wire_exec_a_sound ca cb m a b a' :
  wire_exec_a m a b = Some a' -> wire_reachable ca cb (mkWire a b) -> wire_reachable ca cb (mkWire a' b).
Proof.
  intros Hx Hr. assert (Hst : forall a', tx_step (to_a b) a a' -> wire_reachable ca cb (mkWire a' b)).
  { intros a1 Hs. eapply wr_step; [exact Hr|]. by constructor. }
  destruct a as [c s lk cl sent asg out cnt rep]. destruct m; destruct lk as [[]|]; simpl in Hx; try done;
    try (destruct (SendCheck c data) eqn:E1; [done|]).
  all: try (destruct (sendChReady c true) eqn:E2; [|done]; injection Hx as <-;
    eapply wr_step; [eapply Hst, tx_send_begin, E1|]; constructor;
    apply (tx_send_end (to_a b) c s cl sent asg out cnt rep data true SendQueued None);
    unfold SendSelect; by rewrite E2).
  all: try (destruct (FlushBegin c) eqn:E; [done|]; injection Hx as <-; apply Hst; by constructor).
  all: try (destruct (CloseBegin c) eqn:E; [|done]; injection Hx as <-; apply Hst; by constructor).
  all: try (destruct (enqueueItem c true _) eqn:E; simpl in Hx; [|done]; injection Hx as <-; apply Hst; by econstructor).
  all: try (destruct (len asg <? two64 - 2) eqn:El; [|done]; bool_facts;
    destruct (loop_step 0 case c s) as [[[c' s'] fx]|] eqn:E; simpl in Hx; [|done]; injection Hx as <-; apply Hst; by econstructor).
  all: try (destruct (rpc_done i outcome c s) as [[c' s']|] eqn:E; simpl in Hx; [|done]; injection Hx as <-; apply Hst; by econstructor).
  all: try (destruct (retry_step 0 c s) as [[[c' s'] fx]|] eqn:E; simpl in Hx; [|done]; injection Hx as <-; apply Hst; by econstructor).
  all: destruct (rx_out b !! i) as [env|] eqn:E; simpl in Hx; [|done]; injection Hx as <-; apply Hst; constructor;
    by apply list_elem_of_lookup_2 in E.
Qed.

Lemma wire_exec_sound ca cb m l l' :
  wire_exec m l = Some l' -> wire_reachable ca cb l -> wire_reachable ca cb l'.
Proof.
  destruct l as [a b]. intros Hx Hr.
  assert (Hb : forall m' b', (forall env, m' = MRead env -> to_b a env) -> rx_exec m' b = Some b' ->
    wire_reachable ca cb (mkWire a b')).
  { intros m' b' Hn Hm. eapply wr_step; [exact Hr|]. constructor. by eapply rx_exec_sound. }
  destruct m; unfold wire_exec in Hx; cbn [wa wb] in Hx;
    try (destruct (wire_exec_a _ a b) as [a'|] eqn:E; cbn [mbind option_bind] in Hx; [|done]; injection Hx as <-;
         by eapply wire_exec_a_sound).
  - destruct (tx_out a !! i) as [env|] eqn:E; cbn [mbind option_bind] in Hx; [|done].
    destruct (_ && _) eqn:Ev; [|done].
    destruct (rx_exec (MRead env) b) as [b'|] eqn:Eb; cbn [mbind option_bind] in Hx; [|done]. injection Hx as <-.
    apply (Hb (MRead env)); [|done]. intros ? [= <-]. bool_facts. split; [done|]. intros _.
    by apply list_elem_of_lookup_2 in E.
  - destruct m as [env| | | | |]; [done|..];
      (destruct (rx_exec _ b) as [b'|] eqn:Eb; cbn [mbind option_bind] in Hx; [|done]; injection Hx as <-;
       eapply Hb; [|exact Eb]; done).
Qed.

Lemma wire_run_reachable ca cb ms l l' :
  wire_run ms l = Some l' -> wire_reachable ca cb l -> wire_reachable ca cb l'.
Proof.
  revert l. induction ms as [|m ms IH]; intros l Hx Hr; simpl in Hx; [by injection Hx as <-|].
  destruct (wire_exec m l) as [l1|] eqn:E; simpl in Hx; [|done]. by eapply IH, wire_exec_sound.
Qed.

(** ** The properties *)

(** C1: relay_end_to_end. In reliable ordered mode, whatever the network drops, duplicates or
    reorders, what the receiver has published is always a prefix of what the sender's callers
    queued, in order and without repetition; and every payload that has a sequence number
    and is not published yet is still held by the sender for retransmission. *)
Theorem relay_end_to_end ca cb l :
  wire_config ca cb -> wire_reachable ca cb l ->
  rx_log (wb l) `prefix_of` tx_sent (wa l) /\
  (forall i payload, tx_assigned (wa l) !! i = Some payload -> (length (rx_log (wb l)) <= i)%nat ->
     unacked (sw (tx_c (wa l))) !! (Z.of_nat i + 1) = Some payload).
Proof.
  intros HC Hr. destruct (wire_delivered _ _ _ HC Hr) as (H1 & H2 & H3).
  pose proof (li_tx _ _ _ _ (wire_reachable_inv _ _ _ HC Hr)) as HI. split.
  - etrans; [|exact (qi_prefix _ _ _ _ _ _ _ _ (ti_queue _ _ HI))]. rewrite H1. apply prefix_take.
  - intros i payload Hi Hl. apply (wi_unacked _ _ _ (ti_win _ _ HI)). unfold len in *.
    split; [lia|]. split; [lia|]. by replace (Z.to_nat _) with i by lia.
Qed.

(** C2: relay_flush_delivers. Between a sender that is not best-effort and a receiver in reliable
    ordered mode with a nonzero window ([wire_config]): when [Flush] finds nothing unacknowledged below the number its
    barrier returned, every payload queued before the barrier has been published at the
    peer, in order. (In best-effort mode [Flush] waits for acceptance only, and an at-least-once
    receiver may have lost a payload, [relay_at_least_once_loses].) *)
Theorem relay_flush_delivers ca cb l id target :
  wire_config ca cb -> wire_reachable ca cb l ->
  (id, target) ∈ tx_replies (wa l) -> flushed (tx_c (wa l)) target = true ->
  exists n, tx_counts (wa l) !! id = Some n /\ n <= len (rx_log (wb l)) /\
    take (Z.to_nat n) (rx_log (wb l)) = take (Z.to_nat n) (tx_sent (wa l)).
Proof.
  intros HC Hr Hin Hf. destruct (wire_delivered _ _ _ HC Hr) as (H1 & H2 & H3).
  pose proof (li_tx _ _ _ _ (wire_reachable_inv _ _ _ HC Hr)) as HI.
  destruct (qi_replies _ _ _ _ _ _ _ _ (ti_queue _ _ HI) id target Hin) as [Hc Ht].
  pose proof (wi_next _ _ _ (ti_win _ _ HI)) as Hnext.
  assert (target <= sendBase (sw (tx_c (wa l)))) as Hb.
  { eapply flushed_base; [by apply HI|by apply flushed_spec|lia]. }
  exists (target - 1). split; [exact Hc|]. split; [lia|].
  destruct (qi_prefix _ _ _ _ _ _ _ _ (ti_queue _ _ HI)) as [k Hk].
  rewrite H1, Hk, take_take. rewrite take_app_le by (unfold len in *; lia).
  f_equal. unfold len in *. lia.
Qed.

(** C3: relay_close_delivers. Between a sender that is not best-effort and a receiver in reliable
    ordered mode with a nonzero window ([wire_config]): when [Close] goes on to send its CLOSE frame, everything the
    callers ever queued has been published at the peer, exactly and in order. *)
Theorem relay_close_delivers ca cb l idle :
  wire_config ca cb -> wire_reachable ca cb l ->
  closeReady (tx_c (wa l)) idle = true -> rx_log (wb l) = tx_sent (wa l).
Proof.
  intros HC Hr Hc. destruct (wire_delivered _ _ _ HC Hr) as (H1 & H2 & H3).
  pose proof (li_tx _ _ _ _ (wire_reachable_inv _ _ _ HC Hr)) as HI.
  unfold closeReady in Hc. rewrite (ti_be _ _ HI) in Hc. simpl in Hc. bool_facts.
  pose proof (ti_queue _ _ HI) as Hq.
  destruct (qi_done _ _ _ _ _ _ _ _ Hq) as [Hd1 Hd2]; [by right|].
  assert (tx_sent (wa l) = tx_assigned (wa l)) as ->.
  { rewrite (qi_sent _ _ _ _ _ _ _ _ Hq), Hd1, Hd2, !app_nil_r; [done|].
    intros Hp. apply (qi_dead _ _ _ _ _ _ _ _ Hq) in Hp. congruence. }
  assert (nextSeq (sw (tx_c (wa l))) <= sendBase (sw (tx_c (wa l)))) as Hb.
  { eapply flushed_base; [by apply HI| |done].
    intros seq v Hv. match goal with H : unacked _ = ∅ |- _ => rewrite H in Hv end. by rewrite lookup_empty in Hv. }
  rewrite (wi_next _ _ _ (ti_win _ _ HI)) in Hb. rewrite H1. apply take_ge. unfold len in *. lia.
Qed.

(** C15: relay_send_bounds. Between a sender that is not best-effort and a receiver in reliable
    ordered mode with a nonzero window ([wire_config]): the sender never holds more than a window of unacknowledged
    payloads, never runs more acceptance RPCs than its slots (at most 64), and every DATA
    frame it ever hands to the transport, first sends and retransmissions alike, carries the
    payload that was queued at the position its sequence number names. *)
Theorem relay_send_bounds ca cb l :
  wire_config ca cb -> wire_reachable ca cb l ->
  Z.of_nat (size (unacked (sw (tx_c (wa l))))) <= u64 (rc_WindowSize (config ca)) /\
  len (sl_rpcs (tx_s (wa l))) <= send_limit (config ca) <= 64 /\
  Forall (fun env => re_Kind env = RelayKindData /\ 1 <= re_Seq env /\
    tx_sent (wa l) !! Z.to_nat (re_Seq env - 1) = Some (re_Payload env)) (tx_out (wa l)).
Proof.
  intros HC Hr. destruct (wire_reachable_inv _ _ _ HC Hr) as [I1 _ HI].
  split; [by eapply window_inv_size, HI|]. split; [split|].
  - by apply (tx_inflight _ _ _ I1).
  - unfold send_limit. cbv zeta. repeat case_match; bool_facts; lia.
  - destruct (ti_frames _ _ HI) as (_ & _ & Ho & _). eapply List.Forall_impl; [|exact Ho].
    intros env (Hk & _ & [Hs Hn]). split_and!; try done.
    destruct (qi_prefix _ _ _ _ _ _ _ _ (ti_queue _ _ HI)) as [k ->]. by apply lookup_app_l_Some.
Qed.

(** *** A run: two payloads and a flush, the first frame late, then close *)

Definition wire0 (cfg : RelayConfig) : wire := mkWire (tx_init (demo_conn cfg)) (start (demo_conn cfg)).
Definition w1 : bytes := [Byte.x61].
Definition w2 : bytes := [Byte.x62].
Definition bsteps (n : nat) : list wire_move := repeat (WRx (MDispatch 0 false)) n.
Definition asteps (n : nat) : list wire_move := repeat (WLoop LTake) n.
Definition wire_moves : list wire_move :=
  [WSend w1; WSend w2; WFlush; WFlushQueue] ++ asteps 6 ++ [WRpc 0 None; WRpc 0 None] ++ asteps 2 ++
  [WReadAt 1; WRx MEnqueue] ++ bsteps 6 ++ [WReadAt 0; WRx MEnqueue] ++ bsteps 10 ++
  [WRx (MAck false None); WRx (MAck false None); WAckAt 0].
Definition close_moves : list wire_move := [WClose; WCloseQueue] ++ asteps 2.
Definition wire1 : wire := default (wire0 DefaultRelayConfig) (wire_run wire_moves (wire0 DefaultRelayConfig)).
Definition wire2 : wire := default wire1 (wire_run close_moves wire1).

Lemma demo_wire_config : wire_config (demo_conn DefaultRelayConfig) (demo_conn DefaultRelayConfig).
Proof. split; [by repeat split|by apply fresh_demo|done|done|by vm_compute]. Qed.

Lemma wire1_reachable : wire_reachable (demo_conn DefaultRelayConfig) (demo_conn DefaultRelayConfig) wire1.
Proof.
  apply (wire_run_reachable _ _ wire_moves (wire0 DefaultRelayConfig)); [vm_compute; reflexivity|constructor].
Qed.

Lemma wire2_reachable : wire_reachable (demo_conn DefaultRelayConfig) (demo_conn DefaultRelayConfig) wire2.
Proof. apply (wire_run_reachable _ _ close_moves wire1); [vm_compute; reflexivity|apply wire1_reachable]. Qed.

Lemma relay_end_to_end_witness :
  rx_log (wb wire1) = [w1; w2] /\ rx_log (wb wire1) `prefix_of` tx_sent (wa wire1).
Proof.
  split; [vm_compute; reflexivity|].
  apply (relay_end_to_end (demo_conn DefaultRelayConfig) (demo_conn DefaultRelayConfig) wire1).
  - apply demo_wire_config.
  - apply wire1_reachable.
Defined.

Lemma relay_flush_delivers_witness :
  tx_replies (wa wire1) = [(0%nat, 3)] /\
  exists n, tx_counts (wa wire1) !! 0%nat = Some n /\ n <= len (rx_log (wb wire1)) /\
    take (Z.to_nat n) (rx_log (wb wire1)) = take (Z.to_nat n) (tx_sent (wa wire1)).
Proof.
  assert (H : tx_replies (wa wire1) = [(0%nat, 3)]) by (vm_compute; reflexivity).
  split; [exact H|].
  apply (relay_flush_delivers (demo_conn DefaultRelayConfig) (demo_conn DefaultRelayConfig) wire1 0 3).
  - apply demo_wire_config.
  - apply wire1_reachable.
  - rewrite H. by left.
  - vm_compute. reflexivity.
Defined.

Lemma relay_close_delivers_witness : rx_log (wb wire2) = tx_sent (wa wire2).
Proof.
  apply (relay_close_delivers (demo_conn DefaultRelayConfig) (demo_conn DefaultRelayConfig) wire2 None).
  - apply demo_wire_config.
  - apply wire2_reachable.
  - vm_compute. reflexivity.
Defined.

Lemma relay_send_bounds_witness :
  len (tx_out (wa wire1)) = 2 /\ len (sl_rpcs (tx_s (wa wire1))) <= send_limit DefaultRelayConfig <= 64.
Proof.
  split; [vm_compute; reflexivity|].
  apply (relay_send_bounds (demo_conn DefaultRelayConfig) (demo_conn DefaultRelayConfig) wire1).
  - apply demo_wire_config.
  - apply wire1_reachable.
Defined.

(** ** At-least-once delivery *)

Definition alo_config : RelayConfig :=
  mkRelayConfig ReliabilityAtLeastOnce 16 10000 5000 3000 5 0 0 0 65536 DeliveryModeRouteRetry.
Definition alo_moves : list wire_move :=
  [WSend w1; WSend w2] ++ asteps 6 ++ [WRpc 0 None; WRpc 0 None; WReadAt 1; WRx MEnqueue] ++ bsteps 4 ++
  [WRx (MAck false None); WRx (MAck false None); WAckAt 0; WClose; WCloseQueue] ++ asteps 2.

(** C33: relay_at_least_once_loses. In at-least-once mode a lost frame can be forgotten: the
    receiver acknowledges each frame by its own number, the sender takes that number as
    cumulative. There is a run in which the network drops the first of two frames, the
    acknowledgement of the second empties the window, [Close] is ready to send CLOSE with
    success, and the first payload was never published. *)
Theorem relay_at_least_once_loses :
  exists l, wire_reachable (demo_conn alo_config) (demo_conn alo_config) l /\
    tx_sent (wa l) = [w1; w2] /\ unacked (sw (tx_c (wa l))) = ∅ /\
    closeReady (tx_c (wa l)) None = true /\ rx_log (wb l) = [w2] /\ rx_r (wb l) = None.
Proof.
  exists (default (wire0 alo_config) (wire_run alo_moves (wire0 alo_config))). split.
  - apply (wire_run_reachable _ _ alo_moves (wire0 alo_config)); [vm_compute; reflexivity|constructor].
  - split_and!; vm_compute; reflexivity.
Qed.
