(* ===== verification/RelayManager.v ===== *)
(** * The relay manager (type Relay of relay.go) and the envelope codec

    The manager owns the connections of a client: [rm_conns] maps a relay ID to the
    number of a connection in the heap [rm_heap], the way the Go map holds a pointer.
    [proto.Marshal] and [proto.Unmarshal] are parameters. *)

From stdpp Require Import base list strings gmap.
From S2P Require Import Prelude Errors Types Wire RelayConn RelayDispatch.

(** ** Codec *)

(** [GetServingNodeId]/[GetSessionId] on a possibly nil pointer. *)
Definition pb_session (s : option pb_SessionRef) : SessionRef :=
  match s with
  | Some s => mkSessionRef (pb_SessionRef_ServingNodeId s) (pb_SessionRef_SessionId s)
  | None => zero_SessionRef
  end.

Definition relayKindToProto (k : RelayKind) : Z :=
  match k with
  | RelayKindOpen => RELAY_KIND_OPEN
  | RelayKindOpenAck => RELAY_KIND_OPEN_ACK
  | RelayKindData => RELAY_KIND_DATA
  | RelayKindAck => RELAY_KIND_ACK
  | RelayKindClose => RELAY_KIND_CLOSE
  | RelayKindPing => RELAY_KIND_PING
  | RelayKindError => RELAY_KIND_ERROR
  | RelayKindUnspecified => RELAY_KIND_UNSPECIFIED
  end.

Definition relayKindFromProto (k : Z) : RelayKind :=
  if k =? RELAY_KIND_OPEN then RelayKindOpen
  else if k =? RELAY_KIND_OPEN_ACK then RelayKindOpenAck
  else if k =? RELAY_KIND_DATA then RelayKindData
  else if k =? RELAY_KIND_ACK then RelayKindAck
  else if k =? RELAY_KIND_CLOSE then RelayKindClose
  else if k =? RELAY_KIND_PING then RelayKindPing
  else if k =? RELAY_KIND_ERROR then RelayKindError
  else RelayKindUnspecified.

Definition session_to_pb (s : SessionRef) : option pb_SessionRef :=
  Some (mkpb_SessionRef (sr_ServingNodeID s) (sr_SessionID s)).

Section codec.
Context (marshal : pb_RelayEnvelope -> result error bytes).
Context (unmarshal : bytes -> result error pb_RelayEnvelope).

Definition encodeRelayEnvelope (env : RelayEnvelope) : result error bytes :=
  marshal (mkpb_RelayEnvelope (re_RelayID env) (relayKindToProto (re_Kind env))
             (session_to_pb (re_SenderSession env)) (session_to_pb (re_TargetSession env))
             (re_Seq env) (re_AckSeq env) (re_Payload env) (re_SentAtMs env)).

Definition decodeRelayEnvelope (data : bytes) : result error RelayEnvelope :=
  pbEnv ← unmarshal data;
  mret (mkRelayEnvelope (pb_RelayEnvelope_RelayId pbEnv) (relayKindFromProto (pb_RelayEnvelope_Kind pbEnv))
          (pb_session (pb_RelayEnvelope_SenderSession pbEnv)) (pb_session (pb_RelayEnvelope_TargetSession pbEnv))
          (pb_RelayEnvelope_Seq pbEnv) (pb_RelayEnvelope_AckSeq pbEnv) (pb_RelayEnvelope_Payload pbEnv) (pb_RelayEnvelope_SentAtMs pbEnv)).

End codec.

(** ** State *)

Record Relay : Type := mkRelay {
  rm_conns : gmap string nat;
  rm_heap : gmap nat RelayConnection;
  rm_next : nat;
  rm_onConn : bool;
  rm_onOrphan : bool;
  rm_incomingConfig : option RelayConfig;
  rm_removing : gset nat;        (* closed connections that closeWithSource has not removed yet *)
}.

(** What a call starts in the background. *)
Inductive relay_event : Type :=
| EvSendLoop (ref : nat)
| EvSend (ref : nat) (env : RelayEnvelope)
| EvConnection (ref : nat)
| EvOrphan (o : RelayOrphan)
| EvClientOrphan (o : RelayOrphan).

Definition set_conns (m : gmap string nat) (r : Relay) : Relay :=
  mkRelay m (rm_heap r) (rm_next r) (rm_onConn r) (rm_onOrphan r) (rm_incomingConfig r) (rm_removing r).
Definition set_heap (h : gmap nat RelayConnection) (r : Relay) : Relay :=
  mkRelay (rm_conns r) h (rm_next r) (rm_onConn r) (rm_onOrphan r) (rm_incomingConfig r) (rm_removing r).
Definition set_removing (s : gset nat) (r : Relay) : Relay :=
  mkRelay (rm_conns r) (rm_heap r) (rm_next r) (rm_onConn r) (rm_onOrphan r) (rm_incomingConfig r) s.

(** [(c *Client) Relay()] *)
Definition newRelay : Relay := mkRelay ∅ ∅ 0 false false None ∅.

Definition OnConnection (handler : bool) (r : Relay) : Relay :=
  mkRelay (rm_conns r) (rm_heap r) (rm_next r) handler (rm_onOrphan r) (rm_incomingConfig r) (rm_removing r).
Definition OnOrphan (handler : bool) (r : Relay) : Relay :=
  mkRelay (rm_conns r) (rm_heap r) (rm_next r) (rm_onConn r) handler (rm_incomingConfig r) (rm_removing r).
Definition SetIncomingConfig (config : RelayConfig) (r : Relay) : Relay :=
  mkRelay (rm_conns r) (rm_heap r) (rm_next r) (rm_onConn r) (rm_onOrphan r) (Some config) (rm_removing r).
Definition incomingRelayConfig (r : Relay) : RelayConfig := default DefaultRelayConfig (rm_incomingConfig r).

(** [removeConnection]: only while the connection still owns the ID. *)
Definition removeConnection (relayID : string) (ref : nat) (r : Relay) : Relay :=
  if bool_decide (rm_conns r !! relayID = Some ref)
  then set_conns (delete relayID (rm_conns r)) r else r.

(** A section of a connection, under [c.mu] or [c.inboxMu]: its new state. When the section
    closed it, [closeWithSource] has released [c.mu] and has yet to remove it. *)
Definition conn_section (ref : nat) (c c' : RelayConnection) (r : Relay) : Relay :=
  let r := set_heap (<[ref := c']> (rm_heap r)) r in
  if negb (is_closed c) && is_closed c' then set_removing ({[ref]} ∪ rm_removing r) r else r.

(** [c.relay.removeConnection(c.relayID, c)], the section of [closeWithSource] under [r.mu]. *)
Definition finishRemoval (ref : nat) (r : Relay) : Relay :=
  match rm_heap r !! ref with
  | Some c => removeConnection (relayID c) ref (set_removing (rm_removing r ∖ {[ref]}) r)
  | None => r
  end.

(** Both with nothing in between, as the goroutine that closes the connection runs them; the
    machine below interleaves between them. *)
Definition settle (ref : nat) (c c' : RelayConnection) (r : Relay) : Relay :=
  let r := conn_section ref c c' r in
  if negb (is_closed c) && is_closed c' then finishRemoval ref r else r.

(** [closeConnection] of a connection of the heap. *)
Definition closeRef (ref : nat) (reason : option error) (remote : bool) (r : Relay) : Relay :=
  match rm_heap r !! ref with
  | Some c => settle ref c (closeWithSource c reason remote).1 r
  | None => r
  end.

Definition closeAll (reason : option error) (r : Relay) : Relay :=
  fold_right (fun ref r => closeRef ref reason false r) r (snd <$> map_to_list (rm_conns r)).

(** [sendOpenACK] *)
Definition openACK (c : RelayConnection) (now : Z) : RelayEnvelope :=
  makeEnvelope c RelayKindOpenAck 0 0 [] now.

(** [acceptIncoming] *)
Definition acceptIncoming (env : RelayEnvelope) (remotePeer : UserRef) (now : Z) (r : Relay)
    : result error (Relay * list relay_event) :=
  conn ← newConnection (re_RelayID env) (incomingRelayConfig r) RelayStateOpen remotePeer
           (re_SenderSession env) (re_TargetSession env);
  match rm_conns r !! re_RelayID env with
  | Some ref =>
      match rm_heap r !! ref with
      | Some existing =>
          if bool_decide (remotePeer = RelayConn.remotePeer existing)
             && bool_decide (remoteSession existing = re_SenderSession env)
             && bool_decide (mySession existing = re_TargetSession env)
          then mret (r, [EvSend ref (openACK existing now)])
          else mret (r, [])
      | None => mret (r, [])
      end
  | None =>
      let ref := rm_next r in
      mret (mkRelay (<[re_RelayID env := ref]> (rm_conns r)) (<[ref := conn]> (rm_heap r)) (S ref)
              (rm_onConn r) (rm_onOrphan r) (rm_incomingConfig r) (rm_removing r),
            [EvSendLoop ref; EvSend ref (openACK conn now)] ++
            (if rm_onConn r then [EvConnection ref] else []))
  end.

(** [handlePacket]: whether the packet was a relay frame. [clientOrphan] is whether the
    client's handler implements [RelayOrphanHandler]. *)
Definition handlePacket (unmarshal : bytes -> result error pb_RelayEnvelope) (clientOrphan : bool)
    (p : Packet) (now : Z) (r : Relay) : result error (bool * Relay * list relay_event) :=
  match decodeRelayEnvelope unmarshal (p_Body p) with
  | Panic => Panic
  | Err _ => mret (false, r, [])
  | Ok env =>
      if bool_decide (re_RelayID env = "") || (RelayKind_value (re_Kind env) <? 1)
         || (7 <? RelayKind_value (re_Kind env))
      then mret (false, r, [])
      else
        match re_Kind env with
        | RelayKindOpen =>
            '(r', evs) ← acceptIncoming env (p_Sender p) now r; mret (true, r', evs)
        | _ =>
            match rm_conns r !! re_RelayID env with
            | Some ref =>
                match rm_heap r !! ref with
                | Some c => mret (true, settle ref c (enqueueEnvelope c (take_snapshot c env) env) r, [])
                | None => mret (true, r, [])
                end
            | None =>
                let event := mkRelayOrphan (re_RelayID env) (re_Kind env) in
                mret (true, r, (if rm_onOrphan r then [EvOrphan event] else []) ++
                               (if clientOrphan then [EvClientOrphan event] else []))
            end
        end
  end.

(** [Connect] up to its OPEN frame: [sessions] is the answer of [ResolveUserSessions] as
    (session, transient capable) pairs, [relayID] the fresh random ID. *)
Definition connectTarget (sessions : list (SessionRef * bool)) : SessionRef :=
  match List.find snd sessions with Some (s, _) => s | None => zero_SessionRef end.

Definition connectOpen (sessions : list (SessionRef * bool)) (target : UserRef) (config : option RelayConfig)
    (relayID : string) (mine : SessionRef) (now : Z) (r : Relay)
    : result error (nat * Relay * RelayEnvelope) :=
  let targetSession := connectTarget sessions in
  if SessionRef_IsZero targetSession
  then Err (ERelay RelayErrorNotConnected "no transient-capable session found for target user")
  else
    let cfg := default DefaultRelayConfig config in
    conn ← newConnection relayID cfg RelayStateOpening target targetSession mine;
    let ref := rm_next r in
    mret (ref,
          mkRelay (<[relayID := ref]> (rm_conns r)) (<[ref := conn]> (rm_heap r)) (S ref)
            (rm_onConn r) (rm_onOrphan r) (rm_incomingConfig r) (rm_removing r),
          makeEnvelope conn RelayKindOpen 0 0 [] now).

(** After the OPEN was sent with result [err]: aborted, or waiting. *)
Definition connectSent (ref : nat) (err : option error) (r : Relay) : result error nat * Relay :=
  match err with
  | Some e => (Err (Wrapf "relay: send OPEN: %w" [] e), closeRef ref (Some e) false r)
  | None => (Ok ref, r)
  end.

(** The case of [Connect]'s last select. *)
Inductive connect_case : Type := ConnectOpen | ConnectClosed | ConnectTimeout | ConnectDone (cause : error).

Definition connectWait (ref : nat) (case : connect_case) (r : Relay)
    : option (result (option error) nat * Relay) :=
  match rm_heap r !! ref with
  | None => None
  | Some c =>
      match case with
      | ConnectOpen => if openChClosed (life c) then Some (Ok ref, r) else None
      | ConnectClosed => if is_closed c then Some (Err (closeErr (life c)), r) else None
      | ConnectTimeout =>
          let e := ERelay RelayErrorOpenTimeout "OPEN timeout waiting for OPEN_ACK" in
          Some (Err (Some e), closeRef ref (Some e) false r)
      | ConnectDone cause => Some (Err (Some cause), closeRef ref (Some cause) false r)
      end
  end.

(** ** The envelope codec *)

Lemma relayKind_roundtrip k : relayKindFromProto (relayKindToProto k) = k.
Proof. by destruct k. Qed.

(** Whatever a serializer that loses nothing is used, decoding an
    encoded envelope gives the envelope back, and a kind outside the protocol's constants
    decodes to [RelayKindUnspecified], which [handlePacket] refuses. *)
Theorem relay_envelope_roundtrip marshal unmarshal env data :
  (forall m data, marshal m = Ok data -> unmarshal data = Ok m) ->
  encodeRelayEnvelope marshal env = Ok data ->
  decodeRelayEnvelope unmarshal data = Ok env /\
  (forall k, k < 1 \/ 7 < k -> relayKindFromProto k = RelayKindUnspecified).
Proof.
  intros Hm He. split.
  - unfold decodeRelayEnvelope. rewrite (Hm _ _ He). simpl.
    rewrite relayKind_roundtrip. by destruct env as [? ? [] []].
  - intros k Hk. unfold relayKindFromProto.
    unfold RELAY_KIND_OPEN, RELAY_KIND_OPEN_ACK, RELAY_KIND_DATA, RELAY_KIND_ACK, RELAY_KIND_CLOSE,
      RELAY_KIND_PING, RELAY_KIND_ERROR. repeat (case_match; bool_facts; [lia|]). done.
Qed.

(** ** Ownership of relay IDs *)

(** Every ID in the map belongs to a connection of the heap with that very ID, which is live
    unless the goroutine that closed it has yet to remove it. *)
Record mgr_inv (r : Relay) : Prop := {
  mi_owner : forall id ref, rm_conns r !! id = Some ref ->
    exists c, rm_heap r !! ref = Some c /\ relayID c = id /\ (is_closed c = true -> ref ∈ rm_removing r);
  mi_fresh : forall ref c, rm_heap r !! ref = Some c -> (ref < rm_next r)%nat;
  mi_removing : forall ref, ref ∈ rm_removing r -> exists c, rm_heap r !! ref = Some c /\ is_closed c = true;
}.

(** What any goroutine of a connection may do to it, as far as the manager can tell. *)
Definition conn_change (c c' : RelayConnection) : Prop :=
  relayID c' = relayID c /\ (is_closed c = true -> is_closed c' = true).

Lemma mgr_inv_section r ref c c' :
  mgr_inv r -> rm_heap r !! ref = Some c -> conn_change c c' -> mgr_inv (conn_section ref c c' r).
Proof.
  intros [M1 M2 M3] Hc [Hid Hcl]. unfold conn_section. cbv zeta.
  assert (forall ref', ref' ∈ rm_removing r ->
    exists c0, <[ref := c']> (rm_heap r) !! ref' = Some c0 /\ is_closed c0 = true) as HR.
  { intros ref' Hin. destruct (M3 _ Hin) as (c0 & H0 & H1). destruct (decide (ref' = ref)) as [->|Hne].
    - simplify_eq. exists c'. rewrite lookup_insert_eq. auto.
    - exists c0. by rewrite lookup_insert_ne. }
  assert (forall ref' c0, <[ref := c']> (rm_heap r) !! ref' = Some c0 -> (ref' < rm_next r)%nat) as HF.
  { intros ref' c0. rewrite lookup_insert_Some. intros [[<- _]|[_ ?]]; by eapply M2. }
  destruct (negb (is_closed c) && is_closed c') eqn:E; split; simpl; try done.
  - intros id ref' Hi. destruct (M1 id ref' Hi) as (c0 & H0 & H1 & H2). destruct (decide (ref' = ref)) as [->|Hne].
    + exists c'. rewrite lookup_insert_eq. simplify_eq. split_and!; [done..|]. set_solver.
    + exists c0. rewrite lookup_insert_ne by done. split_and!; [done..|]. set_solver.
  - intros ref' [->%elem_of_singleton|Hin]%elem_of_union; [|by apply HR].
    exists c'. rewrite lookup_insert_eq. split; [done|]. by bool_facts.
  - intros id ref' Hi. destruct (M1 id ref' Hi) as (c0 & H0 & H1 & H2). destruct (decide (ref' = ref)) as [->|Hne].
    + exists c'. rewrite lookup_insert_eq. simplify_eq. split_and!; [done..|]. intros Hc'. apply H2.
      rewrite Hc' in E. by destruct (is_closed c).
    + exists c0. by rewrite lookup_insert_ne.
Qed.

(** The late half of a close takes away the connection's own entry and nothing else. *)
Lemma finishRemoval_conns r ref :
  mgr_inv r -> forall id, rm_conns (finishRemoval ref r) !! id =
    if bool_decide (rm_conns r !! id = Some ref) then None else rm_conns r !! id.
Proof.
  intros [M1 _ _] id. unfold finishRemoval, removeConnection. case_bool_decide as Hown.
  - destruct (M1 _ _ Hown) as (c & -> & <- & _). simpl. rewrite bool_decide_true by done. simpl. by rewrite lookup_delete_eq.
  - destruct (rm_heap r !! ref) as [c|]; [|done]. simpl. case_bool_decide as Hc; simpl; [|done].
    rewrite lookup_delete_ne; [done|]. congruence.
Qed.

Lemma finishRemoval_heap ref r : rm_heap (finishRemoval ref r) = rm_heap r.
Proof. unfold finishRemoval, removeConnection. destruct (rm_heap r !! ref); [|done]. by case_bool_decide. Qed.

Lemma finishRemoval_next ref r : rm_next (finishRemoval ref r) = rm_next r.
Proof. unfold finishRemoval, removeConnection. destruct (rm_heap r !! ref); [|done]. by case_bool_decide. Qed.

Lemma finishRemoval_removing ref r :
  mgr_inv r -> ref ∈ rm_removing r -> rm_removing (finishRemoval ref r) = rm_removing r ∖ {[ref]}.
Proof.
  intros [_ _ M3] Hin. destruct (M3 _ Hin) as (c & Hc & _). unfold finishRemoval, removeConnection. rewrite Hc.
  by case_bool_decide.
Qed.

Lemma settle_heap ref c c' r : rm_heap (settle ref c c' r) = <[ref := c']> (rm_heap r).
Proof.
  unfold settle, conn_section. cbv zeta. destruct (negb _ && _); rewrite ?finishRemoval_heap; done.
Qed.

Lemma mgr_inv_removal r ref : mgr_inv r -> ref ∈ rm_removing r -> mgr_inv (finishRemoval ref r).
Proof.
  intros HI Hin. pose proof (finishRemoval_conns r ref HI) as Hconns.
  split; rewrite ?finishRemoval_heap, ?finishRemoval_next, ?(finishRemoval_removing ref r HI Hin); [|apply HI|].
  - intros id ref'. rewrite Hconns. case_bool_decide as Hown; [done|]. intros Hi.
    destruct (mi_owner _ HI _ _ Hi) as (c & H0 & H1 & H2). exists c. split_and!; [done..|].
    intros Hcl. specialize (H2 Hcl). assert (ref' <> ref) by congruence. set_solver.
  - intros ref' Hin'. apply (mi_removing _ HI). set_solver.
Qed.

Lemma conn_change_close c reason remote : conn_change c (closeWithSource c reason remote).1.
Proof. unfold conn_change, closeWithSource. by destruct (is_closed c) eqn:E. Qed.

Lemma mgr_inv_insert r id ref conn h :
  mgr_inv r -> ref = rm_next r -> relayID conn = id -> is_closed conn = false ->
  h = <[ref := conn]> (rm_heap r) ->
  mgr_inv (mkRelay (<[id := ref]> (rm_conns r)) h (S ref) (rm_onConn r) (rm_onOrphan r) (rm_incomingConfig r) (rm_removing r)).
Proof.
  intros [M1 M2 M3] -> Hid Hc ->. split; simpl.
  - intros id' ref'. rewrite lookup_insert_Some. intros [[<- <-]|[Hne Hi]].
    + exists conn. rewrite lookup_insert_eq. split_and!; congruence.
    + destruct (M1 id' ref' Hi) as (c & H1 & H2 & H3). exists c. rewrite lookup_insert_ne; [done|].
      intros Heq. apply M2 in H1. lia.
  - intros ref' c. rewrite lookup_insert_Some. intros [[<- _]|[_ Hi]]; [lia|]. apply M2 in Hi. lia.
  - intros ref' Hin. destruct (M3 _ Hin) as (c & H0 & H1). exists c. rewrite lookup_insert_ne; [done|].
    intros Heq. apply M2 in H0. lia.
Qed.

Lemma newConnection_spec id cfg st peer remote mine conn :
  newConnection id cfg st peer remote mine = Ok conn ->
  relayID conn = id /\ State conn = st /\ remotePeer conn = peer /\ remoteSession conn = remote /\
  mySession conn = mine /\ config conn = cfg.
Proof. unfold newConnection. case_match; [done|]. by intros [= <-]. Qed.

Lemma mgr_inv_accept r env peer now r' evs :
  mgr_inv r -> acceptIncoming env peer now r = Ok (r', evs) -> mgr_inv r'.
Proof.
  intros HI. unfold acceptIncoming.
  destruct (newConnection _ _ _ _ _ _) as [conn|e|] eqn:En; simpl; [|done|done].
  apply newConnection_spec in En as (E1 & E2 & _).
  destruct (rm_conns r !! re_RelayID env) as [ref|] eqn:Ec.
  - destruct (rm_heap r !! ref); [case_match|]; by intros [= <- <-].
  - intros [= <- <-]. apply (mgr_inv_insert r _ _ conn); try done.
    unfold is_closed. by rewrite E2.
Qed.

Lemma conn_change_setters c c' :
  relayID c' = relayID c -> life c' = life c -> conn_change c c'.
Proof. intros H1 H2. split; [done|]. unfold is_closed, State. by rewrite H2. Qed.

Lemma conn_change_trans c1 c2 c3 : conn_change c1 c2 -> conn_change c2 c3 -> conn_change c1 c3.
Proof. intros [H1 H2] [H3 H4]. split; [congruence|auto]. Qed.

Lemma conn_change_failAdmission c : conn_change c (failAdmission c).
Proof.
  unfold failAdmission, closeConnection. set (c1 := set_adm _ c).
  apply (conn_change_trans _ c1); [by apply conn_change_setters|apply conn_change_close].
Qed.

Lemma conn_change_enqueue c sn env : conn_change c (enqueueEnvelope c sn env).
Proof.
  assert (Hs : forall c', relayID c' = relayID c -> life c' = life c -> conn_change c c')
    by apply conn_change_setters.
  assert (Hf : forall c', relayID c' = relayID c -> life c' = life c -> conn_change c (failAdmission c')).
  { intros c' H1 H2. eapply conn_change_trans; [by apply Hs|apply conn_change_failAdmission]. }
  unfold enqueueEnvelope, enqueueAdmit, admitFrame, queueACK, handleAck, beginReceiveACK, finishReceiveACK.
  repeat case_match; simplify_eq; first [by apply Hs | by apply Hf].
Qed.

(** ** The manager as a machine *)

(** Its critical sections: those under [r.mu], and the sections of the connections. *)
Inductive mgr_step : Relay -> Relay -> Prop :=
| ms_accept env peer now r r' evs : acceptIncoming env peer now r = Ok (r', evs) -> mgr_step r r'
| ms_connect sessions target cfg id mine now r ref r' env :
    connectOpen sessions target cfg id mine now r = Ok (ref, r', env) -> mgr_step r r'
| ms_conn ref c c' r :
    rm_heap r !! ref = Some c -> conn_change c c' -> mgr_step r (conn_section ref c c' r)
| ms_remove ref r : ref ∈ rm_removing r -> mgr_step r (finishRemoval ref r)
| ms_onconn h r : mgr_step r (OnConnection h r)
| ms_onorphan h r : mgr_step r (OnOrphan h r)
| ms_config cfg r : mgr_step r (SetIncomingConfig cfg r).

Definition mgr_reachable : Relay -> Prop := rtc mgr_step newRelay.

Lemma mgr_inv_step r r' : mgr_step r r' -> mgr_inv r -> mgr_inv r'.
Proof.
  intros [env peer now r0 r1 evs H|sessions target cfg id mine now r0 ref r1 env H|ref c c' r0 Hc Hch|ref r0 Hin|h r0|h r0|cfg r0] HI;
    try (destruct HI; by split).
  - by eapply mgr_inv_accept.
  - unfold connectOpen in H. case_match; [done|]. cbv zeta in H.
    destruct (newConnection _ _ _ _ _ _) as [conn|e|] eqn:En; simpl in H; [|done|done].
    injection H as <- <- <-. apply newConnection_spec in En as (E1 & E2 & _).
    apply (mgr_inv_insert r0 _ _ conn); try done. unfold is_closed. by rewrite E2.
  - by apply mgr_inv_section.
  - by apply mgr_inv_removal.
Qed.

Lemma mgr_reachable_inv r : mgr_reachable r -> mgr_inv r.
Proof.
  unfold mgr_reachable. revert r. apply rtc_ind_r; [|intros r r' _ Hs HI; by eapply mgr_inv_step].
  split; simpl; intros ?; [intros ?; by rewrite lookup_empty..|set_solver].
Qed.

(** *** Every operation is a run of sections *)

Lemma run_settle ref c c' r :
  rm_heap r !! ref = Some c -> conn_change c c' -> rtc mgr_step r (settle ref c c' r).
Proof.
  intros Hc Hch. unfold settle. cbv zeta. eapply rtc_l; [by apply ms_conn|].
  destruct (negb (is_closed c) && is_closed c') eqn:E; [|done]. apply rtc_once, ms_remove.
  unfold conn_section. rewrite E. simpl. set_solver.
Qed.

Lemma run_closeRef ref reason remote r : rtc mgr_step r (closeRef ref reason remote r).
Proof.
  unfold closeRef. destruct (rm_heap r !! ref) eqn:E; [|done]. apply run_settle; [done|]. apply conn_change_close.
Qed.

Lemma run_closeAll reason r : rtc mgr_step r (closeAll reason r).
Proof.
  unfold closeAll. induction (snd <$> map_to_list (rm_conns r)) as [|ref l IH]; simpl; [done|].
  etrans; [exact IH|]. apply run_closeRef.
Qed.

Lemma run_handlePacket unmarshal co p now r b r' evs :
  handlePacket unmarshal co p now r = Ok (b, r', evs) -> rtc mgr_step r r'.
Proof.
  unfold handlePacket. destruct (decodeRelayEnvelope _ _) as [env|e|]; [|by intros [= <- <- <-]|done].
  destruct (_ || _); [by intros [= <- <- <-]|].
  destruct (decide (re_Kind env = RelayKindOpen)) as [Ek|Ek].
  { rewrite Ek. destruct (acceptIncoming _ _ _ _) as [[r1 evs1]|e|] eqn:Ea; simpl; [|done|done].
    intros [= <- <- <-]. by eapply rtc_once, ms_accept. }
  destruct (rm_conns r !! re_RelayID env) as [ref|] eqn:E1; [destruct (rm_heap r !! ref) as [c|] eqn:E2|];
    intros H; destruct (re_Kind env); try done; injection H as <- <- <-; try done;
    (apply run_settle; [done|]; apply conn_change_enqueue).
Qed.

Lemma run_connectSent ref err r : rtc mgr_step r (connectSent ref err r).2.
Proof. unfold connectSent. destruct err; [apply run_closeRef|done]. Qed.

Lemma run_connectWait ref case r res r' : connectWait ref case r = Some (res, r') -> rtc mgr_step r r'.
Proof.
  unfold connectWait. destruct (rm_heap r !! ref); [|done].
  destruct case; repeat case_match; intros; simplify_eq; try done; by apply run_closeRef.
Qed.

(** A live owner keeps its ID over every section but one. *)
Lemma step_owner r r' id ref :
  mgr_inv r -> mgr_step r r' -> rm_conns r !! id = Some ref ->
  rm_conns r' !! id = Some ref \/
  (rm_conns r' !! id = None /\ exists c, rm_heap r !! ref = Some c /\ is_closed c = true) \/
  (exists c, rm_conns r' !! id = Some (rm_next r) /\ rm_heap r' !! rm_next r = Some c /\ State c = RelayStateOpening).
Proof.
  intros HI Hs Hown. destruct Hs as
    [env peer now r0 r1 evs H|sessions target cfg id' mine now r0 ref' r1 env H|ref' c c' r0 Hc Hch|ref' r0 Hin|h r0|h r0|cfg r0];
    try (by left).
  - unfold acceptIncoming in H. destruct (newConnection _ _ _ _ _ _) as [conn|e|]; simpl in H; [|done|done].
    destruct (rm_conns r0 !! re_RelayID env) as [ref'|] eqn:Ec.
    + left. destruct (rm_heap r0 !! ref'); [case_match|]; injection H as <- _; done.
    + injection H as <- _. left. simpl. rewrite lookup_insert_ne; [done|]. congruence.
  - unfold connectOpen in H. case_match; [done|]. cbv zeta in H.
    destruct (newConnection _ _ _ _ _ _) as [conn|e|] eqn:En; simpl in H; [|done|done].
    injection H as _ <- _. simpl. apply newConnection_spec in En as (_ & E2 & _).
    destruct (decide (id' = id)) as [->|Hne]; [|left; by rewrite lookup_insert_ne].
    right. right. exists conn. by rewrite !lookup_insert_eq.
  - left. unfold conn_section. by destruct (negb _ && _).
  - rewrite (finishRemoval_conns _ _ HI). case_bool_decide as Hr; [|by left].
    right. left. split; [done|]. assert (ref = ref') as -> by congruence. by apply (mi_removing _ HI).
Qed.

(** ** The properties *)

(** C34: relay_id_ownership. However packets, connects, closes and the connections' own
    goroutines interleave, section by section: every relay ID of the manager belongs to one
    connection, which carries that very ID and is live unless the goroutine that closed it has
    yet to remove it, and no connection has two IDs. Such a late removal takes the connection's
    own entry away and no other, whoever has taken the ID over. So a live connection keeps its
    ID over every section, except that a Connect may draw the same ID; no packet and no close of
    another connection evicts it. Every operation of the manager is a run of these sections. *)
Theorem relay_id_ownership r :
  mgr_reachable r ->
  (forall id ref, rm_conns r !! id = Some ref ->
     exists c, rm_heap r !! ref = Some c /\ relayID c = id /\ (is_closed c = true -> ref ∈ rm_removing r)) /\
  (forall id id' ref, rm_conns r !! id = Some ref -> rm_conns r !! id' = Some ref -> id = id') /\
  (forall ref, ref ∈ rm_removing r ->
     (exists c, rm_heap r !! ref = Some c /\ is_closed c = true) /\
     rm_removing (finishRemoval ref r) = rm_removing r ∖ {[ref]} /\
     forall id, rm_conns (finishRemoval ref r) !! id =
       if bool_decide (rm_conns r !! id = Some ref) then None else rm_conns r !! id) /\
  (forall r' id ref, mgr_step r r' -> rm_conns r !! id = Some ref ->
     rm_conns r' !! id = Some ref \/
     (rm_conns r' !! id = None /\ exists c, rm_heap r !! ref = Some c /\ is_closed c = true) \/
     (exists c, rm_conns r' !! id = Some (rm_next r) /\ rm_heap r' !! rm_next r = Some c /\ State c = RelayStateOpening)) /\
  (forall unmarshal co p now b r' evs, handlePacket unmarshal co p now r = Ok (b, r', evs) -> mgr_reachable r') /\
  (forall ref err, mgr_reachable (connectSent ref err r).2) /\
  (forall ref case res r', connectWait ref case r = Some (res, r') -> mgr_reachable r') /\
  (forall ref reason remote, mgr_reachable (closeRef ref reason remote r)) /\
  (forall reason, mgr_reachable (closeAll reason r)).
Proof.
  intros Hr. pose proof (mgr_reachable_inv _ Hr) as HI. unfold mgr_reachable in *. split_and!; [apply HI|..].
  - intros id id' ref H1 H2. destruct (mi_owner _ HI _ _ H1) as (c & Hc & <- & _).
    destruct (mi_owner _ HI _ _ H2) as (c' & Hc' & <- & _). congruence.
  - intros ref Hin. split; [by apply HI|]. split; [by apply finishRemoval_removing|]. by apply finishRemoval_conns.
  - intros r' id ref. by apply step_owner.
  - intros. etrans; [exact Hr|]. by eapply run_handlePacket.
  - intros. etrans; [exact Hr|]. apply run_connectSent.
  - intros. etrans; [exact Hr|]. by eapply run_connectWait.
  - intros. etrans; [exact Hr|]. apply run_closeRef.
  - intros. etrans; [exact Hr|]. apply run_closeAll.
Qed.

(** A duplicate OPEN never replaces the connection that owns its
    ID: the manager is unchanged, and OPEN_ACK is sent again exactly when the peer and both
    sessions are those of the owner. A new ID gets a fresh, open connection to the sender,
    its send loop, one OPEN_ACK, and the incoming-connection handler when there is one. *)
Lemma open_idempotent env peer now r r' evs :
  acceptIncoming env peer now r = Ok (r', evs) ->
  match rm_conns r !! re_RelayID env with
  | Some ref =>
      r' = r /\
      (forall c, rm_heap r !! ref = Some c ->
         evs = if bool_decide (peer = remotePeer c /\ re_SenderSession env = remoteSession c /\
                               re_TargetSession env = mySession c)
               then [EvSend ref (openACK c now)] else [])
  | None =>
      rm_conns r' = <[re_RelayID env := rm_next r]> (rm_conns r) /\
      exists c, rm_heap r' = <[rm_next r := c]> (rm_heap r) /\ relayID c = re_RelayID env /\
        State c = RelayStateOpen /\ remotePeer c = peer /\ remoteSession c = re_SenderSession env /\
        mySession c = re_TargetSession env /\ config c = incomingRelayConfig r /\
        evs = [EvSendLoop (rm_next r); EvSend (rm_next r) (openACK c now)] ++
              (if rm_onConn r then [EvConnection (rm_next r)] else [])
  end.
Proof.
  unfold acceptIncoming. destruct (newConnection _ _ _ _ _ _) as [conn|e|] eqn:En; simpl; [|done|done].
  destruct (rm_conns r !! re_RelayID env) as [ref|] eqn:Ec.
  - destruct (rm_heap r !! ref) as [c|] eqn:Eh; [|by intros [= <- <-]].
    intros H. assert (r' = r) as -> by (destruct (_ && _ && _) in H; by injection H).
    split; [done|].
    intros c' [= <-].
    destruct (bool_decide (peer = _)) eqn:B1, (bool_decide (remoteSession c = _)) eqn:B2,
      (bool_decide (mySession c = _)) eqn:B3; simpl in H; injection H as <-; bool_facts;
      first [by rewrite bool_decide_true|by rewrite bool_decide_false by (intros (? & ? & ?); congruence)].
  - apply newConnection_spec in En as (E1 & E2 & E3 & E4 & E5 & E6). intros [= <- <-].
    split; [done|]. exists conn. by split_and!.
Qed.

(** *** What a connection does with a frame it is handed *)

Definition is_data_frame (env : RelayEnvelope) : bool := bool_decide (re_Kind env = RelayKindData).
(** DATA of a reliable ordered connection, the only frames that are deduplicated. *)
Definition ordered_data (c : RelayConnection) (env : RelayEnvelope) : bool :=
  is_data_frame env && bool_decide (reliability c = ReliabilityReliableOrdered).

(** The frame goes to the inbox if there is room: the connection is up, the frame is neither an
    ACK (handled on the spot) nor DATA behind a terminal frame, and ordered DATA is new and
    inside the window. *)
Definition wanted (c : RelayConnection) (env : RelayEnvelope) : bool :=
  let a := adm c in
  let frontier := frontier_from (size (inboxSeq a)) (inboxSeq a) (expectedSeq (rw c)) in
  negb (is_closed c) && negb (inboxFailed a) &&
  (negb (bool_decide (re_Kind env = RelayKindAck)) || inboxTerminal a) &&
  (negb (is_data_frame env) || negb (inboxTerminal a)) &&
  (negb (ordered_data c env) ||
     (bool_decide (re_Seq env ∉ inboxSeq a) && bool_decide (recvBuf (rw c) !! re_Seq env = None) &&
      (expectedSeq (rw c) <=? re_Seq env) &&
      ((re_Seq env <? frontier) || (re_Seq env -u frontier <? u64 (inbox_window (config c)))))).

(** The receive budget and the channel have a place for it. *)
Definition room (c : RelayConnection) (env : RelayEnvelope) : bool :=
  (negb (is_data_frame env) ||
     (inboxData (adm c) + len (recvCh c) + (Z.of_nat (size (recvBuf (rw c))) + recvReady (rw c))
        <? inbox_budget (config c))) &&
  (len (default [] (inbox (adm c))) <? inbox_budget (config c) + 8).

Definition queue (c : RelayConnection) : list RelayEnvelope := default [] (inbox (adm c)).

Lemma queue_queueACK c env : queue (queueACK c env) = queue c /\ is_closed (queueACK c env) = is_closed c.
Proof. unfold queueACK. by destruct (is_closed c) eqn:E; [|split; [|exact E]]. Qed.

Lemma queue_handleAck c env : queue (handleAck c env) = queue c /\ is_closed (handleAck c env) = is_closed c.
Proof. unfold handleAck. destruct (best_effort c); [done|]. by destruct (_ && _). Qed.

Lemma queue_failAdmission c :
  is_closed c = false ->
  queue (failAdmission c) = queue c /\ is_closed (failAdmission c) = true /\
  closeErr (life (failAdmission c)) = Some (ERelay RelayErrorReceiveOverflow "relay receive budget exceeded").
Proof.
  intros Hc. unfold failAdmission, closeConnection, closeWithSource.
  change (is_closed (set_adm _ c)) with (is_closed c). by rewrite Hc.
Qed.

Lemma queue_ensure c : queue (set_adm (ensureInbox (adm c)) c) = queue c.
Proof. unfold queue, ensureInbox. simpl. by destruct (inbox (adm c)) eqn:E; rewrite ?E. Qed.

(** A frame in order, when it is admitted, is put at the end of the inbox; without room for it
    ordered DATA is dropped, to be sent again, and anything else fails the connection. *)
Lemma enqueueAdmit_delivers c env :
  is_closed c = false ->
  let c' := enqueueAdmit c (sn_buffered (take_snapshot c env)) env (ordered_data c env) in
  if room c env then queue c' = queue c ++ [env] /\ is_closed c' = false
  else queue c' = queue c /\
       if ordered_data c env then is_closed c' = false
       else is_closed c' = true /\
            closeErr (life c') = Some (ERelay RelayErrorReceiveOverflow "relay receive budget exceeded").
Proof.
  intros Hc. unfold enqueueAdmit. rewrite Hc, andb_false_r. cbv zeta. set (c1 := set_adm (ensureInbox (adm c)) c).
  assert (queue c1 = queue c) as Hq1 by apply queue_ensure.
  assert (is_closed c1 = false) as Hc1 by exact Hc.
  assert (inboxData (adm c1) = inboxData (adm c)) as Hd1 by (subst c1; simpl; unfold ensureInbox; by case_match).
  unfold room. fold (queue c). fold (is_data_frame env). rewrite Hd1.
  change (recvCh c1) with (recvCh c). change (config c1) with (config c). change (best_effort c1) with (best_effort c).
  change (sn_buffered (take_snapshot c env)) with (Z.of_nat (size (recvBuf (rw c))) + recvReady (rw c)).
  set (used := inboxData (adm c) + _ + _).
  assert (forall c2 w, queue c2 = queue c -> is_closed c2 = false -> config c2 = config c ->
    let c' := admitFrame c2 env (ordered_data c env) w in
    if len (queue c) <? inbox_budget (config c) + 8 then queue c' = queue c ++ [env] /\ is_closed c' = false
    else queue c' = queue c /\
       if ordered_data c env then is_closed c' = false
       else is_closed c' = true /\
            closeErr (life c') = Some (ERelay RelayErrorReceiveOverflow "relay receive budget exceeded")) as Hadmit.
  { intros c2 w Hq Hc2 Hcf. unfold admitFrame. fold (queue c2). rewrite Hq, Hcf. cbv zeta.
    destruct (_ <? _); [unfold admitted, queue; simpl; fold (queue c2); by rewrite Hq|].
    set (c3 := if w then finishReceiveACK c2 else c2).
    assert (queue c3 = queue c /\ is_closed c3 = false) as [Hq3 Hc3] by by destruct w.
    destruct (ordered_data c env); [done|]. destruct (queue_failAdmission c3 Hc3) as (-> & -> & ->). done. }
  destruct (is_data_frame env) eqn:Ed; simpl.
  - destruct (inbox_budget (config c) <=? used) eqn:Eb.
    + assert ((used <? inbox_budget (config c)) = false) as -> by (bool_facts; lia). simpl.
      destruct (ordered_data c env); [done|]. destruct (queue_failAdmission c1 Hc1) as (-> & -> & ->). done.
    + assert ((used <? inbox_budget (config c)) = true) as -> by (bool_facts; lia). simpl.
      destruct (negb (best_effort c)); [|by apply Hadmit].
      unfold beginReceiveACK. rewrite Hc1. by apply Hadmit.
  - by apply Hadmit.
Qed.

Lemma enqueue_delivers c env :
  let c' := enqueueEnvelope c (take_snapshot c env) env in
  if wanted c env
  then if room c env then queue c' = queue c ++ [env] /\ is_closed c' = false
       else queue c' = queue c /\
            if ordered_data c env then is_closed c' = false
            else is_closed c' = true /\
                 closeErr (life c') = Some (ERelay RelayErrorReceiveOverflow "relay receive budget exceeded")
  else queue c' = queue c /\ is_closed c' = is_closed c.
Proof.
  cbv zeta. pose proof (enqueueAdmit_delivers c env) as Hadmit. unfold wanted, enqueueEnvelope.
  change (sn_closed (take_snapshot c env)) with (is_closed c).
  change (sn_expected (take_snapshot c env)) with (expectedSeq (rw c)).
  change (sn_reordered (take_snapshot c env)) with (bool_decide (is_Some (recvBuf (rw c) !! re_Seq env))).
  fold (is_data_frame env). fold (ordered_data c env).
  set (frontier := frontier_from _ _ _). set (window := u64 (inbox_window (config c))).
  destruct (is_closed c) eqn:Hc; [done|]. destruct (inboxFailed (adm c)); [done|]. simpl.
  specialize (Hadmit eq_refl). cbv zeta in Hadmit.
  destruct (is_data_frame env) eqn:Ed.
  - assert (bool_decide (re_Kind env = RelayKindAck) = false) as ->.
    { apply bool_decide_eq_false. apply bool_decide_eq_true in Ed. congruence. }
    simpl. destruct (inboxTerminal (adm c)); simpl; [done|]. rewrite ?andb_true_r.
    destruct (ordered_data c env) eqn:Eo; simpl; [|exact Hadmit].
    destruct (decide (re_Seq env ∈ inboxSeq (adm c))) as [Hin|Hin].
    { by rewrite (bool_decide_false (_ ∉ _)), (bool_decide_true (_ ∈ _)) by auto. }
    rewrite (bool_decide_true (_ ∉ _)), (bool_decide_false (_ ∈ _)) by auto. simpl.
    destruct (recvBuf (rw c) !! re_Seq env) as [x|] eqn:Eb; simpl; [done|].
    destruct (re_Seq env <? expectedSeq (rw c)) eqn:El.
    { assert ((expectedSeq (rw c) <=? re_Seq env) = false) as -> by (bool_facts; lia). simpl.
      destruct (0 <? _); [|done]. match goal with |- context [queueACK c ?e] => destruct (queue_queueACK c e) as [-> ->] end.
      by rewrite Hc. }
    assert ((expectedSeq (rw c) <=? re_Seq env) = true) as -> by (bool_facts; lia). simpl.
    assert ((frontier <=? re_Seq env) && (window <=? re_Seq env -u frontier) =
            negb ((re_Seq env <? frontier) || (re_Seq env -u frontier <? window))) as ->.
    { rewrite negb_orb. by rewrite <- !Z.leb_antisym. }
    destruct ((re_Seq env <? frontier) || _); simpl; [exact Hadmit|done].
  - assert (ordered_data c env = false) as Eo by (unfold ordered_data; by rewrite Ed). rewrite Eo in *. simpl.
    destruct (bool_decide (re_Kind env = RelayKindAck)) eqn:Ea, (inboxTerminal (adm c)) eqn:Et; simpl; try exact Hadmit.
    destruct (queue_handleAck c env) as [-> ->]. by rewrite Hc.
Qed.

(** An ACK is handled on the spot unless a terminal frame is queued. *)
Lemma enqueue_ack c env :
  is_closed c = false -> inboxFailed (adm c) = false -> inboxTerminal (adm c) = false ->
  re_Kind env = RelayKindAck -> enqueueEnvelope c (take_snapshot c env) env = handleAck c env.
Proof.
  intros Hc Hf Ht Hk. unfold enqueueEnvelope. change (sn_closed _) with (is_closed c). by rewrite Hc, Hf, Ht, Hk.
Qed.

(** The frame [handlePacket] hands to the connection [c] of its ID, and the owner's new state. *)
Definition delivered (r r' : Relay) (ref : nat) (env : RelayEnvelope) : Prop :=
  exists c c', rm_heap r !! ref = Some c /\ relayID c = re_RelayID env /\
    rm_heap r' = <[ref := c']> (rm_heap r) /\
    rm_conns r' = (if negb (is_closed c) && is_closed c' then delete (re_RelayID env) (rm_conns r) else rm_conns r) /\
    (if wanted c env
     then if room c env then queue c' = queue c ++ [env] /\ is_closed c' = false
          else queue c' = queue c /\
               if ordered_data c env then is_closed c' = false
               else is_closed c' = true /\
                    closeErr (life c') = Some (ERelay RelayErrorReceiveOverflow "relay receive budget exceeded")
     else queue c' = queue c /\ is_closed c' = is_closed c) /\
    (is_closed c = false -> inboxFailed (adm c) = false -> inboxTerminal (adm c) = false ->
     re_Kind env = RelayKindAck -> c' = handleAck c env).

Lemma settle_delivered r ref c env :
  mgr_inv r -> rm_conns r !! re_RelayID env = Some ref -> rm_heap r !! ref = Some c ->
  delivered r (settle ref c (enqueueEnvelope c (take_snapshot c env) env) r) ref env.
Proof.
  intros HI Hown Hc. destruct (mi_owner _ HI _ _ Hown) as (c0 & H0 & Hid & _). rewrite Hc in H0. injection H0 as <-.
  pose proof (conn_change_enqueue c (take_snapshot c env) env) as [Hid' Hcl].
  pose proof (enqueue_delivers c env) as Hq. pose proof (enqueue_ack c env) as Hack.
  set (c' := enqueueEnvelope c (take_snapshot c env) env) in *.
  exists c, c'. split_and!; [done|done|apply settle_heap| |exact Hq|exact Hack].
  unfold settle, conn_section. cbv zeta. destruct (negb (is_closed c) && is_closed c'); [|done].
  unfold finishRemoval, removeConnection. simpl. rewrite lookup_insert_eq, Hid', Hid. simpl.
  by rewrite bool_decide_true by done.
Qed.

Lemma packet_dispatch unmarshal co p now r b r' evs :
  mgr_inv r -> handlePacket unmarshal co p now r = Ok (b, r', evs) ->
  (b = false <->
     match decodeRelayEnvelope unmarshal (p_Body p) with
     | Ok env => re_RelayID env = "" \/ re_Kind env = RelayKindUnspecified
     | _ => True
     end) /\
  (b = false -> r' = r /\ evs = []) /\
  (forall env, decodeRelayEnvelope unmarshal (p_Body p) = Ok env -> b = true -> re_Kind env <> RelayKindOpen ->
     match rm_conns r !! re_RelayID env with
     | Some ref => delivered r r' ref env /\ evs = []
     | None => r' = r /\
         evs = (if rm_onOrphan r then [EvOrphan (mkRelayOrphan (re_RelayID env) (re_Kind env))] else []) ++
               (if co then [EvClientOrphan (mkRelayOrphan (re_RelayID env) (re_Kind env))] else [])
     end).
Proof.
  intros HI. unfold handlePacket. destruct (decodeRelayEnvelope _ _) as [env|e|] eqn:Ed; [|by intros [= <- <- <-]|done].
  destruct (_ || _) eqn:Eg.
  { intros [= <- <- <-]. split; [split; [|done]; intros _|split; [done|]; intros ? ? [=]].
    apply orb_true_iff in Eg as [Eg|Eg]; [apply orb_true_iff in Eg as [Eg|Eg]|]; bool_facts; auto;
      right; by destruct (re_Kind env). }
  apply orb_false_iff in Eg as [Eg Eg3]. apply orb_false_iff in Eg as [Eg1 Eg2]. bool_facts.
  assert (Hk : re_Kind env <> RelayKindUnspecified) by (intros Hk; by rewrite Hk in Eg2).
  intros H. assert (b = true) as ->.
  { destruct (re_Kind env); [done| |..];
      [destruct (acceptIncoming _ _ _ _) as [[? ?]| |]; simpl in H; try done; by injection H|..].
    all: destruct (rm_conns r !! re_RelayID env) as [ref'|]; [destruct (rm_heap r !! ref')|]; by injection H. }
  split; [split; [done|]; intros [?|?]; done|]. split; [done|].
  intros env' [= <-] _ Hno. destruct (rm_conns r !! re_RelayID env) as [ref|] eqn:Hown.
  - destruct (mi_owner _ HI _ _ Hown) as (c & Hc & _). rewrite Hc in H.
    pose proof (settle_delivered r ref c env HI Hown Hc) as Hd.
    destruct (re_Kind env); try done; injection H as <- <-; by split.
  - destruct (re_Kind env); try done; by injection H as <- <-.
Qed.

(** C35: relay_packet_routing. For every reachable manager, and [handlePacket] run with nothing in
    between (the sections of a close may be apart, see above): it takes a packet exactly when its
    body decodes to an envelope with an ID and a kind of the protocol, and otherwise leaves the
    manager alone. A frame other than OPEN reaches the connection of its ID and no other: an ACK
    acts on it at once; a frame that is wanted and has room is put at the end of its inbox; one
    that has no room is dropped when ordered DATA, to be sent again, and otherwise fails the
    connection, which then gives up its ID; duplicates and DATA outside the window or behind a
    terminal frame leave the inbox as it was. A frame for an ID nobody owns only raises orphan
    diagnostics. A duplicate OPEN never replaces the connection that owns its ID: the manager is
    unchanged, and OPEN_ACK is sent again exactly when the peer and both sessions are those of the
    owner; a new ID gets a fresh, open connection to the sender, its send loop, one OPEN_ACK, and
    the incoming-connection handler when there is one. *)
Theorem relay_packet_routing unmarshal co now r :
  mgr_reachable r ->
  (forall p b r' evs,
    handlePacket unmarshal co p now r = Ok (b, r', evs) ->
    (b = false <->
       match decodeRelayEnvelope unmarshal (p_Body p) with
       | Ok env => re_RelayID env = "" \/ re_Kind env = RelayKindUnspecified
       | _ => True
       end) /\
    (b = false -> r' = r /\ evs = []) /\
    (forall env, decodeRelayEnvelope unmarshal (p_Body p) = Ok env -> b = true -> re_Kind env <> RelayKindOpen ->
       match rm_conns r !! re_RelayID env with
       | Some ref => delivered r r' ref env /\ evs = []
       | None => r' = r /\
           evs = (if rm_onOrphan r then [EvOrphan (mkRelayOrphan (re_RelayID env) (re_Kind env))] else []) ++
                 (if co then [EvClientOrphan (mkRelayOrphan (re_RelayID env) (re_Kind env))] else [])
       end)) /\
  (forall env peer r' evs,
    acceptIncoming env peer now r = Ok (r', evs) ->
    match rm_conns r !! re_RelayID env with
    | Some ref =>
        r' = r /\
        (forall c, rm_heap r !! ref = Some c ->
           evs = if bool_decide (peer = remotePeer c /\ re_SenderSession env = remoteSession c /\
                                 re_TargetSession env = mySession c)
                 then [EvSend ref (openACK c now)] else [])
    | None =>
        rm_conns r' = <[re_RelayID env := rm_next r]> (rm_conns r) /\
        exists c, rm_heap r' = <[rm_next r := c]> (rm_heap r) /\ relayID c = re_RelayID env /\
          State c = RelayStateOpen /\ remotePeer c = peer /\ remoteSession c = re_SenderSession env /\
          mySession c = re_TargetSession env /\ config c = incomingRelayConfig r /\
          evs = [EvSendLoop (rm_next r); EvSend (rm_next r) (openACK c now)] ++
                (if rm_onConn r then [EvConnection (rm_next r)] else [])
    end).
Proof.
  intros Hr. apply mgr_reachable_inv in Hr. split; intros; [by eapply packet_dispatch|by eapply open_idempotent].
Qed.

(** *** Concrete instances *)

#[export] Instance pb_SessionRef_eq_decision : EqDecision pb_SessionRef.
Proof. solve_decision. Defined.
#[export] Instance pb_RelayEnvelope_eq_decision : EqDecision pb_RelayEnvelope.
Proof. solve_decision. Defined.

(** A serializer that knows one message. *)
Definition one_marshal (m0 m : pb_RelayEnvelope) : result error bytes :=
  if bool_decide (m = m0) then Ok [Byte.x01] else Err (errors_New "unknown message").
Definition one_unmarshal (m0 : pb_RelayEnvelope) (data : bytes) : result error pb_RelayEnvelope :=
  if bool_decide (data = [Byte.x01]) then Ok m0 else Err (errors_New "cannot parse").

Definition demo_s1 : SessionRef := mkSessionRef 1 "s1".
Definition demo_s2 : SessionRef := mkSessionRef 2 "s2".
Definition demo_open : RelayEnvelope := mkRelayEnvelope "r1" RelayKindOpen demo_s1 demo_s2 0 0 [] 5.
Definition demo_pb : pb_RelayEnvelope := mkpb_RelayEnvelope "r1" 1 (session_to_pb demo_s1) (session_to_pb demo_s2) 0 0 [] 5.
Definition demo_data_pb : pb_RelayEnvelope :=
  mkpb_RelayEnvelope "r9" 3 (session_to_pb demo_s1) (session_to_pb demo_s2) 1 0 [Byte.x61] 5.
Definition demo_packet : Packet :=
  mkPacket 1 1 2 (mkUserRef 2 20) (mkUserRef 1 10) [Byte.x01] "best_effort" demo_s2.

Lemma relay_envelope_roundtrip_witness :
  encodeRelayEnvelope (one_marshal demo_pb) demo_open = Ok [Byte.x01] /\
  decodeRelayEnvelope (one_unmarshal demo_pb) [Byte.x01] = Ok demo_open.
Proof.
  assert (He : encodeRelayEnvelope (one_marshal demo_pb) demo_open = Ok [Byte.x01]) by (vm_compute; reflexivity).
  split; [exact He|].
  apply (relay_envelope_roundtrip (one_marshal demo_pb) (one_unmarshal demo_pb) demo_open [Byte.x01]); [|exact He].
  intros m data. unfold one_marshal. destruct (bool_decide (m = demo_pb)) eqn:E; [|discriminate].
  apply bool_decide_eq_true_1 in E as ->. intros [= <-]. reflexivity.
Defined.

Definition demo_mgr : Relay :=
  match handlePacket (one_unmarshal demo_pb) false demo_packet 7 newRelay with
  | Ok (_, r, _) => r
  | _ => newRelay
  end.

Lemma demo_mgr_packet :
  handlePacket (one_unmarshal demo_pb) false demo_packet 7 newRelay =
  Ok (true, demo_mgr, [EvSendLoop 0; EvSend 0 (mkRelayEnvelope "r1" RelayKindOpenAck demo_s2 demo_s1 0 0 [] 7)]).
Proof. vm_compute. reflexivity. Qed.

Lemma demo_mgr_reachable : mgr_reachable demo_mgr.
Proof. unfold mgr_reachable. eapply run_handlePacket. exact demo_mgr_packet. Qed.

(** The accepted connection is closed; before it is removed a Connect draws the same ID. *)
Definition demo_conn : RelayConnection :=
  mkRelayConnection "r1" DefaultRelayConfig (mkUserRef 1 10) demo_s1 demo_s2
    (mkLifecycle RelayStateOpen true false [] None false) (mkSendWindow 1 1 ∅ 0 None) (mkRecvWindow 1 ∅ 0 0)
    (mkAdmission None ∅ 0 false false) (mkAckWorker None 0 None None 0 false) [] [].
Definition demo_closing : Relay := conn_section 0 demo_conn (closeWithSource demo_conn None false).1 demo_mgr.
Definition demo_taken : Relay :=
  match connectOpen [(demo_s1, true)] (mkUserRef 1 10) None "r1" demo_s2 9 demo_closing with
  | Ok (_, r, _) => r | _ => demo_closing end.

Lemma relay_id_ownership_witness :
  rm_removing demo_taken = {[0%nat]} /\
  (exists c, rm_heap demo_taken !! 1%nat = Some c /\ relayID c = "r1" /\ (is_closed c = true -> 1%nat ∈ rm_removing demo_taken)) /\
  rm_conns (finishRemoval 0 demo_taken) !! "r1" = Some 1%nat.
Proof.
  assert (Hr : mgr_reachable demo_taken).
  { eapply rtc_r; [eapply rtc_r; [exact demo_mgr_reachable|]|].
    - apply (ms_conn 0%nat demo_conn (closeWithSource demo_conn None false).1); [vm_compute; reflexivity|].
      apply conn_change_close.
    - apply (ms_connect [(demo_s1, true)] (mkUserRef 1 10) None "r1" demo_s2 9 demo_closing 1%nat demo_taken
               (makeEnvelope (match rm_heap demo_taken !! 1%nat with Some c => c | None => demo_conn end) RelayKindOpen 0 0 [] 9)).
      vm_compute. reflexivity. }
  assert (Hin : 0%nat ∈ rm_removing demo_taken) by (apply (bool_decide_unpack (0%nat ∈ rm_removing demo_taken)); vm_compute; reflexivity).
  destruct (relay_id_ownership demo_taken Hr) as (Hown & _ & Hrem & _).
  split; [vm_compute; reflexivity|]. split; [apply (Hown "r1" 1%nat); vm_compute; reflexivity|].
  destruct (Hrem 0%nat Hin) as (_ & _ & Hconns). rewrite Hconns. vm_compute. reflexivity.
Defined.

Definition demo_ping_pb : pb_RelayEnvelope :=
  mkpb_RelayEnvelope "r1" RELAY_KIND_PING (session_to_pb demo_s1) (session_to_pb demo_s2) 0 0 [] 5.
Definition demo_ping_env : RelayEnvelope := mkRelayEnvelope "r1" RelayKindPing demo_s1 demo_s2 0 0 [] 5.

(** A PING lands in the inbox of the connection of its ID, a frame for another ID is an orphan, and a
    second OPEN changes nothing. *)
Lemma relay_packet_routing_witness :
  (exists r' evs, handlePacket (one_unmarshal demo_ping_pb) true demo_packet 9 demo_mgr = Ok (true, r', evs) /\
     delivered demo_mgr r' 0%nat demo_ping_env /\ wanted demo_conn demo_ping_env && room demo_conn demo_ping_env = true) /\
  (exists r' evs,
     handlePacket (one_unmarshal demo_data_pb) true demo_packet 9 demo_mgr = Ok (true, r', evs) /\
     r' = demo_mgr /\ evs = [EvClientOrphan (mkRelayOrphan "r9" RelayKindData)]) /\
  exists r' evs, acceptIncoming demo_open (mkUserRef 1 10) 9 demo_mgr = Ok (r', evs) /\ r' = demo_mgr.
Proof.
  split; [|split].
  - destruct (relay_packet_routing (one_unmarshal demo_ping_pb) true 9 demo_mgr demo_mgr_reachable) as [Hpacket _].
    destruct (handlePacket (one_unmarshal demo_ping_pb) true demo_packet 9 demo_mgr) as [[[b r'] evs]| |] eqn:E;
      [|vm_compute in E; discriminate E|vm_compute in E; discriminate E].
    exists r', evs. assert (b = true) as Hb by (vm_compute in E; injection E as <- _ _; reflexivity). rewrite Hb in E |- *.
    split; [reflexivity|]. destruct (Hpacket demo_packet true r' evs E) as (_ & _ & H).
    assert (Ed : decodeRelayEnvelope (one_unmarshal demo_ping_pb) (p_Body demo_packet) = Ok demo_ping_env) by (vm_compute; reflexivity).
    specialize (H demo_ping_env Ed eq_refl ltac:(discriminate)).
    assert (Ec : rm_conns demo_mgr !! re_RelayID demo_ping_env = Some 0%nat) by (vm_compute; reflexivity).
    rewrite Ec in H. split; [exact (proj1 H)|vm_compute; reflexivity].
  - destruct (relay_packet_routing (one_unmarshal demo_data_pb) true 9 demo_mgr demo_mgr_reachable) as [Hpacket _].
    destruct (handlePacket (one_unmarshal demo_data_pb) true demo_packet 9 demo_mgr) as [[[b r'] evs]| |] eqn:E;
      [|vm_compute in E; discriminate E|vm_compute in E; discriminate E].
    exists r', evs. assert (b = true) as Hb by (vm_compute in E; injection E as <- _ _; reflexivity). rewrite Hb in E |- *.
    split; [reflexivity|]. destruct (Hpacket demo_packet true r' evs E) as (_ & _ & H).
    assert (Ed : exists env, decodeRelayEnvelope (one_unmarshal demo_data_pb) (p_Body demo_packet) = Ok env /\
      re_Kind env = RelayKindData /\ re_RelayID env = "r9") by (vm_compute; eexists; repeat split; reflexivity).
    destruct Ed as (env & Ed & Ek & Ei). specialize (H env Ed eq_refl ltac:(rewrite Ek; discriminate)).
    assert (En : rm_conns demo_mgr !! re_RelayID env = None) by (rewrite Ei; vm_compute; reflexivity).
    rewrite En, Ek, Ei in H. exact H.
  - destruct (relay_packet_routing (one_unmarshal demo_data_pb) true 9 demo_mgr demo_mgr_reachable) as [_ Hopen].
    destruct (acceptIncoming demo_open (mkUserRef 1 10) 9 demo_mgr) as [[r' evs]| |] eqn:E;
      [|vm_compute in E; discriminate E|vm_compute in E; discriminate E].
    exists r', evs. split; [reflexivity|]. specialize (Hopen demo_open (mkUserRef 1 10) r' evs E).
    assert (Ec : rm_conns demo_mgr !! re_RelayID demo_open = Some 0%nat) by (vm_compute; reflexivity).
    rewrite Ec in Hopen. exact (proj1 Hopen).
Defined.
