(* ===== verification/Text.v ===== *)
(** * Go strings: what the SDK uses of package strings and regexp

    A Go string is a sequence of bytes, here a [string]; [strings.TrimSpace] works on
    its UTF-8 encoding. *)

From Stdlib Require Import Strings.Ascii Strings.Byte.
From stdpp Require Import base list strings.
From S2P Require Import Prelude.

(** [strings.HasPrefix(s, prefix)] *)
Fixpoint HasPrefix (s prefix : string) : bool :=
  match prefix, s with
  | EmptyString, _ => true
  | String p prefix', String c s' => bool_decide (c = p) && HasPrefix s' prefix'
  | String _ _, EmptyString => false
  end.

(** [strings.TrimPrefix] for a prefix the caller has checked. *)
Fixpoint drop_string (n : nat) (s : string) : string :=
  match n, s with
  | S n', String _ s' => drop_string n' s'
  | _, _ => s
  end.
Definition TrimPrefix (s prefix : string) : string :=
  if HasPrefix s prefix then drop_string (String.length prefix) s else s.

(** ** White space *)

(** The UTF-8 encodings of the runes for which [unicode.IsSpace] holds. *)
Definition space_runes : list bytes :=
  [[x09]; [x0a]; [x0b]; [x0c]; [x0d]; [x20]; [xc2; x85]; [xc2; xa0]; [xe1; x9a; x80];
   [xe2; x80; x80]; [xe2; x80; x81]; [xe2; x80; x82]; [xe2; x80; x83]; [xe2; x80; x84];
   [xe2; x80; x85]; [xe2; x80; x86]; [xe2; x80; x87]; [xe2; x80; x88]; [xe2; x80; x89];
   [xe2; x80; x8a]; [xe2; x80; xa8]; [xe2; x80; xa9]; [xe2; x80; xaf]; [xe2; x81; x9f];
   [xe3; x80; x80]].

(** The rest after one of [runes] at the front, if any. *)
Definition strip_one (runes : list bytes) (l : bytes) : option bytes :=
  match List.find (fun r => bool_decide (take (length r) l = r)) runes with
  | Some r => Some (drop (length r) l)
  | None => None
  end.

(** One rune goes per turn, so the length is fuel enough. *)
Fixpoint trim_left (fuel : nat) (runes : list bytes) (l : bytes) : bytes :=
  match fuel with
  | O => l
  | S fuel' => match strip_one runes l with Some l' => trim_left fuel' runes l' | None => l end
  end.

(** [bytes.TrimSpace] *)
Definition TrimSpace (l : bytes) : bytes :=
  let l := trim_left (length l) space_runes l in
  reverse (trim_left (length l) (reverse <$> space_runes) (reverse l)).

(** [strings.TrimSpace] *)
Definition TrimSpace_string (s : string) : string :=
  String.string_of_list_byte (TrimSpace (String.list_byte_of_string s)).

(** ** The metadata key pattern [^[A-Za-z0-9._:-]+$] *)

Definition in_range (lo hi c : ascii) : bool :=
  (nat_of_ascii lo <=? nat_of_ascii c)%nat && (nat_of_ascii c <=? nat_of_ascii hi)%nat.

Definition metadata_key_char (c : ascii) : bool :=
  in_range "A" "Z" c || in_range "a" "z" c || in_range "0" "9" c ||
  bool_decide (c = "."%char) || bool_decide (c = "_"%char) || bool_decide (c = ":"%char) ||
  bool_decide (c = "-"%char).

Definition metadataKeyPattern (s : string) : bool :=
  negb (bool_decide (s = "")) && forallb metadata_key_char (String.list_ascii_of_string s).

(** ** Facts *)

Lemma HasPrefix_spec s prefix : HasPrefix s prefix = true <-> exists rest, s = prefix +:+ rest.
Proof.
  revert s. induction prefix as [|p prefix IH]; intros s; cbn [HasPrefix].
  - destruct s; (split; [intros _; by eexists|done]).
  - destruct s as [|c s]; [split; [done|by intros [? [=]]]|].
    change (HasPrefix (String c s) (String p prefix)) with (bool_decide (c = p) && HasPrefix s prefix).
    rewrite andb_true_iff, bool_decide_eq_true, IH. split.
    + intros [-> [rest ->]]. by exists rest.
    + intros [rest [= -> ->]]. split; [done|by exists rest].
Qed.

Lemma HasPrefix_refl s : HasPrefix s s = true.
Proof.
  apply HasPrefix_spec. exists "". induction s as [|a s IH]; [done|].
  change (String a s +:+ "") with (String a (s +:+ "")). by rewrite <- IH.
Qed.

Lemma strip_one_length runes l l' :
  Forall (fun r => r <> []) runes -> strip_one runes l = Some l' -> (length l' < length l)%nat.
Proof.
  intros Hr. unfold strip_one. destruct (List.find _ runes) as [r|] eqn:E; [|done]. intros [= <-].
  apply List.find_some in E as [Hin E]. rewrite List.Forall_forall in Hr. specialize (Hr r Hin).
  apply bool_decide_eq_true_1 in E. rewrite length_drop.
  assert (length (take (length r) l) = length r) as Hl by (by rewrite E). rewrite length_take in Hl.
  assert (length r <> 0%nat) by (by destruct r). lia.
Qed.

(** After trimming no rune of the list is left at the front. *)
Lemma trim_left_done fuel runes l :
  Forall (fun r => r <> []) runes -> (length l <= fuel)%nat ->
  strip_one runes (trim_left fuel runes l) = None.
Proof.
  intros Hr. revert l. induction fuel as [|fuel IH]; intros l Hl; simpl.
  - destruct (strip_one runes l) as [l'|] eqn:E; [|done]. apply strip_one_length in E; [lia|done].
  - destruct (strip_one runes l) as [l'|] eqn:E; [|done]. apply IH.
    apply strip_one_length in E; [lia|done].
Qed.
