(* ===== verification/Encoding.v ===== *)
(** * Text encodings of the standard library: UTF-8, decimal integers, base64

    What [encoding/json], [net/url] and the SDK use of [unicode/utf8], [strconv] and
    [encoding/base64]. *)

From Stdlib Require Import Strings.Byte.
From stdpp Require Import base list strings.
From S2P Require Import Prelude Text.

(** [c] is the byte [b]. *)
Definition is_byte (b c : Byte.byte) : bool := Byte.eqb c b.

(** The bytes of a string literal. *)
Definition str (s : string) : bytes := String.list_byte_of_string s.

(** The value of [c] lies between two bounds. *)
Definition byte_in (lo hi : Z) (c : Byte.byte) : bool := (lo <=? byte_Z c) && (byte_Z c <=? hi).

Definition is_digit (b : Byte.byte) : bool := byte_in 48 57 b.
Definition is_hex (b : Byte.byte) : bool := is_digit b || byte_in 97 102 b || byte_in 65 70 b.
Definition hex_value (b : Byte.byte) : Z :=
  if is_digit b then byte_Z b - 48 else if 97 <=? byte_Z b then byte_Z b - 87 else byte_Z b - 55.

(** ** UTF-8 ([unicode/utf8]) *)

(** What the second byte of a sequence must be, given the first: [acceptRanges]. *)
Definition second_ok (c b : Byte.byte) : bool :=
  if is_byte xe0 c then byte_in 160 191 b
  else if is_byte xed c then byte_in 128 159 b
  else if is_byte xf0 c then byte_in 144 191 b
  else if is_byte xf4 c then byte_in 128 143 b
  else byte_in 128 191 b.

(** The size of the rune at the front, 0 where [DecodeRune] finds none. *)
Definition rune_len (l : bytes) : nat :=
  match l with
  | [] => 0
  | c :: rest =>
      if byte_in 0 127 c then 1
      else if byte_in 194 223 c then
        match rest with b :: _ => if second_ok c b then 2 else 0 | _ => 0 end
      else if byte_in 224 239 c then
        match rest with b :: d :: _ => if second_ok c b && byte_in 128 191 d then 3 else 0 | _ => 0 end
      else if byte_in 240 244 c then
        match rest with
        | b :: d :: e :: _ => if second_ok c b && byte_in 128 191 d && byte_in 128 191 e then 4 else 0
        | _ => 0
        end
      else 0
  end%nat.

(** [utf8.RuneError], encoded. *)
Definition RuneError : bytes := [xef; xbf; xbd].

(** [utf8.AppendRune] *)
Definition encode_rune (r : Z) : bytes :=
  if r <? 128 then [Z_byte r]
  else if r <? 2048 then [Z_byte (192 + r / 64); Z_byte (128 + r mod 64)]
  else if (55296 <=? r) && (r <? 57344) then RuneError
  else if r <? 65536 then [Z_byte (224 + r / 4096); Z_byte (128 + r / 64 mod 64); Z_byte (128 + r mod 64)]
  else if r <? 1114112
  then [Z_byte (240 + r / 262144); Z_byte (128 + r / 4096 mod 64); Z_byte (128 + r / 64 mod 64);
        Z_byte (128 + r mod 64)]
  else RuneError.

(** [utf8.Valid]; [skip] bytes of the current rune are left. *)
Fixpoint utf8_valid (skip : nat) (l : bytes) : bool :=
  match l with
  | [] => true
  | c :: rest =>
      match skip with
      | S k => utf8_valid k rest
      | O => match rune_len l with O => false | S k => utf8_valid k rest end
      end
  end.

(** ** Decimal integers ([strconv]) *)

Definition dec_digit (z : Z) : Byte.byte := Z_byte (48 + z).

(** The loop of [formatBits]: one digit per turn, so 20 turns are enough for 64 bits. *)
Fixpoint dec_digits (fuel : nat) (z : Z) (acc : bytes) : bytes :=
  match fuel with
  | O => acc
  | S fuel' =>
      let acc := dec_digit (z mod 10) :: acc in
      if z <? 10 then acc else dec_digits fuel' (z / 10) acc
  end.

(** [strconv.FormatInt(z, 10)], [strconv.Itoa] and [%d] *)
Definition FormatInt (z : Z) : bytes :=
  if z <? 0 then x2d :: dec_digits 20 (- z) [] else dec_digits 20 z [].

(** A non-empty run of digits. *)
Definition dec_value (l : bytes) : option Z :=
  if bool_decide (l = []) || negb (forallb is_digit l) then None
  else Some (fold_left (fun acc b => acc * 10 + (byte_Z b - 48)) l 0).

(** [strconv.ParseInt(s, 10, bits)] and [strconv.ParseUint] *)
Definition ParseInt (bits : Z) (l : bytes) : option Z :=
  let '(neg, ds) :=
    match l with
    | c :: rest => if is_byte x2d c then (true, rest) else if is_byte x2b c then (false, rest) else (false, l)
    | [] => (false, l)
    end in
  n ← dec_value ds;
  let z := if neg then - n else n in
  if (- 2 ^ (bits - 1) <=? z) && (z <? 2 ^ (bits - 1)) then Some z else None.
Definition ParseUint (bits : Z) (l : bytes) : option Z :=
  n ← dec_value l; if n <? 2 ^ bits then Some n else None.

(** ** Base64 ([base64.StdEncoding]) *)

Definition b64_char (v : Z) : Byte.byte :=
  if v <? 26 then Z_byte (65 + v) else if v <? 52 then Z_byte (71 + v) else if v <? 62 then Z_byte (v - 4)
  else if v =? 62 then x2b else x2f.

Definition b64_value (c : Byte.byte) : option Z :=
  if byte_in 65 90 c then Some (byte_Z c - 65)
  else if byte_in 97 122 c then Some (byte_Z c - 71)
  else if byte_in 48 57 c then Some (byte_Z c + 4)
  else if is_byte x2b c then Some 62
  else if is_byte x2f c then Some 63
  else None.

(** [EncodeToString] *)
Fixpoint b64_encode (l : bytes) : bytes :=
  match l with
  | [] => []
  | [a] => let n := byte_Z a * 16 in [b64_char (n / 64); b64_char (n mod 64); x3d; x3d]
  | [a; b] =>
      let n := (byte_Z a * 256 + byte_Z b) * 4 in
      [b64_char (n / 4096); b64_char (n / 64 mod 64); b64_char (n mod 64); x3d]
  | a :: b :: c :: rest =>
      let n := (byte_Z a * 256 + byte_Z b) * 256 + byte_Z c in
      b64_char (n / 262144) :: b64_char (n / 4096 mod 64) :: b64_char (n / 64 mod 64) :: b64_char (n mod 64)
        :: b64_encode rest
  end.

(** One quantum after another; padding only at the end. *)
Fixpoint b64_quanta (l : bytes) : option bytes :=
  match l with
  | [] => Some []
  | a :: b :: c :: d :: rest =>
      va ← b64_value a; vb ← b64_value b;
      if is_byte x3d d then
        if bool_decide (rest = []) then
          if is_byte x3d c then Some [Z_byte ((va * 64 + vb) / 16)]
          else
            vc ← b64_value c;
            let n := (va * 64 + vb) * 64 + vc in Some [Z_byte (n / 1024); Z_byte (n / 4)]
        else None
      else
        vc ← b64_value c; vd ← b64_value d;
        let n := ((va * 64 + vb) * 64 + vc) * 64 + vd in
        tail ← b64_quanta rest;
        Some (Z_byte (n / 65536) :: Z_byte (n / 256) :: Z_byte n :: tail)
  | _ => None
  end.

(** [DecodeString], which skips line ends. *)
Definition b64_decode (l : bytes) : option bytes :=
  b64_quanta (List.filter (fun c => negb (is_byte x0a c || is_byte x0d c)) l).

(** ** Facts *)

Lemma is_byte_true b c : is_byte b c = true <-> c = b.
Proof.
  unfold is_byte. split; [intros H|intros ->].
  - exact (Byte.byte_dec_bl _ _ H).
  - exact (Byte.byte_dec_lb eq_refl).
Qed.

Lemma is_byte_refl b : is_byte b b = true.
Proof. by apply is_byte_true. Qed.

Lemma byte_Z_small z : 0 <= z < 256 -> byte_Z (Z_byte z) = z.
Proof. intros. rewrite byte_Z_byte. by apply Z.mod_small. Qed.

(** A property of all bytes, decided by trying them. *)
Lemma all_bytes (P : Byte.byte -> bool) :
  forallb (fun n => match Byte.of_nat n with Some b => P b | None => true end) (seq 0 256) = true ->
  forall b, P b = true.
Proof.
  intros H b. rewrite forallb_forall in H. specialize (H (Byte.to_nat b)).
  rewrite Byte.of_to_nat in H. apply H. apply in_seq. pose proof (Byte.to_nat_bounded b). lia.
Qed.

(** *** Decimal *)

Lemma dec_digit_value d : 0 <= d < 10 -> byte_Z (dec_digit d) - 48 = d /\ is_digit (dec_digit d) = true.
Proof.
  intros. unfold dec_digit, is_digit, byte_in. rewrite byte_Z_small by lia. split; [lia|].
  apply andb_true_iff. split; apply Z.leb_le; lia.
Qed.

(** The digits of [z]: their value, and no leading zero. *)
Lemma dec_digits_spec fuel z acc :
  0 <= z < 10 ^ Z.of_nat fuel -> fuel <> 0%nat ->
  exists d ds, dec_digits fuel z acc = (d :: ds) ++ acc /\ forallb is_digit (d :: ds) = true /\
    fold_left (fun acc b => acc * 10 + (byte_Z b - 48)) (d :: ds) 0 = z /\
    (d = x30 -> ds = []).
Proof.
  revert z acc. induction fuel as [|fuel IH]; intros z acc Hz Hf; [done|]. simpl dec_digits.
  pose proof (Z.mod_pos_bound z 10 eq_refl) as Hm. destruct (dec_digit_value (z mod 10)) as [Hv Hd]; [lia|].
  destruct (z <? 10) eqn:Hs; bool_facts.
  - rewrite Z.mod_small in * by lia. exists (dec_digit z), []. simpl. rewrite Hd. split_and!; [done..|lia|done].
  - assert (fuel <> 0%nat) as Hf' by (intros ->; simpl in Hz; lia).
    destruct (IH (z / 10) (dec_digit (z mod 10) :: acc)) as (d & ds & -> & Hds & Hval & Hlead); [|done|].
    { rewrite Nat2Z.inj_succ, Z.pow_succ_r in Hz by lia.
      split; [apply Z.div_pos; lia|]. apply Z.div_lt_upper_bound; lia. }
    exists d, (ds ++ [dec_digit (z mod 10)]). split_and!.
    + simpl. by rewrite <- app_assoc.
    + rewrite app_comm_cons, forallb_app, Hds. simpl. by rewrite Hd.
    + rewrite app_comm_cons, fold_left_app, Hval. simpl. pose proof (Z.div_mod z 10). lia.
    + intros ->. specialize (Hlead eq_refl). subst ds. simpl in Hval.
      assert (1 <= z / 10) by (apply Z.div_le_lower_bound; lia). change (byte_Z x30) with 48 in Hval. lia.
Qed.

Lemma dec_value_digits d ds :
  forallb is_digit (d :: ds) = true ->
  dec_value (d :: ds) = Some (fold_left (fun acc b => acc * 10 + (byte_Z b - 48)) (d :: ds) 0).
Proof. intros H. unfold dec_value. by rewrite bool_decide_false, H by done. Qed.

Definition is_i64 (z : Z) : Prop := - 2 ^ 63 <= z < 2 ^ 63.

(** What [FormatInt] writes: a sign if needed, and digits without a leading zero. *)
Lemma FormatInt_spec z : is_i64 z ->
  exists d ds, FormatInt z = (if z <? 0 then [x2d] else []) ++ d :: ds /\ forallb is_digit (d :: ds) = true /\
    fold_left (fun acc b => acc * 10 + (byte_Z b - 48)) (d :: ds) 0 = Z.abs z /\ (d = x30 -> ds = []).
Proof.
  unfold is_i64. intros Hz. unfold FormatInt.
  destruct (dec_digits_spec 20 (Z.abs z) []) as (d & ds & E & Hd & Hv & Hl); [lia|done|].
  exists d, ds. destruct (z <? 0) eqn:Hs; bool_facts.
  - replace (- z) with (Z.abs z) by lia. by rewrite E, app_nil_r.
  - replace (dec_digits 20 z []) with (dec_digits 20 (Z.abs z) []) by (f_equal; lia). by rewrite E, app_nil_r.
Qed.

Lemma ParseInt_FormatInt z : is_i64 z -> ParseInt 64 (FormatInt z) = Some z.
Proof.
  intros Hz. destruct (FormatInt_spec z Hz) as (d & ds & -> & Hd & Hv & _). unfold ParseInt.
  apply dec_value_digits in Hd as Hdv. unfold is_i64 in Hz.
  destruct (z <? 0) eqn:Hs; bool_facts; simpl app.
  - cbv iota beta. rewrite (is_byte_refl x2d), Hdv. cbn [mbind option_bind]. rewrite Hv.
    replace (- Z.abs z) with z by lia.
    rewrite (proj2 (Z.leb_le _ _)), (proj2 (Z.ltb_lt _ _)) by lia. done.
  - assert (is_byte x2d d = false /\ is_byte x2b d = false) as [-> ->].
    { simpl in Hd. apply andb_true_iff in Hd as [Hd _]. by destruct d. }
    rewrite Hdv. cbn [mbind option_bind]. rewrite Hv, Z.abs_eq by lia.
    rewrite (proj2 (Z.leb_le _ _)), (proj2 (Z.ltb_lt _ _)) by lia. done.
Qed.

(** *** Base64 *)

(** A property of the numbers below [n], decided by trying them. *)
Lemma all_below (n : nat) (P : Z -> bool) :
  forallb (fun k => P (Z.of_nat k)) (seq 0 n) = true -> forall z, 0 <= z < Z.of_nat n -> P z = true.
Proof.
  intros H z Hz. rewrite forallb_forall in H. rewrite <- (Z2Nat.id z) by lia. apply H, in_seq. lia.
Qed.

(** What the 64 characters have in common: they are neither padding nor line ends. *)
Definition b64_plain (c : Byte.byte) : bool := negb (is_byte x0a c || is_byte x0d c || is_byte x3d c).

Lemma b64_char_spec v : 0 <= v < 64 -> b64_value (b64_char v) = Some v /\ b64_plain (b64_char v) = true.
Proof.
  intros Hv.
  pose proof (all_below 64 (fun v => bool_decide (b64_value (b64_char v) = Some v) && b64_plain (b64_char v))
                eq_refl v Hv) as H.
  by apply andb_true_iff in H as [H%bool_decide_eq_true_1 ?].
Qed.

Lemma b64_value_char v : 0 <= v < 64 -> b64_value (b64_char v) = Some v.
Proof. intros Hv. by destruct (b64_char_spec v Hv). Qed.

Lemma b64_char_pad v : 0 <= v < 64 -> is_byte x3d (b64_char v) = false.
Proof.
  intros Hv. destruct (b64_char_spec v Hv) as [_ H]. unfold b64_plain in H.
  apply negb_true_iff, orb_false_iff in H as [_ H]. done.
Qed.

Ltac sextet :=
  split; [first [apply Z.div_pos; lia | apply Z.mod_pos_bound; lia | lia]
         | first [apply Z.div_lt_upper_bound; lia | apply Z.mod_pos_bound; lia]].

Lemma three_induction {A} (P : list A -> Prop) :
  P [] -> (forall a, P [a]) -> (forall a b, P [a; b]) -> (forall a b c l, P l -> P (a :: b :: c :: l)) ->
  forall l, P l.
Proof.
  intros H0 H1 H2 H3. fix IH 1. intros [|a [|b [|c l]]]; [done|apply H1|apply H2|apply H3, IH].
Qed.

Lemma Z_byte_eq b z : z mod 256 = byte_Z b -> Z_byte z = b.
Proof.
  intros H. rewrite <- (Z_byte_Z b), <- H. unfold Z_byte. by rewrite Z.mod_mod.
Qed.

Lemma b64_quanta_encode l : b64_quanta (b64_encode l) = Some l.
Proof.
  induction l as [|a|a b|a b c l IH] using three_induction; [done|..];
    pose proof (byte_Z_range a) as Ha; try pose proof (byte_Z_range b) as Hb;
    try pose proof (byte_Z_range c) as Hc; simpl b64_encode; cbn [b64_quanta].
  - set (n := byte_Z a * 16). assert (0 <= n < 4096) by (unfold n; lia).
    rewrite !b64_value_char by sextet. cbn [mbind option_bind].
    rewrite is_byte_refl, bool_decide_true by done.
    do 2 f_equal. apply Z_byte_eq. unfold n in *. Z.div_mod_to_equations. lia.
  - set (n := (byte_Z a * 256 + byte_Z b) * 4). assert (0 <= n < 262144) by (unfold n; lia).
    rewrite !b64_value_char by sextet. cbn [mbind option_bind].
    rewrite is_byte_refl, bool_decide_true by done.
    rewrite b64_char_pad by sextet. cbn [mbind option_bind].
    f_equal. f_equal; [|f_equal]; apply Z_byte_eq; unfold n in *; Z.div_mod_to_equations; lia.
  - set (n := (byte_Z a * 256 + byte_Z b) * 256 + byte_Z c). assert (0 <= n < 16777216) by (unfold n; lia).
    rewrite !b64_value_char by sextet. cbn [mbind option_bind].
    rewrite b64_char_pad by sextet. rewrite IH. cbn [mbind option_bind].
    f_equal. f_equal; [|f_equal; [|f_equal]]; apply Z_byte_eq; unfold n in *; Z.div_mod_to_equations; lia.
Qed.

(** Every character of an encoding is one of the 64 or the padding. *)
Lemma b64_encode_chars (P : Byte.byte -> Prop) l :
  (forall v, 0 <= v < 64 -> P (b64_char v)) -> P x3d -> Forall P (b64_encode l).
Proof.
  intros HP Hpad. induction l as [|a|a b|a b c l IH] using three_induction; [constructor|..];
    pose proof (byte_Z_range a) as Ha; try pose proof (byte_Z_range b) as Hb;
    try pose proof (byte_Z_range c) as Hc; simpl b64_encode; repeat constructor; try done; apply HP; sextet.
Qed.

Lemma b64_decode_encode l : b64_decode (b64_encode l) = Some l.
Proof.
  unfold b64_decode. rewrite List.forallb_filter_id; [apply b64_quanta_encode|].
  apply forallb_forall. intros c Hc%list_elem_of_In. revert c Hc. apply Forall_forall.
  apply b64_encode_chars; [|done]. intros v Hv. destruct (b64_char_spec v Hv) as [_ H].
  unfold b64_plain in H. apply negb_true_iff, orb_false_iff in H as [-> _]. done.
Qed.
