(* ===== verification/Float64.v ===== *)
(** * Floating-point numbers and durations of the standard library

    A [float64] is a [spec_float] of precision 53 (IEEE 754 binary64): its conversion from
    and to integers, the shortest decimal that reads back as it ([strconv.FormatFloat] with
    precision -1), and [time.ParseDuration]. *)

From Stdlib Require Import Strings.Byte Floats.SpecFloat.
From stdpp Require Import base list strings.
From S2P Require Import Prelude Text Encoding.

(** What a conversion of a float to [int64] gives when the value does not fit: the language
    leaves it to the implementation. *)
Class Platform : Type := { int64_overflow : spec_float -> Z }.
(** amd64 gives the smallest [int64]. *)
Definition amd64 : Platform := {| int64_overflow := fun _ => - 2 ^ 63 |}.

Definition prec : Z := 53.
Definition emax : Z := 1024.

(** [float64(z)]: the nearest float, ties to even. *)
Definition float64_of (z : Z) : spec_float := binary_normalize prec emax z 0 false.

(** [int64(f)]: truncation towards zero. *)
Definition int64_of `{Platform} (f : spec_float) : Z :=
  match f with
  | S754_zero _ => 0
  | S754_finite s m e =>
      let a := if 0 <=? e then Z.shiftl (Zpos m) e else Z.shiftr (Zpos m) (- e) in
      let z := if s then - a else a in
      if (- 2 ^ 63 <=? z) && (z <? 2 ^ 63) then z else int64_overflow f
  | _ => int64_overflow f
  end.

(** ** The shortest decimal *)

(** The float nearest to [d * 10^k], for positive [d]. *)
Definition float_of_decimal (d : positive) (k : Z) : spec_float :=
  if 0 <=? k then float64_of (Zpos d * 10 ^ k)
  else let '(q, e, l) := SFdiv_core_binary prec emax (Zpos d) 0 (10 ^ (- k)) 0 in
       binary_round_aux prec emax false q e l.

(** The quotient of the value [m * 2^e] by [10^k], rounded down, and whether the rest is less
    than, equal to or more than a half. *)
Definition scaled (m : positive) (e k : Z) : Z * comparison :=
  let num := Zpos m * 2 ^ Z.max 0 e * 10 ^ Z.max 0 (- k) in
  let den := 2 ^ Z.max 0 (- e) * 10 ^ Z.max 0 k in
  (num / den, (2 * (num mod den) ?= den)).

(** The power of ten of the first digit. *)
Fixpoint first_digit (fuel : nat) (m : positive) (e k : Z) : Z :=
  match fuel with
  | O => k
  | S fuel => if (scaled m e k).1 =? 0 then first_digit fuel m e (k - 1) else k
  end.

(** With [n] digits: the neighbours of the value that read back, the nearer one if both do. *)
Definition digits_n (m : positive) (e top : Z) (n : nat) : option (Z * Z) :=
  let k := top - Z.of_nat n + 1 in
  let '(down, rest) := scaled m e k in
  let ok d := match d with Zpos p => SFeqb (float_of_decimal p k) (S754_finite false m e) | _ => false end in
  let up_nearer := match rest with Lt => false | Gt => true | Eq => Z.odd down end in
  if ok down && negb (ok (down + 1) && up_nearer) then Some (down, k)
  else if ok (down + 1) then Some (down + 1, k) else None.

Fixpoint first_some {A} (f : nat -> option A) (fuel n : nat) : option A :=
  match fuel with
  | O => None
  | S fuel => match f n with Some a => Some a | None => first_some f fuel (S n) end
  end.

Fixpoint strip_zeros (l : bytes) : bytes :=
  match l with
  | [] => []
  | c :: l => match strip_zeros l with [] => if is_byte x30 c then [] else [c] | l' => c :: l' end
  end.

(** The digits without trailing zeros, and where the decimal point is ([decimalSlice]):
    the value is [0.d1d2d3... * 10^dp]. A binary64 has at most 17 digits, and its first one
    stands at most at 10^308. *)
Definition shortest (m : positive) (e : Z) : bytes * Z :=
  let top := first_digit 640 m e 308 in
  match first_some (digits_n m e top) 17 1 with
  | Some (d, k) => let t := FormatInt d in (strip_zeros t, len t + k)
  | None => ([], 0)
  end.

Definition zeros (n : Z) : bytes := replicate (Z.to_nat n) x30.

(** [%e]: at least two digits of exponent. *)
Definition fmtE (ds : bytes) (dp : Z) : bytes :=
  let exp := dp - 1 in
  take 1 ds ++ (if bool_decide (drop 1 ds = []) then [] else x2e :: drop 1 ds) ++
  [x65; if exp <? 0 then x2d else x2b] ++ (if Z.abs exp <? 10 then [x30] else []) ++ FormatInt (Z.abs exp).

(** [%f] with all digits. *)
Definition fmtF (ds : bytes) (dp : Z) : bytes :=
  let n := Z.to_nat dp in
  (if 0 <? dp then take n ds ++ zeros (dp - len ds) else [x30]) ++
  (if dp <? len ds then x2e :: zeros (- dp) ++ drop n ds else []).

Definition sign (s : bool) : bytes := if s then [x2d] else [].

(** [strconv.FormatFloat(f, 'g', -1, 64)], what [fmt] prints: [%e] below 10^-4 and from 10^6 on. *)
Definition FormatFloat (f : spec_float) : bytes :=
  match f with
  | S754_nan => str "NaN"
  | S754_infinity s => (if s then [x2d] else [x2b]) ++ str "Inf"
  | S754_zero s => sign s ++ [x30]
  | S754_finite s m e =>
      let '(ds, dp) := shortest m e in
      sign s ++ (if (dp - 1 <? -4) || (6 <=? dp - 1) then fmtE ds dp else fmtF ds dp)
  end.

(** How [encoding/json] writes a float; it refuses an infinity and a NaN. An exponent there has
    two digits unless it is a negative one of one digit. *)
Definition json_float (f : spec_float) : option bytes :=
  match f with
  | S754_zero s => Some (sign s ++ [x30])
  | S754_finite s m e =>
      let '(ds, dp) := shortest m e in
      let exp := dp - 1 in
      Some (sign s ++
        (if (exp <? -6) || (21 <=? exp)
         then take 1 ds ++ (if bool_decide (drop 1 ds = []) then [] else x2e :: drop 1 ds) ++
              [x65; if exp <? 0 then x2d else x2b] ++ FormatInt (Z.abs exp)
         else fmtF ds dp))
  | _ => None
  end.

(** ** [time.ParseDuration] *)

(** [leadingInt]: the value and the rest; [None] is an overflow. *)
Fixpoint leadingInt (x : Z) (l : bytes) : option (Z * bytes) :=
  match l with
  | c :: l' =>
      if is_digit c then
        if 2 ^ 63 / 10 <? x then None
        else let x := x * 10 + (byte_Z c - 48) in if 2 ^ 63 <? x then None else leadingInt x l'
      else Some (x, l)
  | [] => Some (x, [])
  end.

(** [leadingFraction]: digits after an overflow are skipped. *)
Fixpoint leadingFraction (x : Z) (scale : spec_float) (overflow : bool) (l : bytes) : Z * spec_float * bytes :=
  match l with
  | c :: l' =>
      if is_digit c then
        if overflow || ((2 ^ 63 - 1) / 10 <? x) then leadingFraction x scale true l'
        else let y := x * 10 + (byte_Z c - 48) in
             if 2 ^ 63 <? y then leadingFraction x scale true l'
             else leadingFraction y (SFmul prec emax scale (float64_of 10)) false l'
      else (x, scale, l)
  | [] => (x, scale, [])
  end.

Fixpoint span_unit (l : bytes) : bytes * bytes :=
  match l with
  | c :: l' => if is_digit c || is_byte x2e c then ([], l) else let '(u, r) := span_unit l' in (c :: u, r)
  | [] => ([], [])
  end.

(** [unitMap], in nanoseconds; both micro signs are there. *)
Definition duration_unit (u : bytes) : option Z :=
  if bool_decide (u = str "ns") then Some 1
  else if bool_decide (u = str "us" \/ u = [xc2; xb5; x73] \/ u = [xce; xbc; x73]) then Some 1000
  else if bool_decide (u = str "ms") then Some 1000000
  else if bool_decide (u = str "s") then Some 1000000000
  else if bool_decide (u = str "m") then Some 60000000000
  else if bool_decide (u = str "h") then Some 3600000000000
  else None.

(** One number with its unit. *)
Definition duration_part `{Platform} (l : bytes) : option (Z * bytes) :=
  match l with
  | c :: _ =>
      if is_byte x2e c || is_digit c then
        '(v, l1) ← leadingInt 0 l;
        let pre := negb (length l1 =? length l)%nat in
        let '(f, scale, l2, post) :=
          match l1 with
          | c :: l' =>
              if is_byte x2e c
              then let '(f, scale, l2) := leadingFraction 0 (float64_of 1) false l' in
                   (f, scale, l2, negb (length l2 =? length l')%nat)
              else (0, float64_of 1, l1, false)
          | [] => (0, float64_of 1, l1, false)
          end in
        if negb pre && negb post then None
        else
          let '(u, l3) := span_unit l2 in
          if bool_decide (u = []) then None
          else
            unit ← duration_unit u;
            if 2 ^ 63 / unit <? v then None
            else
              let v := v * unit in
              let frac := if 0 <? f
                          then int64_of (SFmul prec emax (float64_of f) (SFdiv prec emax (float64_of unit) scale))
                          else 0 in
              if 2 ^ 63 <? v + frac then None else Some (v + frac, l3)
      else None
  | [] => None
  end.

(** The sum is a [uint64]. Every part is at least one byte long, so the length is fuel enough. *)
Fixpoint duration_parts `{Platform} (fuel : nat) (d : Z) (l : bytes) : option Z :=
  match l, fuel with
  | [], _ => Some d
  | _, O => None
  | _, S fuel =>
      '(v, l) ← duration_part l;
      if 2 ^ 63 <? d +u v then None else duration_parts fuel (d +u v) l
  end.

(** A sum of exactly 2^63 passes the checks of the loop; only the negative one fits. *)
Definition ParseDuration `{Platform} (s : bytes) : option Z :=
  let '(neg, l) :=
    match s with
    | c :: l => if is_byte x2d c then (true, l) else if is_byte x2b c then (false, l) else (false, s)
    | [] => (false, s)
    end in
  if bool_decide (l = [x30]) then Some 0
  else if bool_decide (l = []) then None
  else
    d ← duration_parts (length l) 0 l;
    if neg then Some (- d) else if 2 ^ 63 - 1 <? d then None else Some d.

(** ** Examples *)

Example FormatFloat_1 :
  let f d k := FormatFloat (float_of_decimal d k) in
  (f 1%positive 0, f 15%positive (-1), f 1%positive 21, f 123456789%positive 0, f 1%positive (-5),
   f 9007199254740993%positive 0, f 1%positive (-1), f 5%positive (-324), f 17976931348623157%positive 292, f 100%positive 3)
  = (str "1", str "1.5", str "1e+21", str "1.23456789e+08", str "1e-05",
     str "9.007199254740992e+15", str "0.1", str "5e-324", str "1.7976931348623157e+308", str "100000").
Proof. vm_compute. reflexivity. Qed.

Example ParseDuration_1 :
  let p := @ParseDuration amd64 in
  (p (str "500ms"), p (str "1.5s"), p (str "-1h2m3.25s"), p (str "5"), p (str "0"), p (str ".s"), p (str "2562047h47m16.854775807s"),
   p (str "9223372036854775808ns"), p (str "-9223372036854775808ns"))
  = (Some 500000000, Some 1500000000, Some (-3723250000000), None, Some 0, None, Some (2 ^ 63 - 1), None, Some (- 2 ^ 63)).
Proof. vm_compute. reflexivity. Qed.

Lemma leadingInt_length x l v r : leadingInt x l = Some (v, r) -> (length r <= length l)%nat.
Proof.
  revert x. induction l as [|c l IH]; intros x H; simpl in H; [by simplify_eq|].
  destruct (is_digit c); [|by simplify_eq].
  destruct (_ <? x); [done|]. destruct (_ <? _); [done|]. apply IH in H. simpl. lia.
Qed.

Lemma leadingFraction_length x sc o l v s r : leadingFraction x sc o l = (v, s, r) -> (length r <= length l)%nat.
Proof.
  revert x sc o. induction l as [|c l IH]; intros x sc o H; simpl in H; [by simplify_eq|].
  destruct (is_digit c); [|by simplify_eq]. simpl.
  destruct (_ || _); [apply IH in H; lia|]. destruct (_ <? _); apply IH in H; lia.
Qed.

Lemma span_unit_length l u r : span_unit l = (u, r) -> length l = (length u + length r)%nat.
Proof.
  revert u r. induction l as [|c l IH]; intros u r H; simpl in H; [by simplify_eq|].
  destruct (_ || _); [by simplify_eq|]. destruct (span_unit l) as [u' r'] eqn:E. simplify_eq/=. by rewrite (IH u' r).
Qed.

Lemma duration_part_length `{Platform} l v r : duration_part l = Some (v, r) -> (length r < length l)%nat.
Proof.
  destruct l as [|c l]; [done|]. unfold duration_part. destruct (_ || _); [|done].
  destruct (leadingInt 0 (c :: l)) as [[v0 l1]|] eqn:E1; [|done]. cbn [mbind option_bind]. apply leadingInt_length in E1.
  set (q := match l1 with [] => _ | _ => _ end). assert (length q.1.2 <= length l1)%nat as Hq.
  { subst q. destruct l1 as [|c1 l1]; [done|]. destruct (is_byte _ c1); [|done].
    destruct (leadingFraction _ _ _ l1) as [[f s] l2] eqn:E2. apply leadingFraction_length in E2. simpl. lia. }
  destruct q as [[[f s] l2] post]. simpl in Hq. destruct (_ && _); [done|].
  destruct (span_unit l2) as [u l3] eqn:E3. apply span_unit_length in E3. case_bool_decide as Hu; [done|].
  assert (length u <> 0%nat) by (by destruct u). destruct (duration_unit u); [|done]. simpl.
  destruct (_ <? v0); [done|]. destruct (_ <? _); [done|]. intros [= <- <-]. simpl in *. lia.
Qed.

(** The fuel of [duration_parts] is never what ends it. *)
Lemma duration_parts_fuel `{Platform} f g d l :
  (length l <= f)%nat -> (length l <= g)%nat -> duration_parts f d l = duration_parts g d l.
Proof.
  revert g d l. induction f as [|f IH]; intros g d l Hf Hg; (destruct l as [|c l]; [by destruct g|]); [simpl in Hf; lia|].
  destruct g as [|g]; [simpl in Hg; lia|]. cbn [duration_parts].
  destruct (duration_part (c :: l)) as [[v r]|] eqn:E; [|done]. apply duration_part_length in E. simpl in E, Hf, Hg |- *.
  destruct (_ <? _); [done|]. apply IH; lia.
Qed.
