(* ===== verification/Url.v ===== *)
(** * URLs (net/url, and strings.TrimRight)

    What the client writes into a request's URL, and, as the reference for it, what a server
    reads out of one. *)

From Stdlib Require Import Strings.Byte.
From stdpp Require Import base list strings.
From S2P Require Import Prelude Text Encoding.

(** ** Percent encoding *)

Definition alphanumeric (c : Byte.byte) : bool := byte_in 97 122 c || byte_in 65 90 c || is_digit c.

(** [shouldEscape] in the modes [encodePathSegment] and [encodeQueryComponent]. *)
Definition path_safe (c : Byte.byte) : bool :=
  alphanumeric c || existsb (fun b => is_byte b c) (str "-_.~$&+=:@").
Definition query_safe (c : Byte.byte) : bool := alphanumeric c || existsb (fun b => is_byte b c) (str "-_.~").

Definition upper_hex (v : Z) : Byte.byte := if v <? 10 then Z_byte (48 + v) else Z_byte (55 + v).
Definition percent (c : Byte.byte) : bytes := [x25; upper_hex (byte_Z c / 16); upper_hex (byte_Z c mod 16)].

(** [url.PathEscape] and [url.QueryEscape] *)
Definition PathEscape (s : bytes) : bytes := s ≫= fun c => if path_safe c then [c] else percent c.
Definition QueryEscape (s : bytes) : bytes :=
  s ≫= fun c => if query_safe c then [c] else if is_byte x20 c then [x2b] else percent c.

(** [url.PathUnescape] ([plus] unset) and [url.QueryUnescape]. *)
Fixpoint unescape_url (plus : bool) (s : bytes) : option bytes :=
  match s with
  | [] => Some []
  | c :: rest =>
      if is_byte x25 c
      then
        match rest with
        | h1 :: h2 :: rest =>
            if is_hex h1 && is_hex h2
            then rest ← unescape_url plus rest; Some (Z_byte (hex_value h1 * 16 + hex_value h2) :: rest)
            else None
        | _ => None
        end
      else rest ← unescape_url plus rest; Some ((if plus && is_byte x2b c then x20 else c) :: rest)
  end.

(** ** Query parameters ([url.Values]) *)

(** [strings.Compare] *)
Fixpoint bytes_compare (a b : bytes) : comparison :=
  match a, b with
  | [], [] => Eq
  | [], _ => Lt
  | _, [] => Gt
  | x :: a, y :: b => match Z.compare (byte_Z x) (byte_Z y) with Eq => bytes_compare a b | o => o end
  end.

(** A map with one value per key, which is all [Set] makes, kept in the order of its keys. *)
Definition Values : Type := list (bytes * bytes).

(** [values.Set(key, value)] *)
Fixpoint Values_Set (values : Values) (key value : bytes) : Values :=
  match values with
  | [] => [(key, value)]
  | (k, v) :: rest =>
      match bytes_compare key k with
      | Lt => (key, value) :: values
      | Eq => (key, value) :: rest
      | Gt => (k, v) :: Values_Set rest key value
      end
  end.

(** [values.Encode()], sorted by key. *)
Fixpoint Encode (values : Values) : bytes :=
  match values with
  | [] => []
  | [(k, v)] => QueryEscape k ++ x3d :: QueryEscape v
  | (k, v) :: rest => QueryEscape k ++ x3d :: QueryEscape v ++ x26 :: Encode rest
  end.

(** [if encoded := values.Encode(); encoded != "" { path += "?" + encoded }] *)
Definition with_query (path : bytes) (values : Values) : bytes :=
  let encoded := Encode values in
  if bool_decide (encoded = []) then path else path ++ x3f :: encoded.

(** [strings.TrimRight(s, "/")] *)
Fixpoint TrimRight_slash (s : bytes) : bytes :=
  match s with
  | [] => []
  | c :: rest =>
      match TrimRight_slash rest with
      | [] => if is_byte x2f c then [] else [c]
      | rest => c :: rest
      end
  end.

(** ** What a server reads *)

(** [strings.Split(s, sep)] for a separator of one byte. *)
Fixpoint split_on (sep : Byte.byte) (s : bytes) : list bytes :=
  match s with
  | [] => [[]]
  | c :: rest =>
      if is_byte sep c then [] :: split_on sep rest
      else match split_on sep rest with x :: xs => (c :: x) :: xs | [] => [[c]] end
  end.

(** [strings.Cut(s, sep)], without the separator when there is none. *)
Fixpoint cut (sep : Byte.byte) (s : bytes) : bytes * option bytes :=
  match s with
  | [] => ([], None)
  | c :: rest => if is_byte sep c then ([], Some rest) else let '(a, b) := cut sep rest in (c :: a, b)
  end.

(** [url.ParseQuery] of a query without semicolons. *)
Definition parse_pair (s : bytes) : option (bytes * bytes) :=
  let '(k, v) := cut x3d s in
  k ← unescape_url true k; v ← unescape_url true (default [] v); Some (k, v).
Definition ParseQuery (s : bytes) : option (list (bytes * bytes)) :=
  mapM parse_pair (List.filter (fun p => negb (bool_decide (p = []))) (split_on x26 s)).

(** A request target: the unescaped segments of its path, and its query parameters. What
    follows a [#] never reaches the server. *)
Definition read_target (target : bytes) : option (list bytes * list (bytes * bytes)) :=
  let '(target, _) := cut x23 target in
  let '(path, query) := cut x3f target in
  segments ← mapM (unescape_url false) (split_on x2f path);
  params ← ParseQuery (default [] query);
  Some (segments, params).
