(* ===== verification/UrlProps.v ===== *)
(** * Reading back what was written into a URL *)

From Stdlib Require Import Strings.Byte.
From stdpp Require Import base list strings.
From S2P Require Import Prelude Text Encoding Url.

(** ** Escaping *)

(** A unit of an escaped text: it stands for one byte, whatever comes after it. *)
Lemma unescape_escape (plus : bool) (esc : Byte.byte -> bytes) s :
  (forall c l, unescape_url plus (esc c ++ l) = (fun r => c :: r) <$> unescape_url plus l) ->
  unescape_url plus (s ≫= esc) = Some s.
Proof.
  intros H. induction s as [|c s IH]; [done|]. rewrite bind_cons, H, IH. done.
Qed.

Lemma QueryEscape_read s : unescape_url true (QueryEscape s) = Some s.
Proof.
  apply (unescape_escape true (fun c => if query_safe c then [c] else if is_byte x20 c then [x2b] else percent c)).
  intros c l. destruct (unescape_url true l) as [r|] eqn:E; destruct c; cbn; rewrite E; reflexivity.
Qed.

Lemma PathEscape_read s : unescape_url false (PathEscape s) = Some s.
Proof.
  apply (unescape_escape false (fun c => if path_safe c then [c] else percent c)).
  intros c l. destruct (unescape_url false l) as [r|] eqn:E; destruct c; cbn; rewrite E; reflexivity.
Qed.

(** Bytes that separate nothing in a URL. *)
Definition query_plain (c : Byte.byte) : bool :=
  negb (is_byte x23 c || is_byte x3f c || is_byte x26 c || is_byte x3d c).
Definition segment_plain (c : Byte.byte) : bool := negb (is_byte x23 c || is_byte x3f c || is_byte x2f c).

Lemma forallb_bind (P : Byte.byte -> bool) (f : Byte.byte -> bytes) s :
  (forall c, forallb P (f c) = true) -> forallb P (s ≫= f) = true.
Proof.
  intros H. induction s as [|c s IH]; [done|]. by rewrite bind_cons, forallb_app, H, IH.
Qed.

Lemma QueryEscape_plain s : forallb query_plain (QueryEscape s) = true.
Proof. apply forallb_bind. by intros []. Qed.

Lemma PathEscape_plain s : forallb segment_plain (PathEscape s) = true.
Proof. apply forallb_bind. by intros []. Qed.

(** ** Separators *)

Definition absent (sep : Byte.byte) (s : bytes) : bool := forallb (fun c => negb (is_byte sep c)) s.

Lemma absent_app sep s s' : absent sep (s ++ s') = absent sep s && absent sep s'.
Proof. apply forallb_app. Qed.

Lemma cut_absent sep s : absent sep s = true -> cut sep s = (s, None).
Proof.
  induction s as [|c s IH]; [done|]. simpl. intros H%andb_true_iff. destruct H as [Hc Hs].
  apply negb_true_iff in Hc. by rewrite Hc, IH.
Qed.

Lemma cut_here sep s rest : absent sep s = true -> cut sep (s ++ sep :: rest) = (s, Some rest).
Proof.
  induction s as [|c s IH]; simpl; [by rewrite is_byte_refl|]. intros H%andb_true_iff. destruct H as [Hc Hs].
  apply negb_true_iff in Hc. by rewrite Hc, IH.
Qed.

Lemma split_absent sep s : absent sep s = true -> split_on sep s = [s].
Proof.
  induction s as [|c s IH]; [done|]. simpl. intros H%andb_true_iff. destruct H as [Hc Hs].
  apply negb_true_iff in Hc. by rewrite Hc, IH.
Qed.

Lemma split_here sep s rest : absent sep s = true -> split_on sep (s ++ sep :: rest) = s :: split_on sep rest.
Proof.
  induction s as [|c s IH]; simpl; [by rewrite is_byte_refl|]. intros H%andb_true_iff. destruct H as [Hc Hs].
  apply negb_true_iff in Hc. by rewrite Hc, IH.
Qed.

Lemma absent_plain (P : Byte.byte -> bool) sep s : (forall c, P c = true -> is_byte sep c = false) ->
  forallb P s = true -> absent sep s = true.
Proof.
  intros HP. induction s as [|c s IH]; [done|]. simpl. intros H%andb_true_iff. destruct H as [Hc Hs].
  rewrite (HP c Hc), IH by done. done.
Qed.

Ltac no_separator := let c := fresh in intros c; by destruct c.

Lemma QueryEscape_absent sep s : In sep [x23; x3f; x26; x3d] -> absent sep (QueryEscape s) = true.
Proof.
  intros Hs. apply (absent_plain query_plain); [|apply QueryEscape_plain].
  repeat destruct Hs as [<-|Hs]; [no_separator..|done].
Qed.

(** ** Queries *)

Definition pair_text (p : bytes * bytes) : bytes := QueryEscape p.1 ++ x3d :: QueryEscape p.2.

Lemma Encode_cons k v values :
  Encode ((k, v) :: values) = pair_text (k, v) ++ (match values with [] => [] | _ => x26 :: Encode values end).
Proof. unfold pair_text. destruct values; simpl; by rewrite ?app_nil_r, <- ?app_assoc. Qed.

Lemma parse_pair_text p : parse_pair (pair_text p) = Some p.
Proof.
  destruct p as [k v]. unfold parse_pair, pair_text. simpl.
  rewrite cut_here by (apply QueryEscape_absent; simpl; tauto). simpl. by rewrite !QueryEscape_read.
Qed.

Lemma pair_text_absent sep p : In sep [x23; x3f; x26] -> absent sep (pair_text p) = true.
Proof.
  intros Hs. unfold pair_text. rewrite absent_app. cbn [absent forallb]. fold (absent sep (QueryEscape p.2)).
  rewrite !QueryEscape_absent by (simpl in *; tauto). by repeat destruct Hs as [<-|Hs].
Qed.

Lemma ParseQuery_Encode values : ParseQuery (Encode values) = Some values.
Proof.
  unfold ParseQuery. induction values as [|[k v] values IH]; [done|]. rewrite Encode_cons.
  assert (forall q, pair_text (k, v) = q -> negb (bool_decide (q = [])) = true) as Hq.
  { intros q <-. unfold pair_text. simpl. by destruct (QueryEscape k). }
  destruct values as [|[k' v'] values].
  - rewrite app_nil_r, split_absent by (apply pair_text_absent; simpl; tauto). simpl.
    rewrite (Hq _ eq_refl). simpl. by rewrite parse_pair_text.
  - rewrite split_here by (apply pair_text_absent; simpl; tauto). cbn [List.filter].
    rewrite (Hq _ eq_refl). cbn [mapM]. rewrite parse_pair_text. cbn [mbind option_bind]. by rewrite IH.
Qed.

Lemma Encode_absent sep values : In sep [x23; x3f] -> absent sep (Encode values) = true.
Proof.
  intros Hs. induction values as [|[k v] values IH]; [done|]. rewrite Encode_cons, absent_app.
  rewrite pair_text_absent by (simpl in *; tauto). destruct values; [done|]. cbn [absent forallb].
  change (forallb (fun c => negb (is_byte sep c)) (Encode (p :: values))) with (absent sep (Encode (p :: values))).
  rewrite IH. by repeat destruct Hs as [<-|Hs].
Qed.

Lemma Encode_nil values : Encode values = [] -> values = [].
Proof.
  destruct values as [|[k v] values]; [done|]. rewrite Encode_cons. unfold pair_text. simpl.
  by destruct (QueryEscape k).
Qed.

(** ** Targets *)

(** A segment as it is written, and what it stands for. *)
Definition segment (raw s : bytes) : Prop := unescape_url false raw = Some s /\ forallb segment_plain raw = true.

Definition path_of (raws : list bytes) : bytes := concat ((fun r => x2f :: r) <$> raws).

Lemma segment_escape s : segment (PathEscape s) s.
Proof. split; [apply PathEscape_read|apply PathEscape_plain]. Qed.

(** Text without any byte that is special in a path. *)
Definition literal (c : Byte.byte) : bool := segment_plain c && negb (is_byte x25 c).

Lemma segment_literal s : forallb literal s = true -> segment s s.
Proof.
  intros H. split.
  - induction s as [|c s IH]; [done|]. simpl in *. apply andb_true_iff in H as [Hc Hs].
    apply andb_true_iff in Hc as [_ Hc]. apply negb_true_iff in Hc. by rewrite Hc, IH.
  - rewrite forallb_forall in *. intros c Hc. by apply H, andb_true_iff in Hc as [? _].
Qed.

Lemma FormatInt_literal z : forallb literal (FormatInt z) = true.
Proof.
  assert (forall fuel z acc, 0 <= z -> forallb literal acc = true -> forallb literal (dec_digits fuel z acc) = true) as H.
  { intros fuel. induction fuel as [|fuel IH]; intros z0 acc Hz Ha; [done|]. simpl.
    pose proof (Z.mod_pos_bound z0 10 eq_refl).
    assert (forallb literal (dec_digit (z0 mod 10) :: acc) = true) as Hc.
    { simpl. rewrite Ha, andb_true_r.
      exact (all_below 10 (fun d => literal (dec_digit d)) eq_refl (z0 mod 10) H). }
    destruct (z0 <? 10); [done|]. apply IH; [apply Z.div_pos; lia|done]. }
  unfold FormatInt. destruct (z <? 0) eqn:Hs; bool_facts; [|by apply H]. apply andb_true_iff. split; [done|apply H; [lia|done]].
Qed.

Lemma segment_int z : segment (FormatInt z) (FormatInt z).
Proof. apply segment_literal, FormatInt_literal. Qed.

Lemma path_of_absent sep raws ss : In sep [x23; x3f] -> Forall2 segment raws ss -> absent sep (path_of raws) = true.
Proof.
  intros Hs. induction 1 as [|raw s raws ss [_ Hp] _ IH]; [done|].
  change (absent sep (path_of (raw :: raws))) with (negb (is_byte sep x2f) && absent sep (raw ++ path_of raws)).
  rewrite absent_app, IH.
  rewrite (absent_plain segment_plain); [|repeat destruct Hs as [<-|Hs]; [no_separator..|done]|done].
  by repeat destruct Hs as [<-|Hs].
Qed.

Lemma split_path raws ss : Forall2 segment raws ss -> split_on x2f (path_of raws) = [] :: raws.
Proof.
  intros H. assert (forall s, absent x2f s = true -> split_on x2f (s ++ path_of raws) = s :: raws) as Hg; [|by apply (Hg [])].
  induction H as [|raw s' raws ss [_ Hp] _ IH]; intros s Hs.
  - change (path_of []) with (@nil Byte.byte). rewrite app_nil_r. by apply split_absent.
  - change (path_of (raw :: raws)) with (x2f :: raw ++ path_of raws). rewrite split_here by done.
    rewrite IH; [done|]. apply (absent_plain segment_plain); [no_separator|done].
Qed.

(** What a server reads from a path of escaped segments with encoded parameters. *)
Lemma read_target_written raws ss values : Forall2 segment raws ss ->
  read_target (with_query (path_of raws) values) = Some ([] :: ss, values).
Proof.
  intros Hs. unfold read_target, with_query.
  assert (mapM (unescape_url false) ([] :: raws) = Some ([] :: ss)) as Hm.
  { apply mapM_Some_2. constructor; [done|]. eapply Forall2_impl; [done|]. by intros ? ? [? _]. }
  pose proof (path_of_absent x23 raws ss ltac:(simpl; tauto) Hs) as H1.
  pose proof (path_of_absent x3f raws ss ltac:(simpl; tauto) Hs) as H2.
  case_bool_decide as He.
  - apply Encode_nil in He as ->. rewrite cut_absent by done. rewrite cut_absent by done.
    rewrite (split_path raws ss) by done. rewrite Hm. done.
  - rewrite cut_absent; [|rewrite absent_app, H1; simpl; apply Encode_absent; simpl; tauto].
    rewrite cut_here by done. rewrite (split_path raws ss) by done. rewrite Hm. cbn [mbind option_bind]. simpl default.
    by rewrite (ParseQuery_Encode values).
Qed.
