(* ===== verification/Json.v ===== *)
(** * JSON syntax (encoding/json)

    The scanner behind [json.Valid], [json.Unmarshal] and [json.Decoder] reads one value from
    the front of the input; what it reads is a [json] tree. A value inside an array or object
    is kept with its text, which is what a [json.RawMessage] receives. *)

From Stdlib Require Import Strings.Byte.
From stdpp Require Import base list strings.
From S2P Require Import Prelude Text Encoding.

(** The rest after the byte [b] at the front, if it is there. *)
Definition after (b : Byte.byte) (l : bytes) : option bytes :=
  match l with c :: l' => if is_byte b c then Some l' else None | [] => None end.

Definition json_space (b : Byte.byte) : bool := is_byte x20 b || is_byte x09 b || is_byte x0d b || is_byte x0a b.

Fixpoint skip_space (l : bytes) : bytes :=
  match l with b :: l' => if json_space b then skip_space l' else l | [] => [] end.

(** The digits at the front, and the rest. *)
Fixpoint digits (l : bytes) : bytes * bytes :=
  match l with
  | b :: l' => if is_digit b then let '(ds, rest) := digits l' in (b :: ds, rest) else ([], l)
  | [] => ([], [])
  end.

(** A number at the front: its text and the rest. *)
Definition json_integer (l : bytes) : option (bytes * bytes) :=
  match after x30 l with
  | Some rest => Some ([x30], rest)
  | None => match digits l with ([], _) => None | (ds, rest) => Some (ds, rest) end
  end.

Definition json_fraction (l : bytes) : option (bytes * bytes) :=
  match after x2e l with
  | Some rest => match digits rest with ([], _) => None | (ds, rest') => Some (x2e :: ds, rest') end
  | None => Some ([], l)
  end.

Definition json_exponent (l : bytes) : option (bytes * bytes) :=
  match l with
  | e :: rest =>
      if is_byte x65 e || is_byte x45 e
      then
        let '(sign, rest) :=
          match rest with s :: r => if is_byte x2b s || is_byte x2d s then ([s], r) else ([], rest) | [] => ([], []) end in
        match digits rest with ([], _) => None | (ds, rest') => Some (e :: sign ++ ds, rest') end
      else Some ([], l)
  | [] => Some ([], [])
  end.

Definition json_number (l : bytes) : option (bytes * bytes) :=
  let '(sign, l) := match after x2d l with Some r => ([x2d], r) | None => ([], l) end in
  '(i, l) ← json_integer l;
  '(f, l) ← json_fraction l;
  '(e, l) ← json_exponent l;
  Some (sign ++ i ++ f ++ e, l).

(** [isValidNumber(s)] of encoding/json: the whole of [s] is a number. *)
Definition isValidNumber (s : bytes) : bool :=
  match json_number s with Some (_, []) => true | _ => false end.

(** The byte a one-letter escape stands for. *)
Definition unescape (e : Byte.byte) : option Byte.byte :=
  if is_byte x22 e then Some x22 else if is_byte x5c e then Some x5c else if is_byte x2f e then Some x2f
  else if is_byte x62 e then Some x08 else if is_byte x66 e then Some x0c else if is_byte x6e e then Some x0a
  else if is_byte x72 e then Some x0d else if is_byte x74 e then Some x09 else None.

Definition hex4 (a b c d : Byte.byte) : Z :=
  ((hex_value a * 16 + hex_value b) * 16 + hex_value c) * 16 + hex_value d.

(** *** Strings *)

(** [getu4]: the code unit of an escape of the form u0041, without its backslash. *)
Definition getu4 (l : bytes) : option (Z * bytes) :=
  match l with
  | u :: h1 :: h2 :: h3 :: h4 :: rest =>
      if is_byte x75 u && is_hex h1 && is_hex h2 && is_hex h3 && is_hex h4
      then Some (hex4 h1 h2 h3 h4, rest) else None
  | _ => None
  end.

(** The text of a string up to its closing quote, and the rest. *)
Fixpoint string_body (l : bytes) : option (bytes * bytes) :=
  match l with
  | [] => None
  | c :: rest =>
      if is_byte x22 c then Some ([], rest)
      else if is_byte x5c c
      then
        match rest with
        | e :: rest' =>
            if bool_decide (is_Some (unescape e)) || bool_decide (is_Some (getu4 rest))
            then '(s, rest) ← string_body rest'; Some (c :: e :: s, rest)
            else None
        | [] => None
        end
      else if byte_Z c <? 32 then None
      else '(s, rest) ← string_body rest; Some (c :: s, rest)
  end.

Definition is_surrogate (r : Z) : bool := (55296 <=? r) && (r <? 57344).

(** [utf16.DecodeRune] of a high and a low surrogate. *)
Definition utf16_pair (hi lo : Z) : option Z :=
  if (55296 <=? hi) && (hi <? 56320) && (56320 <=? lo) && (lo <? 57344)
  then Some ((hi - 55296) * 1024 + (lo - 56320) + 65536) else None.

(** What an escape stands for, without its backslash, and how many of the bytes after it
    belong to it: a letter, or one or two code units. *)
Definition escape_value (l : bytes) : bytes * nat :=
  match getu4 l with
  | Some (r, rest) =>
      if is_surrogate r
      then
        match rest with
        | b :: rest' =>
            match (if is_byte x5c b then getu4 rest' else None) with
            | Some (r', _) =>
                match utf16_pair r r' with Some z => (encode_rune z, 11%nat) | None => (RuneError, 5%nat) end
            | None => (RuneError, 5%nat)
            end
        | [] => (RuneError, 5%nat)
        end
      else (encode_rune r, 5%nat)
  | None => match l with e :: _ => match unescape e with Some b => ([b], 1%nat) | None => ([], 0%nat) end | [] => ([], 0%nat) end
  end.

(** [unquote] on the text between the quotes; [skip] bytes belong to an escape already
    decoded, [keep] bytes to the current rune. *)
Fixpoint unquote (skip keep : nat) (l : bytes) : bytes :=
  match l with
  | [] => []
  | c :: rest =>
      match skip, keep with
      | S skip', _ => unquote skip' keep rest
      | O, S keep' => c :: unquote 0 keep' rest
      | O, O =>
          if is_byte x5c c then let '(s, n) := escape_value rest in s ++ unquote n 0 rest
          else
            match rune_len l with
            | O => RuneError ++ unquote 0 0 rest
            | S k => c :: unquote 0 k rest
            end
      end
  end.

(** *** Values *)

Inductive json : Type :=
| JNull
| JBool (b : bool)
| JNumber (text : bytes)
| JString (s : bytes)
| JArray (items : list (bytes * json))
| JObject (members : list (bytes * (bytes * json))).

Definition expect (word rest : bytes) (v : json) : option (json * bytes) :=
  if bool_decide (take (length word) rest = word) then Some (v, drop (length word) rest) else None.

(** [maxNestingDepth] *)
Definition maxNestingDepth : Z := 10000.

(** The text in front of [rest]. *)
Definition text_before (l rest : bytes) : bytes := take (length l - length rest) l.

(** One value from the front. An array or object consumes a byte before it reads what is in
    it, and an item before the next one, so twice the length is fuel enough; [depth] counts
    the arrays and objects around the value. *)
Fixpoint json_value (fuel depth : nat) (l : bytes) {struct fuel} : option (json * bytes) :=
  match fuel with
  | O => None
  | S fuel =>
      match skip_space l with
      | [] => None
      | c :: rest =>
          if is_byte x22 c then '(s, rest) ← string_body rest; Some (JString (unquote 0 0 s), rest)
          else if is_byte x6e c then expect [x75; x6c; x6c] rest JNull
          else if is_byte x74 c then expect [x72; x75; x65] rest (JBool true)
          else if is_byte x66 c then expect [x61; x6c; x73; x65] rest (JBool false)
          else if is_byte x5b c
          then
            if maxNestingDepth <=? Z.of_nat depth then None
            else
              match after x5d (skip_space rest) with
              | Some rest => Some (JArray [], rest)
              | None => '(items, rest) ← json_items fuel (S depth) rest; Some (JArray items, rest)
              end
          else if is_byte x7b c
          then
            if maxNestingDepth <=? Z.of_nat depth then None
            else
              match after x7d (skip_space rest) with
              | Some rest => Some (JObject [], rest)
              | None => '(members, rest) ← json_members fuel (S depth) rest; Some (JObject members, rest)
              end
          else '(text, rest) ← json_number (c :: rest); Some (JNumber text, rest)
      end
  end
with json_items (fuel depth : nat) (l : bytes) {struct fuel} : option (list (bytes * json) * bytes) :=
  match fuel with
  | O => None
  | S fuel =>
      '(v, rest) ← json_value fuel depth l;
      match skip_space rest with
      | c :: rest' =>
          let item := (text_before (skip_space l) rest, v) in
          if is_byte x2c c then '(items, rest) ← json_items fuel depth rest'; Some (item :: items, rest)
          else if is_byte x5d c then Some ([item], rest')
          else None
      | [] => None
      end
  end
with json_members (fuel depth : nat) (l : bytes) {struct fuel}
    : option (list (bytes * (bytes * json)) * bytes) :=
  match fuel with
  | O => None
  | S fuel =>
      l ← after x22 (skip_space l);
      '(key, l) ← string_body l;
      l ← after x3a (skip_space l);
      '(v, rest) ← json_value fuel depth l;
      match skip_space rest with
      | c :: rest' =>
          let member := (unquote 0 0 key, (text_before (skip_space l) rest, v)) in
          if is_byte x2c c then '(members, rest) ← json_members fuel depth rest'; Some (member :: members, rest)
          else if is_byte x7d c then Some ([member], rest')
          else None
      | [] => None
      end
  end.

Definition json_scan (l : bytes) : option (json * bytes) := json_value (S (2 * length l)) 0 l.

(** [json.Valid(data)] *)
Definition Valid (data : bytes) : bool :=
  match json_scan data with
  | Some (_, rest) => bool_decide (skip_space rest = [])
  | None => false
  end.

(** [decoder.Decode(&number)] of a [json.Number] with [UseNumber]: a number, a string whose
    content is a number, or null, which leaves the number empty. *)
Definition Decode_number (data : bytes) : option (bytes * bytes) :=
  match json_scan data with
  | Some (JNumber text, rest) => Some (text, rest)
  | Some (JString s, rest) => if isValidNumber s then Some (s, rest) else None
  | Some (JNull, rest) => Some ([], rest)
  | Some _ | None => None
  end.

Example valid_1 : Valid (str " { 'a' : [ 1, -2.5e+3, true, null ] } ") = false.
Proof. reflexivity. Qed.
Example valid_2 : Valid (str " { } ") = true /\ Valid (str "[ [ ] , 1 ]") = true /\ Valid (str "[1,]") = false.
Proof. repeat split; reflexivity. Qed.
Example valid_3 : Valid (str "01") = false /\ Valid (str "-0.5E2") = true /\ Valid (str "1 2") = false.
Proof. repeat split; reflexivity. Qed.
