(* ===== verification/JsonProps.v ===== *)
(** * The JSON reader is total: the fuel is always enough

    What a value, an item list or a member list consumes, and that reading with more fuel than
    twice the input's length never changes the outcome. *)

From Stdlib Require Import Strings.Byte.
From stdpp Require Import base list strings.
From S2P Require Import Prelude Text Encoding Json.

Lemma skip_space_suffix l : exists pre, l = pre ++ skip_space l.
Proof.
  induction l as [|b l [pre IH]]; [by exists []|]. simpl. destruct (json_space b); [|by exists []].
  exists (b :: pre). simpl. by rewrite <- IH.
Qed.

Lemma after_Some b l rest : after b l = Some rest <-> l = b :: rest.
Proof.
  unfold after. destruct l as [|c l]; [done|]. destruct (is_byte b c) eqn:E.
  - apply is_byte_true in E as ->. naive_solver.
  - split; [done|]. intros [= -> ->]. by rewrite is_byte_refl in E.
Qed.

Lemma string_body_suffix l s rest : string_body l = Some (s, rest) -> l = s ++ x22 :: rest.
Proof.
  revert s rest. induction l as [l IH] using (induction_ltof1 _ (@length _)); intros s rest H.
  unfold ltof in IH. destruct l as [|c l]; [done|]. simpl in H.
  destruct (is_byte x22 c) eqn:Hq; [apply is_byte_true in Hq as ->; by simplify_eq|].
  destruct (is_byte x5c c) eqn:Hb.
  - destruct l as [|e l]; [done|]. case_match; [|done].
    destruct (string_body l) as [[s' rest']|] eqn:E; [|done]. simpl in H. simplify_eq.
    apply IH in E as ->; [done|simpl; lia].
  - case_match; [done|]. destruct (string_body l) as [[s' rest']|] eqn:E; [|done]. simpl in H. simplify_eq.
    apply IH in E as ->; [done|simpl; lia].
Qed.

Lemma digits_suffix l ds rest : digits l = (ds, rest) -> l = ds ++ rest.
Proof.
  revert ds. induction l as [|c l IH]; intros ds H; simpl in H; [by simplify_eq|].
  destruct (is_digit c); [|by simplify_eq]. destruct (digits l) as [ds' rest'] eqn:E. simplify_eq.
  simpl. by rewrite <- (IH ds').
Qed.

Lemma json_number_suffix l text rest : json_number l = Some (text, rest) -> l = text ++ rest /\ text <> [].
Proof.
  unfold json_number.
  destruct (match after x2d l with Some r => ([x2d], r) | None => ([], l) end) as [sign l1] eqn:E1.
  assert (l = sign ++ l1) as ->.
  { destruct (after x2d l) eqn:E; [apply after_Some in E as ->|]; by simplify_eq. }
  destruct (json_integer l1) as [[i l2]|] eqn:E2; [|done]. simpl.
  assert (l1 = i ++ l2 /\ i <> []) as [-> Hi].
  { unfold json_integer in E2. destruct (after x30 l1) eqn:E; [apply after_Some in E as ->; by simplify_eq|].
    destruct (digits l1) as [[|d ds] r] eqn:Ed; [done|]. simplify_eq. by apply digits_suffix in Ed. }
  destruct (json_fraction l2) as [[f l3]|] eqn:E3; [|done]. simpl.
  assert (l2 = f ++ l3) as ->.
  { unfold json_fraction in E3. destruct (after x2e l2) eqn:E; [apply after_Some in E as ->|by simplify_eq].
    destruct (digits _) as [[|d ds] r] eqn:Ed; [done|]. simplify_eq. apply digits_suffix in Ed as ->. done. }
  destruct (json_exponent l3) as [[e l4]|] eqn:E4; [|done]. simpl. intros [= <- <-].
  assert (l3 = e ++ l4) as ->.
  { unfold json_exponent in E4. destruct l3 as [|c l3]; [by simplify_eq|]. case_match; [|by simplify_eq].
    set (m := match l3 with s :: r => if is_byte x2b s || is_byte x2d s then ([s], r) else ([], l3) | [] => ([], []) end) in E4.
    destruct m as [sg l5] eqn:Em. assert (l3 = sg ++ l5) as ->.
    { clear E4. subst m. destruct l3 as [|c' l3]; [by simplify_eq|]. case_match; by simplify_eq. }
    destruct (digits l5) as [[|d ds] r] eqn:Ed; [done|]. simplify_eq. apply digits_suffix in Ed as ->.
    simpl. by rewrite <- app_assoc. }
  rewrite !app_assoc. split; [done|]. destruct sign, i; done.
Qed.

(** [rest] is what is left of [l] after at least one byte. *)
Definition consumes (l rest : bytes) : Prop := exists pre, l = pre ++ rest /\ pre <> [].

Lemma consumes_length l rest : consumes l rest -> (length rest < length l)%nat.
Proof. intros (pre & -> & H). rewrite length_app. destruct pre; [done|simpl; lia]. Qed.

Lemma consumes_app pre l rest : consumes l rest -> consumes (pre ++ l) rest.
Proof. intros (p & -> & H). exists (pre ++ p). rewrite app_assoc. split; [done|]. by destruct pre. Qed.

Lemma consumes_cons c l : consumes (c :: l) l.
Proof. by exists [c]. Qed.

Lemma consumes_trans l l' l'' : consumes l l' -> consumes l' l'' -> consumes l l''.
Proof. intros (p & -> & ?). apply consumes_app. Qed.

Lemma consumes_skip l rest : consumes (skip_space l) rest -> consumes l rest.
Proof. intros H. destruct (skip_space_suffix l) as [pre E]. rewrite E. by apply consumes_app. Qed.

Lemma skip_consumes l rest c : skip_space l = c :: rest -> consumes l rest.
Proof. intros H. apply consumes_skip. rewrite H. apply consumes_cons. Qed.

Lemma after_consumes b l rest : after b l = Some rest -> consumes l rest.
Proof. intros ->%after_Some. apply consumes_cons. Qed.

Lemma string_body_consumes l s rest : string_body l = Some (s, rest) -> consumes l rest.
Proof. intros ->%string_body_suffix. apply consumes_app, consumes_cons. Qed.

Lemma json_number_consumes l text rest : json_number l = Some (text, rest) -> consumes l rest.
Proof. intros [-> ?]%json_number_suffix. by exists text. Qed.

Lemma expect_suffix word rest v v' rest' : expect word rest v = Some (v', rest') -> rest = word ++ rest' /\ v = v'.
Proof.
  unfold expect. case_bool_decide as E; [|done]. intros [= <- <-]. split; [|done].
  rewrite <- (take_drop (length word) rest) at 1. by rewrite E.
Qed.

(** A reading of [l] that more fuel than [n] does not change. *)
Definition stable {A} (read : nat -> bytes -> option (A * bytes)) (n : nat) (l : bytes) (v : A) (rest : bytes) : Prop :=
  consumes l rest /\ forall g, (n < g)%nat -> read g l = Some (v, rest).

Definition reads_stably (f : nat) : Prop :=
  (forall d l v rest, json_value f d l = Some (v, rest) ->
     stable (fun g => json_value g d) (2 * length l) l v rest) /\
  (forall d l v rest, json_items f d l = Some (v, rest) ->
     stable (fun g => json_items g d) (2 * length l + 1) l v rest) /\
  (forall d l v rest, json_members f d l = Some (v, rest) ->
     stable (fun g => json_members g d) (2 * length l + 1) l v rest).

Section step.
Context (f : nat) (IH : reads_stably f).

(** Replays the branches a reading took. *)
Local Ltac replay :=
  repeat match goal with
  | E : ?a = Some _ |- context [?a] => rewrite E; cbn [mbind option_bind]
  | E : ?a = None |- context [?a] => rewrite E
  | E : ?a = true |- context [?a] => rewrite E
  | E : ?a = false |- context [?a] => rewrite E
  | E : ?a = _ :: _ |- context [?a] => rewrite E
  end; try reflexivity.

Lemma json_value_stable d l v rest : json_value (S f) d l = Some (v, rest) ->
  stable (fun g => json_value g d) (2 * length l) l v rest.
Proof using IH.
  destruct IH as (_ & IHi & IHm). intros H. cbn [json_value] in H.
  destruct (skip_space l) as [|c l'] eqn:Hs; [done|]. pose proof (skip_consumes _ _ _ Hs) as Hc.
  pose proof (consumes_length _ _ Hc) as Hlen.
  destruct (is_byte x22 c) eqn:E1.
  { destruct (string_body l') as [[s r]|] eqn:E; simplify_eq/=.
    split; [by eapply consumes_trans, string_body_consumes|].
    intros [|g] Hg; [lia|]. cbn [json_value]. replay. }
  assert (forall word v', expect word l' v' = Some (v, rest) -> consumes l rest) as Hw.
  { intros word v' [-> _]%expect_suffix. destruct Hc as (p & -> & Hp). exists (p ++ word).
    split; [by rewrite app_assoc|by destruct p]. }
  assert (forall b l1, after b (skip_space l') = Some l1 -> consumes l l1) as Ha.
  { intros b l1 E. eapply consumes_trans; [done|]. by eapply consumes_skip, after_consumes. }
  do 3 (case_match; [split; [by eapply Hw|intros [|g] Hg; [lia|]; cbn [json_value]; by replay]|]).
  case_match.
  { case_match; [done|]. destruct (after x5d (skip_space l')) eqn:E; simplify_eq/=.
    - split; [by eapply Ha|]. intros [|g] Hg; [lia|]. cbn [json_value]. replay.
    - destruct (json_items f (S d) l') as [[vs r]|] eqn:Ei; simplify_eq/=. apply IHi in Ei as [Hr Hg].
      split; [by eapply consumes_trans|]. intros [|g] Hlt; [lia|]. cbn [json_value].
      specialize (Hg g ltac:(lia)). cbv beta in Hg. replay. }
  case_match.
  { case_match; [done|]. destruct (after x7d (skip_space l')) eqn:E; simplify_eq/=.
    - split; [by eapply Ha|]. intros [|g] Hg; [lia|]. cbn [json_value]. replay.
    - destruct (json_members f (S d) l') as [[vs r]|] eqn:Ei; simplify_eq/=. apply IHm in Ei as [Hr Hg].
      split; [by eapply consumes_trans|]. intros [|g] Hlt; [lia|]. cbn [json_value].
      specialize (Hg g ltac:(lia)). cbv beta in Hg. replay. }
  destruct (json_number (c :: l')) as [[t r]|] eqn:E; simplify_eq/=.
  split; [apply consumes_skip; rewrite Hs; by eapply json_number_consumes|].
  intros [|g] Hg; [lia|]. cbn [json_value]. replay.
Qed.

Lemma json_items_stable d l v rest : json_items (S f) d l = Some (v, rest) ->
  stable (fun g => json_items g d) (2 * length l + 1) l v rest.
Proof using IH.
  destruct IH as (IHv & IHi & _). intros H. cbn [json_items] in H.
  destruct (json_value f d l) as [[w r]|] eqn:E; [|done]. cbn [mbind option_bind] in H.
  apply IHv in E as [Hr Hg]. pose proof (consumes_length _ _ Hr).
  destruct (skip_space r) as [|c r'] eqn:Hs; [done|]. pose proof (skip_consumes _ _ _ Hs) as Hc.
  pose proof (consumes_length _ _ Hc). case_match.
  - destruct (json_items f d r') as [[vs r'']|] eqn:Ei; simplify_eq/=. apply IHi in Ei as [Hr' Hg'].
    split; [eapply consumes_trans; [done|]; by eapply consumes_trans|]. intros [|g] Hlt; [lia|].
    cbn [json_items]. specialize (Hg g ltac:(lia)). specialize (Hg' g ltac:(lia)). cbv beta in *. replay.
  - case_match; [|done]. simplify_eq/=. split; [by eapply consumes_trans|]. intros [|g] Hlt; [lia|].
    cbn [json_items]. specialize (Hg g ltac:(lia)). cbv beta in *. replay.
Qed.

Lemma json_members_stable d l v rest : json_members (S f) d l = Some (v, rest) ->
  stable (fun g => json_members g d) (2 * length l + 1) l v rest.
Proof using IH.
  destruct IH as (IHv & _ & IHm). intros H. cbn [json_members] in H.
  destruct (after x22 (skip_space l)) as [l1|] eqn:E1; [|done]. cbn [mbind option_bind] in H.
  destruct (string_body l1) as [[key l2]|] eqn:E2; [|done]. cbn [mbind option_bind] in H.
  destruct (after x3a (skip_space l2)) as [l3|] eqn:E3; [|done]. cbn [mbind option_bind] in H.
  destruct (json_value f d l3) as [[w r]|] eqn:E; [|done]. cbn [mbind option_bind] in H.
  assert (consumes l l3) as Hl3.
  { eapply consumes_trans; [by eapply consumes_skip, after_consumes|].
    eapply consumes_trans; [by eapply string_body_consumes|]. by eapply consumes_skip, after_consumes. }
  apply IHv in E as [Hr Hg]. pose proof (consumes_length _ _ Hr). pose proof (consumes_length _ _ Hl3).
  destruct (skip_space r) as [|c r'] eqn:Hs; [done|]. pose proof (skip_consumes _ _ _ Hs) as Hc.
  pose proof (consumes_length _ _ Hc). case_match.
  - destruct (json_members f d r') as [[vs r'']|] eqn:Ei; simplify_eq/=. apply IHm in Ei as [Hr' Hg'].
    split; [exact (consumes_trans _ _ _ Hl3 (consumes_trans _ _ _ Hr (consumes_trans _ _ _ Hc Hr')))|].
    intros [|g] Hlt; [lia|]. cbn [json_members]. specialize (Hg g ltac:(lia)). specialize (Hg' g ltac:(lia)). cbv beta in *. replay.
  - case_match; [|done]. simplify_eq/=. split; [exact (consumes_trans _ _ _ Hl3 (consumes_trans _ _ _ Hr Hc))|].
    intros [|g] Hlt; [lia|]. cbn [json_members]. specialize (Hg g ltac:(lia)). cbv beta in *. replay.
Qed.
End step.

Lemma json_reads_stably f : reads_stably f.
Proof.
  induction f as [|f IH]; [split_and!; done|]. split_and!;
    intros; [by apply (json_value_stable f)|by apply (json_items_stable f)|by apply (json_members_stable f)].
Qed.

(** The fuel of [json_scan] is enough: whatever fuel reads a value, [json_scan] reads it too. *)
Lemma json_scan_complete f l v rest : json_value f 0 l = Some (v, rest) -> json_scan l = Some (v, rest).
Proof. intros H. apply (json_reads_stably f) in H as [_ H]. apply H. lia. Qed.

Lemma json_value_more f d l v rest g :
  json_value f d l = Some (v, rest) -> (2 * length l < g)%nat -> json_value g d l = Some (v, rest).
Proof. intros H Hg. apply (json_reads_stably f) in H as [_ H]. by apply H. Qed.
