(* ===== verification/JsonLocal.v ===== *)
(** * Reading a value does not depend on what follows it

    What [json_value] reads from a text it reads from any longer text too, unless the value is
    a number that ends with the text and what follows would continue it. *)

From Stdlib Require Import Strings.Byte.
From stdpp Require Import base list strings.
From S2P Require Import Prelude Text Encoding Json JsonProps.

(** Nothing at the front of [tail] continues a number. *)
Definition num_end (tail : bytes) : bool :=
  match tail with [] => true | c :: _ => negb (is_digit c || is_byte x2e c || is_byte x65 c || is_byte x45 c) end.

(** What is read with [rest] left may be followed by [tail]. *)
Definition may_follow (rest tail : bytes) : Prop := rest <> [] \/ num_end tail = true.

Lemma num_end_not c tail : num_end (c :: tail) = true ->
  is_digit c = false /\ is_byte x2e c = false /\ is_byte x65 c = false /\ is_byte x45 c = false.
Proof. simpl. intros H%negb_true_iff. bool_facts. by repeat match goal with H : _ /\ _ |- _ => destruct H end. Qed.

Lemma digits_app l tail ds rest : digits l = (ds, rest) -> may_follow rest tail ->
  digits (l ++ tail) = (ds, rest ++ tail).
Proof.
  revert ds. induction l as [|c l IH]; intros ds H Hf; simpl in H.
  - simplify_eq. destruct Hf as [|Hf]; [done|]. destruct tail as [|c tail]; [done|].
    apply num_end_not in Hf as (Hd & _). simpl. by rewrite Hd.
  - simpl. destruct (is_digit c) eqn:Hd; [|by simplify_eq].
    destruct (digits l) as [ds' r] eqn:E. simplify_eq. by rewrite (IH ds').
Qed.

Lemma after_here b l : after b (b :: l) = Some l.
Proof. by apply after_Some. Qed.

Lemma after_app b l tail rest : after b l = Some rest -> after b (l ++ tail) = Some (rest ++ tail).
Proof. intros ->%after_Some. simpl. by rewrite is_byte_refl. Qed.

Lemma after_None_app b l tail : after b l = None -> l <> [] -> after b (l ++ tail) = None.
Proof. destruct l as [|c l]; [done|]. simpl. by destruct (is_byte b c). Qed.

Lemma num_end_after b tail : num_end tail = true -> b = x2e -> after b tail = None.
Proof. destruct tail as [|c tail]; [done|]. intros (_ & H & _)%num_end_not ->. simpl. by rewrite H. Qed.

Lemma json_integer_app l tail i rest : json_integer l = Some (i, rest) -> may_follow rest tail ->
  json_integer (l ++ tail) = Some (i, rest ++ tail).
Proof.
  unfold json_integer. intros H Hf. destruct (after x30 l) as [r|] eqn:E.
  - rewrite (after_app _ _ _ _ E). by simplify_eq.
  - destruct (digits l) as [[|d ds] r] eqn:Ed; [done|]. simplify_eq.
    rewrite after_None_app by (try done; by intros ->). by rewrite (digits_app _ _ _ _ Ed Hf).
Qed.

Lemma json_fraction_app l tail f rest : json_fraction l = Some (f, rest) -> may_follow rest tail ->
  json_fraction (l ++ tail) = Some (f, rest ++ tail).
Proof.
  unfold json_fraction. intros H Hf. destruct (after x2e l) as [r|] eqn:E.
  - rewrite (after_app _ _ _ _ E). destruct (digits r) as [[|d ds] r'] eqn:Ed; [done|]. simplify_eq.
    by rewrite (digits_app _ _ _ _ Ed Hf).
  - simplify_eq. destruct rest as [|c rest].
    + destruct Hf as [|Hf]; [done|]. simpl. by rewrite num_end_after.
    + by rewrite after_None_app.
Qed.

Lemma json_exponent_app l tail e rest : json_exponent l = Some (e, rest) -> may_follow rest tail ->
  json_exponent (l ++ tail) = Some (e, rest ++ tail).
Proof.
  unfold json_exponent. intros H Hf. destruct l as [|c l].
  - simplify_eq. destruct Hf as [|Hf]; [done|]. destruct tail as [|c tail]; [done|]. simpl.
    apply num_end_not in Hf as (_ & _ & H1 & H2). by rewrite H1, H2.
  - simpl. destruct (_ || _); [|by simplify_eq].
    destruct l as [|s l]; simpl in *; [done|].
    destruct (is_byte x2b s || is_byte x2d s).
    + destruct (digits l) as [[|d ds] r'] eqn:Ed; [done|]. simplify_eq. by rewrite (digits_app _ _ _ _ Ed Hf).
    + change (match digits (s :: l) with ([], _) => None | (ds, rest') => Some (c :: [] ++ ds, rest') end
              = Some (e, rest)) in H.
      change (match digits ((s :: l) ++ tail) with ([], _) => None | (ds, rest') => Some (c :: [] ++ ds, rest') end
              = Some (e, rest ++ tail)).
      destruct (digits (s :: l)) as [[|d ds] r'] eqn:Ed; [done|]. simplify_eq.
      by rewrite (digits_app _ _ _ _ Ed Hf).
Qed.

Lemma json_number_app l tail text rest : json_number l = Some (text, rest) -> may_follow rest tail ->
  json_number (l ++ tail) = Some (text, rest ++ tail).
Proof.
  unfold json_number. intros H Hf.
  destruct (match after x2d l with Some r => ([x2d], r) | None => ([], l) end) as [sign l1] eqn:E1.
  destruct (json_integer l1) as [[i l2]|] eqn:E2; [|done]. simpl in H.
  destruct (json_fraction l2) as [[f l3]|] eqn:E3; [|done]. simpl in H.
  destruct (json_exponent l3) as [[e l4]|] eqn:E4; [|done]. simpl in H. simplify_eq.
  assert (may_follow l3 tail) as Hf3.
  { destruct l3; [|by left]. destruct Hf as [Hf|Hf]; [|by right]. simpl in E4. by simplify_eq. }
  assert (may_follow l2 tail) as Hf2.
  { destruct l2; [|by left]. destruct Hf3 as [Hf3|Hf3]; [|by right]. cbv in E3. by simplify_eq. }
  assert ((match after x2d (l ++ tail) with Some r => ([x2d], r) | None => ([], l ++ tail) end) = (sign, l1 ++ tail)) as ->.
  { destruct (after x2d l) as [r|] eqn:E.
    - rewrite (after_app _ _ _ _ E). by simplify_eq.
    - simplify_eq. rewrite after_None_app; [done..|]. intros ->. by cbv in E2. }
  rewrite (json_integer_app _ _ _ _ E2) by done. simpl. rewrite (json_fraction_app _ _ _ _ E3) by done. simpl.
  by rewrite (json_exponent_app _ _ _ _ E4).
Qed.

Lemma string_body_app l tail s rest :
  string_body l = Some (s, rest) -> string_body (l ++ tail) = Some (s, rest ++ tail).
Proof.
  revert s rest. induction l as [l IH] using (induction_ltof1 _ (@length _)); intros s rest H.
  unfold ltof in IH. destruct l as [|c l]; [done|]. cbn [string_body app] in H |- *.
  destruct (is_byte x22 c); [by simplify_eq|]. destruct (is_byte x5c c).
  - destruct l as [|e l]; [done|]. cbn [app].
    assert (forall u, getu4 (e :: l) = Some u -> is_Some (getu4 (e :: l ++ tail))) as Hu.
    { intros u Hu. destruct l as [|h1 [|h2 [|h3 [|h4 l]]]]; [done..|]. simpl in Hu |- *. by case_match. }
    case_match eqn:Hc; [|done]. apply orb_true_iff in Hc.
    assert (bool_decide (is_Some (unescape e)) || bool_decide (is_Some (getu4 (e :: l ++ tail))) = true) as ->.
    { apply orb_true_iff. destruct Hc as [Hc|Hc]; [by left|right].
      apply bool_decide_eq_true in Hc as [u Hc]. apply bool_decide_eq_true. by eapply Hu. }
    destruct (string_body l) as [[s' r]|] eqn:E; simplify_eq/=. by rewrite (IH l ltac:(simpl; lia) _ _ E).
  - case_match; [done|]. destruct (string_body l) as [[s' r]|] eqn:E; simplify_eq/=.
    by rewrite (IH l ltac:(simpl; lia) _ _ E).
Qed.

Lemma skip_space_app l tail : skip_space l <> [] -> skip_space (l ++ tail) = skip_space l ++ tail.
Proof. induction l as [|c l IH]; [done|]. simpl. destruct (json_space c); auto. Qed.

Lemma skip_space_cons_app l tail c l' : skip_space l = c :: l' -> skip_space (l ++ tail) = c :: l' ++ tail.
Proof. intros H. by rewrite skip_space_app, H by (by rewrite H). Qed.

Lemma expect_app word l tail v v' rest : expect word l v = Some (v', rest) -> expect word (l ++ tail) v = Some (v', rest ++ tail).
Proof.
  intros H. apply expect_suffix in H as [-> ->]. unfold expect. rewrite <- app_assoc, take_app_length, drop_app_length.
  by rewrite bool_decide_true.
Qed.

Lemma text_before_app a b tail : (length b <= length a)%nat -> text_before (a ++ tail) (b ++ tail) = text_before a b.
Proof. intros. unfold text_before. rewrite !length_app, take_app_le by lia. f_equal. lia. Qed.

(** There is no value in white space. *)
Lemma json_value_blank f d l : skip_space l = [] -> json_value f d l = None.
Proof. intros H. destruct f; [done|]. cbn [json_value]. by rewrite H. Qed.

Lemma json_items_blank f d l : skip_space l = [] -> json_items f d l = None.
Proof. intros H. destruct f; [done|]. cbn [json_items]. by rewrite json_value_blank. Qed.

Lemma json_members_blank f d l : skip_space l = [] -> json_members f d l = None.
Proof. intros H. destruct f; [done|]. cbn [json_members]. by rewrite H. Qed.

(** The three readers at one amount of fuel. *)
Definition local_at (f : nat) : Prop :=
  (forall d l v rest tail, json_value f d l = Some (v, rest) -> may_follow rest tail ->
     json_value f d (l ++ tail) = Some (v, rest ++ tail)) /\
  (forall d l v rest tail, json_items f d l = Some (v, rest) -> json_items f d (l ++ tail) = Some (v, rest ++ tail)) /\
  (forall d l v rest tail, json_members f d l = Some (v, rest) -> json_members f d (l ++ tail) = Some (v, rest ++ tail)).

Section step.
Context (f : nat) (IH : local_at f).

Lemma json_value_local d l v rest tail : json_value (S f) d l = Some (v, rest) -> may_follow rest tail ->
  json_value (S f) d (l ++ tail) = Some (v, rest ++ tail).
Proof using IH.
  destruct IH as (_ & IHi & IHm). intros H Hf. cbn [json_value] in H |- *.
  destruct (skip_space l) as [|c l'] eqn:Hs; [done|]. rewrite (skip_space_cons_app _ _ _ _ Hs).
  destruct (is_byte x22 c).
  { destruct (string_body l') as [[s r]|] eqn:E; simplify_eq/=. by rewrite (string_body_app _ _ _ _ E). }
  do 3 (case_match; [by apply expect_app|]).
  case_match.
  { case_match; [done|]. destruct (after x5d (skip_space l')) as [r|] eqn:E.
    - apply after_Some in E. rewrite (skip_space_cons_app _ _ _ _ E). simpl. by simplify_eq/=.
    - destruct (json_items f (S d) l') as [[vs r]|] eqn:Ei; simplify_eq/=.
      destruct (skip_space l') as [|c' l''] eqn:Hs'.
      { by rewrite json_items_blank in Ei. }
      rewrite (skip_space_cons_app _ _ _ _ Hs'). pose proof (after_None_app _ _ tail E) as E'. simpl app in E'.
      rewrite E' by done. by rewrite (IHi _ _ _ _ tail Ei). }
  case_match.
  { case_match; [done|]. destruct (after x7d (skip_space l')) as [r|] eqn:E.
    - apply after_Some in E. rewrite (skip_space_cons_app _ _ _ _ E). simpl. by simplify_eq/=.
    - destruct (json_members f (S d) l') as [[vs r]|] eqn:Ei; simplify_eq/=.
      destruct (skip_space l') as [|c' l''] eqn:Hs'.
      { by rewrite json_members_blank in Ei. }
      rewrite (skip_space_cons_app _ _ _ _ Hs'). pose proof (after_None_app _ _ tail E) as E'. simpl app in E'.
      rewrite E' by done. by rewrite (IHm _ _ _ _ tail Ei). }
  destruct (json_number (c :: l')) as [[t r]|] eqn:E; simplify_eq/=.
  pose proof (json_number_app _ _ _ _ E Hf) as E'. simpl app in E'. by rewrite E'.
Qed.

(** What a reader leaves after the value it read from [l], spaces skipped. *)
Lemma value_leaves g d l v rest : json_value g d l = Some (v, rest) -> (length rest <= length (skip_space l))%nat.
Proof.
  destruct g as [|g]; [done|]. intros H.
  assert (json_value (S g) d (skip_space l) = Some (v, rest)) as H'.
  { rewrite <- H. cbn [json_value]. assert (skip_space (skip_space l) = skip_space l) as ->; [|done].
    clear. induction l as [|c l IHl]; [done|]. simpl. destruct (json_space c) eqn:E; [done|]. simpl. by rewrite E. }
  apply (json_reads_stably (S g)) in H' as [Hc%consumes_length _]. lia.
Qed.

Lemma json_items_local d l v rest tail : json_items (S f) d l = Some (v, rest) ->
  json_items (S f) d (l ++ tail) = Some (v, rest ++ tail).
Proof using IH.
  destruct IH as (IHv & IHi & _). intros H. cbn [json_items] in H |- *.
  destruct (json_value f d l) as [[w r]|] eqn:E; [|done]. cbn [mbind option_bind] in H.
  destruct (skip_space r) as [|c r'] eqn:Hs; [done|]. pose proof (value_leaves _ _ _ _ _ E) as Hlen.
  rewrite (IHv _ _ _ _ tail E) by (left; by intros ->). cbn [mbind option_bind].
  rewrite (skip_space_cons_app _ _ _ _ Hs).
  assert (text_before (skip_space (l ++ tail)) (r ++ tail) = text_before (skip_space l) r) as ->.
  { rewrite skip_space_app; [by apply text_before_app|]. intros E'. rewrite E' in Hlen. destruct r; [done|simpl in Hlen; lia]. }
  case_match.
  - destruct (json_items f d r') as [[vs r'']|] eqn:Ei; simplify_eq/=. by rewrite (IHi _ _ _ _ tail Ei).
  - case_match; by simplify_eq/=.
Qed.

Lemma json_members_local d l v rest tail : json_members (S f) d l = Some (v, rest) ->
  json_members (S f) d (l ++ tail) = Some (v, rest ++ tail).
Proof using IH.
  destruct IH as (IHv & _ & IHm). intros H. cbn [json_members] in H |- *.
  destruct (after x22 (skip_space l)) as [l1|] eqn:E1; [|done]. cbn [mbind option_bind] in H.
  destruct (string_body l1) as [[key l2]|] eqn:E2; [|done]. cbn [mbind option_bind] in H.
  destruct (after x3a (skip_space l2)) as [l3|] eqn:E3; [|done]. cbn [mbind option_bind] in H.
  destruct (json_value f d l3) as [[w r]|] eqn:E; [|done]. cbn [mbind option_bind] in H.
  destruct (skip_space r) as [|c r'] eqn:Hs; [done|]. pose proof (value_leaves _ _ _ _ _ E) as Hlen.
  apply after_Some in E1, E3. rewrite (skip_space_cons_app _ _ _ _ E1), after_here.
  cbn [mbind option_bind]. rewrite (string_body_app _ _ _ _ E2). cbn [mbind option_bind].
  rewrite (skip_space_cons_app _ _ _ _ E3), after_here. cbn [mbind option_bind].
  rewrite (IHv _ _ _ _ tail E) by (left; by intros ->). cbn [mbind option_bind].
  rewrite (skip_space_cons_app _ _ _ _ Hs).
  assert (text_before (skip_space (l3 ++ tail)) (r ++ tail) = text_before (skip_space l3) r) as ->.
  { rewrite skip_space_app; [by apply text_before_app|]. intros E'. rewrite E' in Hlen. destruct r; [done|simpl in Hlen; lia]. }
  case_match.
  - destruct (json_members f d r') as [[vs r'']|] eqn:Ei; simplify_eq/=. by rewrite (IHm _ _ _ _ tail Ei).
  - case_match; by simplify_eq/=.
Qed.
End step.

Lemma json_local f : local_at f.
Proof.
  induction f as [|f IH]; [by split_and!|]. split_and!; intros.
  - by apply json_value_local.
  - by apply json_items_local.
  - by apply json_members_local.
Qed.

Lemma json_value_app f d l v rest tail : json_value f d l = Some (v, rest) -> may_follow rest tail ->
  json_value f d (l ++ tail) = Some (v, rest ++ tail).
Proof. destruct (json_local f) as (H & _ & _). apply H. Qed.
