(* ===== verification/JsonMarshal.v ===== *)
(** * Writing JSON (json.Marshal)

    What a request body is made of, as a tree: a struct is the list of its fields that are
    not omitted. [marshal] is [json.Marshal] with its HTML escaping. *)

From Stdlib Require Import Strings.Byte.
From stdpp Require Import base list strings.
From S2P Require Import Prelude Text Encoding Json JsonProps.

Inductive jout : Type :=
| ONull                           (* a nil pointer *)
| OInt (z : Z)
| OBool (b : bool)
| OString (s : bytes)
| OBytes (b : option bytes)       (* []byte, nil or not *)
| ORaw (raw : option bytes)       (* json.RawMessage, nil or not *)
| OObject (fields : list (bytes * jout)).

Definition hex_digit (v : Z) : Byte.byte := if v <? 10 then Z_byte (48 + v) else Z_byte (87 + v).

(** [\u00xx] *)
Definition u_escape (c : Byte.byte) : bytes :=
  [x5c; x75; x30; x30; hex_digit (byte_Z c / 16); hex_digit (byte_Z c mod 16)].

Definition html_byte (c : Byte.byte) : bool := is_byte x3c c || is_byte x3e c || is_byte x26 c.

(** One byte below 128: [htmlSafeSet] and the escapes of [appendString]. *)
Definition quote_ascii (c : Byte.byte) : bytes :=
  if is_byte x22 c || is_byte x5c c then [x5c; c]
  else if is_byte x08 c then [x5c; x62] else if is_byte x0c c then [x5c; x66]
  else if is_byte x0a c then [x5c; x6e] else if is_byte x0d c then [x5c; x72]
  else if is_byte x09 c then [x5c; x74]
  else if (byte_Z c <? 32) || html_byte c then u_escape c
  else [c].

(** U+2028 or U+2029 at the front: the last hexadecimal digit of its escape. *)
Definition line_separator (l : bytes) : option Byte.byte :=
  match l with
  | a :: b :: c :: _ =>
      if is_byte xe2 a && is_byte x80 b then
        if is_byte xa8 c then Some x38 else if is_byte xa9 c then Some x39 else None
      else None
  | _ => None
  end.

(** [appendString] between its quotes; [skip] bytes are already written as an escape, [keep]
    bytes belong to the current rune. *)
Fixpoint quote_body (skip keep : nat) (l : bytes) : bytes :=
  match l with
  | [] => []
  | c :: rest =>
      match skip, keep with
      | S skip', _ => quote_body skip' keep rest
      | O, S keep' => c :: quote_body 0 keep' rest
      | O, O =>
          if byte_in 0 127 c then quote_ascii c ++ quote_body 0 0 rest
          else
            match line_separator l with
            | Some d => [x5c; x75; x32; x30; x32; d] ++ quote_body 2 0 rest
            | None =>
                match rune_len l with
                | O => str "\ufffd" ++ quote_body 0 0 rest
                | S k => c :: quote_body 0 k rest
                end
            end
      end
  end.

Definition quote (s : bytes) : bytes := x22 :: quote_body 0 0 s ++ [x22].

(** Where [appendCompact] is: outside strings, in one, or behind a backslash in one. *)
Inductive compact_state : Type := CSOut | CSString | CSEscape.

Definition compact_next (st : compact_state) (c : Byte.byte) : compact_state :=
  match st with
  | CSOut => if is_byte x22 c then CSString else CSOut
  | CSString => if is_byte x22 c then CSOut else if is_byte x5c c then CSEscape else CSString
  | CSEscape => CSString
  end.

(** [appendCompact] with HTML escaping on valid input; [skip] bytes are already written. *)
Fixpoint compact (st : compact_state) (skip : nat) (l : bytes) : bytes :=
  match l with
  | [] => []
  | c :: rest =>
      match skip with
      | S skip' => compact st skip' rest
      | O =>
          if html_byte c then u_escape c ++ compact (compact_next st c) 0 rest
          else
            match line_separator l with
            | Some d => [x5c; x75; x32; x30; x32; d] ++ compact st 2 rest
            | None =>
                match st with
                | CSOut => if json_space c then compact CSOut 0 rest else c :: compact (compact_next st c) 0 rest
                | _ => c :: compact (compact_next st c) 0 rest
                end
            end
      end
  end.

(** Commas between the fields. *)
Definition comma_sep (l : list bytes) : bytes :=
  match l with [] => [] | x :: l => x ++ concat ((fun y => x2c :: y) <$> l) end.

(** [json.Marshal]; [None] is an error, the one of a RawMessage that is not JSON. *)
Fixpoint marshal (v : jout) : option bytes :=
  match v with
  | ONull => Some (str "null")
  | OInt z => Some (FormatInt z)
  | OBool b => Some (if b then str "true" else str "false")
  | OString s => Some (quote s)
  | OBytes None | ORaw None => Some (str "null")
  | OBytes (Some b) => Some (quote (b64_encode b))
  | ORaw (Some raw) => if Valid raw then Some (compact CSOut 0 raw) else None
  | OObject fields =>
      texts ← mapM (fun '(name, v) => t ← marshal v; Some (quote name ++ x3a :: t)) fields;
      Some (x7b :: comma_sep texts ++ [x7d])
  end.

(** [omitempty] on a field that is empty. *)
Definition omit (empty : bool) (name : string) (v : jout) : list (bytes * jout) :=
  if empty then [] else [(str name, v)].
Definition always (name : string) (v : jout) : list (bytes * jout) := [(str name, v)].
Definition OStr (s : string) : jout := OString (str s).
(** A pointer with [omitempty]. *)
Definition omit_nil {A} (name : string) (p : option A) (f : A -> jout) : list (bytes * jout) :=
  match p with None => [] | Some a => [(str name, f a)] end.

Example marshal_1 :
  marshal (OObject (always "a" (OInt (-12)) ++ omit true "b" ONull ++ always "c" (OString [x3c; x0a; xff])))
  = Some (str "{" ++ quote (str "a") ++ str ":-12," ++ quote (str "c") ++ str ":" ++ [x22] ++
          str "\u003c\n\ufffd" ++ [x22] ++ str "}").
Proof. reflexivity. Qed.
