(* ===== verification/JsonCodec.v ===== *)
(** * What [json.Marshal] writes is read back

    A written tree is read as [tree v], whatever follows it: strings that are valid UTF-8 come
    back unchanged, integers as their digits, byte slices as base64, a RawMessage as its
    compacted text. *)

From Stdlib Require Import Strings.Byte.
From stdpp Require Import base list strings.
From S2P Require Import Prelude Text Encoding Json JsonProps JsonLocal JsonMarshal.

(** ** Strings *)

(** A piece [q] of a quoted string that stands for [p]. *)
Definition stands_for (q p : bytes) : Prop :=
  (forall l, string_body (q ++ l) = '(s, r) ← string_body l; Some (q ++ s, r)) /\
  (forall l, unquote 0 0 (q ++ l) = p ++ unquote 0 0 l).

Lemma stands_for_app q q' p p' : stands_for q p -> stands_for q' p' -> stands_for (q ++ q') (p ++ p').
Proof.
  intros [H1 H2] [H1' H2']. split; intros l; rewrite <- app_assoc.
  - rewrite H1, H1'. destruct (string_body l) as [[s r]|]; [|done]. simpl. by rewrite app_assoc.
  - by rewrite H2, H2', app_assoc.
Qed.

Lemma stands_for_nil : stands_for [] [].
Proof. split; intros l; [|done]. simpl. by destruct (string_body l) as [[s r]|]. Qed.

Lemma unquote_escape e b l : unescape e = Some b -> unquote 0 0 ([x5c; e] ++ l) = [b] ++ unquote 0 0 l.
Proof.
  intros He. assert (getu4 (e :: l) = None) as Hu.
  { destruct l as [|h1 [|h2 [|h3 [|h4 l]]]]; [done..|]. simpl. assert (is_byte x75 e = false) as ->; [|done].
    by destruct e. }
  simpl app. cbn [unquote]. rewrite is_byte_refl. unfold escape_value. by rewrite Hu, He.
Qed.

Lemma quote_ascii_stands c : byte_in 0 127 c = true -> stands_for (quote_ascii c) [c].
Proof.
  intros Hc. split; intros l.
  - destruct (string_body l) as [[s r]|] eqn:E; destruct c; try discriminate Hc; cbn; rewrite E; reflexivity.
  - destruct c; try discriminate Hc; try reflexivity; by apply unquote_escape.
Qed.

(** The separators U+2028 and U+2029. *)
Lemma line_separator_stands l d : line_separator l = Some d ->
  exists p l', l = p ++ l' /\ length p = 3%nat /\ stands_for [x5c; x75; x32; x30; x32; d] p.
Proof.
  intros H. destruct l as [|a [|b [|c l]]]; [done..|]. simpl in H. case_match eqn:Hab; [|done].
  apply andb_true_iff in Hab as [->%is_byte_true ->%is_byte_true]. exists [xe2; x80; c], l.
  split_and!; [done..|].
  destruct (is_byte xa8 c) eqn:E8; [apply is_byte_true in E8 as ->|destruct (is_byte xa9 c) eqn:E9; [apply is_byte_true in E9 as ->|done]];
    injection H as <-; split; intros k; try reflexivity; destruct (string_body k) as [[s r]|] eqn:E; cbn; rewrite E; reflexivity.
Qed.

(** Bytes of a rune past ASCII. *)
Definition high (c : Byte.byte) : bool := byte_in 128 255 c.

Lemma high_spec c : high c = true -> is_byte x22 c = false /\ is_byte x5c c = false /\ (byte_Z c <? 32) = false /\ byte_in 0 127 c = false.
Proof. intros H. by destruct c. Qed.

Lemma byte_in_high c : byte_in 0 127 c = false -> high c = true.
Proof. intros H. by destruct c. Qed.

Lemma second_high c b : second_ok c b = true -> high b = true.
Proof.
  unfold second_ok. intros H. repeat case_match; unfold high, byte_in in *; apply andb_true_iff in H as [Hlo Hhi];
    apply andb_true_iff; split; apply Z.leb_le; apply Z.leb_le in Hlo, Hhi; lia.
Qed.

Lemma cont_high b : byte_in 128 191 b = true -> high b = true.
Proof. intros H. by destruct b. Qed.

(** A rune is at most four bytes, those after the first past ASCII, and what follows does not matter. *)
Lemma rune_len_spec c l k : byte_in 0 127 c = false -> rune_len (c :: l) = S k ->
  exists p l', l = p ++ l' /\ length p = k /\ forallb high p = true /\ forall l'', rune_len (c :: p ++ l'') = S k.
Proof.
  intros Hc H. cbn [rune_len] in H. rewrite Hc in H.
  destruct (byte_in 194 223 c) eqn:E2.
  { destruct l as [|b l]; [done|]. case_match eqn:Hb; [|done]. injection H as <-. exists [b], l.
    apply second_high in Hb as Hh. simpl. rewrite Hh. split_and!; [done..|]. intros l''. by rewrite Hc, E2, Hb. }
  destruct (byte_in 224 239 c) eqn:E3.
  { destruct l as [|b [|d l]]; [done..|]. case_match eqn:Hb; [|done]. injection H as <-. exists [b; d], l.
    apply andb_true_iff in Hb as Hb'. destruct Hb' as [Hh%second_high Hh'%cont_high]. simpl. rewrite Hh, Hh'.
    split_and!; [done..|]. intros l''. by rewrite Hc, E2, E3, Hb. }
  destruct (byte_in 240 244 c) eqn:E4; [|done].
  destruct l as [|b [|d [|e l]]]; [done..|]. case_match eqn:Hb; [|done]. injection H as <-. exists [b; d; e], l.
  apply andb_true_iff in Hb as Hb'. destruct Hb' as [Hb' Hh''%cont_high].
  apply andb_true_iff in Hb' as [Hh%second_high Hh'%cont_high]. simpl. rewrite Hh, Hh', Hh''.
  split_and!; [done..|]. intros l''. by rewrite Hc, E2, E3, E4, Hb.
Qed.

Lemma string_body_high p l : forallb high p = true -> string_body (p ++ l) = '(s, r) ← string_body l; Some (p ++ s, r).
Proof.
  induction p as [|c p IH]; intros Hp; simpl in *.
  - by destruct (string_body l) as [[s r]|].
  - apply andb_true_iff in Hp as [(H1 & H2 & H3 & _)%high_spec Hp]. rewrite H1, H2, H3, IH by done.
    by destruct (string_body l) as [[s r]|].
Qed.

Lemma unquote_keep p l : unquote 0 (length p) (p ++ l) = p ++ unquote 0 0 l.
Proof. induction p as [|c p IH]; [done|]. simpl. by rewrite IH. Qed.

Lemma quote_keep p l : quote_body 0 (length p) (p ++ l) = p ++ quote_body 0 0 l.
Proof. induction p as [|c p IH]; [done|]. simpl. by rewrite IH. Qed.

Lemma quote_skip p l : quote_body (length p) 0 (p ++ l) = quote_body 0 0 l.
Proof. induction p as [|c p IH]; [done|]. simpl. by rewrite IH. Qed.

Lemma utf8_valid_skip p l : utf8_valid (length p) (p ++ l) = utf8_valid 0 l.
Proof. by induction p. Qed.

Lemma rune_stands c p : high c = true -> forallb high p = true -> (forall l, rune_len (c :: p ++ l) = S (length p)) ->
  stands_for (c :: p) (c :: p).
Proof.
  intros Hc Hp Hr. destruct (high_spec c Hc) as (H1 & H2 & H3 & H4). split; intros l.
  - rewrite string_body_high; [done|]. simpl. by rewrite Hc.
  - simpl app. cbn [unquote]. by rewrite H2, Hr, unquote_keep.
Qed.

(** The first rune of a valid string, and what is written for it. *)
Lemma quote_step c l : utf8_valid 0 (c :: l) = true ->
  exists q p l', c :: l = p ++ l' /\ p <> [] /\ quote_body 0 0 (c :: l) = q ++ quote_body 0 0 l' /\
    utf8_valid 0 l' = true /\ stands_for q p.
Proof.
  intros Hv. destruct (byte_in 0 127 c) eqn:Ha.
  { exists (quote_ascii c), [c], l. split_and!; [done..|simpl; by rewrite Ha| |by apply quote_ascii_stands].
    simpl in Hv. by rewrite Ha in Hv. }
  cbn [utf8_valid] in Hv. destruct (rune_len (c :: l)) as [|k] eqn:Hr; [done|].
  destruct (rune_len_spec c l k Ha Hr) as (p & l' & -> & <- & Hp & Hr').
  rewrite utf8_valid_skip in Hv. pose proof (byte_in_high c Ha) as Hc. cbn [quote_body]. rewrite Ha.
  destruct (line_separator (c :: p ++ l')) as [d|] eqn:Hls.
  - destruct (line_separator_stands _ _ Hls) as (p' & l'' & E & Hlen & Hst).
    destruct p' as [|c' p']; [done|]. injection E as <- E.
    assert (length p = 2%nat) as Hp2.
    { simpl in Hls. clear -Hls Ha Hr. destruct (p ++ l') as [|b [|b' m]]; [done..|]. case_match eqn:Hb; [|done].
      apply andb_true_iff in Hb as [->%is_byte_true ->%is_byte_true]. simpl in Hr. destruct (byte_in 128 191 b'); lia. }
    apply app_inj_1 in E as [<- <-]; [|simpl in Hlen; lia].
    exists [x5c; x75; x32; x30; x32; d], (c :: p), l'. split_and!; [done..| |done|done].
    rewrite <- Hp2, quote_skip. done.
  - exists (c :: p), (c :: p), l'. split_and!; [done..| |done|].
    + rewrite Hr, quote_keep. done.
    + by apply rune_stands.
Qed.

Lemma quote_body_stands s : utf8_valid 0 s = true -> stands_for (quote_body 0 0 s) s.
Proof.
  induction s as [s IH] using (induction_ltof1 _ (@length _)). unfold ltof in IH. intros Hv.
  destruct s as [|c l]; [apply stands_for_nil|].
  destruct (quote_step c l Hv) as (q & p & l' & E & Hp & -> & Hv' & Hst). rewrite E.
  apply stands_for_app; [done|]. apply IH; [|done]. rewrite E, length_app. destruct p; [done|simpl; lia].
Qed.

(** A quoted string, read up to its closing quote. *)
Lemma string_body_quote s tail : utf8_valid 0 s = true ->
  string_body (quote_body 0 0 s ++ x22 :: tail) = Some (quote_body 0 0 s, tail) /\
  unquote 0 0 (quote_body 0 0 s) = s.
Proof.
  intros Hv. destruct (quote_body_stands s Hv) as [H1 H2]. rewrite H1. cbn. split; [by rewrite app_nil_r|].
  specialize (H2 []). by rewrite !app_nil_r in H2.
Qed.

(** ** Trees *)

Definition raw_tree (raw : bytes) : json :=
  match json_scan (compact CSOut 0 raw) with Some (v, _) => v | None => JNull end.

(** What is read for a written tree. *)
Fixpoint tree (v : jout) : json :=
  match v with
  | ONull => JNull
  | OInt z => JNumber (FormatInt z)
  | OBool b => JBool b
  | OString s => JString s
  | OBytes None | ORaw None => JNull
  | OBytes (Some b) => JString (b64_encode b)
  | ORaw (Some raw) => raw_tree raw
  | OObject fields => JObject ((fun '(n, v) => (n, (default [] (marshal v), tree v))) <$> fields)
  end.

(** The values that survive: 64-bit integers, valid UTF-8, a RawMessage that is still one
    value once compacted; [d] objects are around the tree. *)
Fixpoint survives (d : nat) (v : jout) : Prop :=
  match v with
  | OInt z => is_i64 z
  | OString s => utf8_valid 0 s = true
  | ORaw (Some raw) =>
      let t := compact CSOut 0 raw in json_value (S (2 * length t)) d t = Some (raw_tree raw, [])
  | OObject fields =>
      Z.of_nat d < maxNestingDepth /\
      fold_right (fun '(n, v) P => utf8_valid 0 n = true /\ survives (S d) v /\ P) True fields
  | _ => True
  end.

(** The text starts with the value. *)
Definition starts (t : bytes) : Prop := exists c t', t = c :: t' /\ json_space c = false.

Lemma starts_skip t tail : starts t -> skip_space (t ++ tail) = t ++ tail.
Proof. intros (c & t' & -> & H). simpl. by rewrite H. Qed.

Lemma starts_text_before t tail : starts t -> text_before (skip_space (t ++ tail)) tail = t.
Proof.
  intros H. rewrite starts_skip by done. unfold text_before. rewrite length_app.
  replace (length t + length tail - length tail)%nat with (length t) by lia. by rewrite take_app_length.
Qed.

Lemma compact_starts raw : compact CSOut 0 raw <> [] -> starts (compact CSOut 0 raw).
Proof.
  induction raw as [|c l IH]; [done|]. cbn [compact]. intros H.
  destruct (html_byte c); [by eexists _, _|]. destruct (line_separator (c :: l)); [by eexists _, _|].
  destruct (json_space c) eqn:Hc; [by apply IH|]. by eexists _, _.
Qed.

(** A reading of [t] in front of anything that does not continue a number. *)
Definition reads (d : nat) (t : bytes) (v : json) : Prop :=
  starts t /\ forall tail g, num_end tail = true -> (2 * length (t ++ tail) < g)%nat -> json_value g d (t ++ tail) = Some (v, tail).

Lemma reads_quote d s : utf8_valid 0 s = true -> reads d (quote s) (JString s).
Proof.
  intros Hv. split; [by eexists _, _|]. intros tail [|g] _ Hg; [lia|]. unfold quote.
  cbn [json_value app skip_space]. change (json_space x22) with false. cbv iota. rewrite is_byte_refl.
  rewrite <- app_assoc. simpl app. destruct (string_body_quote s tail Hv) as [-> Hu]. cbn [mbind option_bind]. by rewrite Hu.
Qed.

Lemma reads_null d : reads d (str "null") JNull.
Proof.
  split; [by exists x6e, (str "ull")|]. intros tail [|g] _ Hg; [lia|].
  change (expect [x75; x6c; x6c] (str "ull" ++ tail) JNull = Some (JNull, tail)).
  unfold expect. simpl. by rewrite drop_0.
Qed.

Lemma reads_bool d (b : bool) : reads d (if b then str "true" else str "false") (JBool b).
Proof.
  split; [destruct b; [by exists x74, (str "rue")|by exists x66, (str "alse")]|]. intros tail [|g] _ Hg; [lia|].
  destruct b.
  - change (expect [x72; x75; x65] (str "rue" ++ tail) (JBool true) = Some (JBool true, tail)).
    unfold expect. simpl. by rewrite drop_0.
  - change (expect [x61; x6c; x73; x65] (str "alse" ++ tail) (JBool false) = Some (JBool false, tail)).
    unfold expect. simpl. by rewrite drop_0.
Qed.

Lemma all_digits_digits ds tail : forallb is_digit ds = true -> num_end tail = true -> digits (ds ++ tail) = (ds, tail).
Proof.
  induction ds as [|d ds IH]; intros Hd Ht; simpl in *.
  - destruct tail as [|c tail]; [done|]. apply num_end_not in Ht as (Ht & _). simpl. by rewrite Ht.
  - apply andb_true_iff in Hd as [-> Hd]. by rewrite IH.
Qed.

Lemma json_number_FormatInt z : is_i64 z -> json_number (FormatInt z) = Some (FormatInt z, []).
Proof.
  intros Hz. destruct (FormatInt_spec z Hz) as (d & ds & E & Hd & _ & Hl). rewrite E. clear E.
  assert (json_integer (d :: ds) = Some (d :: ds, [])) as Hi.
  { unfold json_integer. destruct (after x30 (d :: ds)) as [r|] eqn:Ea.
    - apply after_Some in Ea as [= -> ->]. by rewrite Hl.
    - pose proof (all_digits_digits _ [] Hd eq_refl) as H. rewrite app_nil_r in H. by rewrite H. }
  unfold json_number. destruct (z <? 0); simpl app.
  - rewrite after_here, Hi. cbn. by rewrite app_nil_r.
  - assert (after x2d (d :: ds) = None) as ->.
    { simpl in Hd |- *. apply andb_true_iff in Hd as [Hd _]. by destruct d. }
    rewrite Hi. cbn. by rewrite app_nil_r.
Qed.

(** What begins a number begins no other value. *)
Definition num_start (c : Byte.byte) : bool := is_digit c || is_byte x2d c.

Lemma reads_number d t : json_number t = Some (t, []) -> (exists c t', t = c :: t' /\ num_start c = true) ->
  reads d t (JNumber t).
Proof.
  intros Hn (c & t' & -> & Hc). split.
  { exists c, t'. split; [done|]. by destruct c. }
  intros tail [|g] Ht Hg; [lia|].
  pose proof (json_number_app _ tail _ _ Hn (or_intror Ht)) as Hn'. cbn [app] in Hn' |- *.
  cbn [json_value skip_space].
  assert (json_space c = false /\ is_byte x22 c = false /\ is_byte x6e c = false /\ is_byte x74 c = false /\
          is_byte x66 c = false /\ is_byte x5b c = false /\ is_byte x7b c = false) as (-> & -> & -> & -> & -> & -> & ->).
  { by destruct c. }
  by rewrite Hn'.
Qed.

Lemma reads_int d z : is_i64 z -> reads d (FormatInt z) (JNumber (FormatInt z)).
Proof.
  intros Hz. apply reads_number; [by apply json_number_FormatInt|].
  destruct (FormatInt_spec z Hz) as (c & ds & -> & Hd & _). destruct (z <? 0); simpl; [by eexists _, _|].
  eexists _, _. split; [done|]. simpl in Hd. apply andb_true_iff in Hd as [Hd _]. unfold num_start. by rewrite Hd.
Qed.

Lemma b64_utf8 l : Forall (fun c => byte_in 0 127 c = true) l -> utf8_valid 0 l = true.
Proof.
  induction 1 as [|c l Hc Hl IH]; [done|]. simpl. by rewrite Hc.
Qed.

Lemma b64_encode_utf8 b : utf8_valid 0 (b64_encode b) = true.
Proof.
  apply b64_utf8, b64_encode_chars; [|done]. intros v Hv.
  exact (all_below 64 (fun v => byte_in 0 127 (b64_char v)) eq_refl v Hv).
Qed.

(** *** Objects *)

Definition field_text (f : bytes * jout) : option bytes := '(n, v) ← Some f; t ← marshal v; Some (quote n ++ x3a :: t).

(** What [marshal] and [tree] give for a field, once the field's value is written. *)
Definition member (f : bytes * jout) : bytes * (bytes * json) := (f.1, (default [] (marshal f.2), tree f.2)).

Lemma marshal_object fields t : marshal (OObject fields) = Some t ->
  exists texts, mapM (fun '(name, v) => t ← marshal v; Some (quote name ++ x3a :: t)) fields = Some texts /\
    t = x7b :: comma_sep texts ++ [x7d].
Proof. simpl. destruct (mapM _ fields) as [texts|]; [|done]. intros [= <-]. by exists texts. Qed.

Lemma num_end_punct (c : Byte.byte) l : c = x2c \/ c = x7d -> num_end (c :: l) = true.
Proof. by intros [-> | ->]. Qed.

(** Members written one after the other are read one after the other. *)
Lemma json_members_fields d fields texts tail g :
  mapM (fun '(name, v) => t ← marshal v; Some (quote name ++ x3a :: t)) fields = Some texts -> fields <> [] ->
  Forall (fun f => utf8_valid 0 f.1 = true /\ forall t, marshal f.2 = Some t -> reads d t (tree f.2)) fields ->
  (2 * length (comma_sep texts ++ x7d :: tail) + 1 < g)%nat ->
  json_members g d (comma_sep texts ++ x7d :: tail) = Some (member <$> fields, tail).
Proof.
  revert texts g. induction fields as [|[n v] fields IH]; intros texts g Hm Hne Hf Hg; [done|].
  apply Forall_cons in Hf as [[Hn Hv] Hf]. simpl in Hn, Hv.
  cbn [mapM] in Hm. destruct (marshal v) as [t|] eqn:Ht; [|done]. cbn [mbind option_bind] in Hm.
  destruct (mapM _ fields) as [texts'|] eqn:Hm'; [|done]. cbn [mbind option_bind] in Hm.
  assert (texts = (quote n ++ x3a :: t) :: texts') as -> by (by injection Hm).
  destruct g as [|g]; [lia|]. destruct (Hv t eq_refl) as [Hs Hr].
  set (rest := concat ((fun y => x2c :: y) <$> texts') ++ x7d :: tail).
  assert (comma_sep ((quote n ++ x3a :: t) :: texts') ++ x7d :: tail = quote n ++ x3a :: t ++ rest) as E.
  { simpl. unfold rest. by rewrite <- !app_assoc. }
  rewrite E in Hg |- *. clear E. unfold quote in *. cbn [json_members app skip_space]. change (json_space x22) with false.
  cbv iota. rewrite after_here. cbn [mbind option_bind]. rewrite <- app_assoc. simpl app.
  destruct (string_body_quote n (x3a :: t ++ rest) Hn) as [-> Hu]. cbn [mbind option_bind skip_space].
  change (json_space x3a) with false. cbv iota. rewrite after_here. cbn [mbind option_bind].
  assert (num_end rest = true) as Hend by (unfold rest; destruct texts'; apply num_end_punct; auto).
  rewrite !length_app in Hg. simpl in Hg. rewrite !length_app in Hg. simpl in Hg.
  rewrite (Hr rest g) by (done || (rewrite length_app; lia)). cbn [mbind option_bind].
  rewrite starts_text_before by done. rewrite Hu.
  assert (member (n, v) = (n, (t, tree v))) as Hmem by (unfold member; simpl; by rewrite Ht).
  destruct texts' as [|x texts'].
  - destruct fields as [|[n' v'] fields]; [|simpl in Hm'; by destruct (marshal v'), (mapM _ fields)].
    unfold rest. simpl. by rewrite Hmem.
  - destruct fields as [|f fields]; [done|].
    assert (rest = x2c :: comma_sep (x :: texts') ++ x7d :: tail) as Hrest by reflexivity.
    rewrite Hrest in Hg |- *. cbn [skip_space]. change (json_space x2c) with false. cbv iota. rewrite is_byte_refl.
    rewrite (IH (x :: texts') g eq_refl) by (done || (simpl in Hg; simpl; lia)).
    cbn [mbind option_bind]. by rewrite (fmap_cons member (n, v)), Hmem.
Qed.

Lemma jout_ind' (P : jout -> Prop) :
  P ONull -> (forall z, P (OInt z)) -> (forall b, P (OBool b)) -> (forall s, P (OString s)) ->
  (forall b, P (OBytes b)) -> (forall r, P (ORaw r)) -> (forall fs, Forall (fun f => P f.2) fs -> P (OObject fs)) ->
  forall v, P v.
Proof.
  intros H1 H2 H3 H4 H5 H6 H7. fix IH 1.
  intros [|z|b|s|b|r|fs]; [apply H1|apply H2|apply H3|apply H4|apply H5|apply H6|apply H7].
  induction fs as [|[n v] fs IHfs]; constructor; [apply IH|apply IHfs].
Qed.

Lemma marshal_reads v : forall d t, marshal v = Some t -> survives d v -> reads d t (tree v).
Proof.
  induction v as [|z|b|s|b|r|fields IH] using jout_ind'; intros d t Hm Hs.
  - injection Hm as <-. apply reads_null.
  - injection Hm as <-. by apply reads_int.
  - injection Hm as <-. apply reads_bool.
  - injection Hm as <-. by apply reads_quote.
  - destruct b as [b|]; injection Hm as <-; [apply reads_quote, b64_encode_utf8|apply reads_null].
  - destruct r as [raw|]; [|injection Hm as <-; apply reads_null]. simpl in Hm. case_match; [|done].
    injection Hm as <-. cbn [survives] in Hs. cbv zeta in Hs. split.
    + apply compact_starts. intros E. by rewrite E in Hs.
    + intros tail g Ht Hg. pose proof (json_value_app _ _ _ _ _ tail Hs (or_intror Ht)) as Hr.
      apply (json_value_more _ _ _ _ _ g Hr). lia.
  - apply marshal_object in Hm as (texts & Hm & ->). destruct Hs as [Hd Hs].
    split; [by eexists _, _|]. intros tail [|g] Ht Hg; [lia|].
    assert (Forall (fun f => utf8_valid 0 f.1 = true /\ forall t, marshal f.2 = Some t -> reads (S d) t (tree f.2)) fields) as Hf.
    { clear -IH Hs. induction fields as [|[n v] fields IHf]; [constructor|]. apply Forall_cons in IH as [IHv IH].
      destruct Hs as (? & ? & Hs). constructor; [|by apply IHf]. split; [done|]. intros t Ht. by apply IHv. }
    change (json_value (S g) d ((x7b :: comma_sep texts ++ [x7d]) ++ tail)) with
      (if maxNestingDepth <=? Z.of_nat d then None
       else match after x7d (skip_space ((comma_sep texts ++ [x7d]) ++ tail)) with
            | Some rest => Some (JObject [], rest)
            | None => '(members, rest) ← json_members g (S d) ((comma_sep texts ++ [x7d]) ++ tail); Some (JObject members, rest)
            end).
    rewrite (proj2 (Z.leb_gt _ _)) by done. rewrite <- app_assoc. simpl app.
    destruct (decide (fields = [])) as [-> | Hne]; [by injection Hm as <-|].
    assert (after x7d (skip_space (comma_sep texts ++ x7d :: tail)) = None) as ->.
    { destruct fields as [|[n v] fields]; [done|]. cbn [mapM] in Hm. destruct (marshal v); [|done].
      cbn [mbind option_bind] in Hm. destruct (mapM _ fields); [|done]. by injection Hm as <-. }
    rewrite (json_members_fields (S d) fields texts) by
      (done || (simpl in Hg; rewrite !length_app in *; simpl in *; lia)).
    cbn [mbind option_bind tree]. do 2 f_equal. f_equal. apply list_fmap_ext. by intros ? [n v].
Qed.
