(* ===== verification/JsonDecode.v ===== *)
(** * Reading JSON into Go values (json.Unmarshal and json.Decoder)

    A decoder takes the text and the tree of a value and the variable's present value, and
    gives its new value and whether an error was saved: decoding goes on after a value of the
    wrong type, as [saveError] does. The texts of errors are not modelled. *)

From Stdlib Require Import Strings.Byte.
From stdpp Require Import base list strings.
From S2P Require Import Prelude Text Encoding Json.

(** [convertNumber] and [literalStore] per kind of variable. *)
Definition dec (A : Type) : Type := bytes -> json -> A -> A * bool.

Definition dec_number {A} (parse : bytes -> option A) : dec A := fun _ v cur =>
  match v with
  | JNull => (cur, false)
  | JNumber t => match parse t with Some z => (z, false) | None => (cur, true) end
  | _ => (cur, true)
  end.
Definition dec_int64 : dec Z := dec_number (ParseInt 64).
Definition dec_int32 : dec Z := dec_number (ParseInt 32).
Definition dec_uint64 : dec Z := dec_number (ParseUint 64).
Definition dec_uint8 : dec Byte.byte := dec_number (fun t => Z_byte <$> ParseUint 8 t).

Definition dec_bool : dec bool := fun _ v cur =>
  match v with JNull => (cur, false) | JBool b => (b, false) | _ => (cur, true) end.

Definition dec_string : dec string := fun _ v cur =>
  match v with
  | JNull => (cur, false) | JString s => (String.string_of_list_byte s, false) | _ => (cur, true)
  end.

(** [array]: element [i] is read into the present element [i], or a zero value. What a
    shortened slice keeps behind its length is not modelled. *)
Fixpoint dec_elements {A} (d : dec A) (zero : A) (items : list (bytes * json)) (cur : list A) : list A * bool :=
  match items with
  | [] => ([], false)
  | (t, v) :: items =>
      let '(x, e) := d t v (default zero (head cur)) in
      let '(xs, e') := dec_elements d zero items (tail cur) in
      (x :: xs, e || e')
  end.

Definition dec_slice {A} (d : dec A) (zero : A) : dec (list A) := fun _ v cur =>
  match v with JNull => ([], false) | JArray items => dec_elements d zero items cur | _ => (cur, true) end.

(** [[]byte]: base64, or an array of numbers. *)
Definition dec_bytes : dec bytes := fun t v cur =>
  match v with
  | JString s => match b64_decode s with Some b => (b, false) | None => (cur, true) end
  | _ => dec_slice dec_uint8 x00 t v cur
  end.

(** The same where the code tells a nil slice from an empty one. *)
Definition dec_bytes_nil : dec (option bytes) := fun t v cur =>
  match v with
  | JNull => (None, false)
  | JString s => match b64_decode s with Some b => (Some b, false) | None => (cur, true) end
  | JArray items => let '(b, e) := dec_elements dec_uint8 x00 items (default [] cur) in (Some b, e)
  | _ => (cur, true)
  end.

(** [json.RawMessage] takes the text, [null] included. *)
Definition dec_raw : dec bytes := fun t _ _ => (t, false).
Definition dec_raw_nil : dec (option bytes) := fun t _ _ => (Some t, false).

(** A pointer: [null] makes it nil, anything else goes into what it points to. *)
Definition dec_pointer {A} (d : dec A) (zero : A) : dec (option A) := fun t v cur =>
  match v with
  | JNull => (None, false)
  | _ => let '(x, e) := d t v (default zero cur) in (Some x, e)
  end.

(** ** Structs *)

(** [foldName], on what can equal a field name in ASCII: letters without their case, the Kelvin
    sign and the long s. *)
Definition upper (c : Byte.byte) : Byte.byte := if byte_in 97 122 c then Z_byte (byte_Z c - 32) else c.
Fixpoint foldName (l : bytes) : bytes :=
  match l with
  | xe2 :: x84 :: xaa :: rest => x4b :: foldName rest
  | xc5 :: xbf :: rest => x53 :: foldName rest
  | c :: rest => upper c :: foldName rest
  | [] => []
  end.

(** The members of an object that are stored in the field [name], in order. *)
Definition members_of (name : string) (members : list (bytes * (bytes * json))) : list (bytes * json) :=
  snd <$> filter (fun m => foldName m.1 = foldName (str name)) members.

(** A field's value after all members, and whether one of them saved an error. *)
Definition field {A} (members : list (bytes * (bytes * json))) (name : string) (d : dec A) (cur : A) : A * bool :=
  fold_left (fun '(x, e) '(t, v) => let '(x', e') := d t v x in (x', e || e')) (members_of name members) (cur, false).

(** A constructor applied to decoded fields. *)
Definition put {A B} (f : (A -> B) * bool) (x : A * bool) : B * bool := (f.1 x.1, f.2 || x.2).
Notation "f '<&>>' x" := (put f x) (at level 61, left associativity) : go_scope.

Definition dec_struct {A} (fields : list (bytes * (bytes * json)) -> A -> A * bool) : dec A := fun _ v cur =>
  match v with JNull => (cur, false) | JObject members => fields members cur | _ => (cur, true) end.

(** ** Documents *)

(** [json.Unmarshal] of a text that is one value. *)
Definition json_document (data : bytes) : option (bytes * json) :=
  match json_scan data with
  | Some (v, rest) => if bool_decide (skip_space rest = []) then Some (text_before (skip_space data) rest, v) else None
  | None => None
  end.
Definition Unmarshal {A} (d : dec A) (data : bytes) (cur : A) : A * bool :=
  match json_document data with Some (t, v) => d t v cur | None => (cur, true) end.

(** [isJSONArray] of http_client.go *)
Definition isJSONArray (data : bytes) : bool :=
  match TrimSpace data with c :: _ => is_byte x5b c | [] => false end.

(** ** Facts *)

Lemma field_nil {A} name (d : dec A) cur : field [] name d cur = (cur, false).
Proof. done. Qed.

(** The member at the front is read first, if it is the field's. *)
Lemma field_cons {A} n t v members name (d : dec A) cur :
  field ((n, (t, v)) :: members) name d cur =
  if decide (foldName n = foldName (str name))
  then let x := d t v cur in let r := field members name d x.1 in (r.1, x.2 || r.2)
  else field members name d cur.
Proof.
  assert (forall l (x : A) e, fold_left (fun '(x, e) '(t, v) => let '(x', e') := d t v x in (x', e || e')) l (x, e) =
            let r := fold_left (fun '(x, e) '(t, v) => let '(x', e') := d t v x in (x', e || e')) l (x, false) in
            (r.1, e || r.2)) as Hacc.
  { induction l as [|[t' v'] l IH]; intros x e; simpl; [by rewrite orb_false_r|].
    destruct (d t' v' x) as [x' e']. rewrite IH, (IH x' e'). simpl. by rewrite orb_assoc. }
  unfold field, members_of. rewrite filter_cons. simpl. case_decide; [|done].
  simpl. destruct (d t v cur) as [x e]. rewrite Hacc. done.
Qed.

Lemma str_back s : String.string_of_list_byte (str s) = s.
Proof. apply String.string_of_list_byte_of_string. Qed.
