(* ===== verification/Metadata.v ===== *)
(** * User metadata: typed values, write requests and key policy (metadata_typed.go)

    A slice whose nilness the code inspects is an [option bytes]; a pointer to a slice is
    an [option] of that. *)

From Stdlib Require Import Strings.Byte.
From stdpp Require Import base list strings.
From S2P Require Import Prelude Errors Text Encoding Json.

Definition UserMetadataSystemKeyPrefix : string := "system.".
Definition UserMetadataKeyVisibleToOthers : string := "system.visible_to_others".

(** [type MetadataTypedValueKind string] and its constants. *)
Definition MetadataTypedValueKindBytes : string := "bytes".
Definition MetadataTypedValueKindBool : string := "bool".
Definition MetadataTypedValueKindString : string := "string".
Definition MetadataTypedValueKindNumber : string := "number".
Definition MetadataTypedValueKindJSON : string := "json".

Record MetadataTypedValue : Type := mkTyped {
  tv_Kind : string;
  tv_BytesValue : option (option bytes);
  tv_BoolValue : option bool;
  tv_StringValue : option string;
  tv_NumberValue : option (option bytes);
  tv_JSONValue : option (option bytes);
}.

Record UpsertUserMetadataRequest : Type := mkUpsert {
  up_Value : option bytes;
  up_TypedValue : option MetadataTypedValue;
  up_ExpiresAt : option string;
}.

(** [cloneBytesOrEmpty] and [cloneRawMessageOrEmpty]; the PreserveNil variants are the identity
    on values. *)
Definition cloneBytesOrEmpty (s : option bytes) : option bytes := Some (default [] s).
Definition cloneBytesPreserveNil (s : option bytes) : option bytes := s.

Definition NewMetadataTypedBytes (value : option bytes) : MetadataTypedValue :=
  mkTyped MetadataTypedValueKindBytes (Some (cloneBytesOrEmpty value)) None None None None.
Definition NewMetadataTypedBool (value : bool) : MetadataTypedValue :=
  mkTyped MetadataTypedValueKindBool None (Some value) None None None.
Definition NewMetadataTypedString (value : string) : MetadataTypedValue :=
  mkTyped MetadataTypedValueKindString None None (Some value) None None.
Definition NewMetadataTypedNumber (raw : option bytes) : MetadataTypedValue :=
  mkTyped MetadataTypedValueKindNumber None None None (Some (cloneBytesOrEmpty raw)) None.
Definition NewMetadataTypedJSON (raw : option bytes) : MetadataTypedValue :=
  mkTyped MetadataTypedValueKindJSON None None None None (Some (cloneBytesOrEmpty raw)).

Definition MetadataBoolBytes (value : bool) : bytes := if value then str "true" else str "false".

(** ** JSON values *)

(** [normalizeMetadataNumberJSON] *)
Definition normalizeMetadataNumberJSON (raw : option bytes) : result error bytes :=
  let trimmed := TrimSpace (default [] raw) in
  if bool_decide (trimmed = []) then Err (errors_New "typed_value.number_value cannot be empty")
  else
    match Decode_number trimmed with
    | None => Err (errors_New "typed_value.number_value must be a JSON number")
    | Some (number, rest) =>
        if bool_decide (skip_space rest = []) then Ok number
        else Err (errors_New "typed JSON value must contain a single JSON value")
    end.

(** [compactMetadataJSON], of which the callers only use the error. *)
Definition compactMetadataJSON (raw : option bytes) : option error :=
  let trimmed := TrimSpace (default [] raw) in
  if bool_decide (trimmed = []) then Some (errors_New "typed_value.json_value cannot be empty")
  else if negb (Valid trimmed) then Some (errors_New "typed_value.json_value must be valid JSON")
  else None.

(** [(v *MetadataTypedValue) validate() error] *)
Definition TypedValue_validate (v : option MetadataTypedValue) : option error :=
  match v with
  | None => Some (errors_New "typed_value is required")
  | Some v =>
      if bool_decide (tv_Kind v = MetadataTypedValueKindBytes) then
        match tv_BytesValue v with
        | None => Some (errors_New "typed_value.bytes_value is required") | Some _ => None end
      else if bool_decide (tv_Kind v = MetadataTypedValueKindBool) then
        match tv_BoolValue v with
        | None => Some (errors_New "typed_value.bool_value is required") | Some _ => None end
      else if bool_decide (tv_Kind v = MetadataTypedValueKindString) then
        match tv_StringValue v with
        | None => Some (errors_New "typed_value.string_value is required") | Some _ => None end
      else if bool_decide (tv_Kind v = MetadataTypedValueKindNumber) then
        match tv_NumberValue v with
        | None => Some (errors_New "typed_value.number_value is required")
        | Some raw =>
            match normalizeMetadataNumberJSON raw with Err e => Some e | _ => None end
        end
      else if bool_decide (tv_Kind v = MetadataTypedValueKindJSON) then
        match tv_JSONValue v with
        | None => Some (errors_New "typed_value.json_value is required")
        | Some raw => compactMetadataJSON raw
        end
      else Some (Errorf "unsupported typed_value.kind %q" [FStr (tv_Kind v)])
  end.

(** [cloneMetadataTypedValue] *)
Definition cloneMetadataTypedValue (v : option MetadataTypedValue) : option MetadataTypedValue :=
  v ← v;
  Some (mkTyped (tv_Kind v) (cloneBytesPreserveNil <$> tv_BytesValue v) (tv_BoolValue v) (tv_StringValue v)
          (cloneBytesPreserveNil <$> tv_NumberValue v) (cloneBytesPreserveNil <$> tv_JSONValue v)).

(** ** Requests *)

(** [validateJSON] *)
Definition validateJSON (r : UpsertUserMetadataRequest) : option error :=
  if Bool.eqb (bool_decide (is_Some (up_Value r))) (bool_decide (is_Some (up_TypedValue r)))
  then Some (errors_New "exactly one of value or typed_value is required")
  else match up_TypedValue r with Some v => TypedValue_validate (Some v) | None => None end.

(** The JSON object of a request: a nil pointer is an absent field. *)
Record upsert_payload : Type := mkPayload {
  pl_Value : option (option bytes);
  pl_TypedValue : option MetadataTypedValue;
  pl_ExpiresAt : option string;
}.

(** [MarshalJSON] up to [json.Marshal(out)]. *)
Definition Upsert_MarshalJSON (r : UpsertUserMetadataRequest) : result error upsert_payload :=
  check (validateJSON r);;
  mret (mkPayload (match up_Value r with Some v => Some (cloneBytesPreserveNil (Some v)) | None => None end)
          (cloneMetadataTypedValue (up_TypedValue r)) (up_ExpiresAt r)).

(** [UnmarshalJSON] after [json.Unmarshal(data, &in)]. *)
Definition Upsert_UnmarshalJSON (p : upsert_payload) : result error UpsertUserMetadataRequest :=
  let out := mkUpsert (match pl_Value p with Some v => cloneBytesPreserveNil v | None => None end)
               (cloneMetadataTypedValue (pl_TypedValue p)) (pl_ExpiresAt p) in
  check (validateJSON out);;
  mret out.

Definition Upsert_clone (r : UpsertUserMetadataRequest) : UpsertUserMetadataRequest :=
  mkUpsert (match up_Value r with Some v => cloneBytesPreserveNil (Some v) | None => None end)
    (cloneMetadataTypedValue (up_TypedValue r)) (up_ExpiresAt r).

(** ** Policy *)

(** [parseMetadataBoolBytes] *)
Definition parseMetadataBoolBytes (raw : option bytes) : result error bool :=
  let s := TrimSpace (default [] raw) in
  if bool_decide (s = str "true") then Ok true
  else if bool_decide (s = str "false") then Ok false
  else Err (Errorf "metadata value must be raw bytes %q or %q" [FStr "true"; FStr "false"]).

Definition validateMetadataKeyPolicy (key : string) : option error :=
  if negb (HasPrefix key UserMetadataSystemKeyPrefix) then None
  else if bool_decide (key = UserMetadataKeyVisibleToOthers) then None
  else Some (Errorf "unsupported system metadata key %q" [FStr key]).

Definition metadataSystemPrefixRegistered (prefix : string) : bool :=
  HasPrefix UserMetadataKeyVisibleToOthers prefix || HasPrefix prefix UserMetadataKeyVisibleToOthers.

(** [validateMetadataScanSystemPrefix] *)
Definition validateMetadataScanSystemPrefix (prefix after : string) : option error :=
  first_err ((fun '(value, name) =>
    if negb (HasPrefix value UserMetadataSystemKeyPrefix) then None
    else if metadataSystemPrefixRegistered value then None
    else Some (Errorf "unsupported %s %q" [FStr name; FStr value]))
    <$> [(prefix, "prefix"); (after, "after")]).

(** [validateMetadataWritePolicy] *)
Definition validateMetadataWritePolicy (key : string) (req : UpsertUserMetadataRequest) (allowTyped : bool)
    : option error :=
  first_err [
    validateMetadataKeyPolicy key;
    match up_TypedValue req with
    | Some v =>
        if negb allowTyped then Some (errors_New "typed_value is only supported by HTTP metadata APIs")
        else TypedValue_validate (Some v)
    | None => None
    end;
    if negb (bool_decide (key = UserMetadataKeyVisibleToOthers)) then None
    else
      match up_ExpiresAt req with
      | Some _ => Some (Errorf "metadata key %q does not allow expires_at" [FStr key])
      | None =>
          match up_TypedValue req with
          | Some v =>
              if negb (bool_decide (tv_Kind v = MetadataTypedValueKindBool))
              then Some (Errorf "metadata key %q requires typed_value.kind %q"
                           [FStr key; FStr MetadataTypedValueKindBool])
              else None
          | None =>
              match parseMetadataBoolBytes (up_Value req) with
              | Ok _ => None
              | _ => Some (Errorf "metadata key %q requires raw bytes %q or %q"
                             [FStr key; FStr "true"; FStr "false"])
              end
          end
      end
  ].

Definition validateHTTPMetadataUpsertRequest (key : string) (req : UpsertUserMetadataRequest) : option error :=
  match validateJSON req with
  | Some e => Some e
  | None => validateMetadataWritePolicy key req true
  end.

Definition validateWSMetadataUpsertRequest (key : string) (req : UpsertUserMetadataRequest) : option error :=
  if bool_decide (is_Some (up_TypedValue req))
  then Some (errors_New "typed_value is only supported by HTTP metadata APIs")
  else if bool_decide (up_Value req = None) then Some (errors_New "value is required")
  else validateMetadataWritePolicy key req false.

(** ** What the policy accepts *)

(** The visibility a request for [system.visible_to_others] sets, if it is well formed. *)
Definition written_visibility (req : UpsertUserMetadataRequest) : option bool :=
  match up_TypedValue req with
  | Some v => if bool_decide (tv_Kind v = MetadataTypedValueKindBool) then tv_BoolValue v else None
  | None => match parseMetadataBoolBytes (up_Value req) with Ok b => Some b | _ => None end
  end.

(** A key the SDK may write: reserved keys are refused except the registered one, whose value
    must be a permanent boolean. *)
Definition writable (key : string) (req : UpsertUserMetadataRequest) : Prop :=
  (HasPrefix key UserMetadataSystemKeyPrefix = true -> key = UserMetadataKeyVisibleToOthers) /\
  (key = UserMetadataKeyVisibleToOthers ->
     up_ExpiresAt req = None /\ exists b, written_visibility req = Some b).

Lemma first_err_None {E} (l : list (option E)) : first_err l = None <-> Forall (fun e => e = None) l.
Proof.
  induction l as [|[e|] l IH]; simpl.
  - split; [constructor|done].
  - split; [done|intros H; by inversion H].
  - rewrite IH. split; [by constructor|by intros H; inversion H].
Qed.

Lemma validateMetadataKeyPolicy_None key :
  validateMetadataKeyPolicy key = None <->
  (HasPrefix key UserMetadataSystemKeyPrefix = true -> key = UserMetadataKeyVisibleToOthers).
Proof.
  unfold validateMetadataKeyPolicy. destruct (HasPrefix key _); simpl; [|naive_solver].
  case_bool_decide; naive_solver.
Qed.

(** A boolean typed value that passes validation carries its boolean. *)
Lemma typed_bool_validate v :
  TypedValue_validate (Some v) = None -> tv_Kind v = MetadataTypedValueKindBool -> is_Some (tv_BoolValue v).
Proof.
  intros H Hk. unfold TypedValue_validate in H. rewrite Hk in H.
  rewrite bool_decide_false in H by done. rewrite bool_decide_true in H by done.
  by destruct (tv_BoolValue v).
Qed.

Lemma validateMetadataWritePolicy_None key req allow :
  validateMetadataWritePolicy key req allow = None <->
  writable key req /\
  (forall v, up_TypedValue req = Some v -> allow = true /\ TypedValue_validate (Some v) = None).
Proof.
  unfold validateMetadataWritePolicy, writable. rewrite first_err_None, !List.Forall_cons_iff.
  rewrite validateMetadataKeyPolicy_None. unfold written_visibility.
  destruct (up_TypedValue req) as [v|] eqn:Hv.
  - destruct allow; cbn [negb]; [|split; [intros (_ & [=] & _)|intros [_ H]; destruct (H v); done]].
    destruct (bool_decide (key = _)) eqn:Hkey; cbn [negb]; bool_facts; [|naive_solver].
    destruct (up_ExpiresAt req); [naive_solver|].
    destruct (bool_decide (tv_Kind v = _)) eqn:Hk; cbn [negb]; bool_facts; [|naive_solver].
    split; [|naive_solver]. intros (? & Ht & _). split; [|naive_solver].
    split; [done|]. intros _. split; [done|]. by apply typed_bool_validate in Ht.
  - destruct (bool_decide (key = _)) eqn:Hkey; cbn [negb]; bool_facts; [|naive_solver].
    destruct (up_ExpiresAt req); [naive_solver|].
    destruct (parseMetadataBoolBytes (up_Value req)); naive_solver.
Qed.

Lemma validateJSON_None req :
  validateJSON req = None <->
  (exists v, up_Value req = Some v /\ up_TypedValue req = None) \/
  (up_Value req = None /\ exists v, up_TypedValue req = Some v /\ TypedValue_validate (Some v) = None).
Proof.
  unfold validateJSON.
  destruct (up_Value req), (up_TypedValue req); simpl; naive_solver.
Qed.

(** The HTTP client accepts a metadata write exactly when it carries one
    of a raw and a valid typed value and its key is writable: a key under "system." is the
    registered one, and that one only takes a boolean without expiry. The WebSocket client
    accepts exactly the raw writes to such keys. *)
Theorem metadata_write_policy key req :
  (validateHTTPMetadataUpsertRequest key req = None <->
     ((exists v, up_Value req = Some v /\ up_TypedValue req = None) \/
      (up_Value req = None /\ exists v, up_TypedValue req = Some v /\ TypedValue_validate (Some v) = None)) /\
     writable key req) /\
  (validateWSMetadataUpsertRequest key req = None <->
     (exists v, up_Value req = Some v) /\ up_TypedValue req = None /\ writable key req).
Proof.
  unfold validateHTTPMetadataUpsertRequest, validateWSMetadataUpsertRequest. split.
  - destruct (validateJSON req) eqn:Hj.
    + split; [done|]. intros [Hv _]. by apply validateJSON_None in Hv; simplify_eq.
    + apply validateJSON_None in Hj. rewrite validateMetadataWritePolicy_None. naive_solver.
  - destruct (up_TypedValue req) eqn:Ht; [naive_solver|].
    destruct (up_Value req) eqn:Hu; simpl; [|naive_solver].
    rewrite validateMetadataWritePolicy_None, Ht. naive_solver.
Qed.

(** ** Payload round trip *)

Lemma cloneMetadataTypedValue_id v : cloneMetadataTypedValue v = v.
Proof. destruct v as [[k b bo s n j]|]; [|done]. by destruct b, n, j. Qed.

Lemma Upsert_clone_id r : Upsert_clone r = r.
Proof. destruct r as [[v|] t e]; unfold Upsert_clone; simpl; by rewrite cloneMetadataTypedValue_id. Qed.

(** A valid metadata write is encoded, and decoding what was encoded
    gives the request back; an invalid one is refused with its validation error on both sides. *)
Theorem metadata_payload_roundtrip r :
  match validateJSON r with
  | None => exists p, Upsert_MarshalJSON r = Ok p /\ Upsert_UnmarshalJSON p = Ok r
  | Some e => Upsert_MarshalJSON r = Err e /\
      Upsert_UnmarshalJSON (mkPayload (Some <$> up_Value r) (up_TypedValue r) (up_ExpiresAt r)) = Err e
  end.
Proof.
  unfold Upsert_MarshalJSON, Upsert_UnmarshalJSON. destruct r as [v t e]; simpl.
  rewrite !cloneMetadataTypedValue_id.
  replace (match Some <$> v with Some v0 => cloneBytesPreserveNil v0 | None => None end) with v by (by destruct v).
  destruct (validateJSON _) eqn:Hj; [done|]. eexists. split; [done|]. simpl.
  rewrite cloneMetadataTypedValue_id.
  replace (match match v with Some v0 => Some (cloneBytesPreserveNil (Some v0)) | None => None end with
           | Some v0 => cloneBytesPreserveNil v0 | None => None end) with v by (by destruct v).
  by rewrite Hj.
Qed.
