(* ===== verification/Password.v ===== *)
(** * Passwords (password.go)

    bcrypt is a parameter: [GenerateFromPassword] may fail, and what it returns on success
    is a hash. A [PasswordInput] travels as the JSON string [Encoded]. *)

From stdpp Require Import base list strings.
From S2P Require Import Prelude Errors.

Definition PasswordSourcePlain : string := "plain".
Definition PasswordSourceHashed : string := "hashed".

Record PasswordInput : Type := mkPasswordInput { pw_Source : string; pw_Encoded : string }.

Definition zero_PasswordInput : PasswordInput := mkPasswordInput "" "".

#[export] Instance PasswordInput_eq_decision : EqDecision PasswordInput.
Proof. solve_decision. Defined.

Definition HashedPassword (hash : string) : PasswordInput := mkPasswordInput PasswordSourceHashed hash.

(** [(p PasswordInput) Validate() error] *)
Definition PasswordInput_Validate (p : PasswordInput) : option error :=
  if negb (bool_decide (pw_Source p = PasswordSourcePlain))
     && negb (bool_decide (pw_Source p = PasswordSourceHashed))
  then Some (Errorf "invalid password source %q" [FStr (pw_Source p)])
  else if bool_decide (pw_Encoded p = "") then Some (errors_New "password is required")
  else None.

Definition WireValue (p : PasswordInput) : string := pw_Encoded p.
Definition IsHashed (p : PasswordInput) : bool := negb (bool_decide (pw_Encoded p = "")).
Definition PasswordInput_IsZero (p : PasswordInput) : bool :=
  bool_decide (pw_Source p = "") && bool_decide (pw_Encoded p = "").

(** [MarshalJSON] and [UnmarshalJSON] between the struct and the JSON string's value. *)
Definition PasswordInput_MarshalJSON (p : PasswordInput) : string := pw_Encoded p.
Definition PasswordInput_UnmarshalJSON (value : string) : PasswordInput := HashedPassword value.

Section bcrypt.
Context (GenerateFromPassword : string -> Z -> result error string).

Definition DefaultCost : Z := 10.

Definition HashPassword (plain : string) : result error string :=
  if bool_decide (plain = "") then Err (errors_New "password is required")
  else
    hash ← GenerateFromPassword plain DefaultCost;
    mret hash.

Definition PlainPassword (plain : string) : result error PasswordInput :=
  encoded ← HashPassword plain;
  mret (mkPasswordInput PasswordSourcePlain encoded).

Definition MustPlainPassword (plain : string) : result error PasswordInput :=
  match PlainPassword plain with Err _ => Panic | r => r end.

(** A bcrypt hash is never the empty string. *)
Context (hash_nonempty : forall plain cost hash, GenerateFromPassword plain cost = Ok hash -> hash <> "").

(** Whatever bcrypt returns, a password built from plain text is accepted by
    Validate and never sends the text itself unhashed: its wire value is the hash bcrypt gave;
    MustPlainPassword panics exactly where PlainPassword fails; and a JSON round trip keeps the
    wire value and validity. *)
Theorem password_inputs_valid plain :
  (forall p, PlainPassword plain = Ok p ->
     PasswordInput_Validate p = None /\ IsHashed p = true /\
     GenerateFromPassword plain DefaultCost = Ok (WireValue p) /\
     MustPlainPassword plain = Ok p /\
     PasswordInput_Validate (PasswordInput_UnmarshalJSON (PasswordInput_MarshalJSON p)) = None /\
     WireValue (PasswordInput_UnmarshalJSON (PasswordInput_MarshalJSON p)) = WireValue p) /\
  (forall e, PlainPassword plain = Err e -> MustPlainPassword plain = Panic) /\
  PlainPassword "" = Err (errors_New "password is required").
Proof.
  unfold MustPlainPassword. split_and!; [|by intros e ->|done].
  intros p Hp. rewrite Hp. unfold PlainPassword, HashPassword in Hp.
  case_bool_decide; [done|].
  destruct (GenerateFromPassword plain DefaultCost) as [hash|e|] eqn:Hg; simpl in Hp; try done.
  injection Hp as <-. apply hash_nonempty in Hg as Hh.
  unfold PasswordInput_Validate, IsHashed, PasswordInput_UnmarshalJSON, HashedPassword; simpl.
  by rewrite bool_decide_false by done.
Qed.

End bcrypt.

Lemma password_inputs_valid_witness :
  let gen := fun p (_ : Z) => @Ok error string ("$2a$10$" +:+ p) in
  PlainPassword gen "pw" = Ok (mkPasswordInput PasswordSourcePlain "$2a$10$pw") /\
  PasswordInput_Validate (mkPasswordInput PasswordSourcePlain "$2a$10$pw") = None.
Proof.
  intros gen. split; [done|]. destruct (password_inputs_valid gen) with (plain := "pw") as [H _].
  - by intros plain cost hash [= <-].
  - by destruct (H (mkPasswordInput PasswordSourcePlain "$2a$10$pw") eq_refl).
Defined.
