(* ===== verification/Records.v ===== *)
(** * The SDK's remaining data types (types.go)

    One [Record] per Go struct, with its zero value. A [[]byte] whose nilness the code never
    inspects is a list of bytes. *)

From stdpp Require Import base list strings.
From S2P Require Import Prelude Errors Types Metadata Password.

(** [type AttachmentType string]: the constants and every other string. *)
Definition AttachmentType : Type := string.
Definition AttachmentTypeChannelManager : AttachmentType := "channel_manager".
Definition AttachmentTypeChannelWriter : AttachmentType := "channel_writer".
Definition AttachmentTypeChannelSubscription : AttachmentType := "channel_subscription".
Definition AttachmentTypeUserBlacklist : AttachmentType := "user_blacklist".

Record Credentials : Type := mkCredentials {
  Credentials_NodeID : Z;
  Credentials_UserID : Z;
  Credentials_LoginName : string;
  Credentials_Password : PasswordInput;
}.

Record CreateUserRequest : Type := mkCreateUserRequest {
  CreateUserRequest_Username : string;
  CreateUserRequest_LoginName : string;
  CreateUserRequest_Password : PasswordInput;
  CreateUserRequest_ProfileJSON : bytes;
  CreateUserRequest_Role : string;
}.

(** A nil pointer leaves the field as it is. *)
Record UpdateUserRequest : Type := mkUpdateUserRequest {
  UpdateUserRequest_Username : option string;
  UpdateUserRequest_LoginName : option string;
  UpdateUserRequest_Password : option PasswordInput;
  UpdateUserRequest_ProfileJSON : option bytes;
  UpdateUserRequest_Role : option string;
}.

Record User : Type := mkUser {
  User_NodeID : Z;
  User_UserID : Z;
  User_Username : string;
  User_LoginName : string;
  User_Role : string;
  User_ProfileJSON : bytes;
  User_SystemReserved : bool;
  User_CreatedAt : string;
  User_UpdatedAt : string;
  User_OriginNodeID : Z;
}.

Record Attachment : Type := mkAttachment {
  Attachment_Owner : UserRef;
  Attachment_Subject : UserRef;
  Attachment_AttachmentType : AttachmentType;
  Attachment_ConfigJSON : bytes;
  Attachment_AttachedAt : string;
  Attachment_DeletedAt : string;
  Attachment_OriginNodeID : Z;
}.

Record Subscription : Type := mkSubscription {
  Subscription_Subscriber : UserRef;
  Subscription_Channel : UserRef;
  Subscription_SubscribedAt : string;
  Subscription_DeletedAt : string;
  Subscription_OriginNodeID : Z;
}.

Record BlacklistEntry : Type := mkBlacklistEntry {
  BlacklistEntry_Owner : UserRef;
  BlacklistEntry_Blocked : UserRef;
  BlacklistEntry_BlockedAt : string;
  BlacklistEntry_DeletedAt : string;
  BlacklistEntry_OriginNodeID : Z;
}.

Record UserMetadata : Type := mkUserMetadata {
  UserMetadata_Owner : UserRef;
  UserMetadata_Key : string;
  UserMetadata_Value : bytes;
  UserMetadata_TypedValue : option MetadataTypedValue;
  UserMetadata_UpdatedAt : string;
  UserMetadata_DeletedAt : string;
  UserMetadata_ExpiresAt : string;
  UserMetadata_OriginNodeID : Z;
}.

Record ScanUserMetadataRequest : Type := mkScanUserMetadataRequest {
  ScanUserMetadataRequest_Prefix : string;
  ScanUserMetadataRequest_After : string;
  ScanUserMetadataRequest_Limit : Z;
}.

Record UserMetadataPage : Type := mkUserMetadataPage {
  UserMetadataPage_Items : list UserMetadata;
  UserMetadataPage_Count : Z;
  UserMetadataPage_NextAfter : string;
}.

Record Event : Type := mkEvent {
  Event_Sequence : Z;
  Event_EventID : Z;
  Event_EventType : string;
  Event_Aggregate : string;
  Event_AggregateNodeID : Z;
  Event_AggregateID : Z;
  Event_HLC : string;
  Event_OriginNodeID : Z;
  Event_EventJSON : bytes;
}.

Record ClusterNode : Type := mkClusterNode {
  ClusterNode_NodeID : Z;
  ClusterNode_IsLocal : bool;
  ClusterNode_ConfiguredURL : string;
  ClusterNode_Source : string;
}.

Record LoggedInUser : Type := mkLoggedInUser {
  LoggedInUser_NodeID : Z;
  LoggedInUser_UserID : Z;
  LoggedInUser_Username : string;
  LoggedInUser_LoginName : string;
}.

Record OnlineNodePresence : Type := mkOnlineNodePresence {
  OnlineNodePresence_ServingNodeID : Z;
  OnlineNodePresence_SessionCount : Z;
  OnlineNodePresence_TransportHint : string;
}.

Record ResolvedSession : Type := mkResolvedSession {
  ResolvedSession_Session : SessionRef;
  ResolvedSession_Transport : string;
  ResolvedSession_TransientCapable : bool;
}.

Record ResolvedUserSessions : Type := mkResolvedUserSessions {
  ResolvedUserSessions_User : UserRef;
  ResolvedUserSessions_Presence : list OnlineNodePresence;
  ResolvedUserSessions_Sessions : list ResolvedSession;
}.

Record MessageTrimStatus : Type := mkMessageTrimStatus { MessageTrimStatus_TrimmedTotal : Z;
  MessageTrimStatus_LastTrimmedAt : string }.

Record ProjectionStatus : Type := mkProjectionStatus { ProjectionStatus_PendingTotal : Z;
  ProjectionStatus_LastFailedAt : string }.

Record PeerOriginStatus : Type := mkPeerOriginStatus {
  PeerOriginStatus_OriginNodeID : Z;
  PeerOriginStatus_AckedEventID : Z;
  PeerOriginStatus_AppliedEventID : Z;
  PeerOriginStatus_UnconfirmedEvents : Z;
  PeerOriginStatus_CursorUpdatedAt : string;
  PeerOriginStatus_RemoteLastEventID : Z;
  PeerOriginStatus_PendingCatchup : bool;
}.

Record PeerStatus : Type := mkPeerStatus {
  PeerStatus_NodeID : Z;
  PeerStatus_ConfiguredURL : string;
  PeerStatus_Source : string;
  PeerStatus_DiscoveredURL : string;
  PeerStatus_DiscoveryState : string;
  PeerStatus_LastDiscoveredAt : string;
  PeerStatus_LastConnectedAt : string;
  PeerStatus_LastDiscoveryError : string;
  PeerStatus_Connected : bool;
  PeerStatus_SessionDirection : string;
  PeerStatus_Origins : list PeerOriginStatus;
  PeerStatus_PendingSnapshotPartitions : Z;
  PeerStatus_RemoteSnapshotVersion : string;
  PeerStatus_RemoteMessageWindowSize : Z;
  PeerStatus_ClockOffsetMS : Z;
  PeerStatus_LastClockSync : string;
  PeerStatus_SnapshotDigestsSentTotal : Z;
  PeerStatus_SnapshotDigestsRecvTotal : Z;
  PeerStatus_SnapshotChunksSentTotal : Z;
  PeerStatus_SnapshotChunksRecvTotal : Z;
  PeerStatus_LastSnapshotDigestAt : string;
  PeerStatus_LastSnapshotChunkAt : string;
}.

Record OperationsStatus : Type := mkOperationsStatus {
  OperationsStatus_NodeID : Z;
  OperationsStatus_MessageWindowSize : Z;
  OperationsStatus_LastEventSequence : Z;
  OperationsStatus_WriteGateReady : bool;
  OperationsStatus_ConflictTotal : Z;
  OperationsStatus_MessageTrim : MessageTrimStatus;
  OperationsStatus_Projection : ProjectionStatus;
  OperationsStatus_Peers : list PeerStatus;
}.

Record DeleteUserResult : Type := mkDeleteUserResult { DeleteUserResult_Status : string;
  DeleteUserResult_User : UserRef }.

Record LoginInfo : Type := mkLoginInfo {
  LoginInfo_User : User;
  LoginInfo_ProtocolVersion : string;
  LoginInfo_SessionRef : SessionRef;
}.

Record SendMessageInput : Type := mkSendMessageInput { SendMessageInput_Target : UserRef;
  SendMessageInput_Body : bytes }.

Record SendPacketInput : Type := mkSendPacketInput {
  SendPacketInput_Target : UserRef;
  SendPacketInput_Body : bytes;
  SendPacketInput_DeliveryMode : DeliveryMode;
  SendPacketInput_TargetSession : SessionRef;
}.

Record ListUsersRequest : Type := mkListUsersRequest { ListUsersRequest_Name : string; ListUsersRequest_UID
  : UserRef }.

(** ** Zero values *)

Definition zero_User : User := mkUser 0 0 "" "" "" [] false "" "" 0.
Definition zero_Attachment : Attachment := mkAttachment zero_UserRef zero_UserRef "" [] "" "" 0.
Definition zero_Subscription : Subscription := mkSubscription zero_UserRef zero_UserRef "" "" 0.
Definition zero_BlacklistEntry : BlacklistEntry := mkBlacklistEntry zero_UserRef zero_UserRef "" "" 0.
Definition zero_UserMetadata : UserMetadata := mkUserMetadata zero_UserRef "" [] None "" "" "" 0.
Definition zero_ScanUserMetadataRequest : ScanUserMetadataRequest := mkScanUserMetadataRequest "" "" 0.
Definition zero_UserMetadataPage : UserMetadataPage := mkUserMetadataPage [] 0 "".
Definition zero_Event : Event := mkEvent 0 0 "" "" 0 0 "" 0 [].
Definition zero_ClusterNode : ClusterNode := mkClusterNode 0 false "" "".
Definition zero_LoggedInUser : LoggedInUser := mkLoggedInUser 0 0 "" "".
Definition zero_OnlineNodePresence : OnlineNodePresence := mkOnlineNodePresence 0 0 "".
Definition zero_ResolvedSession : ResolvedSession := mkResolvedSession zero_SessionRef "" false.
Definition zero_ResolvedUserSessions : ResolvedUserSessions := mkResolvedUserSessions zero_UserRef [] [].
Definition zero_MessageTrimStatus : MessageTrimStatus := mkMessageTrimStatus 0 "".
Definition zero_ProjectionStatus : ProjectionStatus := mkProjectionStatus 0 "".
Definition zero_PeerOriginStatus : PeerOriginStatus := mkPeerOriginStatus 0 0 0 0 "" 0 false.
Definition zero_PeerStatus : PeerStatus := mkPeerStatus 0 "" "" "" "" "" "" "" false "" [] 0 "" 0 0 "" 0 0
  0 0 "" "".
Definition zero_OperationsStatus : OperationsStatus := mkOperationsStatus 0 0 0 false 0
  zero_MessageTrimStatus zero_ProjectionStatus [].
Definition zero_DeleteUserResult : DeleteUserResult := mkDeleteUserResult "" zero_UserRef.
Definition zero_LoginInfo : LoginInfo := mkLoginInfo zero_User "" zero_SessionRef.
Definition zero_SendMessageInput : SendMessageInput := mkSendMessageInput zero_UserRef [].
Definition zero_SendPacketInput : SendPacketInput := mkSendPacketInput zero_UserRef [] "" zero_SessionRef.
Definition zero_ListUsersRequest : ListUsersRequest := mkListUsersRequest "" zero_UserRef.
