(* ===== verification/HttpTypes.v ===== *)
(** * What the HTTP client sends and receives (http_client.go, and the JSON tags of types.go)

    The private request and response structs of http_client.go, the JSON of a request body
    ([..._json], a tree for [marshal]) and the decoder of a struct ([dec_...], by its tags). *)

From Stdlib Require Import Strings.Byte.
From stdpp Require Import base list strings.
From S2P Require Import Prelude Errors Types Text Encoding Json JsonMarshal JsonDecode Metadata Password Records.

(** ** Request bodies *)

Record httpLoginRequest : Type := mkhttpLoginRequest {
  lr_NodeID : Z; lr_UserID : Z; lr_LoginName : string; lr_Password : string }.
Definition httpLoginRequest_json (r : httpLoginRequest) : jout := OObject (
  omit (lr_NodeID r =? 0) "node_id" (OInt (lr_NodeID r)) ++ omit (lr_UserID r =? 0) "user_id" (OInt (lr_UserID r)) ++
  omit (bool_decide (lr_LoginName r = "")) "login_name" (OStr (lr_LoginName r)) ++
  always "password" (OStr (lr_Password r))).

Record httpAttachmentRequest : Type := mkhttpAttachmentRequest { ar_ConfigJSON : option bytes }.
Definition httpAttachmentRequest_json (r : httpAttachmentRequest) : jout :=
  OObject (always "config_json" (ORaw (ar_ConfigJSON r))).

Record httpMessageRequest : Type := mkhttpMessageRequest {
  mr_Body : bytes; mr_DeliveryKind : string; mr_DeliveryMode : string }.
Definition httpMessageRequest_json (r : httpMessageRequest) : jout := OObject (
  always "body" (OBytes (Some (mr_Body r))) ++
  omit (bool_decide (mr_DeliveryKind r = "")) "delivery_kind" (OStr (mr_DeliveryKind r)) ++
  omit (bool_decide (mr_DeliveryMode r = "")) "delivery_mode" (OStr (mr_DeliveryMode r))).

Record httpCreateUserRequest : Type := mkhttpCreateUserRequest {
  cr_Username : string; cr_LoginName : string; cr_Password : string; cr_Profile : bytes; cr_Role : string }.
Definition httpCreateUserRequest_json (r : httpCreateUserRequest) : jout := OObject (
  always "username" (OStr (cr_Username r)) ++
  omit (bool_decide (cr_LoginName r = "")) "login_name" (OStr (cr_LoginName r)) ++
  omit (bool_decide (cr_Password r = "")) "password" (OStr (cr_Password r)) ++
  omit (bool_decide (cr_Profile r = [])) "profile" (ORaw (Some (cr_Profile r))) ++
  always "role" (OStr (cr_Role r))).

Record httpUpdateUserRequest : Type := mkhttpUpdateUserRequest {
  ur_Username : option string; ur_LoginName : option string; ur_Password : option string;
  ur_Profile : option bytes; ur_Role : option string }.
Definition httpUpdateUserRequest_json (r : httpUpdateUserRequest) : jout := OObject (
  omit_nil "username" (ur_Username r) OStr ++ omit_nil "login_name" (ur_LoginName r) OStr ++
  omit_nil "password" (ur_Password r) OStr ++ omit_nil "profile" (ur_Profile r) (fun p => ORaw (Some p)) ++
  omit_nil "role" (ur_Role r) OStr).

(** [json.Marshal(out)] of a metadata payload. *)
Definition MetadataTypedValue_json (v : MetadataTypedValue) : jout := OObject (
  always "kind" (OStr (tv_Kind v)) ++ omit_nil "bytes_value" (tv_BytesValue v) OBytes ++
  omit_nil "bool_value" (tv_BoolValue v) OBool ++ omit_nil "string_value" (tv_StringValue v) OStr ++
  omit_nil "number_value" (tv_NumberValue v) ORaw ++ omit_nil "json_value" (tv_JSONValue v) ORaw).
Definition upsert_payload_json (p : upsert_payload) : jout := OObject (
  omit_nil "value" (pl_Value p) OBytes ++ omit_nil "typed_value" (pl_TypedValue p) MetadataTypedValue_json ++
  omit_nil "expires_at" (pl_ExpiresAt p) OStr).

(** ** Response bodies *)

Definition dec_UserRef : dec UserRef := dec_struct (fun ms c => (mkUserRef, false)
  <&>> field ms "node_id" dec_int64 (ur_NodeID c) <&>> field ms "user_id" dec_int64 (ur_UserID c)).

Record httpLoginResponse : Type := mkhttpLoginResponse { lp_Token : string }.
Definition dec_httpLoginResponse : dec httpLoginResponse := dec_struct (fun ms c => (mkhttpLoginResponse, false)
  <&>> field ms "token" dec_string (lp_Token c)).

Record httpUserResponse : Type := mkhttpUserResponse {
  up_NodeID : Z; up_UserID : Z; up_Username : string; up_LoginName : string; up_Role : string;
  up_Profile : bytes; up_ProfileJSON : bytes; up_SystemReserved : bool; up_CreatedAt : string;
  up_UpdatedAt : string; up_OriginNodeID : Z }.
Definition zero_httpUserResponse : httpUserResponse := mkhttpUserResponse 0 0 "" "" "" [] [] false "" "" 0.
Definition dec_httpUserResponse : dec httpUserResponse := dec_struct (fun ms c => (mkhttpUserResponse, false)
  <&>> field ms "node_id" dec_int64 (up_NodeID c) <&>> field ms "user_id" dec_int64 (up_UserID c)
  <&>> field ms "username" dec_string (up_Username c) <&>> field ms "login_name" dec_string (up_LoginName c)
  <&>> field ms "role" dec_string (up_Role c) <&>> field ms "profile" dec_raw (up_Profile c)
  <&>> field ms "profile_json" dec_raw (up_ProfileJSON c)
  <&>> field ms "system_reserved" dec_bool (up_SystemReserved c)
  <&>> field ms "created_at" dec_string (up_CreatedAt c) <&>> field ms "updated_at" dec_string (up_UpdatedAt c)
  <&>> field ms "origin_node_id" dec_int64 (up_OriginNodeID c)).

Record httpMessageResponse : Type := mkhttpMessageResponse {
  mp_Recipient : UserRef; mp_NodeID : Z; mp_Seq : Z; mp_Sender : UserRef; mp_Body : bytes;
  mp_CreatedAt : string; mp_CreatedAtHLC : string }.
Definition zero_httpMessageResponse : httpMessageResponse :=
  mkhttpMessageResponse zero_UserRef 0 0 zero_UserRef [] "" "".
Definition dec_httpMessageResponse : dec httpMessageResponse := dec_struct (fun ms c => (mkhttpMessageResponse, false)
  <&>> field ms "recipient" dec_UserRef (mp_Recipient c) <&>> field ms "node_id" dec_int64 (mp_NodeID c)
  <&>> field ms "seq" dec_int64 (mp_Seq c) <&>> field ms "sender" dec_UserRef (mp_Sender c)
  <&>> field ms "body" dec_bytes (mp_Body c) <&>> field ms "created_at" dec_string (mp_CreatedAt c)
  <&>> field ms "created_at_hlc" dec_string (mp_CreatedAtHLC c)).

Definition dec_ClusterNode : dec ClusterNode := dec_struct (fun ms c => (mkClusterNode, false)
  <&>> field ms "node_id" dec_int64 (ClusterNode_NodeID c) <&>> field ms "is_local" dec_bool (ClusterNode_IsLocal c)
  <&>> field ms "configured_url" dec_string (ClusterNode_ConfiguredURL c)
  <&>> field ms "source" dec_string (ClusterNode_Source c)).

Definition dec_LoggedInUser : dec LoggedInUser := dec_struct (fun ms c => (mkLoggedInUser, false)
  <&>> field ms "node_id" dec_int64 (LoggedInUser_NodeID c) <&>> field ms "user_id" dec_int64 (LoggedInUser_UserID c)
  <&>> field ms "username" dec_string (LoggedInUser_Username c)
  <&>> field ms "login_name" dec_string (LoggedInUser_LoginName c)).

Definition dec_Attachment : dec Attachment := dec_struct (fun ms c => (mkAttachment, false)
  <&>> field ms "owner" dec_UserRef (Attachment_Owner c) <&>> field ms "subject" dec_UserRef (Attachment_Subject c)
  <&>> field ms "attachment_type" dec_string (Attachment_AttachmentType c)
  <&>> field ms "config_json" dec_bytes (Attachment_ConfigJSON c)
  <&>> field ms "attached_at" dec_string (Attachment_AttachedAt c)
  <&>> field ms "deleted_at" dec_string (Attachment_DeletedAt c)
  <&>> field ms "origin_node_id" dec_int64 (Attachment_OriginNodeID c)).

Definition dec_Event : dec Event := dec_struct (fun ms c => (mkEvent, false)
  <&>> field ms "sequence" dec_int64 (Event_Sequence c) <&>> field ms "event_id" dec_int64 (Event_EventID c)
  <&>> field ms "event_type" dec_string (Event_EventType c) <&>> field ms "aggregate" dec_string (Event_Aggregate c)
  <&>> field ms "aggregate_node_id" dec_int64 (Event_AggregateNodeID c)
  <&>> field ms "aggregate_id" dec_int64 (Event_AggregateID c) <&>> field ms "hlc" dec_string (Event_HLC c)
  <&>> field ms "origin_node_id" dec_int64 (Event_OriginNodeID c)
  <&>> field ms "event_json" dec_bytes (Event_EventJSON c)).

Record httpDeleteUserResponse : Type := mkhttpDeleteUserResponse { dp_Status : string; dp_NodeID : Z; dp_UserID : Z }.
Definition dec_httpDeleteUserResponse : dec httpDeleteUserResponse :=
  dec_struct (fun ms c => (mkhttpDeleteUserResponse, false)
  <&>> field ms "status" dec_string (dp_Status c) <&>> field ms "node_id" dec_int64 (dp_NodeID c)
  <&>> field ms "user_id" dec_int64 (dp_UserID c)).

Definition zero_MetadataTypedValue : MetadataTypedValue := mkTyped "" None None None None None.
Definition dec_MetadataTypedValue : dec MetadataTypedValue := dec_struct (fun ms c => (mkTyped, false)
  <&>> field ms "kind" dec_string (tv_Kind c)
  <&>> field ms "bytes_value" (dec_pointer dec_bytes_nil None) (tv_BytesValue c)
  <&>> field ms "bool_value" (dec_pointer dec_bool false) (tv_BoolValue c)
  <&>> field ms "string_value" (dec_pointer dec_string "") (tv_StringValue c)
  <&>> field ms "number_value" (dec_pointer dec_raw_nil None) (tv_NumberValue c)
  <&>> field ms "json_value" (dec_pointer dec_raw_nil None) (tv_JSONValue c)).

Definition dec_UserMetadata : dec UserMetadata := dec_struct (fun ms c => (mkUserMetadata, false)
  <&>> field ms "owner" dec_UserRef (UserMetadata_Owner c) <&>> field ms "key" dec_string (UserMetadata_Key c)
  <&>> field ms "value" dec_bytes (UserMetadata_Value c)
  <&>> field ms "typed_value" (dec_pointer dec_MetadataTypedValue zero_MetadataTypedValue) (UserMetadata_TypedValue c)
  <&>> field ms "updated_at" dec_string (UserMetadata_UpdatedAt c)
  <&>> field ms "deleted_at" dec_string (UserMetadata_DeletedAt c)
  <&>> field ms "expires_at" dec_string (UserMetadata_ExpiresAt c)
  <&>> field ms "origin_node_id" dec_int64 (UserMetadata_OriginNodeID c)).

Definition dec_UserMetadataPage : dec UserMetadataPage := dec_struct (fun ms c => (mkUserMetadataPage, false)
  <&>> field ms "items" (dec_slice dec_UserMetadata zero_UserMetadata) (UserMetadataPage_Items c)
  <&>> field ms "count" dec_int64 (UserMetadataPage_Count c)
  <&>> field ms "next_after" dec_string (UserMetadataPage_NextAfter c)).

Definition dec_MessageTrimStatus : dec MessageTrimStatus := dec_struct (fun ms c => (mkMessageTrimStatus, false)
  <&>> field ms "trimmed_total" dec_int64 (MessageTrimStatus_TrimmedTotal c)
  <&>> field ms "last_trimmed_at" dec_string (MessageTrimStatus_LastTrimmedAt c)).
Definition dec_ProjectionStatus : dec ProjectionStatus := dec_struct (fun ms c => (mkProjectionStatus, false)
  <&>> field ms "pending_total" dec_int64 (ProjectionStatus_PendingTotal c)
  <&>> field ms "last_failed_at" dec_string (ProjectionStatus_LastFailedAt c)).
Definition dec_PeerOriginStatus : dec PeerOriginStatus := dec_struct (fun ms c => (mkPeerOriginStatus, false)
  <&>> field ms "origin_node_id" dec_int64 (PeerOriginStatus_OriginNodeID c)
  <&>> field ms "acked_event_id" dec_int64 (PeerOriginStatus_AckedEventID c)
  <&>> field ms "applied_event_id" dec_int64 (PeerOriginStatus_AppliedEventID c)
  <&>> field ms "unconfirmed_events" dec_int64 (PeerOriginStatus_UnconfirmedEvents c)
  <&>> field ms "cursor_updated_at" dec_string (PeerOriginStatus_CursorUpdatedAt c)
  <&>> field ms "remote_last_event_id" dec_uint64 (PeerOriginStatus_RemoteLastEventID c)
  <&>> field ms "pending_catchup" dec_bool (PeerOriginStatus_PendingCatchup c)).

Definition dec_PeerStatus : dec PeerStatus := dec_struct (fun ms c => (mkPeerStatus, false)
  <&>> field ms "node_id" dec_int64 (PeerStatus_NodeID c)
  <&>> field ms "configured_url" dec_string (PeerStatus_ConfiguredURL c)
  <&>> field ms "source" dec_string (PeerStatus_Source c)
  <&>> field ms "discovered_url" dec_string (PeerStatus_DiscoveredURL c)
  <&>> field ms "discovery_state" dec_string (PeerStatus_DiscoveryState c)
  <&>> field ms "last_discovered_at" dec_string (PeerStatus_LastDiscoveredAt c)
  <&>> field ms "last_connected_at" dec_string (PeerStatus_LastConnectedAt c)
  <&>> field ms "last_discovery_error" dec_string (PeerStatus_LastDiscoveryError c)
  <&>> field ms "connected" dec_bool (PeerStatus_Connected c)
  <&>> field ms "session_direction" dec_string (PeerStatus_SessionDirection c)
  <&>> field ms "origins" (dec_slice dec_PeerOriginStatus zero_PeerOriginStatus) (PeerStatus_Origins c)
  <&>> field ms "pending_snapshot_partitions" dec_int32 (PeerStatus_PendingSnapshotPartitions c)
  <&>> field ms "remote_snapshot_version" dec_string (PeerStatus_RemoteSnapshotVersion c)
  <&>> field ms "remote_message_window_size" dec_int32 (PeerStatus_RemoteMessageWindowSize c)
  <&>> field ms "clock_offset_ms" dec_int64 (PeerStatus_ClockOffsetMS c)
  <&>> field ms "last_clock_sync" dec_string (PeerStatus_LastClockSync c)
  <&>> field ms "snapshot_digests_sent_total" dec_uint64 (PeerStatus_SnapshotDigestsSentTotal c)
  <&>> field ms "snapshot_digests_received_total" dec_uint64 (PeerStatus_SnapshotDigestsRecvTotal c)
  <&>> field ms "snapshot_chunks_sent_total" dec_uint64 (PeerStatus_SnapshotChunksSentTotal c)
  <&>> field ms "snapshot_chunks_received_total" dec_uint64 (PeerStatus_SnapshotChunksRecvTotal c)
  <&>> field ms "last_snapshot_digest_at" dec_string (PeerStatus_LastSnapshotDigestAt c)
  <&>> field ms "last_snapshot_chunk_at" dec_string (PeerStatus_LastSnapshotChunkAt c)).

Definition dec_OperationsStatus : dec OperationsStatus := dec_struct (fun ms c => (mkOperationsStatus, false)
  <&>> field ms "node_id" dec_int64 (OperationsStatus_NodeID c)
  <&>> field ms "message_window_size" dec_int32 (OperationsStatus_MessageWindowSize c)
  <&>> field ms "last_event_sequence" dec_int64 (OperationsStatus_LastEventSequence c)
  <&>> field ms "write_gate_ready" dec_bool (OperationsStatus_WriteGateReady c)
  <&>> field ms "conflict_total" dec_int64 (OperationsStatus_ConflictTotal c)
  <&>> field ms "message_trim" dec_MessageTrimStatus (OperationsStatus_MessageTrim c)
  <&>> field ms "projection" dec_ProjectionStatus (OperationsStatus_Projection c)
  <&>> field ms "peers" (dec_slice dec_PeerStatus zero_PeerStatus) (OperationsStatus_Peers c)).

(** ** Lists: a JSON array, or an object that holds one *)

Record httpList (A : Type) : Type := mkhttpList { hl_Items : list A; hl_Count : Z; hl_TargetNodeID : Z }.
Arguments mkhttpList {A}.
Arguments hl_Items {A}.
Arguments hl_Count {A}.
Arguments hl_TargetNodeID {A}.

(** [UnmarshalJSON] of a list response, with the decoder of its object form ([alias]). A decoder
    says whether it failed, not with which text: for a field of the wrong type the two branches
    name different paths in theirs. *)
Definition UnmarshalJSON_list {A} (d : dec A) (zero : A) (alias : dec (httpList A)) : dec (httpList A) :=
  fun data v cur =>
    if isJSONArray data
    then let '(items, e) := Unmarshal (dec_slice d zero) data (hl_Items cur) in
         (mkhttpList items (hl_Count cur) (hl_TargetNodeID cur), e)
    else Unmarshal alias data cur.

(** [Items] and [Count] under their tags; [ClusterNodes] has only [nodes]. *)
Definition alias_items {A} (d : dec A) (zero : A) : dec (httpList A) := dec_struct (fun ms c => (mkhttpList, false)
  <&>> field ms "items" (dec_slice d zero) (hl_Items c) <&>> field ms "count" dec_int64 (hl_Count c)
  <&>> (hl_TargetNodeID c, false)).
Definition alias_nodes {A} (d : dec A) (zero : A) : dec (httpList A) := dec_struct (fun ms c => (mkhttpList, false)
  <&>> field ms "nodes" (dec_slice d zero) (hl_Items c) <&>> (hl_Count c, false) <&>> (hl_TargetNodeID c, false)).
Definition alias_logged_in {A} (d : dec A) (zero : A) : dec (httpList A) := dec_struct (fun ms c => (mkhttpList, false)
  <&>> field ms "items" (dec_slice d zero) (hl_Items c) <&>> field ms "count" dec_int64 (hl_Count c)
  <&>> field ms "target_node_id" dec_int64 (hl_TargetNodeID c)).

Definition zero_httpList {A} : httpList A := mkhttpList [] 0 0.

Definition dec_httpMessagesResponse : dec (httpList httpMessageResponse) :=
  UnmarshalJSON_list dec_httpMessageResponse zero_httpMessageResponse
    (alias_items dec_httpMessageResponse zero_httpMessageResponse).
Definition dec_httpClusterNodesResponse : dec (httpList ClusterNode) :=
  UnmarshalJSON_list dec_ClusterNode zero_ClusterNode (alias_nodes dec_ClusterNode zero_ClusterNode).
Definition dec_httpNodeLoggedInUsersResponse : dec (httpList LoggedInUser) :=
  UnmarshalJSON_list dec_LoggedInUser zero_LoggedInUser (alias_logged_in dec_LoggedInUser zero_LoggedInUser).
Definition dec_httpUsersResponse : dec (httpList httpUserResponse) :=
  UnmarshalJSON_list dec_httpUserResponse zero_httpUserResponse
    (alias_items dec_httpUserResponse zero_httpUserResponse).
Definition dec_httpAttachmentsResponse : dec (httpList Attachment) :=
  UnmarshalJSON_list dec_Attachment zero_Attachment (alias_items dec_Attachment zero_Attachment).
Definition dec_httpEventsResponse : dec (httpList Event) :=
  UnmarshalJSON_list dec_Event zero_Event (alias_items dec_Event zero_Event).
