(* ===== verification/Convert.v ===== *)
(** * Conversions between the wire messages and the SDK's types (types.go)

    Every [...FromProto] and [...ToProto] function. A loop that appends the conversion of each
    item is [collect]. *)

From stdpp Require Import base list strings.
From S2P Require Import Prelude Errors Types Wire Metadata Password Records.

(** [for _, item := range items { out = append(out, f(item)) }] *)
Definition collect {A B} (f : A -> B) (items : list A) : list B :=
  fold_left (fun out item => out ++ [f item]) items [].

(** ** To the wire *)

Definition deliveryModeToProto (mode : DeliveryMode) : Z :=
  if bool_decide (mode = DeliveryModeBestEffort) then CLIENT_DELIVERY_MODE_BEST_EFFORT
  else if bool_decide (mode = DeliveryModeRouteRetry) then CLIENT_DELIVERY_MODE_ROUTE_RETRY
  else CLIENT_DELIVERY_MODE_UNSPECIFIED.

Definition deliveryModeFromProto (mode : Z) : DeliveryMode :=
  if mode =? CLIENT_DELIVERY_MODE_BEST_EFFORT then DeliveryModeBestEffort
  else if mode =? CLIENT_DELIVERY_MODE_ROUTE_RETRY then DeliveryModeRouteRetry
  else DeliveryModeUnspecified.

Definition attachmentTypeToProto (t : AttachmentType) : Z :=
  if bool_decide (t = AttachmentTypeChannelManager) then ATTACHMENT_TYPE_CHANNEL_MANAGER
  else if bool_decide (t = AttachmentTypeChannelWriter) then ATTACHMENT_TYPE_CHANNEL_WRITER
  else if bool_decide (t = AttachmentTypeChannelSubscription) then ATTACHMENT_TYPE_CHANNEL_SUBSCRIPTION
  else if bool_decide (t = AttachmentTypeUserBlacklist) then ATTACHMENT_TYPE_USER_BLACKLIST
  else ATTACHMENT_TYPE_UNSPECIFIED.

Definition attachmentTypeFromProto (t : Z) : AttachmentType :=
  if t =? ATTACHMENT_TYPE_CHANNEL_MANAGER then AttachmentTypeChannelManager
  else if t =? ATTACHMENT_TYPE_CHANNEL_WRITER then AttachmentTypeChannelWriter
  else if t =? ATTACHMENT_TYPE_CHANNEL_SUBSCRIPTION then AttachmentTypeChannelSubscription
  else if t =? ATTACHMENT_TYPE_USER_BLACKLIST then AttachmentTypeUserBlacklist
  else "".

Definition userRefToProto (r : UserRef) : option pb_UserRef :=
  if UserRef_IsZero r then None
  else Some {| pb_UserRef_NodeId := ur_NodeID r; pb_UserRef_UserId := ur_UserID r |}.

Definition sessionRefToProto (r : SessionRef) : option pb_SessionRef :=
  if SessionRef_IsZero r then None
  else Some {| pb_SessionRef_ServingNodeId := sr_ServingNodeID r; pb_SessionRef_SessionId := sr_SessionID r |}.

Definition cursorToProto (c : MessageCursor) : option pb_MessageCursor :=
  Some {| pb_MessageCursor_NodeId := mc_NodeID c; pb_MessageCursor_Seq := mc_Seq c |}.

Definition optionalStringField (value : option string) : option pb_StringField :=
  match value with None => None | Some v => Some {| pb_StringField_Value := v |} end.
Definition optionalPasswordField (value : option PasswordInput) : option pb_StringField :=
  match value with None => None | Some v => Some {| pb_StringField_Value := WireValue v |} end.
Definition optionalBytesField (value : option bytes) : option pb_BytesField :=
  match value with None => None | Some v => Some {| pb_BytesField_Value := v |} end.

(** ** From the wire *)

Definition userRefFromProto (i : option pb_UserRef) : UserRef :=
  match i with
  | None => zero_UserRef
  | Some i =>
      {| ur_NodeID := pb_UserRef_NodeId i;
         ur_UserID := pb_UserRef_UserId i |}
  end.

Definition sessionRefFromProto (i : option pb_SessionRef) : SessionRef :=
  match i with
  | None => zero_SessionRef
  | Some i =>
      {| sr_ServingNodeID := pb_SessionRef_ServingNodeId i;
         sr_SessionID := pb_SessionRef_SessionId i |}
  end.

Definition userFromProto (i : option pb_User) : User :=
  match i with
  | None => zero_User
  | Some i =>
      {| User_NodeID := pb_User_NodeId i;
         User_UserID := pb_User_UserId i;
         User_Username := pb_User_Username i;
         User_LoginName := pb_User_LoginName i;
         User_Role := pb_User_Role i;
         User_ProfileJSON := pb_User_ProfileJson i;
         User_SystemReserved := pb_User_SystemReserved i;
         User_CreatedAt := pb_User_CreatedAt i;
         User_UpdatedAt := pb_User_UpdatedAt i;
         User_OriginNodeID := pb_User_OriginNodeId i |}
  end.

Definition usersFromProto (items : list (option pb_User)) : list User := collect userFromProto items.

Definition cursorFromProto (i : option pb_MessageCursor) : MessageCursor :=
  match i with
  | None => zero_MessageCursor
  | Some i =>
      {| mc_NodeID := pb_MessageCursor_NodeId i;
         mc_Seq := pb_MessageCursor_Seq i |}
  end.

Definition messageFromProto (i : option pb_Message) : Message :=
  match i with
  | None => zero_Message
  | Some i =>
      {| m_Recipient := userRefFromProto (pb_Message_Recipient i);
         m_NodeID := pb_Message_NodeId i;
         m_Seq := pb_Message_Seq i;
         m_Sender := userRefFromProto (pb_Message_Sender i);
         m_Body := pb_Message_Body i;
         m_CreatedAtHLC := pb_Message_CreatedAtHlc i |}
  end.

Definition packetFromProto (i : option pb_Packet) : Packet :=
  match i with
  | None => zero_Packet
  | Some i =>
      {| p_PacketID := pb_Packet_PacketId i;
         p_SourceNodeID := pb_Packet_SourceNodeId i;
         p_TargetNodeID := pb_Packet_TargetNodeId i;
         p_Recipient := userRefFromProto (pb_Packet_Recipient i);
         p_Sender := userRefFromProto (pb_Packet_Sender i);
         p_Body := pb_Packet_Body i;
         p_DeliveryMode := deliveryModeFromProto (pb_Packet_DeliveryMode i);
         p_TargetSession := sessionRefFromProto (pb_Packet_TargetSession i) |}
  end.

Definition relayAcceptedFromProto (i : option pb_TransientAccepted) : RelayAccepted :=
  match i with
  | None => zero_RelayAccepted
  | Some i =>
      {| ra_PacketID := pb_TransientAccepted_PacketId i;
         ra_SourceNodeID := pb_TransientAccepted_SourceNodeId i;
         ra_TargetNodeID := pb_TransientAccepted_TargetNodeId i;
         ra_Recipient := userRefFromProto (pb_TransientAccepted_Recipient i);
         ra_DeliveryMode := deliveryModeFromProto (pb_TransientAccepted_DeliveryMode i);
         ra_TargetSession := sessionRefFromProto (pb_TransientAccepted_TargetSession i) |}
  end.

Definition attachmentFromProto (i : option pb_Attachment) : Attachment :=
  match i with
  | None => zero_Attachment
  | Some i =>
      {| Attachment_Owner := userRefFromProto (pb_Attachment_Owner i);
         Attachment_Subject := userRefFromProto (pb_Attachment_Subject i);
         Attachment_AttachmentType := attachmentTypeFromProto (pb_Attachment_AttachmentType i);
         Attachment_ConfigJSON := pb_Attachment_ConfigJson i;
         Attachment_AttachedAt := pb_Attachment_AttachedAt i;
         Attachment_DeletedAt := pb_Attachment_DeletedAt i;
         Attachment_OriginNodeID := pb_Attachment_OriginNodeId i |}
  end.

Definition subscriptionFromProto (i : option pb_Attachment) : Subscription :=
  let attachment := attachmentFromProto i in
  {| Subscription_Subscriber := Attachment_Owner attachment; Subscription_Channel := Attachment_Subject attachment; Subscription_SubscribedAt := Attachment_AttachedAt attachment; Subscription_DeletedAt := Attachment_DeletedAt attachment; Subscription_OriginNodeID := Attachment_OriginNodeID attachment |}.

Definition blacklistEntryFromProto (i : option pb_Attachment) : BlacklistEntry :=
  let attachment := attachmentFromProto i in
  {| BlacklistEntry_Owner := Attachment_Owner attachment; BlacklistEntry_Blocked := Attachment_Subject attachment; BlacklistEntry_BlockedAt := Attachment_AttachedAt attachment; BlacklistEntry_DeletedAt := Attachment_DeletedAt attachment; BlacklistEntry_OriginNodeID := Attachment_OriginNodeID attachment |}.

Definition userMetadataFromProto (i : option pb_UserMetadata) : UserMetadata :=
  match i with
  | None => zero_UserMetadata
  | Some i =>
      {| UserMetadata_Owner := userRefFromProto (pb_UserMetadata_Owner i);
         UserMetadata_Key := pb_UserMetadata_Key i;
         UserMetadata_Value := pb_UserMetadata_Value i;
         UserMetadata_UpdatedAt := pb_UserMetadata_UpdatedAt i;
         UserMetadata_DeletedAt := pb_UserMetadata_DeletedAt i;
         UserMetadata_ExpiresAt := pb_UserMetadata_ExpiresAt i;
         UserMetadata_OriginNodeID := pb_UserMetadata_OriginNodeId i;
         UserMetadata_TypedValue := None |}
  end.

Definition userMetadataItemsFromProto (items : list (option pb_UserMetadata)) : list UserMetadata := collect userMetadataFromProto items.

Definition userMetadataPageFromProto (i : option pb_ScanUserMetadataResponse) : UserMetadataPage :=
  match i with
  | None => zero_UserMetadataPage
  | Some i =>
      {| UserMetadataPage_Items := userMetadataItemsFromProto (pb_ScanUserMetadataResponse_Items i);
         UserMetadataPage_Count := pb_ScanUserMetadataResponse_Count i;
         UserMetadataPage_NextAfter := pb_ScanUserMetadataResponse_NextAfter i |}
  end.

Definition eventFromProto (i : option pb_Event) : Event :=
  match i with
  | None => zero_Event
  | Some i =>
      {| Event_Sequence := pb_Event_Sequence i;
         Event_EventID := pb_Event_EventId i;
         Event_EventType := pb_Event_EventType i;
         Event_Aggregate := pb_Event_Aggregate i;
         Event_AggregateNodeID := pb_Event_AggregateNodeId i;
         Event_AggregateID := pb_Event_AggregateId i;
         Event_HLC := pb_Event_Hlc i;
         Event_OriginNodeID := pb_Event_OriginNodeId i;
         Event_EventJSON := pb_Event_EventJson i |}
  end.

Definition clusterNodeFromProto (i : option pb_ClusterNode) : ClusterNode :=
  match i with
  | None => zero_ClusterNode
  | Some i =>
      {| ClusterNode_NodeID := pb_ClusterNode_NodeId i;
         ClusterNode_IsLocal := pb_ClusterNode_IsLocal i;
         ClusterNode_ConfiguredURL := pb_ClusterNode_ConfiguredUrl i;
         ClusterNode_Source := pb_ClusterNode_Source i |}
  end.

Definition loggedInUserFromProto (i : option pb_LoggedInUser) : LoggedInUser :=
  match i with
  | None => zero_LoggedInUser
  | Some i =>
      {| LoggedInUser_NodeID := pb_LoggedInUser_NodeId i;
         LoggedInUser_UserID := pb_LoggedInUser_UserId i;
         LoggedInUser_Username := pb_LoggedInUser_Username i;
         LoggedInUser_LoginName := pb_LoggedInUser_LoginName i |}
  end.

Definition onlineNodePresenceFromProto (i : option pb_OnlineNodePresence) : OnlineNodePresence :=
  match i with
  | None => zero_OnlineNodePresence
  | Some i =>
      {| OnlineNodePresence_ServingNodeID := pb_OnlineNodePresence_ServingNodeId i;
         OnlineNodePresence_SessionCount := pb_OnlineNodePresence_SessionCount i;
         OnlineNodePresence_TransportHint := pb_OnlineNodePresence_TransportHint i |}
  end.

Definition resolvedSessionFromProto (i : option pb_ResolvedSession) : ResolvedSession :=
  match i with
  | None => zero_ResolvedSession
  | Some i =>
      {| ResolvedSession_Session := sessionRefFromProto (pb_ResolvedSession_Session i);
         ResolvedSession_Transport := pb_ResolvedSession_Transport i;
         ResolvedSession_TransientCapable := pb_ResolvedSession_TransientCapable i |}
  end.

Definition resolvedUserSessionsFromProto (i : option pb_ResolveUserSessionsResponse) : ResolvedUserSessions :=
  match i with
  | None => zero_ResolvedUserSessions
  | Some i =>
      {| ResolvedUserSessions_User := userRefFromProto (pb_ResolveUserSessionsResponse_User i);
         ResolvedUserSessions_Presence := collect onlineNodePresenceFromProto (pb_ResolveUserSessionsResponse_Presence i);
         ResolvedUserSessions_Sessions := collect resolvedSessionFromProto (pb_ResolveUserSessionsResponse_Items i) |}
  end.

Definition peerOriginStatusFromProto (i : option pb_PeerOriginStatus) : PeerOriginStatus :=
  match i with
  | None => zero_PeerOriginStatus
  | Some i =>
      {| PeerOriginStatus_OriginNodeID := pb_PeerOriginStatus_OriginNodeId i;
         PeerOriginStatus_AckedEventID := pb_PeerOriginStatus_AckedEventId i;
         PeerOriginStatus_AppliedEventID := pb_PeerOriginStatus_AppliedEventId i;
         PeerOriginStatus_UnconfirmedEvents := pb_PeerOriginStatus_UnconfirmedEvents i;
         PeerOriginStatus_CursorUpdatedAt := pb_PeerOriginStatus_CursorUpdatedAt i;
         PeerOriginStatus_RemoteLastEventID := pb_PeerOriginStatus_RemoteLastEventId i;
         PeerOriginStatus_PendingCatchup := pb_PeerOriginStatus_PendingCatchup i |}
  end.

Definition peerStatusFromProto (i : option pb_PeerStatus) : PeerStatus :=
  match i with
  | None => zero_PeerStatus
  | Some i =>
      {| PeerStatus_NodeID := pb_PeerStatus_NodeId i;
         PeerStatus_ConfiguredURL := pb_PeerStatus_ConfiguredUrl i;
         PeerStatus_Source := pb_PeerStatus_Source i;
         PeerStatus_DiscoveredURL := pb_PeerStatus_DiscoveredUrl i;
         PeerStatus_DiscoveryState := pb_PeerStatus_DiscoveryState i;
         PeerStatus_LastDiscoveredAt := pb_PeerStatus_LastDiscoveredAt i;
         PeerStatus_LastConnectedAt := pb_PeerStatus_LastConnectedAt i;
         PeerStatus_LastDiscoveryError := pb_PeerStatus_LastDiscoveryError i;
         PeerStatus_Connected := pb_PeerStatus_Connected i;
         PeerStatus_SessionDirection := pb_PeerStatus_SessionDirection i;
         PeerStatus_Origins := collect peerOriginStatusFromProto (pb_PeerStatus_Origins i);
         PeerStatus_PendingSnapshotPartitions := pb_PeerStatus_PendingSnapshotPartitions i;
         PeerStatus_RemoteSnapshotVersion := pb_PeerStatus_RemoteSnapshotVersion i;
         PeerStatus_RemoteMessageWindowSize := pb_PeerStatus_RemoteMessageWindowSize i;
         PeerStatus_ClockOffsetMS := pb_PeerStatus_ClockOffsetMs i;
         PeerStatus_LastClockSync := pb_PeerStatus_LastClockSync i;
         PeerStatus_SnapshotDigestsSentTotal := pb_PeerStatus_SnapshotDigestsSentTotal i;
         PeerStatus_SnapshotDigestsRecvTotal := pb_PeerStatus_SnapshotDigestsReceivedTotal i;
         PeerStatus_SnapshotChunksSentTotal := pb_PeerStatus_SnapshotChunksSentTotal i;
         PeerStatus_SnapshotChunksRecvTotal := pb_PeerStatus_SnapshotChunksReceivedTotal i;
         PeerStatus_LastSnapshotDigestAt := pb_PeerStatus_LastSnapshotDigestAt i;
         PeerStatus_LastSnapshotChunkAt := pb_PeerStatus_LastSnapshotChunkAt i |}
  end.

Definition messageTrimStatusFromProto (i : option pb_MessageTrimStatus) : MessageTrimStatus :=
  match i with
  | None => zero_MessageTrimStatus
  | Some i =>
      {| MessageTrimStatus_TrimmedTotal := pb_MessageTrimStatus_TrimmedTotal i;
         MessageTrimStatus_LastTrimmedAt := pb_MessageTrimStatus_LastTrimmedAt i |}
  end.

Definition projectionStatusFromProto (i : option pb_ProjectionStatus) : ProjectionStatus :=
  match i with
  | None => zero_ProjectionStatus
  | Some i =>
      {| ProjectionStatus_PendingTotal := pb_ProjectionStatus_PendingTotal i;
         ProjectionStatus_LastFailedAt := pb_ProjectionStatus_LastFailedAt i |}
  end.

Definition operationsStatusFromProto (i : option pb_OperationsStatus) : OperationsStatus :=
  match i with
  | None => zero_OperationsStatus
  | Some i =>
      {| OperationsStatus_NodeID := pb_OperationsStatus_NodeId i;
         OperationsStatus_MessageWindowSize := pb_OperationsStatus_MessageWindowSize i;
         OperationsStatus_LastEventSequence := pb_OperationsStatus_LastEventSequence i;
         OperationsStatus_WriteGateReady := pb_OperationsStatus_WriteGateReady i;
         OperationsStatus_ConflictTotal := pb_OperationsStatus_ConflictTotal i;
         OperationsStatus_MessageTrim := messageTrimStatusFromProto (pb_OperationsStatus_MessageTrim i);
         OperationsStatus_Projection := projectionStatusFromProto (pb_OperationsStatus_Projection i);
         OperationsStatus_Peers := collect peerStatusFromProto (pb_OperationsStatus_Peers i) |}
  end.

Definition messagesFromProto (items : list (option pb_Message)) : list Message := collect messageFromProto items.

Definition attachmentsFromProto (items : list (option pb_Attachment)) : list Attachment := collect attachmentFromProto items.

Definition subscriptionsFromProto (items : list (option pb_Attachment)) : list Subscription := collect subscriptionFromProto items.

Definition blacklistEntriesFromProto (items : list (option pb_Attachment)) : list BlacklistEntry := collect blacklistEntryFromProto items.

Definition eventsFromProto (items : list (option pb_Event)) : list Event := collect eventFromProto items.

Definition clusterNodesFromProto (items : list (option pb_ClusterNode)) : list ClusterNode := collect clusterNodeFromProto items.

Definition loggedInUsersFromProto (items : list (option pb_LoggedInUser)) : list LoggedInUser := collect loggedInUserFromProto items.
