(* ===== verification/WireCodec.v ===== *)
(** * The conversions are faithful

    [WireCodec P R] says that the SDK's type [R] travels as the message [P]: [wire_of] is the
    message a peer builds field by field for a value, [go_of] is the SDK's [...FromProto],
    and whatever value is carried comes out again. The client's theorems use the interface;
    each type discharges it. *)

From stdpp Require Import base list strings.
From S2P Require Import Prelude Errors Types Wire Metadata Password Records Convert.

Class WireCodec (P R : Type) : Type := {
  wire_of : R -> P;
  go_of : option P -> R;
  wire_ok : R -> Prop;
  go_of_wire : forall x, wire_ok x -> go_of (Some (wire_of x)) = x;
}.

(** A repeated field. *)
Definition wires {P R} `{WireCodec P R} (l : list R) : list (option P) := (fun x => Some (wire_of x)) <$> l.

(** Modes and attachment types that have a wire value. *)
Definition deliveryMode_ok (m : DeliveryMode) : Prop :=
  m = DeliveryModeBestEffort \/ m = DeliveryModeRouteRetry \/ m = DeliveryModeUnspecified.
Definition attachmentType_ok (t : AttachmentType) : Prop :=
  t = AttachmentTypeChannelManager \/ t = AttachmentTypeChannelWriter \/
  t = AttachmentTypeChannelSubscription \/ t = AttachmentTypeUserBlacklist \/ t = "".

Arguments wires : simpl never.
Arguments collect : simpl never.

(** ** The loop is a map *)

Lemma fold_left_collect {A B} (f : A -> B) l acc :
  fold_left (fun out item => out ++ [f item]) l acc = acc ++ (f <$> l).
Proof.
  revert acc. induction l as [|x l IH]; intros acc; simpl; [by rewrite app_nil_r|].
  rewrite IH, <- app_assoc. done.
Qed.

Lemma collect_map {A B} (f : A -> B) l : collect f l = f <$> l.
Proof. apply (fold_left_collect f l []). Qed.

Lemma collect_wires {P R} (C : WireCodec P R) (l : list R) : Forall wire_ok l -> collect go_of (wires l) = l.
Proof.
  intros H. rewrite collect_map. unfold wires. rewrite <- list_fmap_compose.
  rewrite <- (list_fmap_id l) at 2. apply list_fmap_ext. intros i x Hx. simpl.
  apply go_of_wire. by eapply Forall_lookup_1.
Qed.

Lemma userRef_wire r : userRefFromProto (userRefToProto r) = r.
Proof.
  unfold userRefToProto, UserRef_IsZero. destruct r as [n u]; simpl.
  destruct (n =? 0) eqn:?, (u =? 0) eqn:?; simpl; bool_facts; by subst.
Qed.

Lemma sessionRef_wire r : sessionRefFromProto (sessionRefToProto r) = r.
Proof.
  unfold sessionRefToProto, SessionRef_IsZero. destruct r as [n s]; simpl.
  destruct (n =? 0) eqn:?, (bool_decide (s = "")) eqn:?; simpl; bool_facts; by subst.
Qed.

Lemma deliveryMode_wire m : deliveryMode_ok m -> deliveryModeFromProto (deliveryModeToProto m) = m.
Proof. by intros [-> | [-> | ->]]. Qed.

Lemma attachmentType_wire t : attachmentType_ok t -> attachmentTypeFromProto (attachmentTypeToProto t) = t.
Proof. by intros [-> | [-> | [-> | [-> | ->]]]]. Qed.

Lemma all_ok {P R} (C : WireCodec P R) (l : list R) : (forall x : R, wire_ok x) -> Forall wire_ok l.
Proof. intros H. apply Forall_true. done. Qed.

Ltac codec :=
  intros x Hok; destruct x; cbn in *; simplify_eq;
  rewrite ?userRef_wire, ?sessionRef_wire, ?deliveryMode_wire, ?attachmentType_wire by done; done.

(** ** The types *)

(** The message that carries a [User]. *)
Definition user_wire (x : User) : pb_User :=
  {| pb_User_NodeId := User_NodeID x;
     pb_User_UserId := User_UserID x;
     pb_User_Username := User_Username x;
     pb_User_LoginName := User_LoginName x;
     pb_User_Role := User_Role x;
     pb_User_ProfileJson := User_ProfileJSON x;
     pb_User_SystemReserved := User_SystemReserved x;
     pb_User_CreatedAt := User_CreatedAt x;
     pb_User_UpdatedAt := User_UpdatedAt x;
     pb_User_OriginNodeId := User_OriginNodeID x |}.
#[export] Instance user_codec : WireCodec pb_User User.
Proof.
  refine {| wire_of := user_wire; go_of := userFromProto; wire_ok := fun x => True |}. codec.
Defined.

(** The message that carries a [MessageCursor]. *)
Definition cursor_wire (x : MessageCursor) : pb_MessageCursor :=
  {| pb_MessageCursor_NodeId := mc_NodeID x;
     pb_MessageCursor_Seq := mc_Seq x |}.
#[export] Instance cursor_codec : WireCodec pb_MessageCursor MessageCursor.
Proof.
  refine {| wire_of := cursor_wire; go_of := cursorFromProto; wire_ok := fun x => True |}. codec.
Defined.

(** The message that carries a [Message]. *)
Definition message_wire (x : Message) : pb_Message :=
  {| pb_Message_Recipient := userRefToProto (m_Recipient x);
     pb_Message_NodeId := m_NodeID x;
     pb_Message_Seq := m_Seq x;
     pb_Message_Sender := userRefToProto (m_Sender x);
     pb_Message_Body := m_Body x;
     pb_Message_CreatedAtHlc := m_CreatedAtHLC x |}.
#[export] Instance message_codec : WireCodec pb_Message Message.
Proof.
  refine {| wire_of := message_wire; go_of := messageFromProto; wire_ok := fun x => True |}. codec.
Defined.

(** The message that carries a [Packet]. *)
Definition packet_wire (x : Packet) : pb_Packet :=
  {| pb_Packet_PacketId := p_PacketID x;
     pb_Packet_SourceNodeId := p_SourceNodeID x;
     pb_Packet_TargetNodeId := p_TargetNodeID x;
     pb_Packet_Recipient := userRefToProto (p_Recipient x);
     pb_Packet_Sender := userRefToProto (p_Sender x);
     pb_Packet_Body := p_Body x;
     pb_Packet_DeliveryMode := deliveryModeToProto (p_DeliveryMode x);
     pb_Packet_TargetSession := sessionRefToProto (p_TargetSession x) |}.
#[export] Instance packet_codec : WireCodec pb_Packet Packet.
Proof.
  refine {| wire_of := packet_wire; go_of := packetFromProto; wire_ok := fun x => deliveryMode_ok (p_DeliveryMode x) |}. codec.
Defined.

(** The message that carries a [RelayAccepted]. *)
Definition relayAccepted_wire (x : RelayAccepted) : pb_TransientAccepted :=
  {| pb_TransientAccepted_PacketId := ra_PacketID x;
     pb_TransientAccepted_SourceNodeId := ra_SourceNodeID x;
     pb_TransientAccepted_TargetNodeId := ra_TargetNodeID x;
     pb_TransientAccepted_Recipient := userRefToProto (ra_Recipient x);
     pb_TransientAccepted_DeliveryMode := deliveryModeToProto (ra_DeliveryMode x);
     pb_TransientAccepted_TargetSession := sessionRefToProto (ra_TargetSession x) |}.
#[export] Instance relayAccepted_codec : WireCodec pb_TransientAccepted RelayAccepted.
Proof.
  refine {| wire_of := relayAccepted_wire; go_of := relayAcceptedFromProto; wire_ok := fun x => deliveryMode_ok (ra_DeliveryMode x) |}. codec.
Defined.

(** The message that carries an [Attachment]. *)
Definition attachment_wire (x : Attachment) : pb_Attachment :=
  {| pb_Attachment_Owner := userRefToProto (Attachment_Owner x);
     pb_Attachment_Subject := userRefToProto (Attachment_Subject x);
     pb_Attachment_AttachmentType := attachmentTypeToProto (Attachment_AttachmentType x);
     pb_Attachment_ConfigJson := Attachment_ConfigJSON x;
     pb_Attachment_AttachedAt := Attachment_AttachedAt x;
     pb_Attachment_DeletedAt := Attachment_DeletedAt x;
     pb_Attachment_OriginNodeId := Attachment_OriginNodeID x |}.
#[export] Instance attachment_codec : WireCodec pb_Attachment Attachment.
Proof.
  refine {| wire_of := attachment_wire; go_of := attachmentFromProto; wire_ok := fun x => attachmentType_ok (Attachment_AttachmentType x) |}. codec.
Defined.

(** The message that carries a [UserMetadata]. *)
Definition userMetadata_wire (x : UserMetadata) : pb_UserMetadata :=
  {| pb_UserMetadata_Owner := userRefToProto (UserMetadata_Owner x);
     pb_UserMetadata_Key := UserMetadata_Key x;
     pb_UserMetadata_Value := UserMetadata_Value x;
     pb_UserMetadata_UpdatedAt := UserMetadata_UpdatedAt x;
     pb_UserMetadata_DeletedAt := UserMetadata_DeletedAt x;
     pb_UserMetadata_ExpiresAt := UserMetadata_ExpiresAt x;
     pb_UserMetadata_OriginNodeId := UserMetadata_OriginNodeID x |}.
#[export] Instance userMetadata_codec : WireCodec pb_UserMetadata UserMetadata.
Proof.
  refine {| wire_of := userMetadata_wire; go_of := userMetadataFromProto; wire_ok := fun x => UserMetadata_TypedValue x = None |}. codec.
Defined.

(** The message that carries a [UserMetadataPage]. *)
Definition userMetadataPage_wire (x : UserMetadataPage) : pb_ScanUserMetadataResponse :=
  {| pb_ScanUserMetadataResponse_Items := wires (UserMetadataPage_Items x);
     pb_ScanUserMetadataResponse_Count := UserMetadataPage_Count x;
     pb_ScanUserMetadataResponse_NextAfter := UserMetadataPage_NextAfter x;
     pb_ScanUserMetadataResponse_RequestId := 0 |}.
#[export] Instance userMetadataPage_codec : WireCodec pb_ScanUserMetadataResponse UserMetadataPage.
Proof.
  refine {| wire_of := userMetadataPage_wire; go_of := userMetadataPageFromProto; wire_ok := fun x => Forall wire_ok (UserMetadataPage_Items x) |}.
  intros [items n a] Hok. cbn in *. unfold userMetadataItemsFromProto.
  by rewrite (collect_wires userMetadata_codec) by done.
Defined.

(** The message that carries an [Event]. *)
Definition event_wire (x : Event) : pb_Event :=
  {| pb_Event_Sequence := Event_Sequence x;
     pb_Event_EventId := Event_EventID x;
     pb_Event_EventType := Event_EventType x;
     pb_Event_Aggregate := Event_Aggregate x;
     pb_Event_AggregateNodeId := Event_AggregateNodeID x;
     pb_Event_AggregateId := Event_AggregateID x;
     pb_Event_Hlc := Event_HLC x;
     pb_Event_OriginNodeId := Event_OriginNodeID x;
     pb_Event_EventJson := Event_EventJSON x |}.
#[export] Instance event_codec : WireCodec pb_Event Event.
Proof.
  refine {| wire_of := event_wire; go_of := eventFromProto; wire_ok := fun x => True |}. codec.
Defined.

(** The message that carries a [ClusterNode]. *)
Definition clusterNode_wire (x : ClusterNode) : pb_ClusterNode :=
  {| pb_ClusterNode_NodeId := ClusterNode_NodeID x;
     pb_ClusterNode_IsLocal := ClusterNode_IsLocal x;
     pb_ClusterNode_ConfiguredUrl := ClusterNode_ConfiguredURL x;
     pb_ClusterNode_Source := ClusterNode_Source x |}.
#[export] Instance clusterNode_codec : WireCodec pb_ClusterNode ClusterNode.
Proof.
  refine {| wire_of := clusterNode_wire; go_of := clusterNodeFromProto; wire_ok := fun x => True |}. codec.
Defined.

(** The message that carries a [LoggedInUser]. *)
Definition loggedInUser_wire (x : LoggedInUser) : pb_LoggedInUser :=
  {| pb_LoggedInUser_NodeId := LoggedInUser_NodeID x;
     pb_LoggedInUser_UserId := LoggedInUser_UserID x;
     pb_LoggedInUser_Username := LoggedInUser_Username x;
     pb_LoggedInUser_LoginName := LoggedInUser_LoginName x |}.
#[export] Instance loggedInUser_codec : WireCodec pb_LoggedInUser LoggedInUser.
Proof.
  refine {| wire_of := loggedInUser_wire; go_of := loggedInUserFromProto; wire_ok := fun x => True |}. codec.
Defined.

(** The message that carries an [OnlineNodePresence]. *)
Definition onlineNodePresence_wire (x : OnlineNodePresence) : pb_OnlineNodePresence :=
  {| pb_OnlineNodePresence_ServingNodeId := OnlineNodePresence_ServingNodeID x;
     pb_OnlineNodePresence_SessionCount := OnlineNodePresence_SessionCount x;
     pb_OnlineNodePresence_TransportHint := OnlineNodePresence_TransportHint x |}.
#[export] Instance onlineNodePresence_codec : WireCodec pb_OnlineNodePresence OnlineNodePresence.
Proof.
  refine {| wire_of := onlineNodePresence_wire; go_of := onlineNodePresenceFromProto; wire_ok := fun x => True |}. codec.
Defined.

(** The message that carries a [ResolvedSession]. *)
Definition resolvedSession_wire (x : ResolvedSession) : pb_ResolvedSession :=
  {| pb_ResolvedSession_Session := sessionRefToProto (ResolvedSession_Session x);
     pb_ResolvedSession_Transport := ResolvedSession_Transport x;
     pb_ResolvedSession_TransientCapable := ResolvedSession_TransientCapable x |}.
#[export] Instance resolvedSession_codec : WireCodec pb_ResolvedSession ResolvedSession.
Proof.
  refine {| wire_of := resolvedSession_wire; go_of := resolvedSessionFromProto; wire_ok := fun x => True |}. codec.
Defined.

(** The message that carries a [ResolvedUserSessions]. *)
Definition resolvedUserSessions_wire (x : ResolvedUserSessions) : pb_ResolveUserSessionsResponse :=
  {| pb_ResolveUserSessionsResponse_User := userRefToProto (ResolvedUserSessions_User x);
     pb_ResolveUserSessionsResponse_Presence := wires (ResolvedUserSessions_Presence x);
     pb_ResolveUserSessionsResponse_Items := wires (ResolvedUserSessions_Sessions x);
     pb_ResolveUserSessionsResponse_RequestId := 0;
     pb_ResolveUserSessionsResponse_Count := 0 |}.
#[export] Instance resolvedUserSessions_codec : WireCodec pb_ResolveUserSessionsResponse ResolvedUserSessions.
Proof.
  refine {| wire_of := resolvedUserSessions_wire; go_of := resolvedUserSessionsFromProto; wire_ok := fun x => True |}.
  intros [u p l] _. cbn. rewrite userRef_wire.
  by rewrite (collect_wires onlineNodePresence_codec), (collect_wires resolvedSession_codec) by by apply all_ok.
Defined.

(** The message that carries a [PeerOriginStatus]. *)
Definition peerOriginStatus_wire (x : PeerOriginStatus) : pb_PeerOriginStatus :=
  {| pb_PeerOriginStatus_OriginNodeId := PeerOriginStatus_OriginNodeID x;
     pb_PeerOriginStatus_AckedEventId := PeerOriginStatus_AckedEventID x;
     pb_PeerOriginStatus_AppliedEventId := PeerOriginStatus_AppliedEventID x;
     pb_PeerOriginStatus_UnconfirmedEvents := PeerOriginStatus_UnconfirmedEvents x;
     pb_PeerOriginStatus_CursorUpdatedAt := PeerOriginStatus_CursorUpdatedAt x;
     pb_PeerOriginStatus_RemoteLastEventId := PeerOriginStatus_RemoteLastEventID x;
     pb_PeerOriginStatus_PendingCatchup := PeerOriginStatus_PendingCatchup x |}.
#[export] Instance peerOriginStatus_codec : WireCodec pb_PeerOriginStatus PeerOriginStatus.
Proof.
  refine {| wire_of := peerOriginStatus_wire; go_of := peerOriginStatusFromProto; wire_ok := fun x => True |}. codec.
Defined.

(** The message that carries a [PeerStatus]. *)
Definition peerStatus_wire (x : PeerStatus) : pb_PeerStatus :=
  {| pb_PeerStatus_NodeId := PeerStatus_NodeID x;
     pb_PeerStatus_ConfiguredUrl := PeerStatus_ConfiguredURL x;
     pb_PeerStatus_Source := PeerStatus_Source x;
     pb_PeerStatus_DiscoveredUrl := PeerStatus_DiscoveredURL x;
     pb_PeerStatus_DiscoveryState := PeerStatus_DiscoveryState x;
     pb_PeerStatus_LastDiscoveredAt := PeerStatus_LastDiscoveredAt x;
     pb_PeerStatus_LastConnectedAt := PeerStatus_LastConnectedAt x;
     pb_PeerStatus_LastDiscoveryError := PeerStatus_LastDiscoveryError x;
     pb_PeerStatus_Connected := PeerStatus_Connected x;
     pb_PeerStatus_SessionDirection := PeerStatus_SessionDirection x;
     pb_PeerStatus_Origins := wires (PeerStatus_Origins x);
     pb_PeerStatus_PendingSnapshotPartitions := PeerStatus_PendingSnapshotPartitions x;
     pb_PeerStatus_RemoteSnapshotVersion := PeerStatus_RemoteSnapshotVersion x;
     pb_PeerStatus_RemoteMessageWindowSize := PeerStatus_RemoteMessageWindowSize x;
     pb_PeerStatus_ClockOffsetMs := PeerStatus_ClockOffsetMS x;
     pb_PeerStatus_LastClockSync := PeerStatus_LastClockSync x;
     pb_PeerStatus_SnapshotDigestsSentTotal := PeerStatus_SnapshotDigestsSentTotal x;
     pb_PeerStatus_SnapshotDigestsReceivedTotal := PeerStatus_SnapshotDigestsRecvTotal x;
     pb_PeerStatus_SnapshotChunksSentTotal := PeerStatus_SnapshotChunksSentTotal x;
     pb_PeerStatus_SnapshotChunksReceivedTotal := PeerStatus_SnapshotChunksRecvTotal x;
     pb_PeerStatus_LastSnapshotDigestAt := PeerStatus_LastSnapshotDigestAt x;
     pb_PeerStatus_LastSnapshotChunkAt := PeerStatus_LastSnapshotChunkAt x |}.
#[export] Instance peerStatus_codec : WireCodec pb_PeerStatus PeerStatus.
Proof.
  refine {| wire_of := peerStatus_wire; go_of := peerStatusFromProto; wire_ok := fun x => True |}.
  intros x _. destruct x. cbn.
  by rewrite (collect_wires peerOriginStatus_codec) by by apply all_ok.
Defined.

(** The message that carries a [MessageTrimStatus]. *)
Definition messageTrimStatus_wire (x : MessageTrimStatus) : pb_MessageTrimStatus :=
  {| pb_MessageTrimStatus_TrimmedTotal := MessageTrimStatus_TrimmedTotal x;
     pb_MessageTrimStatus_LastTrimmedAt := MessageTrimStatus_LastTrimmedAt x |}.
#[export] Instance messageTrimStatus_codec : WireCodec pb_MessageTrimStatus MessageTrimStatus.
Proof.
  refine {| wire_of := messageTrimStatus_wire; go_of := messageTrimStatusFromProto; wire_ok := fun x => True |}. codec.
Defined.

(** The message that carries a [ProjectionStatus]. *)
Definition projectionStatus_wire (x : ProjectionStatus) : pb_ProjectionStatus :=
  {| pb_ProjectionStatus_PendingTotal := ProjectionStatus_PendingTotal x;
     pb_ProjectionStatus_LastFailedAt := ProjectionStatus_LastFailedAt x |}.
#[export] Instance projectionStatus_codec : WireCodec pb_ProjectionStatus ProjectionStatus.
Proof.
  refine {| wire_of := projectionStatus_wire; go_of := projectionStatusFromProto; wire_ok := fun x => True |}. codec.
Defined.

(** The message that carries an [OperationsStatus]. *)
Definition operationsStatus_wire (x : OperationsStatus) : pb_OperationsStatus :=
  {| pb_OperationsStatus_NodeId := OperationsStatus_NodeID x;
     pb_OperationsStatus_MessageWindowSize := OperationsStatus_MessageWindowSize x;
     pb_OperationsStatus_LastEventSequence := OperationsStatus_LastEventSequence x;
     pb_OperationsStatus_WriteGateReady := OperationsStatus_WriteGateReady x;
     pb_OperationsStatus_ConflictTotal := OperationsStatus_ConflictTotal x;
     pb_OperationsStatus_MessageTrim := Some (wire_of (OperationsStatus_MessageTrim x));
     pb_OperationsStatus_Projection := Some (wire_of (OperationsStatus_Projection x));
     pb_OperationsStatus_Peers := wires (OperationsStatus_Peers x);
     pb_OperationsStatus_EventLogTrim := None |}.
#[export] Instance operationsStatus_codec : WireCodec pb_OperationsStatus OperationsStatus.
Proof.
  refine {| wire_of := operationsStatus_wire; go_of := operationsStatusFromProto; wire_ok := fun x => True |}.
  intros x _. destruct x as [? ? ? ? ? [] [] ?]. cbn.
  by rewrite (collect_wires peerStatus_codec) by by apply all_ok.
Defined.

(** ** Properties *)

(** A loop converts pointwise: item [i] of the result is the conversion of item [i]. *)
Lemma collect_lookup {A B} (f : A -> B) l i : collect f l !! i = f <$> l !! i.
Proof. rewrite collect_map. apply list_lookup_fmap. Qed.

(** ** Back to the wire

    [canonical] messages are those a peer that omits default references and sends the named
    constants builds; of them a conversion keeps everything. *)

Class WireBack (P R : Type) `{WireCodec P R} : Type := {
  canonical : P -> Prop;
  wire_of_go : forall i, canonical i -> wire_of (go_of (Some i)) = i;
}.

Definition items_canonical {P R} `{WireBack P R} (l : list (option P)) : Prop :=
  Forall (fun o => exists i, o = Some i /\ canonical i) l.

Lemma wires_collect {P R} `{B : WireBack P R} (l : list (option P)) : items_canonical l -> wires (collect go_of l) = l.
Proof.
  intros H1. rewrite collect_map. unfold wires. rewrite <- list_fmap_compose.
  rewrite <- (list_fmap_id l) at 2. apply list_fmap_ext. intros i x Hx. simpl.
  destruct (Forall_lookup_1 _ _ _ _ H1 Hx) as (y & -> & Hy). unfold compose, id. by rewrite wire_of_go.
Qed.

Definition user_ref_canonical (r : option pb_UserRef) : Prop := r <> Some (mkpb_UserRef 0 0).
Definition session_ref_canonical (r : option pb_SessionRef) : Prop := r <> Some (mkpb_SessionRef 0 "").
Definition mode_canonical (m : Z) : Prop :=
  m = CLIENT_DELIVERY_MODE_UNSPECIFIED \/ m = CLIENT_DELIVERY_MODE_BEST_EFFORT \/ m = CLIENT_DELIVERY_MODE_ROUTE_RETRY.
Definition attachment_type_canonical (t : Z) : Prop :=
  t = ATTACHMENT_TYPE_UNSPECIFIED \/ t = ATTACHMENT_TYPE_CHANNEL_MANAGER \/ t = ATTACHMENT_TYPE_CHANNEL_WRITER \/
  t = ATTACHMENT_TYPE_CHANNEL_SUBSCRIPTION \/ t = ATTACHMENT_TYPE_USER_BLACKLIST.

Lemma userRef_go r : user_ref_canonical r -> userRefToProto (userRefFromProto r) = r.
Proof.
  unfold user_ref_canonical, userRefToProto, UserRef_IsZero. destruct r as [[n u]|]; [|done]. simpl. intros Hr.
  destruct (n =? 0) eqn:?, (u =? 0) eqn:?; simpl; bool_facts; by subst.
Qed.

Lemma sessionRef_go r : session_ref_canonical r -> sessionRefToProto (sessionRefFromProto r) = r.
Proof.
  unfold session_ref_canonical, sessionRefToProto, SessionRef_IsZero. destruct r as [[n s]|]; [|done]. simpl. intros Hr.
  destruct (n =? 0) eqn:?, (bool_decide (s = "")) eqn:?; simpl; bool_facts; by subst.
Qed.

Lemma deliveryMode_go m : mode_canonical m -> deliveryModeToProto (deliveryModeFromProto m) = m.
Proof. by intros [->|[->| ->]]. Qed.

Lemma attachmentType_go t : attachment_type_canonical t -> attachmentTypeToProto (attachmentTypeFromProto t) = t.
Proof. by intros [->|[->|[->|[->| ->]]]]. Qed.

Ltac back :=
  intros i Hi; destruct i; hnf in Hi; cbn in *; destruct_and?;
  lazymatch goal with |- ?w _ = _ => unfold w end; cbn;
  rewrite ?userRef_go, ?sessionRef_go, ?deliveryMode_go, ?attachmentType_go by done; done.
(** A message without references: everything is kept. *)
Ltac back_all := refine {| canonical := fun _ => True |}; back.

#[export] Instance user_back : WireBack pb_User User. Proof. back_all. Defined.
#[export] Instance event_back : WireBack pb_Event Event. Proof. back_all. Defined.
#[export] Instance clusterNode_back : WireBack pb_ClusterNode ClusterNode. Proof. back_all. Defined.
#[export] Instance loggedInUser_back : WireBack pb_LoggedInUser LoggedInUser. Proof. back_all. Defined.
#[export] Instance onlineNodePresence_back : WireBack pb_OnlineNodePresence OnlineNodePresence. Proof. back_all. Defined.
#[export] Instance peerOriginStatus_back : WireBack pb_PeerOriginStatus PeerOriginStatus. Proof. back_all. Defined.
#[export] Instance messageTrimStatus_back : WireBack pb_MessageTrimStatus MessageTrimStatus. Proof. back_all. Defined.
#[export] Instance projectionStatus_back : WireBack pb_ProjectionStatus ProjectionStatus. Proof. back_all. Defined.

Definition message_canonical (i : pb_Message) : Prop :=
  user_ref_canonical (pb_Message_Recipient i) /\ user_ref_canonical (pb_Message_Sender i).
#[export] Instance message_back : WireBack pb_Message Message.
Proof. refine {| canonical := message_canonical |}. back. Defined.

Definition packet_canonical (i : pb_Packet) : Prop :=
  user_ref_canonical (pb_Packet_Recipient i) /\ user_ref_canonical (pb_Packet_Sender i) /\
  mode_canonical (pb_Packet_DeliveryMode i) /\ session_ref_canonical (pb_Packet_TargetSession i).
#[export] Instance packet_back : WireBack pb_Packet Packet.
Proof. refine {| canonical := packet_canonical |}. back. Defined.

Definition accepted_canonical (i : pb_TransientAccepted) : Prop :=
  user_ref_canonical (pb_TransientAccepted_Recipient i) /\ mode_canonical (pb_TransientAccepted_DeliveryMode i) /\
  session_ref_canonical (pb_TransientAccepted_TargetSession i).
#[export] Instance relayAccepted_back : WireBack pb_TransientAccepted RelayAccepted.
Proof. refine {| canonical := accepted_canonical |}. back. Defined.

Definition attachment_canonical (i : pb_Attachment) : Prop :=
  user_ref_canonical (pb_Attachment_Owner i) /\ user_ref_canonical (pb_Attachment_Subject i) /\
  attachment_type_canonical (pb_Attachment_AttachmentType i).
#[export] Instance attachment_back : WireBack pb_Attachment Attachment.
Proof. refine {| canonical := attachment_canonical |}. back. Defined.

#[export] Instance userMetadata_back : WireBack pb_UserMetadata UserMetadata.
Proof. refine {| canonical := fun i => user_ref_canonical (pb_UserMetadata_Owner i) |}. back. Defined.

#[export] Instance resolvedSession_back : WireBack pb_ResolvedSession ResolvedSession.
Proof. refine {| canonical := fun i => session_ref_canonical (pb_ResolvedSession_Session i) |}. back. Defined.

#[export] Instance peerStatus_back : WireBack pb_PeerStatus PeerStatus.
Proof.
  refine {| canonical := fun i => items_canonical (pb_PeerStatus_Origins i) |}.
  intros i Hi. destruct i. cbn in *. unfold peerStatus_wire. cbn. by rewrite (wires_collect (B := peerOriginStatus_back)) by done.
Defined.

(** The IDs of the request and the counts of a reply are not part of its value. *)
Definition page_canonical (i : pb_ScanUserMetadataResponse) : Prop :=
  pb_ScanUserMetadataResponse_RequestId i = 0 /\ items_canonical (pb_ScanUserMetadataResponse_Items i).
#[export] Instance userMetadataPage_back : WireBack pb_ScanUserMetadataResponse UserMetadataPage.
Proof.
  refine {| canonical := page_canonical |}. intros [] [Hr Hi]. cbn in *. unfold userMetadataPage_wire, userMetadataItemsFromProto.
  cbn. rewrite Hr. by rewrite (wires_collect (B := userMetadata_back)) by done.
Defined.

Definition sessions_canonical (i : pb_ResolveUserSessionsResponse) : Prop :=
  pb_ResolveUserSessionsResponse_RequestId i = 0 /\ pb_ResolveUserSessionsResponse_Count i = 0 /\
  user_ref_canonical (pb_ResolveUserSessionsResponse_User i) /\
  items_canonical (pb_ResolveUserSessionsResponse_Presence i) /\ items_canonical (pb_ResolveUserSessionsResponse_Items i).
#[export] Instance resolvedUserSessions_back : WireBack pb_ResolveUserSessionsResponse ResolvedUserSessions.
Proof.
  refine {| canonical := sessions_canonical |}. intros [] (Hr & Hc & Hu & Hp & Hi). cbn in *.
  unfold resolvedUserSessions_wire. cbn. rewrite Hr, Hc, userRef_go by done.
  by rewrite (wires_collect (B := onlineNodePresence_back)), (wires_collect (B := resolvedSession_back)) by done.
Defined.

(** Both parts present, no event log trim: the SDK has no field for it. *)
Definition operations_canonical (i : pb_OperationsStatus) : Prop :=
  is_Some (pb_OperationsStatus_MessageTrim i) /\ is_Some (pb_OperationsStatus_Projection i) /\
  items_canonical (pb_OperationsStatus_Peers i) /\ pb_OperationsStatus_EventLogTrim i = None.
#[export] Instance operationsStatus_back : WireBack pb_OperationsStatus OperationsStatus.
Proof.
  refine {| canonical := operations_canonical |}. intros [] ([[] Hm] & [[] Hp] & Hi & He). cbn in *. subst.
  unfold operationsStatus_wire. cbn. by rewrite (wires_collect (B := peerStatus_back)) by done.
Defined.

Definition with_event_log_trim (t : option pb_EventLogTrimStatus) (i : pb_OperationsStatus) : pb_OperationsStatus :=
  mkpb_OperationsStatus (pb_OperationsStatus_NodeId i) (pb_OperationsStatus_MessageWindowSize i)
    (pb_OperationsStatus_LastEventSequence i) (pb_OperationsStatus_WriteGateReady i) (pb_OperationsStatus_ConflictTotal i)
    (pb_OperationsStatus_MessageTrim i) (pb_OperationsStatus_Projection i) (pb_OperationsStatus_Peers i) t.


Definition demo_pb_packet : pb_Packet := mkpb_Packet 1 2 3 (Some (mkpb_UserRef 4 5)) None [] 2 (Some (mkpb_SessionRef 8 "s")).


(** A converted list has the items of the wire list in order, a missing item
    as the zero value, and a list of any values a server sends comes out unchanged; the
    subscription and blacklist views are those of the attachments. *)
Theorem proto_lists_faithful :
  (forall items i, messagesFromProto items !! i = messageFromProto <$> items !! i) /\
  (forall items i, usersFromProto items !! i = userFromProto <$> items !! i) /\
  (forall l, messagesFromProto (wires l) = l) /\
  (forall l, usersFromProto (wires l) = l) /\
  (forall l, eventsFromProto (wires l) = l) /\
  (forall l, clusterNodesFromProto (wires l) = l) /\
  (forall l, loggedInUsersFromProto (wires l) = l) /\
  (forall l, Forall (fun a => attachmentType_ok (Attachment_AttachmentType a)) l ->
     attachmentsFromProto (wires l) = l /\
     subscriptionsFromProto (wires l) =
       (fun a => mkSubscription (Attachment_Owner a) (Attachment_Subject a) (Attachment_AttachedAt a)
                   (Attachment_DeletedAt a) (Attachment_OriginNodeID a)) <$> l /\
     blacklistEntriesFromProto (wires l) =
       (fun a => mkBlacklistEntry (Attachment_Owner a) (Attachment_Subject a) (Attachment_AttachedAt a)
                   (Attachment_DeletedAt a) (Attachment_OriginNodeID a)) <$> l).
Proof.
  split_and!; try (by intros; apply collect_lookup).
  - intros l. by apply (collect_wires message_codec), all_ok.
  - intros l. by apply (collect_wires user_codec), all_ok.
  - intros l. by apply (collect_wires event_codec), all_ok.
  - intros l. by apply (collect_wires clusterNode_codec), all_ok.
  - intros l. by apply (collect_wires loggedInUser_codec), all_ok.
  - intros l Hl. split; [by apply (collect_wires attachment_codec)|].
    unfold subscriptionsFromProto, blacklistEntriesFromProto, wires.
    rewrite !collect_map, <- !list_fmap_compose.
    split; apply list_fmap_ext; intros i x Hx; simpl;
      unfold subscriptionFromProto, blacklistEntryFromProto;
      pose proof (@go_of_wire _ _ attachment_codec x (Forall_lookup_1 _ _ _ _ Hl Hx)) as E;
      change (attachmentFromProto (Some (attachment_wire x)) = x) in E; by rewrite E.
Qed.

Lemma proto_lists_faithful_witness :
  let a := mkAttachment (mkUserRef 1 2) (mkUserRef 1 3) AttachmentTypeUserBlacklist [] "t" "" 1 in
  attachmentType_ok AttachmentTypeUserBlacklist /\ attachmentsFromProto (wires [a; a]) = [a; a].
Proof.
  intros a. destruct proto_lists_faithful as (_ & _ & _ & _ & _ & _ & _ & H).
  assert (attachmentType_ok AttachmentTypeUserBlacklist) as Ha by (by right; right; right; left).
  split; [done|]. destruct (H [a; a]); [by repeat constructor|done].
Defined.
