(* ===== verification/Requests.v ===== *)
(** * Validation of credentials and requests (types.go)

    What the calls check before anything is sent. *)

From Stdlib Require Import Strings.Ascii.
From stdpp Require Import base list strings.
From S2P Require Import Prelude Errors Types Wire Text Metadata Password Records Convert.

Definition maxUserMetadataLimit : Z := 1000.

Definition normalizeLoginName (value : string) : string := TrimSpace_string value.

Definition validateLoginSelector (nodeID userID : Z) (loginName : string) : result error string :=
  let normalized := normalizeLoginName loginName in
  let hasIDSelector := negb (nodeID =? 0) || negb (userID =? 0) in
  let hasLoginNameSelector := negb (bool_decide (normalized = "")) in
  if Bool.eqb hasIDSelector hasLoginNameSelector
  then Err (errors_New "exactly one of (node_id,user_id) or login_name is required")
  else if hasIDSelector && ((nodeID =? 0) || (userID =? 0))
  then Err (errors_New "both node_id and user_id are required")
  else Ok normalized.

(** [(c Credentials) validate() error] *)
Definition Credentials_validate (c : Credentials) : option error :=
  match validateLoginSelector (Credentials_NodeID c) (Credentials_UserID c) (Credentials_LoginName c) with
  | Err e => Some e
  | _ =>
      match PasswordInput_Validate (Credentials_Password c) with
      | Some e => Some (Wrapf "invalid password: %w" [] e)
      | None => None
      end
  end.

Definition loginSelector (c : Credentials) : option pb_UserRef * string :=
  let loginName := normalizeLoginName (Credentials_LoginName c) in
  if negb (bool_decide (loginName = "")) then (None, loginName)
  else (userRefToProto (mkUserRef (Credentials_NodeID c) (Credentials_UserID c)), "").

(** [(p UserMetadataPage) HasMore() bool] *)
Definition HasMore (p : UserMetadataPage) : bool := negb (bool_decide (UserMetadataPage_NextAfter p = "")).

(** [len(s)] of a Go string *)
Definition string_len (s : string) : Z := Z.of_nat (String.length s).

Definition validateMetadataKeyFragment (value field : string) (allowEmpty : bool) : option error :=
  if bool_decide (value = "")
  then if allowEmpty then None else Some (Errorf "%s is required" [FStr field])
  else if 128 <? string_len value then Some (Errorf "%s cannot exceed 128 characters" [FStr field])
  else if negb (metadataKeyPattern value) then Some (Errorf "%s contains unsupported characters" [FStr field])
  else None.

Definition validateMetadataKey (key : string) : option error :=
  match validateMetadataKeyFragment key "key" false with
  | Some e => Some e
  | None => validateMetadataKeyPolicy key
  end.

(** [(r ListUsersRequest) validate() error] *)
Definition ListUsersRequest_validate (r : ListUsersRequest) : option error :=
  if UserRef_IsZero (ListUsersRequest_UID r) then None
  else if ur_NodeID (ListUsersRequest_UID r) <=? 0 then Some (errors_New "uid.node_id must be a positive integer")
  else if ur_UserID (ListUsersRequest_UID r) <=? 0 then Some (errors_New "uid.user_id must be a positive integer")
  else None.

Definition ListUsersRequest_normalized (r : ListUsersRequest) : ListUsersRequest :=
  mkListUsersRequest (TrimSpace_string (ListUsersRequest_Name r)) (ListUsersRequest_UID r).

(** [(r ScanUserMetadataRequest) validate() error] *)
Definition ScanUserMetadataRequest_validate (r : ScanUserMetadataRequest) : option error :=
  first_err [
    validateMetadataKeyFragment (ScanUserMetadataRequest_Prefix r) "prefix" true;
    validateMetadataKeyFragment (ScanUserMetadataRequest_After r) "after" true;
    validateMetadataScanSystemPrefix (ScanUserMetadataRequest_Prefix r) (ScanUserMetadataRequest_After r);
    if ScanUserMetadataRequest_Limit r <? 0 then Some (errors_New "limit must be a non-negative integer") else None;
    if maxUserMetadataLimit <? ScanUserMetadataRequest_Limit r
    then Some (Errorf "limit cannot exceed %d" [FInt maxUserMetadataLimit]) else None;
    if negb (bool_decide (ScanUserMetadataRequest_Prefix r = ""))
       && negb (bool_decide (ScanUserMetadataRequest_After r = ""))
       && negb (HasPrefix (ScanUserMetadataRequest_After r) (ScanUserMetadataRequest_Prefix r))
    then Some (errors_New "after must use the same prefix as prefix") else None
  ].

(** ** What validation accepts *)

(** A metadata key's characters and length. *)
Definition key_text (s : string) : Prop :=
  string_len s <= 128 /\ Forall (fun c => metadata_key_char c = true) (String.list_ascii_of_string s).

Lemma validateMetadataKeyFragment_None value field allowEmpty :
  validateMetadataKeyFragment value field allowEmpty = None <->
  (value = "" /\ allowEmpty = true) \/ (value <> "" /\ key_text value).
Proof.
  unfold validateMetadataKeyFragment, metadataKeyPattern, key_text.
  rewrite List.Forall_forall, <- forallb_forall.
  destruct (bool_decide (value = "")) eqn:E; bool_facts.
  - destruct allowEmpty; naive_solver.
  - simpl. destruct (128 <? string_len value) eqn:Hl; bool_facts; [naive_solver lia|].
    destruct (forallb _ _); naive_solver lia.
Qed.

Lemma validateLoginSelector_Ok nodeID userID loginName name :
  validateLoginSelector nodeID userID loginName = Ok name <->
  name = normalizeLoginName loginName /\
  ((nodeID <> 0 /\ userID <> 0 /\ name = "") \/ (nodeID = 0 /\ userID = 0 /\ name <> "")).
Proof.
  unfold validateLoginSelector.
  destruct (nodeID =? 0) eqn:Hn, (userID =? 0) eqn:Hu, (bool_decide (normalizeLoginName loginName = "")) eqn:Hl;
    bool_facts; simpl; naive_solver.
Qed.

Lemma PasswordInput_Validate_None p :
  PasswordInput_Validate p = None <->
  (pw_Source p = PasswordSourcePlain \/ pw_Source p = PasswordSourceHashed) /\ pw_Encoded p <> "".
Proof.
  unfold PasswordInput_Validate.
  destruct (bool_decide (pw_Source p = PasswordSourcePlain)) eqn:H1,
    (bool_decide (pw_Source p = PasswordSourceHashed)) eqn:H2, (bool_decide (pw_Encoded p = "")) eqn:H3;
    bool_facts; simpl; naive_solver.
Qed.

(** Credentials are accepted exactly when they name one user, by both IDs
    or by a login name that is not blank, and carry a password; the login request then holds
    exactly one selector, the one the credentials give. *)
Theorem credentials_select_one c :
  (Credentials_validate c = None <->
     PasswordInput_Validate (Credentials_Password c) = None /\
     let name := normalizeLoginName (Credentials_LoginName c) in
     (Credentials_NodeID c <> 0 /\ Credentials_UserID c <> 0 /\ name = "") \/
     (Credentials_NodeID c = 0 /\ Credentials_UserID c = 0 /\ name <> "")) /\
  (Credentials_validate c = None ->
     (Credentials_NodeID c <> 0 /\ Credentials_UserID c <> 0 /\
        loginSelector c = (Some (mkpb_UserRef (Credentials_NodeID c) (Credentials_UserID c)), "")) \/
     (exists name, name <> "" /\ name = normalizeLoginName (Credentials_LoginName c) /\
        loginSelector c = (None, name))).
Proof.
  assert (Credentials_validate c = None <->
     PasswordInput_Validate (Credentials_Password c) = None /\
     exists name, validateLoginSelector (Credentials_NodeID c) (Credentials_UserID c) (Credentials_LoginName c) = Ok name)
    as Hv.
  { unfold Credentials_validate. destruct (validateLoginSelector _ _ _) as [name|e|] eqn:E.
    - destruct (PasswordInput_Validate _); naive_solver.
    - naive_solver.
    - exfalso. unfold validateLoginSelector in E. by repeat case_match. }
  setoid_rewrite validateLoginSelector_Ok in Hv. rewrite Hv. cbv zeta. split; [naive_solver|].
  intros [_ (name & -> & [(Hn & Hu & Hl) | (Hn & Hu & Hl)])]; unfold loginSelector.
  - left. split_and!; [done..|]. rewrite bool_decide_true by done. simpl.
    unfold userRefToProto, UserRef_IsZero. simpl.
    by rewrite (proj2 (Z.eqb_neq _ _) Hn).
  - right. eexists. split_and!; [done..|]. by rewrite bool_decide_false by done.
Qed.

Definition demo_credentials : Credentials := mkCredentials 0 0 " ann " (HashedPassword "h").

Lemma credentials_select_one_witness :
  Credentials_validate demo_credentials = None /\ loginSelector demo_credentials = (None, "ann").
Proof.
  assert (Credentials_validate demo_credentials = None) as H by reflexivity.
  split; [done|]. destruct (credentials_select_one demo_credentials) as [_ Hs].
  destruct (Hs H) as [(Hn & _)|(name & _ & -> & ->)]; [by destruct Hn|reflexivity].
Defined.

Definition reserved_ok (s : string) : Prop :=
  HasPrefix s UserMetadataSystemKeyPrefix = true -> metadataSystemPrefixRegistered s = true.

Lemma validateMetadataScanSystemPrefix_None prefix after :
  validateMetadataScanSystemPrefix prefix after = None <-> reserved_ok prefix /\ reserved_ok after.
Proof.
  unfold validateMetadataScanSystemPrefix, reserved_ok. rewrite first_err_None. simpl.
  rewrite !List.Forall_cons_iff, List.Forall_nil_iff.
  destruct (HasPrefix prefix _), (HasPrefix after _), (metadataSystemPrefixRegistered prefix),
    (metadataSystemPrefixRegistered after); simpl; naive_solver.
Qed.

(** A guard that reports an error when its condition holds. *)
Lemma guard_None {E} (b : bool) (e : E) : (if b then Some e else None) = None <-> b = false.
Proof. by destruct b. Qed.

(** A scan is accepted exactly when its prefix and cursor are key text (or
    empty), its limit is between 0 and 1000, the cursor continues the prefix and neither goes
    into the reserved namespace except toward the registered key; and a metadata key is
    accepted exactly when it is non-empty key text outside the namespace or the registered key. *)
Theorem metadata_scan_valid r key :
  let prefix := ScanUserMetadataRequest_Prefix r in
  let after := ScanUserMetadataRequest_After r in
  let text s := s = "" \/ (s <> "" /\ key_text s) in
  (ScanUserMetadataRequest_validate r = None <->
     text prefix /\ text after /\ reserved_ok prefix /\ reserved_ok after /\
     0 <= ScanUserMetadataRequest_Limit r <= maxUserMetadataLimit /\
     (prefix <> "" -> after <> "" -> exists rest, after = prefix +:+ rest)) /\
  (validateMetadataKey key = None <->
     key <> "" /\ key_text key /\
     (HasPrefix key UserMetadataSystemKeyPrefix = true -> key = UserMetadataKeyVisibleToOthers)).
Proof.
  intros prefix after text. split.
  - unfold ScanUserMetadataRequest_validate. fold prefix after.
    rewrite first_err_None, !List.Forall_cons_iff, List.Forall_nil_iff, !validateMetadataKeyFragment_None.
    rewrite validateMetadataScanSystemPrefix_None, !guard_None, !Z.ltb_ge.
    rewrite !andb_false_iff, !negb_false_iff, !bool_decide_eq_true, HasPrefix_spec.
    unfold text. destruct (decide (prefix = "")), (decide (after = "")); naive_solver.
  - unfold validateMetadataKey.
    destruct (validateMetadataKeyFragment key "key" false) eqn:E.
    + split; [done|]. intros (? & ? & _). exfalso.
      assert (validateMetadataKeyFragment key "key" false = None) as E'; [|by rewrite E in E'].
      rewrite validateMetadataKeyFragment_None. by right.
    + apply validateMetadataKeyFragment_None in E. rewrite validateMetadataKeyPolicy_None. naive_solver.
Qed.
