(* ===== verification/Http.v ===== *)
(** * The HTTP client (http_client.go)

    A method either returns at once or performs one exchange: it builds a request and says
    what it makes of the outcome of [client.Do]. It returns a value and an error, as the Go
    method does. Two things are arguments: [url_Parse], the error [http.NewRequestWithContext]
    gives for a URL, and what [Do] does. *)

From Stdlib Require Import Strings.Byte.
From stdpp Require Import base list strings.
From S2P Require Import Prelude Errors Types Text Encoding Url Json JsonMarshal JsonDecode Metadata Password Records HttpTypes Requests.

Record HTTPClient : Type := mkHTTPClient { hc_BaseURL : bytes }.

Definition NewHTTPClient (baseURL : string) : HTTPClient := mkHTTPClient (TrimRight_slash (str baseURL)).

Record HTTPRequest : Type := mkHTTPRequest {
  rq_Method : string;
  rq_URL : bytes;
  rq_Header : list (string * bytes);
  rq_Body : option bytes;
}.

(** A response: its body is what the connection delivers before it ends, with an error unless
    it ends in EOF. *)
Record HTTPResponse : Type := mkHTTPResponse {
  rs_StatusCode : Z;
  rs_Body : bytes;
  rs_ReadError : option error;
}.

Definition MethodGet : string := "GET".
Definition MethodPost : string := "POST".
Definition MethodPut : string := "PUT".
Definition MethodPatch : string := "PATCH".
Definition MethodDelete : string := "DELETE".
Definition StatusOK : Z := 200.
Definition StatusCreated : Z := 201.
Definition StatusAccepted : Z := 202.

(** Errors of encoding/json, whose texts are not modelled. *)
Definition json_error : error := errors_New "encoding/json".

(** What a Go method with a result and an error returns. *)
Definition returns (A : Type) : Type := A * option error.
Inductive exchange (A : Type) : Type :=
| Return (r : returns A)
| Exchange (req : HTTPRequest) (k : HTTPResponse + error -> returns A).
Arguments Return {A} r.
Arguments Exchange {A} req k.

(** Runs a method against what [Do] does. *)
Definition run_exchange {A} (Do : HTTPRequest -> HTTPResponse + error) (x : exchange A) : returns A :=
  match x with Return r => r | Exchange req k => k (Do req) end.

(** What the method does with the results of [doJSON]. *)
Definition then_return {A B} (x : exchange A) (f : returns A -> returns B) : exchange B :=
  match x with
  | Return r => Return (f r)
  | Exchange req k => Exchange req (fun res => f (k res))
  end.

(** [if err := v; err != nil { return zero, err }], plain and wrapped. *)
Definition guarded {A} (v : option error) (zero : A) (rest : exchange A) : exchange A :=
  match v with Some e => Return (zero, Some e) | None => rest end.
Definition guarded_as {A} (format : string) (v : option error) (zero : A) (rest : exchange A) : exchange A :=
  guarded ((fun e => Wrapf format [] e) <$> v) zero rest.

Definition statusAllowed (status : Z) (allowed : list Z) : bool :=
  if bool_decide (allowed = []) then status =? StatusOK else existsb (Z.eqb status) allowed.

(** [fmt.Sprintf("unexpected HTTP status %d: %s", ...)] with at most 4096 bytes of the body. *)
Definition unexpected_status (resp : HTTPResponse) : error :=
  EProtocol "unexpected HTTP status %d: %s"
    [FInt (rs_StatusCode resp); FStr (String.string_of_list_byte (TrimSpace (take 4096 (rs_Body resp))))].

(** [json.NewDecoder(resp.Body).Decode(out)]: one value is read and the rest ignored; a number
    that reaches the end of the body is only complete at EOF. *)
Definition Decode {A} (d : dec A) (resp : HTTPResponse) (zero : A) : returns A :=
  match json_scan (rs_Body resp), rs_ReadError resp with
  | Some (JNumber _, []), Some e => (zero, Some e)
  | Some (v, rest), _ =>
      let '(a, saved) := d (text_before (skip_space (rs_Body resp)) rest) v zero in
      (a, if saved then Some json_error else None)
  | None, None => (zero, Some (if bool_decide (skip_space (rs_Body resp) = []) then Sentinel EOF else json_error))
  | None, Some _ => (zero, Some json_error)
  end.

Definition Header_json : list (string * bytes) := [("Content-Type", str "application/json")].
Definition Header_auth (token : string) : list (string * bytes) :=
  if bool_decide (token = "") then [] else [("Authorization", str ("Bearer " +:+ token))].

Section http.
Context (url_Parse : bytes -> option error).
Context (GenerateFromPassword : string -> Z -> result error string).
Context (c : HTTPClient).

(** [doJSON] up to [Do]; what happens after it is [reply]. *)
Definition doJSON {A} (method : string) (path : bytes) (token : string) (reqBody : option jout)
    (out : option (dec A)) (zero : A) (wantStatuses : list Z) : exchange A :=
  let fullURL := TrimRight_slash (hc_BaseURL c) ++ path in
  match (match reqBody with None => Some None | Some v => Some <$> marshal v end) with
  | None => Return (zero, Some json_error)
  | Some body =>
      guarded (url_Parse fullURL) zero (
      Exchange (mkHTTPRequest method fullURL
                  ((if reqBody then Header_json else []) ++ Header_auth token) body)
        (fun res =>
           match res with
           | inr e => (zero, Some (EConnection (method +:+ " " +:+ String.string_of_list_byte path) e))
           | inl resp =>
               if negb (statusAllowed (rs_StatusCode resp) wantStatuses) then (zero, Some (unexpected_status resp))
               else match out with None => (zero, None) | Some d => Decode d resp zero end
           end))
  end.

Definition doText (path : bytes) (token : string) (wantStatuses : list Z) : exchange string :=
  let fullURL := TrimRight_slash (hc_BaseURL c) ++ path in
  let op := "GET " +:+ String.string_of_list_byte path in
  guarded (url_Parse fullURL) "" (
  Exchange (mkHTTPRequest MethodGet fullURL (Header_auth token) None)
    (fun res =>
       match res with
       | inr e => ("", Some (EConnection op e))
       | inl resp =>
           if negb (statusAllowed (rs_StatusCode resp) wantStatuses) then ("", Some (unexpected_status resp))
           else
             let data := String.string_of_list_byte (take 1048576 (rs_Body resp)) in
             match rs_ReadError resp with
             | Some e => if len (rs_Body resp) <? 1048576 then ("", Some (EConnection op e)) else (data, None)
             | None => (data, None)
             end
       end)).

(** ** Conversions *)

Definition userFromHTTP (r : httpUserResponse) : User :=
  let profile := if len (up_Profile r) =? 0 then up_ProfileJSON r else up_Profile r in
  mkUser (up_NodeID r) (up_UserID r) (up_Username r) (up_LoginName r) (up_Role r) profile
    (up_SystemReserved r) (up_CreatedAt r) (up_UpdatedAt r) (up_OriginNodeID r).
Definition usersFromHTTP (items : list httpUserResponse) : list User := userFromHTTP <$> items.

Definition messageFromHTTP (r : httpMessageResponse) : Message :=
  let createdAt := if bool_decide (mp_CreatedAtHLC r = "") then mp_CreatedAt r else mp_CreatedAtHLC r in
  mkMessage (mp_Recipient r) (mp_NodeID r) (mp_Seq r) (mp_Sender r) (mp_Body r) createdAt.
Definition messagesFromHTTP (items : list httpMessageResponse) : list Message := messageFromHTTP <$> items.

Definition userMetadataFromHTTP (m : UserMetadata) : UserMetadata :=
  mkUserMetadata (UserMetadata_Owner m) (UserMetadata_Key m) (UserMetadata_Value m)
    (cloneMetadataTypedValue (UserMetadata_TypedValue m)) (UserMetadata_UpdatedAt m) (UserMetadata_DeletedAt m)
    (UserMetadata_ExpiresAt m) (UserMetadata_OriginNodeID m).
Definition userMetadataPageFromHTTP (p : UserMetadataPage) : UserMetadataPage :=
  mkUserMetadataPage (userMetadataFromHTTP <$> UserMetadataPage_Items p) (UserMetadataPage_Count p)
    (UserMetadataPage_NextAfter p).

(** ** Paths *)

(** ["/nodes/%d/users/%d"] *)
Definition user_path (u : UserRef) : bytes :=
  str "/nodes/" ++ FormatInt (ur_NodeID u) ++ str "/users/" ++ FormatInt (ur_UserID u).
Definition userMetadataPath (owner : UserRef) (key : string) : bytes :=
  user_path owner ++ str "/metadata/" ++ PathEscape (str key).
Definition messages_path (u : UserRef) : bytes := user_path u ++ str "/messages".
Definition attachment_path (owner subject : UserRef) (attachmentType : AttachmentType) : bytes :=
  user_path owner ++ str "/attachments/" ++ str attachmentType ++ str "/" ++ FormatInt (ur_NodeID subject)
    ++ str "/" ++ FormatInt (ur_UserID subject).

(** ** Methods *)

(** [if err != nil { return zero, err }; return f(resp), nil] *)
Definition ok_or {A B} (zero : B) (f : A -> B) (r : returns A) : returns B :=
  match r.2 with Some e => (zero, Some e) | None => (f r.1, None) end.

(** [v, err := f(); if err != nil { return zero, err }]; no function used here panics. *)
Definition bind_result {A B} (r : result error A) (zero : B) (rest : A -> exchange B) : exchange B :=
  match r with Ok a => rest a | Err e => Return (zero, Some e) | Panic => Return (zero, Some json_error) end.

Definition loginWithRequest (req : httpLoginRequest) (password : PasswordInput) : exchange string :=
  bind_result (validateLoginSelector (lr_NodeID req) (lr_UserID req) (lr_LoginName req)) "" (fun normalizedLoginName =>
  guarded_as "invalid password: %w" (PasswordInput_Validate password) "" (
  let req := mkhttpLoginRequest (lr_NodeID req) (lr_UserID req) normalizedLoginName (WireValue password) in
  then_return (doJSON MethodPost (str "/auth/login") "" (Some (httpLoginRequest_json req))
                 (Some dec_httpLoginResponse) (mkhttpLoginResponse "") [StatusOK])
    (fun '(resp, err) =>
       match err with
       | Some e => ("", Some e)
       | None =>
           if bool_decide (lp_Token resp = "") then ("", Some (EProtocol "empty token in login response" []))
           else (lp_Token resp, None)
       end))).

Definition LoginWithPassword (nodeID userID : Z) (password : PasswordInput) : exchange string :=
  loginWithRequest (mkhttpLoginRequest nodeID userID "" "") password.
Definition LoginByLoginNameWithPassword (loginName : string) (password : PasswordInput) : exchange string :=
  loginWithRequest (mkhttpLoginRequest 0 0 loginName "") password.
Definition Login (nodeID userID : Z) (password : string) : exchange string :=
  bind_result (PlainPassword GenerateFromPassword password) "" (LoginWithPassword nodeID userID).
Definition LoginByLoginName (loginName password : string) : exchange string :=
  bind_result (PlainPassword GenerateFromPassword password) "" (LoginByLoginNameWithPassword loginName).

Definition CreateUser (token : string) (req : CreateUserRequest) : exchange User :=
  if bool_decide (CreateUserRequest_Username req = "") then Return (zero_User, Some (errors_New "username is required"))
  else if bool_decide (CreateUserRequest_Role req = "") then Return (zero_User, Some (errors_New "role is required"))
  else
    then_return (doJSON MethodPost (str "/users") token
      (Some (httpCreateUserRequest_json
         (mkhttpCreateUserRequest (CreateUserRequest_Username req) (CreateUserRequest_LoginName req)
            (WireValue (CreateUserRequest_Password req)) (CreateUserRequest_ProfileJSON req) (CreateUserRequest_Role req))))
      (Some dec_httpUserResponse) zero_httpUserResponse [StatusCreated; StatusOK])
      (ok_or zero_User userFromHTTP).

Definition CreateChannel (token : string) (req : CreateUserRequest) : exchange User :=
  CreateUser token
    (if bool_decide (CreateUserRequest_Role req = "")
     then mkCreateUserRequest (CreateUserRequest_Username req) (CreateUserRequest_LoginName req)
            (CreateUserRequest_Password req) (CreateUserRequest_ProfileJSON req) "channel"
     else req).

(** [if cond { values.Set(key, value) }] *)
Definition set_if (cond : bool) (key : string) (value : bytes) (values : Values) : Values :=
  if cond then Values_Set values (str key) value else values.

Definition ListUsers (token : string) (req : ListUsersRequest) : exchange (list User) :=
  let req := ListUsersRequest_normalized req in
  guarded (ListUsersRequest_validate req) [] (
  let values := set_if (negb (bool_decide (ListUsersRequest_Name req = ""))) "name" (str (ListUsersRequest_Name req)) [] in
  let uid := ListUsersRequest_UID req in
  let values := set_if (negb (UserRef_IsZero uid)) "uid" (FormatInt (ur_NodeID uid) ++ str ":" ++ FormatInt (ur_UserID uid))
                  values in
  then_return (doJSON MethodGet (with_query (str "/users") values) token None (Some dec_httpUsersResponse)
                 zero_httpList [StatusOK])
    (fun '(resp, err) => (usersFromHTTP (hl_Items resp), err))).

Definition ListMessages (token : string) (target : UserRef) (limit peerNodeID peerUserID : Z) : exchange (list Message) :=
  let values := set_if (0 <? limit) "limit" (FormatInt limit) [] in
  let peer := negb (peerNodeID =? 0) || negb (peerUserID =? 0) in
  let values := set_if peer "peer_node_id" (FormatInt peerNodeID) values in
  let values := set_if peer "peer_user_id" (FormatInt peerUserID) values in
  then_return (doJSON MethodGet (with_query (messages_path target) values) token None (Some dec_httpMessagesResponse)
                 zero_httpList [StatusOK])
    (fun '(resp, err) => (messagesFromHTTP (hl_Items resp), err)).

Definition PostMessage (token : string) (target : UserRef) (body : bytes) : exchange Message :=
  guarded_as "invalid target: %w" (UserRef_validate target) zero_Message (
  if len body =? 0 then Return (zero_Message, Some (errors_New "body is required"))
  else
    then_return (doJSON MethodPost (messages_path target) token
      (Some (httpMessageRequest_json (mkhttpMessageRequest body "" "")))
      (Some dec_httpMessageResponse) zero_httpMessageResponse [StatusCreated; StatusOK])
      (ok_or zero_Message messageFromHTTP)).

Definition PostPacket (token : string) (targetNodeID : Z) (relayTarget : UserRef) (body : bytes) (mode : DeliveryMode)
    : exchange () :=
  if targetNodeID =? 0 then Return (tt, Some (errors_New "target node_id is required"))
  else
    guarded_as "invalid relay_target: %w" (UserRef_validate relayTarget) tt (
    if len body =? 0 then Return (tt, Some (errors_New "body is required"))
    else
      guarded (validatePacketMode mode) tt (
      if negb (targetNodeID =? ur_NodeID relayTarget)
      then Return (tt, Some (Errorf "target node ID %d does not match target user node_id %d"
                               [FInt targetNodeID; FInt (ur_NodeID relayTarget)]))
      else
        doJSON MethodPost (messages_path relayTarget) token
          (Some (httpMessageRequest_json (mkhttpMessageRequest body "transient" mode))) None tt [StatusAccepted])).

Definition ListClusterNodes (token : string) : exchange (list ClusterNode) :=
  then_return (doJSON MethodGet (str "/cluster/nodes") token None (Some dec_httpClusterNodesResponse)
                 zero_httpList [StatusOK])
    (fun '(resp, err) => (hl_Items resp, err)).

Definition ListNodeLoggedInUsers (token : string) (nodeID : Z) : exchange (list LoggedInUser) :=
  if nodeID =? 0 then Return ([], Some (errors_New "node_id is required"))
  else
    then_return (doJSON MethodGet (str "/cluster/nodes/" ++ FormatInt nodeID ++ str "/logged-in-users") token None
                   (Some dec_httpNodeLoggedInUsersResponse) zero_httpList [StatusOK])
      (fun '(resp, err) => (hl_Items resp, err)).

Definition UpsertAttachment (token : string) (owner subject : UserRef) (attachmentType : AttachmentType)
    (configJSON : bytes) : exchange Attachment :=
  guarded_as "invalid owner: %w" (UserRef_validate owner) zero_Attachment (
  guarded_as "invalid subject: %w" (UserRef_validate subject) zero_Attachment (
  doJSON MethodPut (attachment_path owner subject attachmentType) token
    (Some (httpAttachmentRequest_json
       (mkhttpAttachmentRequest (if bool_decide (configJSON = []) then None else Some configJSON))))
    (Some dec_Attachment) zero_Attachment [StatusCreated; StatusOK])).

Definition DeleteAttachment (token : string) (owner subject : UserRef) (attachmentType : AttachmentType)
    : exchange Attachment :=
  guarded_as "invalid owner: %w" (UserRef_validate owner) zero_Attachment (
  guarded_as "invalid subject: %w" (UserRef_validate subject) zero_Attachment (
  doJSON MethodDelete (attachment_path owner subject attachmentType) token None
    (Some dec_Attachment) zero_Attachment [StatusOK])).

Definition ListAttachments (token : string) (owner : UserRef) (attachmentType : AttachmentType)
    : exchange (list Attachment) :=
  guarded_as "invalid owner: %w" (UserRef_validate owner) [] (
  let path := user_path owner ++ str "/attachments" in
  let path := if negb (bool_decide (attachmentType = ""))
              then path ++ str "?attachment_type=" ++ QueryEscape (str attachmentType) else path in
  then_return (doJSON MethodGet path token None (Some dec_httpAttachmentsResponse) zero_httpList [StatusOK])
    (fun '(resp, err) => (hl_Items resp, err))).

Definition CreateSubscription (token : string) (userRef channelRef : UserRef) : exchange () :=
  then_return (UpsertAttachment token userRef channelRef AttachmentTypeChannelSubscription (str "{}"))
    (fun '(_, err) => (tt, err)).

(** The entry the blacklist methods make of an attachment. *)
Definition blacklist_entry (a : Attachment) : BlacklistEntry :=
  mkBlacklistEntry (Attachment_Owner a) (Attachment_Subject a) (Attachment_AttachedAt a) (Attachment_DeletedAt a)
    (Attachment_OriginNodeID a).
Definition BlockUser (token : string) (owner blocked : UserRef) : exchange BlacklistEntry :=
  then_return (UpsertAttachment token owner blocked AttachmentTypeUserBlacklist (str "{}"))
    (ok_or zero_BlacklistEntry blacklist_entry).
Definition UnblockUser (token : string) (owner blocked : UserRef) : exchange BlacklistEntry :=
  then_return (DeleteAttachment token owner blocked AttachmentTypeUserBlacklist)
    (ok_or zero_BlacklistEntry blacklist_entry).
Definition ListBlockedUsers (token : string) (owner : UserRef) : exchange (list BlacklistEntry) :=
  then_return (ListAttachments token owner AttachmentTypeUserBlacklist) (ok_or [] (fmap blacklist_entry)).

Definition GetUser (token : string) (target : UserRef) : exchange User :=
  guarded_as "invalid target: %w" (UserRef_validate target) zero_User (
  then_return (doJSON MethodGet (user_path target) token None (Some dec_httpUserResponse) zero_httpUserResponse [StatusOK])
    (ok_or zero_User userFromHTTP)).

Definition UpdateUser (token : string) (target : UserRef) (req : UpdateUserRequest) : exchange User :=
  guarded_as "invalid target: %w" (UserRef_validate target) zero_User (
  if bool_decide (UpdateUserRequest_Role req = Some "channel") &&
     negb (bool_decide (default "" (UpdateUserRequest_LoginName req) = ""))
  then Return (zero_User, Some (errors_New "channel users cannot have a login_name"))
  else
    let body := mkhttpUpdateUserRequest (UpdateUserRequest_Username req) (UpdateUserRequest_LoginName req)
                  (WireValue <$> UpdateUserRequest_Password req) (UpdateUserRequest_ProfileJSON req)
                  (UpdateUserRequest_Role req) in
    then_return (doJSON MethodPatch (user_path target) token (Some (httpUpdateUserRequest_json body))
                   (Some dec_httpUserResponse) zero_httpUserResponse [StatusOK])
      (ok_or zero_User userFromHTTP)).

Definition DeleteUser (token : string) (target : UserRef) : exchange DeleteUserResult :=
  guarded_as "invalid target: %w" (UserRef_validate target) zero_DeleteUserResult (
  then_return (doJSON MethodDelete (user_path target) token None (Some dec_httpDeleteUserResponse)
                 (mkhttpDeleteUserResponse "" 0 0) [StatusOK])
    (ok_or zero_DeleteUserResult (fun resp => mkDeleteUserResult (dp_Status resp) (mkUserRef (dp_NodeID resp) (dp_UserID resp))))).

Definition ListEvents (token : string) (after limit : Z) : exchange (list Event) :=
  let values := set_if (0 <? after) "after" (FormatInt after) [] in
  let values := set_if (0 <? limit) "limit" (FormatInt limit) values in
  then_return (doJSON MethodGet (with_query (str "/events") values) token None (Some dec_httpEventsResponse)
                 zero_httpList [StatusOK])
    (fun '(resp, err) => (hl_Items resp, err)).

Definition get_OperationsStatus (token : string) : exchange OperationsStatus :=
  doJSON MethodGet (str "/ops/status") token None (Some dec_OperationsStatus) zero_OperationsStatus [StatusOK].

Definition Metrics (token : string) : exchange string := doText (str "/metrics") token [StatusOK].

(** The guards of the metadata methods. *)
Definition metadata_guard {A} (owner : UserRef) (key : string) (zero : A) (rest : exchange A) : exchange A :=
  guarded_as "invalid owner: %w" (UserRef_validate owner) zero (guarded (validateMetadataKey key) zero rest).

Definition GetUserMetadata (token : string) (owner : UserRef) (key : string) : exchange UserMetadata :=
  metadata_guard owner key zero_UserMetadata (
  then_return (doJSON MethodGet (userMetadataPath owner key) token None (Some dec_UserMetadata) zero_UserMetadata [StatusOK])
    (ok_or zero_UserMetadata userMetadataFromHTTP)).

(** [MarshalJSON] of the request gives its payload, whose JSON is the body. *)
Definition UpsertUserMetadata (token : string) (owner : UserRef) (key : string) (req : UpsertUserMetadataRequest)
    : exchange UserMetadata :=
  metadata_guard owner key zero_UserMetadata (
  guarded (validateHTTPMetadataUpsertRequest key req) zero_UserMetadata (
  bind_result (Upsert_MarshalJSON (Upsert_clone req)) zero_UserMetadata (fun payload =>
  then_return (doJSON MethodPut (userMetadataPath owner key) token (Some (upsert_payload_json payload))
                 (Some dec_UserMetadata) zero_UserMetadata [StatusCreated; StatusOK])
    (ok_or zero_UserMetadata userMetadataFromHTTP)))).

Definition DeleteUserMetadata (token : string) (owner : UserRef) (key : string) : exchange UserMetadata :=
  metadata_guard owner key zero_UserMetadata (
  then_return (doJSON MethodDelete (userMetadataPath owner key) token None (Some dec_UserMetadata) zero_UserMetadata [StatusOK])
    (ok_or zero_UserMetadata userMetadataFromHTTP)).

Definition ScanUserMetadata (token : string) (owner : UserRef) (req : ScanUserMetadataRequest) : exchange UserMetadataPage :=
  guarded_as "invalid owner: %w" (UserRef_validate owner) zero_UserMetadataPage (
  guarded (ScanUserMetadataRequest_validate req) zero_UserMetadataPage (
  let prefix := ScanUserMetadataRequest_Prefix req in
  let after := ScanUserMetadataRequest_After req in
  let limit := ScanUserMetadataRequest_Limit req in
  let values := set_if (negb (bool_decide (prefix = ""))) "prefix" (str prefix) [] in
  let values := set_if (negb (bool_decide (after = ""))) "after" (str after) values in
  let values := set_if (0 <? limit) "limit" (FormatInt limit) values in
  then_return (doJSON MethodGet (with_query (user_path owner ++ str "/metadata") values) token None
                 (Some dec_UserMetadataPage) zero_UserMetadataPage [StatusOK])
    (ok_or zero_UserMetadataPage userMetadataPageFromHTTP))).

End http.
