(* ===== verification/HttpProps.v ===== *)
(** * What the HTTP client promises: its requests, its outcomes, its lists and bodies *)

From Stdlib Require Import Strings.Byte.
From stdpp Require Import base list strings.
From S2P Require Import Prelude Errors Types Text Encoding Url UrlProps Json JsonProps JsonLocal JsonMarshal JsonCodec JsonDecode Metadata Password Records HttpTypes Requests Http.

(** ** One type for all calls *)

Inductive api_call : Type :=
| CLogin (nodeID userID : Z) (password : PasswordInput)
| CLoginByName (loginName : string) (password : PasswordInput)
| CCreateUser (token : string) (req : CreateUserRequest)
| CCreateChannel (token : string) (req : CreateUserRequest)
| CListUsers (token : string) (req : ListUsersRequest)
| CCreateSubscription (token : string) (user channel : UserRef)
| CListMessages (token : string) (target : UserRef) (limit peerNodeID peerUserID : Z)
| CPostMessage (token : string) (target : UserRef) (body : bytes)
| CPostPacket (token : string) (targetNodeID : Z) (target : UserRef) (body : bytes) (mode : DeliveryMode)
| CListClusterNodes (token : string)
| CListNodeLoggedInUsers (token : string) (nodeID : Z)
| CBlockUser (token : string) (owner blocked : UserRef)
| CUnblockUser (token : string) (owner blocked : UserRef)
| CListBlockedUsers (token : string) (owner : UserRef)
| CGetUser (token : string) (target : UserRef)
| CUpdateUser (token : string) (target : UserRef) (req : UpdateUserRequest)
| CDeleteUser (token : string) (target : UserRef)
| CListEvents (token : string) (after limit : Z)
| COperationsStatus (token : string)
| CMetrics (token : string)
| CGetUserMetadata (token : string) (owner : UserRef) (key : string)
| CUpsertUserMetadata (token : string) (owner : UserRef) (key : string) (req : UpsertUserMetadataRequest)
| CDeleteUserMetadata (token : string) (owner : UserRef) (key : string)
| CScanUserMetadata (token : string) (owner : UserRef) (req : ScanUserMetadataRequest)
| CUpsertAttachment (token : string) (owner subject : UserRef) (attachmentType : AttachmentType) (configJSON : bytes)
| CDeleteAttachment (token : string) (owner subject : UserRef) (attachmentType : AttachmentType)
| CListAttachments (token : string) (owner : UserRef) (attachmentType : AttachmentType).

(** A method without its result. *)
Definition only_error {A} (x : exchange A) : exchange () := then_return x (fun r => (tt, r.2)).

Section calls.
Context (url_Parse : bytes -> option error) (c : HTTPClient).

Definition perform (call : api_call) : exchange () :=
  match call with
  | CLogin n u p => only_error (LoginWithPassword url_Parse c n u p)
  | CLoginByName l p => only_error (LoginByLoginNameWithPassword url_Parse c l p)
  | CCreateUser t r => only_error (CreateUser url_Parse c t r)
  | CCreateChannel t r => only_error (CreateChannel url_Parse c t r)
  | CListUsers t r => only_error (ListUsers url_Parse c t r)
  | CCreateSubscription t u ch => only_error (CreateSubscription url_Parse c t u ch)
  | CListMessages t u l pn pu => only_error (ListMessages url_Parse c t u l pn pu)
  | CPostMessage t u b => only_error (PostMessage url_Parse c t u b)
  | CPostPacket t n u b m => only_error (PostPacket url_Parse c t n u b m)
  | CListClusterNodes t => only_error (ListClusterNodes url_Parse c t)
  | CListNodeLoggedInUsers t n => only_error (ListNodeLoggedInUsers url_Parse c t n)
  | CBlockUser t o b => only_error (BlockUser url_Parse c t o b)
  | CUnblockUser t o b => only_error (UnblockUser url_Parse c t o b)
  | CListBlockedUsers t o => only_error (ListBlockedUsers url_Parse c t o)
  | CGetUser t u => only_error (GetUser url_Parse c t u)
  | CUpdateUser t u r => only_error (UpdateUser url_Parse c t u r)
  | CDeleteUser t u => only_error (DeleteUser url_Parse c t u)
  | CListEvents t a l => only_error (ListEvents url_Parse c t a l)
  | COperationsStatus t => only_error (get_OperationsStatus url_Parse c t)
  | CMetrics t => only_error (Metrics url_Parse c t)
  | CGetUserMetadata t o k => only_error (GetUserMetadata url_Parse c t o k)
  | CUpsertUserMetadata t o k r => only_error (UpsertUserMetadata url_Parse c t o k r)
  | CDeleteUserMetadata t o k => only_error (DeleteUserMetadata url_Parse c t o k)
  | CScanUserMetadata t o r => only_error (ScanUserMetadata url_Parse c t o r)
  | CUpsertAttachment t o s a j => only_error (UpsertAttachment url_Parse c t o s a j)
  | CDeleteAttachment t o s a => only_error (DeleteAttachment url_Parse c t o s a)
  | CListAttachments t o a => only_error (ListAttachments url_Parse c t o a)
  end.
End calls.

(** ** What each call means *)

(** The resource a call is about, as the segments of its path. *)
Definition at_user (u : UserRef) (rest : list bytes) : list bytes :=
  [str "nodes"; FormatInt (ur_NodeID u); str "users"; FormatInt (ur_UserID u)] ++ rest.
Definition at_attachment (o s : UserRef) (a : AttachmentType) : list bytes :=
  at_user o [str "attachments"; str a; FormatInt (ur_NodeID s); FormatInt (ur_UserID s)].

Definition resource (call : api_call) : list bytes :=
  match call with
  | CLogin _ _ _ | CLoginByName _ _ => [str "auth"; str "login"]
  | CCreateUser _ _ | CCreateChannel _ _ | CListUsers _ _ => [str "users"]
  | CCreateSubscription _ u ch => at_attachment u ch AttachmentTypeChannelSubscription
  | CListMessages _ u _ _ _ | CPostMessage _ u _ | CPostPacket _ _ u _ _ => at_user u [str "messages"]
  | CListClusterNodes _ => [str "cluster"; str "nodes"]
  | CListNodeLoggedInUsers _ n => [str "cluster"; str "nodes"; FormatInt n; str "logged-in-users"]
  | CBlockUser _ o b | CUnblockUser _ o b => at_attachment o b AttachmentTypeUserBlacklist
  | CListBlockedUsers _ o | CListAttachments _ o _ => at_user o [str "attachments"]
  | CGetUser _ u | CUpdateUser _ u _ | CDeleteUser _ u => at_user u []
  | CListEvents _ _ _ => [str "events"]
  | COperationsStatus _ => [str "ops"; str "status"]
  | CMetrics _ => [str "metrics"]
  | CGetUserMetadata _ o k | CUpsertUserMetadata _ o k _ | CDeleteUserMetadata _ o k => at_user o [str "metadata"; str k]
  | CScanUserMetadata _ o _ => at_user o [str "metadata"]
  | CUpsertAttachment _ o s a _ | CDeleteAttachment _ o s a => at_attachment o s a
  end.

(** A parameter that is present under a condition. *)
Definition param (cond : bool) (key : string) (value : bytes) : list (bytes * bytes) :=
  if cond then [(str key, value)] else [].

(** The query parameters, in the order of their keys. *)
Definition parameters (call : api_call) : list (bytes * bytes) :=
  match call with
  | CListUsers _ r =>
      let r := ListUsersRequest_normalized r in
      param (negb (bool_decide (ListUsersRequest_Name r = ""))) "name" (str (ListUsersRequest_Name r)) ++
      param (negb (UserRef_IsZero (ListUsersRequest_UID r))) "uid"
        (FormatInt (ur_NodeID (ListUsersRequest_UID r)) ++ str ":" ++ FormatInt (ur_UserID (ListUsersRequest_UID r)))
  | CListMessages _ _ l pn pu =>
      let peer := negb (pn =? 0) || negb (pu =? 0) in
      param (0 <? l) "limit" (FormatInt l) ++ param peer "peer_node_id" (FormatInt pn) ++
      param peer "peer_user_id" (FormatInt pu)
  | CListEvents _ a l => param (0 <? a) "after" (FormatInt a) ++ param (0 <? l) "limit" (FormatInt l)
  | CScanUserMetadata _ _ r =>
      param (negb (bool_decide (ScanUserMetadataRequest_After r = ""))) "after" (str (ScanUserMetadataRequest_After r)) ++
      param (0 <? ScanUserMetadataRequest_Limit r) "limit" (FormatInt (ScanUserMetadataRequest_Limit r)) ++
      param (negb (bool_decide (ScanUserMetadataRequest_Prefix r = ""))) "prefix" (str (ScanUserMetadataRequest_Prefix r))
  | CListBlockedUsers _ _ => param true "attachment_type" (str AttachmentTypeUserBlacklist)
  | CListAttachments _ _ a => param (negb (bool_decide (a = ""))) "attachment_type" (str a)
  | _ => []
  end.

Definition verb (call : api_call) : string :=
  match call with
  | CLogin _ _ _ | CLoginByName _ _ | CCreateUser _ _ | CCreateChannel _ _ | CPostMessage _ _ _
  | CPostPacket _ _ _ _ _ => "POST"
  | CCreateSubscription _ _ _ | CBlockUser _ _ _ | CUpsertUserMetadata _ _ _ _ | CUpsertAttachment _ _ _ _ _ => "PUT"
  | CUpdateUser _ _ _ => "PATCH"
  | CUnblockUser _ _ _ | CDeleteUser _ _ | CDeleteUserMetadata _ _ _ | CDeleteAttachment _ _ _ _ => "DELETE"
  | _ => "GET"
  end.

Definition token_of (call : api_call) : string :=
  match call with
  | CLogin _ _ _ | CLoginByName _ _ => ""
  | CCreateUser t _ | CCreateChannel t _ | CListUsers t _ | CCreateSubscription t _ _ | CListMessages t _ _ _ _
  | CPostMessage t _ _ | CPostPacket t _ _ _ _ | CListClusterNodes t | CListNodeLoggedInUsers t _ | CBlockUser t _ _
  | CUnblockUser t _ _ | CListBlockedUsers t _ | CGetUser t _ | CUpdateUser t _ _ | CDeleteUser t _ | CListEvents t _ _
  | COperationsStatus t | CMetrics t | CGetUserMetadata t _ _ | CUpsertUserMetadata t _ _ _ | CDeleteUserMetadata t _ _
  | CScanUserMetadata t _ _ | CUpsertAttachment t _ _ _ _ | CDeleteAttachment t _ _ _ | CListAttachments t _ _ => t
  end.

(** The statuses that mean success. *)
Definition statuses (call : api_call) : list Z :=
  match call with
  | CCreateUser _ _ | CCreateChannel _ _ | CPostMessage _ _ _ | CCreateSubscription _ _ _ | CBlockUser _ _ _
  | CUpsertUserMetadata _ _ _ _ | CUpsertAttachment _ _ _ _ _ => [201; 200]
  | CPostPacket _ _ _ _ _ => [202]
  | _ => [200]
  end.

(** The JSON a call sends. *)
Definition create_json (r : CreateUserRequest) (role : string) : jout := httpCreateUserRequest_json
  (mkhttpCreateUserRequest (CreateUserRequest_Username r) (CreateUserRequest_LoginName r)
     (WireValue (CreateUserRequest_Password r)) (CreateUserRequest_ProfileJSON r) role).
Definition config_json (configJSON : bytes) : jout := httpAttachmentRequest_json
  (mkhttpAttachmentRequest (if bool_decide (configJSON = []) then None else Some configJSON)).
Definition upsert_json (r : UpsertUserMetadataRequest) : jout :=
  upsert_payload_json (mkPayload (Some <$> up_Value r) (up_TypedValue r) (up_ExpiresAt r)).

Definition body_of (call : api_call) : option jout :=
  match call with
  | CLogin n u p => Some (httpLoginRequest_json (mkhttpLoginRequest n u (normalizeLoginName "") (WireValue p)))
  | CLoginByName l p => Some (httpLoginRequest_json (mkhttpLoginRequest 0 0 (normalizeLoginName l) (WireValue p)))
  | CCreateUser _ r => Some (create_json r (CreateUserRequest_Role r))
  | CCreateChannel _ r =>
      Some (create_json r (if bool_decide (CreateUserRequest_Role r = "") then "channel" else CreateUserRequest_Role r))
  | CCreateSubscription _ _ _ | CBlockUser _ _ _ => Some (config_json (str "{}"))
  | CPostMessage _ _ b => Some (httpMessageRequest_json (mkhttpMessageRequest b "" ""))
  | CPostPacket _ _ _ b m => Some (httpMessageRequest_json (mkhttpMessageRequest b "transient" m))
  | CUpdateUser _ _ r =>
      Some (httpUpdateUserRequest_json
        (mkhttpUpdateUserRequest (UpdateUserRequest_Username r) (UpdateUserRequest_LoginName r)
           (WireValue <$> UpdateUserRequest_Password r) (UpdateUserRequest_ProfileJSON r) (UpdateUserRequest_Role r)))
  | CUpsertUserMetadata _ _ _ r => Some (upsert_json r)
  | CUpsertAttachment _ _ _ _ j => Some (config_json j)
  | _ => None
  end.

(** An attachment type that is written into a path: no byte of it is special there. *)
Definition type_in_path (call : api_call) : string :=
  match call with CUpsertAttachment _ _ _ a _ | CDeleteAttachment _ _ _ a => a | _ => "" end.
Definition plain_type (call : api_call) : Prop := forallb literal (str (type_in_path call)) = true.

(** ** The shape of an exchange *)

Section shape.
Context (url_Parse : bytes -> option error) (c : HTTPClient).

(** The bytes of a body; [None] when it cannot be written. *)
Definition sent_body (body : option jout) : option (option bytes) :=
  match body with None => Some None | Some v => Some <$> marshal v end.

(** A request for [path], and how its outcome is judged. *)
Definition shaped (m : string) (path : bytes) (token : string) (body : option jout) (allowed : list Z)
    (x : exchange ()) : Prop :=
  match x with
  | Return r => exists e, r.2 = Some e
  | Exchange req k =>
      rq_Method req = m /\ rq_URL req = TrimRight_slash (hc_BaseURL c) ++ path /\
      url_Parse (rq_URL req) = None /\ Some (rq_Body req) = sent_body body /\
      rq_Header req = (if rq_Body req then Header_json else []) ++ Header_auth token /\
      (forall e, (k (inr e)).2 = Some (EConnection (m +:+ " " +:+ String.string_of_list_byte path) e)) /\
      (forall resp, rs_StatusCode resp ∉ allowed -> (k (inl resp)).2 = Some (unexpected_status resp))
  end.

Lemma statusAllowed_In status allowed : allowed <> [] -> statusAllowed status allowed = true <-> status ∈ allowed.
Proof.
  intros H. unfold statusAllowed. rewrite bool_decide_false by done. rewrite existsb_exists. split.
  - intros (x & Hx & ->%Z.eqb_eq). by apply list_elem_of_In.
  - intros Hx. exists status. split; [by apply list_elem_of_In|by apply Z.eqb_eq].
Qed.

Lemma doJSON_shaped {A} m path token body (d : option (dec A)) zero allowed (f : returns A -> returns ()) :
  allowed <> [] -> (forall e, (f (zero, Some e)).2 = Some e) ->
  shaped m path token body allowed (then_return (doJSON url_Parse c m path token body d zero allowed) f).
Proof.
  intros Ha Hf. unfold doJSON.
  assert (forall b : option bytes, (match body with None => Some None | Some v => Some <$> marshal v end) = Some b ->
            (if body then Header_json else []) = (if b then Header_json else [])) as Hb.
  { intros b H. destruct body as [v|]; [|by simplify_eq]. destruct (marshal v); by simplify_eq/=. }
  fold (sent_body body) in Hb |- *. destruct (sent_body body) as [b|] eqn:Hs; [|by eexists].
  specialize (Hb b eq_refl). unfold guarded. destruct (url_Parse _) as [e|] eqn:Hu; [by eexists|].
  simpl. split_and!; [done|done|done|done|by rewrite Hb|done|].
  intros resp Hr. destruct (statusAllowed (rs_StatusCode resp) allowed) eqn:E; [|apply Hf].
  by apply statusAllowed_In in E.
Qed.

Lemma then_return_guarded {A B} v (zero : A) rest (f : returns A -> returns B) :
  then_return (guarded v zero rest) f = match v with Some e => Return (f (zero, Some e)) | None => then_return rest f end.
Proof. by destruct v. Qed.

Lemma shaped_guarded {A} m path token body allowed v (zero : A) rest (f : returns A -> returns ()) :
  (forall e, (f (zero, Some e)).2 = Some e) -> shaped m path token body allowed (then_return rest f) ->
  shaped m path token body allowed (then_return (guarded v zero rest) f).
Proof. intros Hf Hr. destruct v as [e|]; simpl; [by eexists|done]. Qed.

Lemma shaped_guarded_as {A} m path token body allowed fmt v (zero : A) rest (f : returns A -> returns ()) :
  (forall e, (f (zero, Some e)).2 = Some e) -> shaped m path token body allowed (then_return rest f) ->
  shaped m path token body allowed (then_return (guarded_as fmt v zero rest) f).
Proof. apply shaped_guarded. Qed.

Lemma shaped_if {A} m path token body allowed (b : bool) (zero : A) e rest (f : returns A -> returns ()) :
  (forall e, (f (zero, Some e)).2 = Some e) -> shaped m path token body allowed (then_return rest f) ->
  shaped m path token body allowed (then_return (if b then Return (zero, Some e) else rest) f).
Proof. intros Hf Hr. destruct b; simpl; [by eexists|done]. Qed.

Lemma shaped_bind_result {A B} m path token body allowed (r : result error A) (zero : B) rest (f : returns B -> returns ()) :
  (forall e, (f (zero, Some e)).2 = Some e) -> (forall a, r = Ok a -> shaped m path token body allowed (then_return (rest a) f)) ->
  shaped m path token body allowed (then_return (bind_result r zero rest) f).
Proof. intros Hf Hr. destruct r; simpl; [by apply Hr|by eexists|by eexists]. Qed.

Lemma then_return_twice {A B D} (x : exchange A) (f : returns A -> returns B) (g : returns B -> returns D) :
  then_return (then_return x f) g = then_return x (fun r => g (f r)).
Proof. by destruct x. Qed.

Lemma doText_shaped path token allowed : allowed <> [] ->
  shaped MethodGet path token None allowed (only_error (doText url_Parse c path token allowed)).
Proof.
  intros Ha. unfold doText, only_error. rewrite then_return_guarded.
  destruct (url_Parse (TrimRight_slash (hc_BaseURL c) ++ path)) as [e|] eqn:E; [by eexists|].
  simpl. split_and!; try done. intros resp Hr.
  destruct (statusAllowed (rs_StatusCode resp) allowed) eqn:Es; [|done]. by apply statusAllowed_In in Es.
Qed.
End shape.

(** The same for a path that is written another way. *)
Lemma doJSON_shaped_at {A} url_Parse c m path path' token body body' (d : option (dec A)) zero allowed (f : returns A -> returns ()) :
  path = path' -> body = body' -> allowed <> [] -> (forall e, (f (zero, Some e)).2 = Some e) ->
  shaped url_Parse c m path' token body' allowed (then_return (doJSON url_Parse c m path token body d zero allowed) f).
Proof. intros <- <-. apply doJSON_shaped. Qed.

(** Walks the guards of a method down to its request, and leaves the equation of its path. *)
Ltac shape :=
  unfold only_error; rewrite ?then_return_twice;
  repeat first
    [ apply doJSON_shaped_at; [try done|try done|done|intros ?; done]
    | apply shaped_guarded; [done|]
    | apply shaped_guarded_as; [done|]
    | apply shaped_if; [done|]
    | apply shaped_bind_result; [done|intros ? ?]
    | rewrite then_return_twice ].

(** The segments of a path: literals, numbers, escaped texts. *)
Ltac segments :=
  unfold path_of; rewrite <- ?app_assoc; repeat constructor;
  first [apply segment_int | apply segment_escape | by apply segment_literal].

Lemma with_query_nil path : with_query path [] = path.
Proof. done. Qed.

Definition user_raws (u : UserRef) : list bytes := [str "nodes"; FormatInt (ur_NodeID u); str "users"; FormatInt (ur_UserID u)].

Lemma user_path_of u : user_path u = path_of (user_raws u).
Proof. unfold user_path, path_of. simpl. by rewrite app_nil_r. Qed.

Lemma path_of_app r r' : path_of (r ++ r') = path_of r ++ path_of r'.
Proof. unfold path_of. by rewrite fmap_app, concat_app. Qed.

Lemma at_user_raws u raws rest : Forall2 segment raws rest -> Forall2 segment (user_raws u ++ raws) (at_user u rest).
Proof. intros H. apply Forall2_app; [|done]. repeat constructor; first [apply segment_int | by apply segment_literal]. Qed.

(** The path of each call as escaped segments. *)
Definition raws (call : api_call) : list bytes :=
  match call with
  | CGetUserMetadata _ o k | CUpsertUserMetadata _ o k _ | CDeleteUserMetadata _ o k =>
      user_raws o ++ [str "metadata"; PathEscape (str k)]
  | _ => resource call
  end.

Lemma raws_segments call : plain_type call -> Forall2 segment (raws call) (resource call).
Proof.
  unfold plain_type. intros Hp. destruct call; unfold raws, resource, at_attachment;
    try (apply at_user_raws); repeat constructor;
    first [apply segment_int | apply segment_escape | by apply segment_literal].
Qed.

Section requests.
Context (url_Parse : bytes -> option error) (c : HTTPClient).
Notation perform := (perform url_Parse c).
Notation shaped := (shaped url_Parse c).

(** What a call asks for, in one term. *)
Definition asks (call : api_call) : Prop :=
  shaped (verb call) (with_query (path_of (raws call)) (parameters call)) (token_of call) (body_of call) (statuses call)
    (perform call).

(** The target as the methods write it. *)
Lemma attachment_path_of o s a : attachment_path o s a = path_of (at_attachment o s a).
Proof.
  unfold attachment_path, at_attachment, at_user, user_path, path_of. simpl. by rewrite <- ?app_assoc, ?app_nil_r.
Qed.

Lemma messages_path_of u : messages_path u = path_of (at_user u [str "messages"]).
Proof.
  unfold messages_path, at_user. rewrite user_path_of. change (str "/messages") with (path_of [str "messages"]).
  by rewrite <- path_of_app.
Qed.

Lemma metadata_path_of o k : userMetadataPath o k = path_of (user_raws o ++ [str "metadata"; PathEscape (str k)]).
Proof.
  unfold userMetadataPath. rewrite user_path_of, path_of_app. f_equal. unfold path_of. simpl. by rewrite app_nil_r.
Qed.

Lemma login_asks req p :
  shaped "POST" (path_of [str "auth"; str "login"]) ""
    (Some (httpLoginRequest_json (mkhttpLoginRequest (lr_NodeID req) (lr_UserID req) (normalizeLoginName (lr_LoginName req)) (WireValue p))))
    [200] (only_error (loginWithRequest url_Parse c req p)).
Proof.
  unfold loginWithRequest. shape. match goal with H : _ = Ok _ |- _ => by apply validateLoginSelector_Ok in H as [-> _] end.
Qed.

Lemma upsert_asks {A} token o s a j (f : returns Attachment -> returns A) (g : returns A -> returns ()) :
  (forall e, (g (f (zero_Attachment, Some e))).2 = Some e) ->
  shaped "PUT" (path_of (at_attachment o s a)) token (Some (config_json j)) [201; 200]
    (then_return (then_return (UpsertAttachment url_Parse c token o s a j) f) g).
Proof. intros Hf. rewrite then_return_twice. unfold UpsertAttachment. shape. by apply attachment_path_of. Qed.

Lemma delete_asks {A} token o s a (f : returns Attachment -> returns A) (g : returns A -> returns ()) :
  (forall e, (g (f (zero_Attachment, Some e))).2 = Some e) ->
  shaped "DELETE" (path_of (at_attachment o s a)) token None [200]
    (then_return (then_return (DeleteAttachment url_Parse c token o s a) f) g).
Proof. intros Hf. rewrite then_return_twice. unfold DeleteAttachment. shape. by apply attachment_path_of. Qed.

Lemma attachments_query u a : a <> "" ->
  (user_path u ++ str "/attachments") ++ str "?attachment_type=" ++ QueryEscape (str a) =
  with_query (path_of (at_user u [str "attachments"])) [(str "attachment_type", str a)].
Proof.
  intros Ha. unfold with_query. rewrite bool_decide_false by done. rewrite user_path_of.
  change (str "/attachments") with (path_of [str "attachments"]). by rewrite <- path_of_app.
Qed.

Lemma list_attachments_asks token o a (f : returns (list Attachment) -> returns ()) :
  (forall r e, (f (r, Some e)).2 = Some e) ->
  shaped "GET" (with_query (path_of (at_user o [str "attachments"]))
                  (param (negb (bool_decide (a = ""))) "attachment_type" (str a))) token None [200]
    (then_return (ListAttachments url_Parse c token o a) f).
Proof.
  intros Hf. unfold ListAttachments. shape.
  destruct (decide (a = "")) as [->|Ha].
  - rewrite bool_decide_true by done. cbn [negb]. unfold param. cbv iota. rewrite with_query_nil, user_path_of.
    change (str "/attachments") with (path_of [str "attachments"]). by rewrite <- path_of_app.
  - rewrite !bool_decide_false by done. cbn [negb]. by apply attachments_query.
Qed.

(** A parameter set under a condition is the parameter under it. *)
Lemma set_if_query path cond key value : with_query path (set_if cond key value []) = with_query path (param cond key value).
Proof. by destruct cond. Qed.

Lemma user_path_at u : user_path u = path_of (at_user u []).
Proof. unfold at_user. rewrite app_nil_r. apply user_path_of. Qed.

(** The payload of a metadata write that passes validation. *)
Lemma marshal_payload r p : Upsert_MarshalJSON (Upsert_clone r) = Ok p ->
  p = mkPayload (Some <$> up_Value r) (up_TypedValue r) (up_ExpiresAt r).
Proof.
  rewrite Upsert_clone_id. unfold Upsert_MarshalJSON. rewrite cloneMetadataTypedValue_id.
  destruct (validateJSON r); [done|]. simpl. intros [= <-]. by destruct (up_Value r).
Qed.

(** The target of a request, method by method. *)
Lemma call_asks call : asks call.
Proof.
  unfold asks. destruct call; unfold verb, token_of, body_of, statuses, parameters, raws, resource, HttpProps.perform;
    rewrite ?with_query_nil.
  - apply login_asks.
  - apply login_asks.
  - unfold CreateUser. by shape.
  - unfold CreateChannel, CreateUser. case_bool_decide; by shape.
  - unfold ListUsers. shape. do 2 (destruct (negb _)); reflexivity.
  - by apply upsert_asks.
  - unfold ListMessages. shape. rewrite messages_path_of. f_equal. destruct (_ <? _), (_ || _); reflexivity.
  - unfold PostMessage. shape. apply messages_path_of.
  - unfold PostPacket. shape. apply messages_path_of.
  - unfold ListClusterNodes. by shape.
  - unfold ListNodeLoggedInUsers. by shape.
  - by apply upsert_asks.
  - by apply delete_asks.
  - unfold only_error, ListBlockedUsers. rewrite then_return_twice.
    by apply (list_attachments_asks token owner AttachmentTypeUserBlacklist).
  - unfold GetUser. shape. apply user_path_at.
  - unfold UpdateUser. shape. apply user_path_at.
  - unfold DeleteUser. shape. apply user_path_at.
  - unfold ListEvents. shape. f_equal. do 2 (destruct (_ <? _)); reflexivity.
  - unfold get_OperationsStatus. by shape.
  - apply doText_shaped. done.
  - unfold GetUserMetadata, metadata_guard. shape. apply metadata_path_of.
  - unfold UpsertUserMetadata, metadata_guard. shape; [apply metadata_path_of|].
    match goal with H : _ = Ok _ |- _ => by apply marshal_payload in H as -> end.
  - unfold DeleteUserMetadata, metadata_guard. shape. apply metadata_path_of.
  - unfold ScanUserMetadata. shape. rewrite user_path_of. change (str "/metadata") with (path_of [str "metadata"]).
    rewrite <- path_of_app. f_equal. do 2 (destruct (negb _)); destruct (_ <? _); reflexivity.
  - unfold UpsertAttachment. shape. apply attachment_path_of.
  - unfold DeleteAttachment. shape. apply attachment_path_of.
  - by apply list_attachments_asks.
Qed.
End requests.

(** ** Requests and outcomes *)

(** The target of a request URL after the client's base. *)
Definition targets (c : HTTPClient) (req : HTTPRequest) (target : bytes) : Prop :=
  rq_URL req = TrimRight_slash (hc_BaseURL c) ++ target.

Definition odd_attachment : api_call :=
  CUpsertAttachment "t" (mkUserRef 1 2) (mkUserRef 3 4) "a?b" (str "{}").

(** C23: http_requests_faithful. Whatever method is called with whatever arguments, the request it
    sends has that method's verb, carries the token as a bearer header exactly when there is one
    and a content type exactly when it has a body, and a server reads back from its URL exactly
    the resource and the query parameters the arguments stand for, special characters included;
    numbers are the decimal texts of the IDs, and its body is the JSON of the call. The one exception is an attachment type that holds
    special characters: it is written into the path as it is, and another resource is asked for. *)
Theorem http_requests_faithful url_Parse c call :
  (forall req k, perform url_Parse c call = Exchange req k -> plain_type call ->
     (exists target, targets c req target /\ read_target target = Some ([] :: resource call, parameters call)) /\
     rq_Method req = verb call /\ Some (rq_Body req) = sent_body (body_of call) /\
     rq_Header req = (if rq_Body req then [("Content-Type", str "application/json")] else []) ++
       (if bool_decide (token_of call = "") then [] else [("Authorization", str ("Bearer " +:+ token_of call))])) /\
  (forall z, is_i64 z -> ParseInt 64 (FormatInt z) = Some z) /\
  (exists req k target, perform (fun _ => None) c odd_attachment = Exchange req k /\ targets c req target /\
     read_target target = Some ([] :: at_user (mkUserRef 1 2) [str "attachments"; str "a"], [(str "b/3/4", [])])).
Proof.
  split_and!.
  - intros req k Hp Ht. pose proof (call_asks url_Parse c call) as H. unfold asks in H. rewrite Hp in H.
    destruct H as (Hm & Hu & _ & Hb & Hh & _). split_and!; [|done..].
    eexists. split; [exact Hu|]. by apply read_target_written, raws_segments.
  - apply ParseInt_FormatInt.
  - eexists _, _, _. split_and!; [done..|]. reflexivity.
Qed.

(** C24: http_outcomes. A call that sends nothing returns an error. A call that sends a request
    reports a failed exchange as a ConnectionError with the request's method and target and its
    cause, and a status it does not expect as a ProtocolError; it succeeds only on a response with
    an expected status. *)
Theorem http_outcomes url_Parse c call :
  match perform url_Parse c call with
  | Return r => exists e, r.2 = Some e
  | Exchange req k =>
      (forall e, exists target, targets c req target /\
         (k (inr e)).2 = Some (EConnection (rq_Method req +:+ " " +:+ String.string_of_list_byte target) e)) /\
      (forall resp, rs_StatusCode resp ∉ statuses call -> (k (inl resp)).2 = Some (unexpected_status resp)) /\
      (forall res, (k res).2 = None -> exists resp, res = inl resp /\ rs_StatusCode resp ∈ statuses call)
  end.
Proof.
  pose proof (call_asks url_Parse c call) as H. unfold asks, shaped in H. destruct (perform url_Parse c call) as [r|req k]; [done|].
  destruct H as (Hm & Hu & _ & _ & _ & He & Hr). split_and!.
  - intros e. eexists. split; [exact Hu|]. by rewrite Hm, He.
  - exact Hr.
  - intros [resp|e] Hk; [|by rewrite He in Hk]. exists resp. split; [done|].
    destruct (decide (rs_StatusCode resp ∈ statuses call)) as [|Hn]; [done|]. by rewrite Hr in Hk.
Qed.

Lemma http_requests_faithful_witness :
  let c := NewHTTPClient "http://h/" in
  let call := CListUsers "tok" (mkListUsersRequest "a&b" (mkUserRef 1 2)) in
  exists target, read_target target = Some ([[]; str "users"], [(str "name", str "a&b"); (str "uid", str "1:2")]).
Proof.
  intros c call. destruct (http_requests_faithful (fun _ => None) c call) as [H _].
  destruct (H _ _ eq_refl eq_refl) as ((target & _ & Hr) & _). exists target. exact Hr.
Defined.

Lemma http_outcomes_witness :
  exists req k, perform (fun _ => None) (NewHTTPClient "http://h") (CListEvents "t" 5 10) = Exchange req k /\
    (k (inl (mkHTTPResponse 404 (str "no") None))).2 = Some (EProtocol "unexpected HTTP status %d: %s" [FInt 404; FStr "no"]).
Proof.
  pose proof (http_outcomes (fun _ => None) (NewHTTPClient "http://h") (CListEvents "t" 5 10)) as H.
  eexists _, _. split; [reflexivity|]. destruct H as (_ & H & _). apply (H (mkHTTPResponse 404 (str "no") None)).
  change (404 ∉ [200]). rewrite list_elem_of_singleton. discriminate.
Defined.
