(* ===== verification/HttpBodies.v ===== *)
(** * Request bodies, read back by a server

    A server that decodes a request body into the same struct gets what the client put into
    it. The decoders of the request structs are those of their JSON tags. *)

From Stdlib Require Import Strings.Byte.
From stdpp Require Import base list strings.
From S2P Require Import Prelude Errors Types Text Encoding Json JsonProps JsonLocal JsonMarshal JsonCodec JsonDecode Metadata Password Records HttpTypes Requests Http.

(** ** The server's side *)

Definition zero_httpMessageRequest : httpMessageRequest := mkhttpMessageRequest [] "" "".
Definition dec_httpMessageRequest : dec httpMessageRequest := dec_struct (fun ms c => (mkhttpMessageRequest, false)
  <&>> field ms "body" dec_bytes (mr_Body c) <&>> field ms "delivery_kind" dec_string (mr_DeliveryKind c)
  <&>> field ms "delivery_mode" dec_string (mr_DeliveryMode c)).

Definition zero_httpLoginRequest : httpLoginRequest := mkhttpLoginRequest 0 0 "" "".
Definition dec_httpLoginRequest : dec httpLoginRequest := dec_struct (fun ms c => (mkhttpLoginRequest, false)
  <&>> field ms "node_id" dec_int64 (lr_NodeID c) <&>> field ms "user_id" dec_int64 (lr_UserID c)
  <&>> field ms "login_name" dec_string (lr_LoginName c) <&>> field ms "password" dec_string (lr_Password c)).

Definition zero_httpCreateUserRequest : httpCreateUserRequest := mkhttpCreateUserRequest "" "" "" [] "".
Definition dec_httpCreateUserRequest : dec httpCreateUserRequest := dec_struct (fun ms c => (mkhttpCreateUserRequest, false)
  <&>> field ms "username" dec_string (cr_Username c) <&>> field ms "login_name" dec_string (cr_LoginName c)
  <&>> field ms "password" dec_string (cr_Password c) <&>> field ms "profile" dec_raw (cr_Profile c)
  <&>> field ms "role" dec_string (cr_Role c)).

Definition zero_upsert_payload : upsert_payload := mkPayload None None None.
Definition dec_upsert_payload : dec upsert_payload := dec_struct (fun ms c => (mkPayload, false)
  <&>> field ms "value" (dec_pointer dec_bytes_nil None) (pl_Value c)
  <&>> field ms "typed_value" (dec_pointer dec_MetadataTypedValue zero_MetadataTypedValue) (pl_TypedValue c)
  <&>> field ms "expires_at" (dec_pointer dec_string "") (pl_ExpiresAt c)).

(** ** Writing and reading *)

Lemma json_document_marshal v t : marshal v = Some t -> survives 0 v -> json_document t = Some (t, tree v).
Proof.
  intros Hm Hs. destruct (marshal_reads v 0 t Hm Hs) as [Hst Hr].
  specialize (Hr [] (S (2 * length t)) eq_refl). rewrite app_nil_r in Hr. specialize (Hr ltac:(lia)).
  unfold json_document, json_scan. rewrite Hr. simpl. pose proof (starts_text_before t [] Hst) as Ht.
  rewrite app_nil_r in Ht. by rewrite Ht.
Qed.

Lemma Unmarshal_marshal {A} (d : dec A) v t cur :
  marshal v = Some t -> survives 0 v -> Unmarshal d t cur = d t (tree v) cur.
Proof. intros Hm Hs. unfold Unmarshal. by rewrite (json_document_marshal v t Hm Hs). Qed.

(** A tree that can be written is read by a decoder of its struct. *)
Lemma body_reads {A} (d : dec A) v cur r :
  is_Some (marshal v) -> survives 0 v -> (forall t, d t (tree v) cur = r) ->
  exists t, marshal v = Some t /\ Unmarshal d t cur = r.
Proof. intros [t Ht] Hs Hd. exists t. split; [done|]. by rewrite (Unmarshal_marshal d v t cur Ht Hs). Qed.

(** Every string of the tree is valid UTF-8. *)
Definition utf8 (s : string) : Prop := utf8_valid 0 (str s) = true.

(** A RawMessage that is one JSON value, written or compacted, with [d] objects around it. *)
Definition raw_ok (d : nat) (raw : bytes) : Prop := Valid raw = true /\ survives d (ORaw (Some raw)).

(** Reads the fields of a written struct: the names are literals, so each is found or not. *)
Ltac lookup_fields :=
  repeat first
    [ rewrite field_nil
    | rewrite field_cons;
      first [rewrite decide_True by (vm_compute; reflexivity) | rewrite decide_False by (vm_compute; discriminate)]; cbv zeta ].
Ltac fields :=
  lookup_fields; unfold put, OStr; cbn [fst snd orb dec_string dec_bytes dec_bool dec_raw dec_raw_nil dec_pointer
    dec_bytes_nil tree]; unfold dec_string, dec_bytes; cbn [tree]; rewrite ?str_back, ?b64_decode_encode; cbn [fst snd orb].

Lemma tree_object fields : tree (OObject fields) = JObject (member <$> fields).
Proof. simpl. f_equal. apply list_fmap_ext. by intros ? [n v]. Qed.

Lemma message_body r : utf8 (mr_DeliveryKind r) -> utf8 (mr_DeliveryMode r) ->
  exists t, marshal (httpMessageRequest_json r) = Some t /\
    Unmarshal dec_httpMessageRequest t zero_httpMessageRequest = (r, false).
Proof.
  intros Hk Hm. destruct r as [b k m]. simpl in Hk, Hm. unfold httpMessageRequest_json. cbn [mr_Body mr_DeliveryKind mr_DeliveryMode].
  unfold omit, always. case_bool_decide as E1; case_bool_decide as E2; subst; simpl app.
  all: apply body_reads; [by eexists|by cbn; split_and!|intros t].
  all: rewrite tree_object; unfold dec_httpMessageRequest, dec_struct, member; cbn [fmap list_fmap fst snd]; fields; reflexivity.
Qed.

(** Decoding a written object, field by field. *)
Ltac body_fields d := rewrite tree_object; unfold d, dec_struct, member; cbn [fmap list_fmap fst snd]; fields.

Lemma dec_int64_FormatInt t z cur : is_i64 z -> dec_int64 t (JNumber (FormatInt z)) cur = (z, false).
Proof. intros Hz. unfold dec_int64, dec_number. by rewrite ParseInt_FormatInt. Qed.

Lemma login_body r : is_i64 (lr_NodeID r) -> is_i64 (lr_UserID r) -> utf8 (lr_LoginName r) -> utf8 (lr_Password r) ->
  exists t, marshal (httpLoginRequest_json r) = Some t /\ Unmarshal dec_httpLoginRequest t zero_httpLoginRequest = (r, false).
Proof.
  destruct r as [n u l p]. unfold httpLoginRequest_json, omit, always. cbn [lr_NodeID lr_UserID lr_LoginName lr_Password].
  intros Hn Hu Hl Hp.
  destruct (n =? 0) eqn:En, (u =? 0) eqn:Eu; case_bool_decide as El; bool_facts; subst; simpl app.
  all: apply body_reads; [by eexists|by cbn; split_and!|intros t].
  all: body_fields dec_httpLoginRequest; rewrite ?dec_int64_FormatInt by done; reflexivity.
Qed.

(** What a server gets for a profile: its compacted text. *)
Definition compacted (raw : bytes) : bytes := compact CSOut 0 raw.

Lemma create_body r : utf8 (cr_Username r) -> utf8 (cr_LoginName r) -> utf8 (cr_Password r) -> utf8 (cr_Role r) ->
  (cr_Profile r <> [] -> raw_ok 1 (cr_Profile r)) ->
  exists t, marshal (httpCreateUserRequest_json r) = Some t /\
    Unmarshal dec_httpCreateUserRequest t zero_httpCreateUserRequest =
      (mkhttpCreateUserRequest (cr_Username r) (cr_LoginName r) (cr_Password r) (compacted (cr_Profile r)) (cr_Role r), false).
Proof.
  destruct r as [u l p pr ro]. unfold httpCreateUserRequest_json, omit, always.
  cbn [cr_Username cr_LoginName cr_Password cr_Profile cr_Role]. intros Hu Hl Hp Hr Hpr.
  case_bool_decide as El; case_bool_decide as Ep; case_bool_decide as Epr; subst; simpl app.
  all: try destruct (Hpr Epr) as [Hv Hs].
  all: apply body_reads; [cbn [marshal mapM]; try rewrite Hv; by eexists|by cbn; split_and!|intros t].
  all: body_fields dec_httpCreateUserRequest; try (cbn [marshal]; rewrite Hv); reflexivity.
Qed.

(** ** Metadata payloads *)

(** What arrives for a pointer to a RawMessage, and to a byte slice: a JSON null, and a nil
    slice, arrive as a nil pointer. *)
Definition sent_raw (raw : option bytes) : option (option bytes) :=
  match raw with
  | None => None
  | Some raw => match raw_tree raw with JNull => None | _ => Some (Some (compacted raw)) end
  end.
Definition sent_bytes (b : option bytes) : option (option bytes) := match b with None => None | Some b => Some (Some b) end.

Definition sent_typed (v : MetadataTypedValue) : MetadataTypedValue :=
  mkTyped (tv_Kind v) (tv_BytesValue v ≫= sent_bytes) (tv_BoolValue v) (tv_StringValue v)
    (tv_NumberValue v ≫= sent_raw) (tv_JSONValue v ≫= sent_raw).
Definition sent_payload (p : upsert_payload) : upsert_payload :=
  mkPayload (pl_Value p ≫= sent_bytes) (sent_typed <$> pl_TypedValue p) (pl_ExpiresAt p).

(** Texts are valid UTF-8, RawMessages are JSON. *)
Definition opt_all {A} (P : A -> Prop) (o : option A) : Prop := match o with Some a => P a | None => True end.
Definition writable_typed (v : MetadataTypedValue) : Prop :=
  utf8 (tv_Kind v) /\ opt_all utf8 (tv_StringValue v) /\
  opt_all (opt_all (raw_ok 2)) (tv_NumberValue v) /\ opt_all (opt_all (raw_ok 2)) (tv_JSONValue v).

Lemma dec_raw_sent raw cur : opt_all (raw_ok 2) raw ->
  dec_pointer dec_raw_nil None (default [] (marshal (ORaw raw))) (tree (ORaw raw)) cur = (sent_raw raw, false).
Proof.
  destruct raw as [raw|]; [|done]. intros [Hv _]. cbn [tree marshal]. rewrite Hv. simpl default. unfold dec_pointer, sent_raw, compacted. by destruct (raw_tree raw).
Qed.

Lemma marshal_raw raw : opt_all (raw_ok 2) raw -> is_Some (marshal (ORaw raw)).
Proof. destruct raw as [raw|]; [|by eexists]. intros [Hv _]. simpl. rewrite Hv. by eexists. Qed.

Lemma raw_survives raw : opt_all (raw_ok 2) raw -> survives 2 (ORaw raw).
Proof. by destruct raw; [intros [_ ?]|]. Qed.

Lemma dec_bytes_sent t b cur : dec_pointer dec_bytes_nil None t (tree (OBytes b)) cur = (sent_bytes b, false).
Proof. destruct b as [b|]; [|done]. cbn [tree dec_pointer]. unfold dec_bytes_nil. by rewrite b64_decode_encode. Qed.

Lemma is_Some_mapM {A B} (f : A -> option B) l : Forall (fun x => is_Some (f x)) l -> is_Some (mapM f l).
Proof. apply mapM_is_Some_2. Qed.

(** A written object is written when its fields are. *)
Lemma marshal_object_is_Some fields : Forall (fun f => is_Some (marshal f.2)) fields -> is_Some (marshal (OObject fields)).
Proof.
  intros H. cbn [marshal]. destruct (is_Some_mapM (fun '(name, v) => t ← marshal v; Some (quote name ++ x3a :: t)) fields) as [l ->];
    [|by eexists]. eapply List.Forall_impl; [|exact H]. intros [n v] [t Ht]. simpl in *. rewrite Ht. by eexists.
Qed.

Lemma typed_marshals v : writable_typed v -> is_Some (marshal (MetadataTypedValue_json v)).
Proof.
  intros (_ & _ & Hn & Hj). apply marshal_object_is_Some. destruct v as [k b bo s n j]. simpl in Hn, Hj.
  unfold omit_nil, always. cbn [tv_Kind tv_BytesValue tv_BoolValue tv_StringValue tv_NumberValue tv_JSONValue].
  repeat (apply Forall_app; split); try (destruct b as [[b|]|]); try destruct bo; try destruct s;
    try destruct n as [n|]; try destruct j as [j|]; repeat constructor; try (by eexists); by apply marshal_raw.
Qed.

Lemma typed_survives v : writable_typed v -> survives 1 (MetadataTypedValue_json v).
Proof.
  intros (Hk & Hs & Hn & Hj). destruct v as [k b bo s n j]. simpl in Hk, Hs, Hn, Hj. cbn [survives MetadataTypedValue_json].
  split; [done|]. unfold omit_nil, always. cbn [tv_Kind tv_BytesValue tv_BoolValue tv_StringValue tv_NumberValue tv_JSONValue].
  destruct b as [[b|]|], bo, s, n, j; cbn [app fold_right]; split_and!;
    try reflexivity; try exact Hk; try exact Hs; first [exact (raw_survives _ Hn) | exact (raw_survives _ Hj)].
Qed.

Lemma dec_pointer_string t s cur : dec_pointer dec_string "" t (tree (OStr s)) cur = (Some s, false).
Proof. cbn. by rewrite str_back. Qed.

Lemma dec_pointer_bool t b cur : dec_pointer dec_bool false t (tree (OBool b)) cur = (Some b, false).
Proof. done. Qed.

Lemma typed_read t v : writable_typed v ->
  dec_MetadataTypedValue t (tree (MetadataTypedValue_json v)) zero_MetadataTypedValue = (sent_typed v, false).
Proof.
  intros (Hk & Hs & Hn & Hj). destruct v as [k b bo s n j]. simpl in Hk, Hs, Hn, Hj.
  unfold MetadataTypedValue_json, omit_nil, always.
  cbn [tv_Kind tv_BytesValue tv_BoolValue tv_StringValue tv_NumberValue tv_JSONValue].
  unfold sent_typed. cbn [tv_Kind tv_BytesValue tv_BoolValue tv_StringValue tv_NumberValue tv_JSONValue].
  destruct b as [b|], bo as [bo|], s as [s|], n as [n|], j as [j|]; cbn [app]; simpl in Hn, Hj;
    rewrite tree_object; unfold dec_MetadataTypedValue, dec_struct, member; cbn [fmap list_fmap fst snd]; lookup_fields;
    rewrite ?dec_pointer_string, ?dec_pointer_bool, ?dec_bytes_sent; rewrite ?(dec_raw_sent _ _ Hn), ?(dec_raw_sent _ _ Hj);
    unfold put; cbn [fst snd orb tree OStr dec_string]; rewrite ?str_back; reflexivity.
Qed.

Lemma dec_pointer_typed t v cur : cur = None -> writable_typed v ->
  dec_pointer dec_MetadataTypedValue zero_MetadataTypedValue t (tree (MetadataTypedValue_json v)) cur =
    (Some (sent_typed v), false).
Proof.
  intros -> Hv. pose proof (typed_read t v Hv) as H. unfold MetadataTypedValue_json in *. rewrite tree_object in *.
  unfold dec_pointer. simpl default. by rewrite H.
Qed.

Definition writable_payload (p : upsert_payload) : Prop :=
  opt_all writable_typed (pl_TypedValue p) /\ opt_all utf8 (pl_ExpiresAt p).

Lemma payload_body p : writable_payload p ->
  exists t, marshal (upsert_payload_json p) = Some t /\
    Unmarshal dec_upsert_payload t zero_upsert_payload = (sent_payload p, false).
Proof.
  intros [Ht He]. destruct p as [v ty e]. simpl in Ht, He. apply body_reads.
  - apply marshal_object_is_Some. unfold omit_nil. cbn [pl_Value pl_TypedValue pl_ExpiresAt].
    destruct v as [[v|]|], ty as [ty|], e; repeat constructor; try (by eexists); by apply typed_marshals.
  - cbn [survives upsert_payload_json]. split; [done|]. unfold omit_nil. cbn [pl_Value pl_TypedValue pl_ExpiresAt].
    destruct v as [[v|]|], ty as [ty|], e; cbn [app fold_right]; repeat split; try done; by apply typed_survives.
  - intros t. unfold upsert_payload_json, omit_nil, sent_payload. cbn [pl_Value pl_TypedValue pl_ExpiresAt].
    destruct v as [v|], ty as [ty|], e as [e|]; cbn [app]; simpl in Ht, He;
      rewrite tree_object; unfold dec_upsert_payload, dec_struct, member; cbn [fmap list_fmap fst snd]; lookup_fields;
      rewrite ?dec_bytes_sent, ?dec_pointer_string; rewrite ?dec_pointer_typed by done;
      unfold put; cbn [fst snd orb]; reflexivity.
Qed.

(** A request whose JSON survives as it is: it holds no JSON text and no nil byte slice. *)
Definition plain_request (r : UpsertUserMetadataRequest) : Prop :=
  opt_all (fun v => tv_NumberValue v = None /\ tv_JSONValue v = None /\ tv_BytesValue v <> Some None) (up_TypedValue r).

(** The payload of a typed value's own kind is written as null: a nil byte slice, or a number or
    JSON text that is null. *)
Definition null_value (v : MetadataTypedValue) : Prop :=
  (tv_Kind v = MetadataTypedValueKindBytes /\ tv_BytesValue v = Some None) \/
  (tv_Kind v = MetadataTypedValueKindNumber /\ tv_NumberValue v ≫= sent_raw = None) \/
  (tv_Kind v = MetadataTypedValueKindJSON /\ tv_JSONValue v ≫= sent_raw = None).

Lemma null_value_refused v ty e : null_value ty ->
  exists m, Upsert_UnmarshalJSON (mkPayload v (Some (sent_typed ty)) e) = Err (errors_New m).
Proof.
  intros Hn. unfold Upsert_UnmarshalJSON, validateJSON. cbn [pl_Value pl_TypedValue pl_ExpiresAt].
  rewrite cloneMetadataTypedValue_id. cbn [up_Value up_TypedValue].
  destruct (Bool.eqb _ _); [by eexists|]. destruct ty as [k b bo s n j]. unfold null_value in Hn. simpl in Hn.
  destruct Hn as [[-> ->]|[[-> Hn]|[-> Hn]]]; unfold TypedValue_validate, sent_typed; simpl; rewrite ?Hn; by eexists.
Qed.

(** The documents of the JSON value null and of the wrongly accepted numbers. *)
Definition json_null_request : UpsertUserMetadataRequest :=
  mkUpsert None (Some (NewMetadataTypedJSON (Some (str "null")))) None.
Definition number_requests : list UpsertUserMetadataRequest :=
  (fun t => mkUpsert None (Some (NewMetadataTypedNumber (Some t))) None) <$> [str "null"; x22 :: str "7" ++ [x22]].

(** C26: http_metadata_roundtrip. A metadata write that passes validation, whose texts are UTF-8 and
    whose number and JSON payloads are JSON ([writable_typed]), is sent as JSON from which a server
    decodes the same value and expiry and the typed value as [sent_typed] says: number and JSON
    texts compacted, and nothing in place of a nil byte slice, a number null or a JSON null. A
    request without number and JSON texts and nil byte slices is given back exactly by
    [UnmarshalJSON]; one whose own payload is a nil byte slice or a null is refused by it. The
    validation accepts all of these: the JSON value null, which the documentation names, the
    number null, and a quoted number. *)
Theorem http_metadata_roundtrip key r :
  (validateHTTPMetadataUpsertRequest key r = None ->
   opt_all writable_typed (up_TypedValue r) -> opt_all utf8 (up_ExpiresAt r) ->
   exists p t, Upsert_MarshalJSON (Upsert_clone r) = Ok p /\ marshal (upsert_payload_json p) = Some t /\
     Unmarshal dec_upsert_payload t zero_upsert_payload =
       (mkPayload (Some <$> up_Value r) (sent_typed <$> up_TypedValue r) (up_ExpiresAt r), false) /\
     (plain_request r -> Upsert_UnmarshalJSON
        (mkPayload (Some <$> up_Value r) (sent_typed <$> up_TypedValue r) (up_ExpiresAt r)) = Ok r) /\
     (forall ty, up_TypedValue r = Some ty -> null_value ty -> exists m, Upsert_UnmarshalJSON
        (mkPayload (Some <$> up_Value r) (sent_typed <$> up_TypedValue r) (up_ExpiresAt r)) = Err (errors_New m))) /\
  (validateHTTPMetadataUpsertRequest "k" json_null_request = None /\
   exists p t, Upsert_MarshalJSON json_null_request = Ok p /\ marshal (upsert_payload_json p) = Some t /\
     exists p', Unmarshal dec_upsert_payload t zero_upsert_payload = (p', false) /\
       Upsert_UnmarshalJSON p' = Err (errors_New "typed_value.json_value is required")) /\
  Forall (fun r => validateHTTPMetadataUpsertRequest "k" r = None) number_requests.
Proof.
  split_and!.
  - intros Hv Ht He. unfold validateHTTPMetadataUpsertRequest in Hv.
    destruct (validateJSON r) eqn:Hj; [done|]. clear Hv. rename Hj into Hv.
    assert (Upsert_MarshalJSON (Upsert_clone r) = Ok (mkPayload (Some <$> up_Value r) (up_TypedValue r) (up_ExpiresAt r))) as Hm.
    { rewrite Upsert_clone_id. unfold Upsert_MarshalJSON. rewrite Hv, cloneMetadataTypedValue_id. simpl.
      by destruct (up_Value r). }
    eexists. destruct (payload_body (mkPayload (Some <$> up_Value r) (up_TypedValue r) (up_ExpiresAt r))) as (t & Hmt & Hu);
      [done|]. exists t. split_and!; [exact Hm|exact Hmt| | |intros ty -> Hty; by apply null_value_refused].
    + rewrite Hu. unfold sent_payload. simpl. by destruct (up_Value r).
    + intros Hp. unfold Upsert_UnmarshalJSON. simpl. rewrite cloneMetadataTypedValue_id. unfold plain_request in Hp.
      destruct r as [v ty e]. simpl in *.
      assert (sent_typed <$> ty = ty) as ->.
      { destruct ty as [[k b bo s n j]|]; [|done]. simpl in *. destruct Hp as (-> & -> & Hb).
        unfold sent_typed. simpl. by destruct b as [[b|]|]. }
      replace (match Some <$> v with Some v0 => cloneBytesPreserveNil v0 | None => None end) with v by (by destruct v).
      by rewrite Hv.
  - reflexivity.
  - eexists _, _. split; [reflexivity|]. split; [vm_compute; reflexivity|]. eexists. split; [vm_compute; reflexivity|]. reflexivity.
  - repeat constructor.
Qed.

(** C27: http_bodies_roundtrip. The body of a message, packet, login or user creation request is JSON
    from which a server decodes exactly the fields of that request, whatever bytes a message holds
    and whatever characters a text holds, provided its texts are UTF-8, its IDs are int64 and a
    profile that is given is one JSON value; the profile arrives compacted, with <, > and & escaped
    ([compacted]). The fields of a login request are those [loginWithRequest] fills in: the login
    name without the space around it, and the password's wire value. *)
Theorem http_bodies_roundtrip :
  (forall body kind mode, utf8 kind -> utf8 mode ->
     exists t, marshal (httpMessageRequest_json (mkhttpMessageRequest body kind mode)) = Some t /\
       Unmarshal dec_httpMessageRequest t zero_httpMessageRequest = (mkhttpMessageRequest body kind mode, false)) /\
  (forall r, is_i64 (lr_NodeID r) -> is_i64 (lr_UserID r) -> utf8 (lr_LoginName r) -> utf8 (lr_Password r) ->
     exists t, marshal (httpLoginRequest_json r) = Some t /\
       Unmarshal dec_httpLoginRequest t zero_httpLoginRequest = (r, false)) /\
  (forall r, utf8 (cr_Username r) -> utf8 (cr_LoginName r) -> utf8 (cr_Password r) -> utf8 (cr_Role r) ->
     (cr_Profile r <> [] -> raw_ok 1 (cr_Profile r)) ->
     exists t, marshal (httpCreateUserRequest_json r) = Some t /\
       Unmarshal dec_httpCreateUserRequest t zero_httpCreateUserRequest =
         (mkhttpCreateUserRequest (cr_Username r) (cr_LoginName r) (cr_Password r) (compacted (cr_Profile r)) (cr_Role r),
          false)).
Proof.
  split_and!.
  - intros body kind mode Hk Hm. by apply message_body.
  - apply login_body.
  - intros r. apply create_body.
Qed.

Lemma http_metadata_roundtrip_witness :
  let r := mkUpsert (Some [x00; xff]) None (Some "2030") in
  exists p t, marshal (upsert_payload_json p) = Some t /\
    Unmarshal dec_upsert_payload t zero_upsert_payload = (mkPayload (Some (Some [x00; xff])) None (Some "2030"), false).
Proof.
  intros r. destruct (http_metadata_roundtrip "k" r) as [H _].
  destruct (H eq_refl I eq_refl) as (p & t & _ & Hm & Hu & _ & _). by exists p, t.
Defined.

Lemma http_bodies_roundtrip_witness :
  exists t, marshal (httpMessageRequest_json (mkhttpMessageRequest [xff; x00] "transient" "best_effort")) = Some t /\
    Unmarshal dec_httpMessageRequest t zero_httpMessageRequest =
      (mkhttpMessageRequest [xff; x00] "transient" "best_effort", false).
Proof. destruct http_bodies_roundtrip as [H _]. by apply H. Defined.
