(* ===== verification/HttpLists.v ===== *)
(** * List replies in both shapes

    A server may answer a list request with a JSON array or with an object that holds it; the
    client gets the same items from either, and an error from the one exactly when it gets one
    from the other. *)

From Stdlib Require Import Strings.Byte.
From stdpp Require Import base list strings sets.
From S2P Require Import Prelude Errors Types Text Encoding Json JsonProps JsonLocal JsonMarshal JsonCodec JsonDecode Records HttpTypes Requests Http.

(** ** The first byte survives [TrimSpace] *)

Definition no_space_byte (c : Byte.byte) : Prop := Forall (fun r => c ∉ r) space_runes.

Lemma strip_one_keeps runes l c l' : Forall (fun r => c ∉ r) runes ->
  strip_one runes (l ++ [c]) = Some l' -> exists l'', l' = l'' ++ [c].
Proof.
  intros Hr. unfold strip_one. destruct (List.find _ runes) as [r|] eqn:E; [|done]. intros [= <-].
  apply List.find_some in E as [Hin E]. apply bool_decide_eq_true_1 in E. rewrite List.Forall_forall in Hr.
  specialize (Hr r Hin). destruct (decide (length r <= length l)%nat) as [Hl|Hl].
  - exists (drop (length r) l). by rewrite drop_app_le.
  - exfalso. apply Hr. rewrite <- E. rewrite take_ge by (rewrite length_app; simpl; lia). set_solver.
Qed.

Lemma trim_left_keeps fuel runes l c : Forall (fun r => c ∉ r) runes ->
  exists l', trim_left fuel runes (l ++ [c]) = l' ++ [c].
Proof.
  intros Hr. revert l. induction fuel as [|fuel IH]; intros l; simpl; [by exists l|].
  destruct (strip_one runes (l ++ [c])) as [l'|] eqn:E; [|by exists l].
  destruct (strip_one_keeps _ _ _ _ Hr E) as [l'' ->]. apply IH.
Qed.

Lemma strip_one_None c l runes : Forall (fun r => r <> [] /\ c ∉ r) runes -> strip_one runes (c :: l) = None.
Proof.
  intros Hr. unfold strip_one. destruct (List.find _ runes) as [r|] eqn:E; [|done]. exfalso.
  apply List.find_some in E as [Hin E]. apply bool_decide_eq_true_1 in E. rewrite List.Forall_forall in Hr.
  destruct (Hr r Hin) as [Hne Hc]. apply Hc. rewrite <- E. destruct r; [done|]. simpl. set_solver.
Qed.

Lemma TrimSpace_head c l : no_space_byte c -> exists l', TrimSpace (c :: l) = c :: l'.
Proof.
  intros Hc. unfold TrimSpace.
  assert (trim_left (length (c :: l)) space_runes (c :: l) = c :: l) as ->.
  { simpl. rewrite strip_one_None; [done|]. unfold no_space_byte in Hc. rewrite Forall_forall in Hc |- *.
    intros r Hr. split; [|by apply Hc]. by intros ->; unfold space_runes in Hr; set_solver. }
  rewrite reverse_cons.
  destruct (trim_left_keeps (length (c :: l)) (reverse <$> space_runes) (reverse l) c) as [l' ->].
  { unfold no_space_byte in Hc. rewrite Forall_forall in Hc |- *. intros r (r' & -> & Hr)%list_elem_of_fmap.
    rewrite elem_of_reverse. by apply Hc. }
  exists (reverse l'). by rewrite reverse_app.
Qed.

Lemma isJSONArray_head c l : no_space_byte c -> isJSONArray (c :: l) = is_byte x5b c.
Proof. intros Hc. unfold isJSONArray. by destruct (TrimSpace_head c l Hc) as [l' ->]. Qed.

Lemma bracket_no_space c : c = x5b \/ c = x7b -> no_space_byte c.
Proof. intros [-> | ->]; unfold no_space_byte; apply Forall_forall; intros r Hr; revert r Hr; apply Forall_forall;
  repeat (constructor; [intros H; repeat (apply elem_of_cons in H as [H|H]; [done|]); by apply elem_of_nil in H|]); constructor. Qed.

(** ** Documents *)

(** A JSON array, alone or inside one object. *)
Definition array_text (t : bytes) (items : list (bytes * json)) : Prop :=
  exists t', t = x5b :: t' /\ forall d, (d <= 1)%nat -> json_value (S (2 * length t)) d t = Some (JArray items, []).

(** The object that holds the array under a name. *)
Definition in_object (name : string) (t : bytes) : bytes := x7b :: quote (str name) ++ x3a :: t ++ [x7d].

Lemma text_before_nil l : text_before l [] = l.
Proof. unfold text_before. by rewrite Nat.sub_0_r, firstn_all. Qed.

Lemma scan_array t items : array_text t items -> json_scan t = Some (JArray items, []) /\ skip_space t = t.
Proof. intros (t' & -> & H). split; [apply (H 0%nat); lia|done]. Qed.

Lemma scan_object name t items : utf8_valid 0 (str name) = true -> array_text t items ->
  exists t', json_scan (in_object name t) = Some (JObject [(str name, (t', JArray items))], []) /\
    skip_space (in_object name t) = in_object name t.
Proof.
  intros Hn (t' & -> & H). eexists. split; [|done]. unfold json_scan, in_object. set (t := x5b :: t') in *.
  set (n := (2 * length (x7b :: quote (str name) ++ x3a :: t ++ [x7d]))%nat).
  cbn [json_value skip_space]. change (json_space x7b) with false. cbv iota.
  change (is_byte x22 x7b) with false. change (is_byte x6e x7b) with false. change (is_byte x74 x7b) with false.
  change (is_byte x66 x7b) with false. change (is_byte x5b x7b) with false. change (is_byte x7b x7b) with true. cbv iota.
  change (maxNestingDepth <=? Z.of_nat 0) with false. cbv iota.
  unfold quote. cbn [app skip_space]. change (json_space x22) with false. cbv iota.
  change (after x7d (x22 :: (quote_body 0 0 (str name) ++ [x22]) ++ x3a :: t ++ [x7d])) with (@None bytes). cbv iota.
  assert (exists m, n = S m /\ (2 * length (t ++ [x7d]) < m)%nat) as (m & -> & Hm).
  { exists (pred n). unfold n, quote. simpl. rewrite !length_app. simpl. rewrite !length_app. simpl. lia. }
  cbn [json_members skip_space]. change (json_space x22) with false. cbv iota. rewrite after_here. cbn [mbind option_bind].
  rewrite <- app_assoc. cbn [app].
  destruct (string_body_quote (str name) (x3a :: t ++ [x7d]) Hn) as [-> Hu]. cbn [mbind option_bind skip_space].
  change (json_space x3a) with false. cbv iota. rewrite after_here. cbn [mbind option_bind].
  pose proof (json_value_app _ _ _ _ _ [x7d] (H 1%nat ltac:(lia)) (or_intror eq_refl)) as Hv.
  rewrite (json_value_more _ _ _ _ _ m Hv) by lia. cbn [mbind option_bind app skip_space].
  change (json_space x7d) with false. cbv iota. change (is_byte x2c x7d) with false. rewrite is_byte_refl. cbv iota.
  cbn [mbind option_bind]. rewrite Hu. reflexivity.
Qed.

(** ** Replies *)

Definition ok_response (body : bytes) : HTTPResponse := mkHTTPResponse StatusOK body None.

(** The object form of a list struct stores the array of the member [name] in [Items]. *)
Definition reads_items {A} (d : dec A) (zero : A) (alias : dec (httpList A)) (name : string) : Prop :=
  forall text t items, alias text (JObject [(str name, (t, JArray items))]) zero_httpList =
    let '(xs, e) := dec_elements d zero items [] in (mkhttpList xs 0 0, e).

Lemma list_decodes {A} (d : dec A) zero alias name t items :
  reads_items d zero alias name -> utf8_valid 0 (str name) = true -> array_text t items ->
  Decode (UnmarshalJSON_list d zero alias) (ok_response t) zero_httpList =
  Decode (UnmarshalJSON_list d zero alias) (ok_response (in_object name t)) zero_httpList.
Proof.
  intros Ha Hn Ht. destruct (scan_array t items Ht) as [H1 H2].
  destruct (scan_object name t items Hn Ht) as (t' & H3 & H4).
  unfold Decode, ok_response, UnmarshalJSON_list. cbn [rs_Body rs_ReadError]. rewrite H1, H2, H3, H4, !text_before_nil.
  assert (isJSONArray t = true) as ->.
  { destruct Ht as (m & -> & _). rewrite isJSONArray_head by (apply bracket_no_space; auto). apply is_byte_refl. }
  assert (isJSONArray (in_object name t) = false) as ->.
  { unfold in_object. by rewrite isJSONArray_head by (apply bracket_no_space; auto). }
  unfold Unmarshal, json_document. rewrite H1, H2, H3, H4, !text_before_nil. cbn [skip_space].
  rewrite !bool_decide_true by done. rewrite Ha. cbn [dec_slice hl_Items zero_httpList].
  by destruct (dec_elements d zero items []).
Qed.

(** The model gives the same result for both shapes of a reply; it has one error for whatever
    encoding/json reports. *)
Definition same_reply {A} (name : string) (x : exchange A) : Prop :=
  match x with
  | Return _ => True
  | Exchange _ k => forall t items, array_text t items -> k (inl (ok_response t)) = k (inl (ok_response (in_object name t)))
  end.

Lemma doJSON_shapes {A} url_Parse c m path token body (d : dec (httpList A)) name :
  (forall t items, array_text t items ->
     Decode d (ok_response t) zero_httpList = Decode d (ok_response (in_object name t)) zero_httpList) ->
  same_reply name (doJSON url_Parse c m path token body (Some d) zero_httpList [StatusOK]).
Proof.
  intros Hd. unfold doJSON. destruct (match body with None => _ | Some v => _ end) as [b|]; [|done].
  unfold guarded. destruct (url_Parse _); [done|]. intros t items Ht. simpl. by rewrite (Hd t items Ht).
Qed.

Lemma same_reply_guarded {A} v (zero : A) rest name : same_reply name rest -> same_reply name (guarded v zero rest).
Proof. by destruct v. Qed.

Lemma same_reply_if {A} (b : bool) r (rest : exchange A) name :
  same_reply name rest -> same_reply name (if b then Return r else rest).
Proof. by destruct b. Qed.

Lemma same_reply_then {A B} name (x : exchange A) (f : returns A -> returns B) :
  same_reply name x -> same_reply name (then_return x f).
Proof. destruct x as [|req k]; [done|]. intros H t items Ht. simpl. by rewrite (H t items Ht). Qed.

(** A list method returns the same items for both shapes of a reply, and fails for the one exactly
    when it fails for the other (the texts of the errors may differ: they name the path of the
    field, which begins at the array or at the object). *)
Definition both_shapes {A} (name : string) (x : exchange A) : Prop :=
  match x with
  | Return _ => True
  | Exchange _ k => forall t items, array_text t items ->
      (k (inl (ok_response t))).1 = (k (inl (ok_response (in_object name t)))).1 /\
      ((k (inl (ok_response t))).2 = None <-> (k (inl (ok_response (in_object name t)))).2 = None)
  end.

Lemma same_reply_shapes {A} name (x : exchange A) : same_reply name x -> both_shapes name x.
Proof. destruct x as [|req k]; [done|]. intros H t items Ht. by rewrite (H t items Ht). Qed.

Lemma items_alias {A} (d : dec A) zero : reads_items d zero (alias_items d zero) "items".
Proof.
  intros text t items. unfold alias_items, dec_struct. rewrite !field_cons, !field_nil.
  rewrite decide_True by (vm_compute; reflexivity). rewrite decide_False by (vm_compute; discriminate).
  unfold put. cbn. destruct (dec_elements d zero items []) as [xs e]. cbn. by rewrite !orb_false_r.
Qed.

Lemma nodes_alias {A} (d : dec A) zero : reads_items d zero (alias_nodes d zero) "nodes".
Proof.
  intros text t items. unfold alias_nodes, dec_struct. rewrite !field_cons, !field_nil.
  rewrite decide_True by (vm_compute; reflexivity).
  unfold put. cbn. destruct (dec_elements d zero items []) as [xs e]. cbn. by rewrite !orb_false_r.
Qed.

Lemma logged_in_alias {A} (d : dec A) zero : reads_items d zero (alias_logged_in d zero) "items".
Proof.
  intros text t items. unfold alias_logged_in, dec_struct. rewrite !field_cons, !field_nil.
  rewrite decide_True by (vm_compute; reflexivity). rewrite !decide_False by (vm_compute; discriminate).
  unfold put. cbn. destruct (dec_elements d zero items []) as [xs e]. cbn. by rewrite !orb_false_r.
Qed.

Ltac both := apply same_reply_shapes; repeat first [apply doJSON_shapes | apply same_reply_then | apply same_reply_if | apply same_reply_guarded]; intros t items Ht;
  eapply list_decodes; [first [apply items_alias | apply nodes_alias | apply logged_in_alias]|done|exact Ht].

(** C25: http_list_shapes. Every list method of the HTTP client accepts both shapes of a reply: for a
    JSON array and for the object that holds the same array, it returns the same items, decoded
    alike, and an error for the one exactly when it returns one for the other, as when an item has
    a field of the wrong type. *)
Theorem http_list_shapes url_Parse c token owner req target limit peerNodeID peerUserID after attachmentType nodeID :
  both_shapes "items" (ListUsers url_Parse c token req) /\
  both_shapes "items" (ListMessages url_Parse c token target limit peerNodeID peerUserID) /\
  both_shapes "items" (ListEvents url_Parse c token after limit) /\
  both_shapes "items" (ListAttachments url_Parse c token owner attachmentType) /\
  both_shapes "items" (ListBlockedUsers url_Parse c token owner) /\
  both_shapes "items" (ListNodeLoggedInUsers url_Parse c token nodeID) /\
  both_shapes "nodes" (ListClusterNodes url_Parse c token).
Proof.
  split_and!; unfold ListUsers, ListMessages, ListEvents, ListBlockedUsers, ListAttachments, ListNodeLoggedInUsers,
    ListClusterNodes; both.
Qed.

Lemma array_text_empty : array_text (str "[]") [].
Proof. eexists. split; [reflexivity|]. by intros [|[|d]] Hd; [reflexivity|reflexivity|lia]. Qed.

Lemma http_list_shapes_witness :
  match ListClusterNodes (fun _ => None) (NewHTTPClient "http://h") "t" with
  | Exchange _ k => (k (inl (ok_response (in_object "nodes" (str "[]"))))).1 = [] /\
                    (k (inl (ok_response (in_object "nodes" (str "[]"))))).2 = None
  | Return _ => False
  end.
Proof.
  destruct (http_list_shapes (fun _ => None) (NewHTTPClient "http://h") "t" zero_UserRef (mkListUsersRequest "" zero_UserRef)
              zero_UserRef 0 0 0 0 "" 0) as (_ & _ & _ & _ & _ & _ & H).
  destruct (H (str "[]") [] array_text_empty) as [Hi He]. split; [rewrite <- Hi; reflexivity|apply He; reflexivity].
Defined.
