(* ===== verification/Store.v ===== *)
(** * Cursor persistence (store.go)

    [CursorStore] is the Go interface; [CursorStoreLaws] is what the client relies on. The
    in-memory store implements both. Its methods hold one mutex, so they are atomic. *)

From stdpp Require Import base list gmap strings.
From S2P Require Import Prelude Errors Types.

(** ** Interface *)

Class CursorStore (S : Type) : Type := {
  LoadSeenMessages : S -> error + list MessageCursor;
  SaveMessage : Message -> S -> S * option error;
  SaveCursor : MessageCursor -> S -> S * option error;
}.

(** [seen] is what the store has promised to remember: a saved cursor is remembered, no save
    forgets one, and loading returns at least what is remembered. *)
Class CursorStoreLaws (S : Type) `{CursorStore S} : Type := {
  seen : S -> MessageCursor -> Prop;
  SaveCursor_seen c s s' : SaveCursor c s = (s', None) -> seen s' c;
  SaveCursor_keeps c s s' e x : SaveCursor c s = (s', e) -> seen s x -> seen s' x;
  SaveMessage_keeps m s s' e x : SaveMessage m s = (s', e) -> seen s x -> seen s' x;
  Load_seen s l x : LoadSeenMessages s = inr l -> seen s x -> x ∈ l;
}.

(** ** The in-memory store *)

Record MemoryCursorStore : Type := mkMemoryCursorStore {
  ms_messages : gmap MessageCursor Message;
  ms_order : list MessageCursor;
}.

Definition NewMemoryCursorStore : MemoryCursorStore := mkMemoryCursorStore ∅ [].

Definition Memory_LoadSeenMessages (s : MemoryCursorStore) : error + list MessageCursor :=
  inr ([] ++ ms_order s).

Definition Memory_SaveMessage (msg : Message) (s : MemoryCursorStore) : MemoryCursorStore * option error :=
  (mkMemoryCursorStore (<[Message_Cursor msg := msg]> (ms_messages s)) (ms_order s), None).

(** [Message{NodeID: cursor.NodeID, Seq: cursor.Seq}] *)
Definition placeholder (cursor : MessageCursor) : Message :=
  mkMessage zero_UserRef (mc_NodeID cursor) (mc_Seq cursor) zero_UserRef [] "".

Definition Memory_SaveCursor (cursor : MessageCursor) (s : MemoryCursorStore) : MemoryCursorStore * option error :=
  let messages :=
    match ms_messages s !! cursor with
    | None => <[cursor := placeholder cursor]> (ms_messages s)
    | Some _ => ms_messages s
    end in
  if existsb (fun existing => bool_decide (existing = cursor)) (ms_order s)
  then (mkMemoryCursorStore messages (ms_order s), None)
  else (mkMemoryCursorStore messages (ms_order s ++ [cursor]), None).

Definition HasCursor (cursor : MessageCursor) (s : MemoryCursorStore) : bool :=
  bool_decide (is_Some (ms_messages s !! cursor)).

(** [(s *MemoryCursorStore) Message(cursor) (Message, bool)] *)
Definition Memory_Message (cursor : MessageCursor) (s : MemoryCursorStore) : option Message :=
  ms_messages s !! cursor.

#[export] Instance memory_store : CursorStore MemoryCursorStore := {
  LoadSeenMessages := Memory_LoadSeenMessages;
  SaveMessage := Memory_SaveMessage;
  SaveCursor := Memory_SaveCursor;
}.

(** ** Facts *)

Lemma existsb_elem c (l : list MessageCursor) :
  existsb (fun existing => bool_decide (existing = c)) l = bool_decide (c ∈ l).
Proof.
  apply eq_bool_prop_intro. rewrite !Is_true_true, existsb_exists, bool_decide_eq_true.
  setoid_rewrite bool_decide_eq_true. setoid_rewrite <- list_elem_of_In. naive_solver.
Qed.

Lemma Memory_SaveCursor_order c s :
  ms_order (Memory_SaveCursor c s).1 = if bool_decide (c ∈ ms_order s) then ms_order s else ms_order s ++ [c].
Proof. unfold Memory_SaveCursor. rewrite existsb_elem. by case_bool_decide. Qed.

Lemma Memory_SaveCursor_messages c s :
  ms_messages (Memory_SaveCursor c s).1 =
  match ms_messages s !! c with None => <[c := placeholder c]> (ms_messages s) | Some _ => ms_messages s end.
Proof. unfold Memory_SaveCursor. by destruct (existsb _ _). Qed.

Lemma Memory_SaveCursor_err c s : (Memory_SaveCursor c s).2 = None.
Proof. unfold Memory_SaveCursor. by destruct (existsb _ _). Qed.

#[export] Instance memory_store_laws : CursorStoreLaws MemoryCursorStore.
Proof.
  refine {| seen := fun s c => c ∈ ms_order s |}; simpl; unfold Memory_LoadSeenMessages; simpl.
  - intros c s s' Hs. pose proof (Memory_SaveCursor_order c s) as Ho. rewrite Hs in Ho.
    simpl in Ho. rewrite Ho. case_bool_decide; [done|]. apply elem_of_app; right. by constructor.
  - intros c s s' e x Hs Hx. pose proof (Memory_SaveCursor_order c s) as Ho.
    rewrite Hs in Ho. simpl in Ho. rewrite Ho. case_bool_decide; [done|]. apply elem_of_app. by left.
  - intros m s s' e x [= <- <-]. done.
  - intros s l x [= <-]. done.
Defined.

(** ** Histories *)

Inductive store_op : Type :=
| OpMessage (m : Message)
| OpCursor (c : MessageCursor).

Definition store_run (ops : list store_op) : MemoryCursorStore :=
  fold_left (fun s op => match op with OpMessage m => (SaveMessage m s).1 | OpCursor c => (SaveCursor c s).1 end)
    ops NewMemoryCursorStore.

(** The cursors and the messages an history saves. *)
Definition cursors_of (ops : list store_op) : list MessageCursor :=
  omap (fun op => match op with OpCursor c => Some c | _ => None end) ops.
Definition messages_at (c : MessageCursor) (ops : list store_op) : list Message :=
  omap (fun op => match op with OpMessage m => if bool_decide (Message_Cursor m = c) then Some m else None
                           | _ => None end) ops.

(** Each element where it occurs first. *)
Definition first_occurrences (l : list MessageCursor) : list MessageCursor :=
  reverse (remove_dups (reverse l)).

Lemma first_occurrences_snoc l c :
  first_occurrences (l ++ [c]) =
  if bool_decide (c ∈ first_occurrences l) then first_occurrences l else first_occurrences l ++ [c].
Proof.
  unfold first_occurrences. rewrite reverse_app. change (reverse [c]) with [c]. simpl.
  assert (c ∈ reverse (remove_dups (reverse l)) <-> c ∈ reverse l) as Hiff
    by (by rewrite elem_of_reverse, elem_of_remove_dups).
  rewrite (bool_decide_ext _ _ Hiff).
  destruct (decide_rel elem_of c (reverse l)) as [H|H].
  - by rewrite bool_decide_true.
  - rewrite bool_decide_false by done. by rewrite reverse_cons.
Qed.

Lemma store_run_snoc ops op :
  store_run (ops ++ [op]) =
  match op with OpMessage m => (SaveMessage m (store_run ops)).1 | OpCursor c => (SaveCursor c (store_run ops)).1 end.
Proof. unfold store_run. by rewrite fold_left_app. Qed.

Lemma store_run_order ops : ms_order (store_run ops) = first_occurrences (cursors_of ops).
Proof.
  induction ops as [|op ops IH] using rev_ind; [done|].
  rewrite store_run_snoc. unfold cursors_of. rewrite omap_app. destruct op as [m|c]; simpl.
  - by rewrite app_nil_r, IH.
  - rewrite Memory_SaveCursor_order, IH. by rewrite first_occurrences_snoc.
Qed.

(** What the store holds for a cursor: the last message saved for it, or a placeholder. *)
Lemma store_run_message ops c :
  ms_messages (store_run ops) !! c =
  match last (messages_at c ops) with
  | Some m => Some m
  | None => if bool_decide (c ∈ cursors_of ops) then Some (placeholder c) else None
  end.
Proof.
  induction ops as [|op ops IH] using rev_ind; [done|].
  rewrite store_run_snoc. unfold cursors_of, messages_at in *. rewrite !omap_app. destruct op as [m|c']; simpl.
  - rewrite app_nil_r. destruct (decide (Message_Cursor m = c)) as [<-|Hc].
    + by rewrite lookup_insert_eq, bool_decide_true, last_snoc by done.
    + by rewrite lookup_insert_ne, bool_decide_false, app_nil_r by done.
  - rewrite app_nil_r, Memory_SaveCursor_messages. destruct (decide (c' = c)) as [->|Hc].
    + rewrite (bool_decide_true (c ∈ _ ++ [c])) by (apply elem_of_app; right; by constructor).
      destruct (ms_messages (store_run ops) !! c) eqn:E; rewrite ?lookup_insert_eq, ?E.
      * destruct (last _); [done|]. by case_bool_decide.
      * destruct (last _); [done|]. done.
    + assert (ms_messages (store_run ops) !! c =
              match ms_messages (store_run ops) !! c' with
              | None => <[c' := placeholder c']> (ms_messages (store_run ops))
              | Some _ => ms_messages (store_run ops) end !! c) as <-
        by (destruct (ms_messages (store_run ops) !! c'); [done|by rewrite lookup_insert_ne]).
      rewrite IH. destruct (last _); [done|].
      erewrite (bool_decide_ext (c ∈ _)); [done|]. rewrite elem_of_app, list_elem_of_singleton. naive_solver.
Qed.

(** After any history of saves the in-memory store loads the saved cursors once
    each, in the order they were first saved, and holds for a cursor the last message saved
    for it, or a placeholder when only the cursor was saved; no save fails, and a cursor counts
    as present once either was saved. *)
Theorem memory_store_history ops :
  LoadSeenMessages (store_run ops) = inr (first_occurrences (cursors_of ops)) /\
  NoDup (first_occurrences (cursors_of ops)) /\
  (forall c, Memory_Message c (store_run ops) =
     match last (messages_at c ops) with
     | Some m => Some m
     | None => if bool_decide (c ∈ cursors_of ops) then Some (placeholder c) else None
     end) /\
  (forall c, HasCursor c (store_run ops) = true <-> c ∈ cursors_of ops \/ messages_at c ops <> []) /\
  (forall m c, (SaveMessage m (store_run ops)).2 = None /\ (SaveCursor c (store_run ops)).2 = None).
Proof.
  split_and!.
  - simpl. unfold Memory_LoadSeenMessages. by rewrite store_run_order.
  - unfold first_occurrences. rewrite reverse_Permutation. apply NoDup_remove_dups.
  - intros c. apply store_run_message.
  - intros c. unfold HasCursor. rewrite bool_decide_eq_true, store_run_message.
    destruct (last (messages_at c ops)) eqn:E.
    + split; [|by eexists]. intros _. right. by intros Hn; rewrite Hn in E.
    + apply last_None in E. case_bool_decide; split; naive_solver.
  - intros m c. split; [done|]. apply Memory_SaveCursor_err.
Qed.
