(* ===== verification/ClientApi.v ===== *)
(** * The request methods of the WebSocket client (client.go)

    Every method validates its arguments, builds one request for the ID that [rpc] draws, and
    asserts the type of the value the read loop stored for it. [call] is that shape: an error
    before anything is sent, or one RPC with what the method makes of its result. *)

From stdpp Require Import base list strings.
From S2P Require Import Prelude Errors Types Wire Text Encoding Json Metadata Password Records Convert WireCodec Requests.

(** ** Values a request can resolve to ([requestResult.value any]) *)

Inductive any : Type :=
| AUnit
| AMessage (v : Message) | ARelayAccepted (v : RelayAccepted) | AUser (v : User) | AUsers (v : list User)
| ADeleteUserResult (v : DeleteUserResult) | AUserMetadata (v : UserMetadata)
| AUserMetadataPage (v : UserMetadataPage) | AAttachment (v : Attachment) | AAttachments (v : list Attachment)
| AMessages (v : list Message) | AEvents (v : list Event) | AClusterNodes (v : list ClusterNode)
| ALoggedInUsers (v : list LoggedInUser) | AResolvedUserSessions (v : ResolvedUserSessions)
| AOperationsStatus (v : OperationsStatus) | AString (v : string).

(** A Go type a value can be asserted to have: [res.value.(A)]. *)
Class GoType (A : Type) : Type := {
  to_any : A -> any;
  of_any : any -> option A;
  of_to_any : forall a, of_any (to_any a) = Some a;
}.

Ltac go_type c p := refine {| to_any := c; of_any := p |}; done.
#[export] Instance go_Message : GoType Message.
Proof. go_type AMessage (fun v => match v with AMessage x => Some x | _ => None end). Defined.
#[export] Instance go_RelayAccepted : GoType RelayAccepted.
Proof. go_type ARelayAccepted (fun v => match v with ARelayAccepted x => Some x | _ => None end). Defined.
#[export] Instance go_User : GoType User.
Proof. go_type AUser (fun v => match v with AUser x => Some x | _ => None end). Defined.
#[export] Instance go_Users : GoType (list User).
Proof. go_type AUsers (fun v => match v with AUsers x => Some x | _ => None end). Defined.
#[export] Instance go_DeleteUserResult : GoType DeleteUserResult.
Proof. go_type ADeleteUserResult (fun v => match v with ADeleteUserResult x => Some x | _ => None end). Defined.
#[export] Instance go_UserMetadata : GoType UserMetadata.
Proof. go_type AUserMetadata (fun v => match v with AUserMetadata x => Some x | _ => None end). Defined.
#[export] Instance go_UserMetadataPage : GoType UserMetadataPage.
Proof. go_type AUserMetadataPage (fun v => match v with AUserMetadataPage x => Some x | _ => None end). Defined.
#[export] Instance go_Attachment : GoType Attachment.
Proof. go_type AAttachment (fun v => match v with AAttachment x => Some x | _ => None end). Defined.
#[export] Instance go_Attachments : GoType (list Attachment).
Proof. go_type AAttachments (fun v => match v with AAttachments x => Some x | _ => None end). Defined.
#[export] Instance go_Messages : GoType (list Message).
Proof. go_type AMessages (fun v => match v with AMessages x => Some x | _ => None end). Defined.
#[export] Instance go_Events : GoType (list Event).
Proof. go_type AEvents (fun v => match v with AEvents x => Some x | _ => None end). Defined.
#[export] Instance go_ClusterNodes : GoType (list ClusterNode).
Proof. go_type AClusterNodes (fun v => match v with AClusterNodes x => Some x | _ => None end). Defined.
#[export] Instance go_LoggedInUsers : GoType (list LoggedInUser).
Proof. go_type ALoggedInUsers (fun v => match v with ALoggedInUsers x => Some x | _ => None end). Defined.
#[export] Instance go_ResolvedUserSessions : GoType ResolvedUserSessions.
Proof. go_type AResolvedUserSessions (fun v => match v with AResolvedUserSessions x => Some x | _ => None end). Defined.
#[export] Instance go_OperationsStatus : GoType OperationsStatus.
Proof. go_type AOperationsStatus (fun v => match v with AOperationsStatus x => Some x | _ => None end). Defined.
#[export] Instance go_string : GoType string.
Proof. go_type AString (fun v => match v with AString x => Some x | _ => None end). Defined.
#[export] Instance go_unit : GoType ().
Proof. refine {| to_any := fun _ => AUnit; of_any := fun v => match v with AUnit => Some tt | _ => None end |}; by intros []. Defined.

(** ** Calls *)

Inductive call (A : Type) : Type :=
| Refuse (e : error)
| Rpc (build : Z -> pb_ClientEnvelope_Body) (k : any -> result error A).
Arguments Refuse {A} e.
Arguments Rpc {A} build k.

(** [if err := v; err != nil { return zero, err }] before the RPC. *)
Definition guard {A} (v : option error) (rest : call A) : call A :=
  match v with Some e => Refuse e | None => rest end.
(** The same with [fmt.Errorf("...: %w", err)]. *)
Definition guard_as {A} (format : string) (v : option error) (rest : call A) : call A :=
  match v with Some e => Refuse (Wrapf format [] e) | None => rest end.

(** [v, ok := res.value.(A); if !ok { return zero, &ProtocolError{Message: msg} }] *)
Definition expect {A} `{GoType A} (msg : string) (v : any) : result error A :=
  match of_any v with Some a => Ok a | None => Err (EProtocol msg []) end.

Definition call_map {A B} (f : A -> B) (c : call A) : call B :=
  match c with
  | Refuse e => Refuse e
  | Rpc build k => Rpc build (fun v => f <$> k v)
  end.

(** Runs a call over an [rpc]. *)
Definition run_call {A} (rpc : (Z -> pb_ClientEnvelope_Body) -> result error any) (c : call A) : result error A :=
  match c with
  | Refuse e => Err e
  | Rpc build k => v ← rpc build; k v
  end.

(** ** Methods *)

Definition CreateUser (req : CreateUserRequest) : call User :=
  if bool_decide (CreateUserRequest_Username req = "") then Refuse (errors_New "username is required")
  else if bool_decide (CreateUserRequest_Role req = "") then Refuse (errors_New "role is required")
  else
    Rpc (fun requestID => pb_ClientEnvelope_CreateUser
           {| pb_CreateUserRequest_RequestId := requestID;
              pb_CreateUserRequest_Username := CreateUserRequest_Username req;
              pb_CreateUserRequest_LoginName := CreateUserRequest_LoginName req;
              pb_CreateUserRequest_Password := WireValue (CreateUserRequest_Password req);
              pb_CreateUserRequest_ProfileJson := CreateUserRequest_ProfileJSON req;
              pb_CreateUserRequest_Role := CreateUserRequest_Role req |})
        (expect "missing user in create_user_response").

Definition CreateChannel (req : CreateUserRequest) : call User :=
  CreateUser (if bool_decide (CreateUserRequest_Role req = "")
              then mkCreateUserRequest (CreateUserRequest_Username req) (CreateUserRequest_LoginName req)
                     (CreateUserRequest_Password req) (CreateUserRequest_ProfileJSON req) "channel"
              else req).

Definition SendMessage (input : SendMessageInput) : call Message :=
  guard_as "invalid target: %w" (UserRef_validate (SendMessageInput_Target input)) (
  if len (SendMessageInput_Body input) =? 0 then Refuse (errors_New "body is required")
  else
    Rpc (fun requestID => pb_ClientEnvelope_SendMessage
           {| pb_SendMessageRequest_RequestId := requestID;
              pb_SendMessageRequest_Target := userRefToProto (SendMessageInput_Target input);
              pb_SendMessageRequest_Body := SendMessageInput_Body input;
              pb_SendMessageRequest_DeliveryKind := CLIENT_DELIVERY_KIND_UNSPECIFIED;
              pb_SendMessageRequest_DeliveryMode := CLIENT_DELIVERY_MODE_UNSPECIFIED;
              pb_SendMessageRequest_SyncMode := CLIENT_MESSAGE_SYNC_MODE_UNSPECIFIED;
              pb_SendMessageRequest_TargetSession := None |})
        (expect "missing message in send response")).

Definition SendPacket (input : SendPacketInput) : call RelayAccepted :=
  guard_as "invalid target: %w" (UserRef_validate (SendPacketInput_Target input)) (
  if len (SendPacketInput_Body input) =? 0 then Refuse (errors_New "body is required")
  else
    guard (validatePacketMode (SendPacketInput_DeliveryMode input)) (
    guard_as "invalid target_session: %w"
      (if SessionRef_IsZero (SendPacketInput_TargetSession input) then None
       else SessionRef_validate (SendPacketInput_TargetSession input)) (
    Rpc (fun requestID => pb_ClientEnvelope_SendMessage
           {| pb_SendMessageRequest_RequestId := requestID;
              pb_SendMessageRequest_Target := userRefToProto (SendPacketInput_Target input);
              pb_SendMessageRequest_Body := SendPacketInput_Body input;
              pb_SendMessageRequest_DeliveryKind := CLIENT_DELIVERY_KIND_TRANSIENT;
              pb_SendMessageRequest_DeliveryMode := deliveryModeToProto (SendPacketInput_DeliveryMode input);
              pb_SendMessageRequest_SyncMode := CLIENT_MESSAGE_SYNC_MODE_UNSPECIFIED;
              pb_SendMessageRequest_TargetSession := sessionRefToProto (SendPacketInput_TargetSession input) |})
        (expect "missing transient_accepted in send response")))).

Definition SendPacketToSession (target : UserRef) (targetSession : SessionRef) (body : bytes) (mode : DeliveryMode)
    : call RelayAccepted :=
  SendPacket (mkSendPacketInput target body mode targetSession).

Definition PostMessage (target : UserRef) (body : bytes) : call Message :=
  SendMessage (mkSendMessageInput target body).

Definition PostPacket (targetNodeID : Z) (relayTarget : UserRef) (body : bytes) (mode : DeliveryMode) : call () :=
  if negb (targetNodeID =? 0) && negb (targetNodeID =? ur_NodeID relayTarget)
  then Refuse (Errorf "target node ID %d does not match target user node_id %d"
                 [FInt targetNodeID; FInt (ur_NodeID relayTarget)])
  else call_map (fun _ => tt) (SendPacket (mkSendPacketInput relayTarget body mode zero_SessionRef)).

Definition GetUser (target : UserRef) : call User :=
  guard_as "invalid user: %w" (UserRef_validate target) (
  Rpc (fun requestID => pb_ClientEnvelope_GetUser
         {| pb_GetUserRequest_RequestId := requestID; pb_GetUserRequest_User := userRefToProto target |})
      (expect "missing user in get_user_response")).

Definition UpdateUser (target : UserRef) (req : UpdateUserRequest) : call User :=
  guard_as "invalid user: %w" (UserRef_validate target) (
  Rpc (fun requestID => pb_ClientEnvelope_UpdateUser
         {| pb_UpdateUserRequest_RequestId := requestID;
            pb_UpdateUserRequest_User := userRefToProto target;
            pb_UpdateUserRequest_Username := optionalStringField (UpdateUserRequest_Username req);
            pb_UpdateUserRequest_LoginName := optionalStringField (UpdateUserRequest_LoginName req);
            pb_UpdateUserRequest_Password := optionalPasswordField (UpdateUserRequest_Password req);
            pb_UpdateUserRequest_ProfileJson := optionalBytesField (UpdateUserRequest_ProfileJSON req);
            pb_UpdateUserRequest_Role := optionalStringField (UpdateUserRequest_Role req) |})
      (expect "missing user in update_user_response")).

Definition DeleteUser (target : UserRef) : call DeleteUserResult :=
  guard_as "invalid user: %w" (UserRef_validate target) (
  Rpc (fun requestID => pb_ClientEnvelope_DeleteUser
         {| pb_DeleteUserRequest_RequestId := requestID; pb_DeleteUserRequest_User := userRefToProto target |})
      (expect "missing status in delete_user_response")).

Definition WSGetUserMetadata (owner : UserRef) (key : string) : call UserMetadata :=
  guard_as "invalid owner: %w" (UserRef_validate owner) (
  guard (validateMetadataKey key) (
  Rpc (fun requestID => pb_ClientEnvelope_GetUserMetadata
         {| pb_GetUserMetadataRequest_RequestId := requestID;
            pb_GetUserMetadataRequest_Owner := userRefToProto owner;
            pb_GetUserMetadataRequest_Key := key |})
      (expect "missing metadata in get_user_metadata_response"))).

Definition WSUpsertUserMetadata (owner : UserRef) (key : string) (req : UpsertUserMetadataRequest) : call UserMetadata :=
  guard_as "invalid owner: %w" (UserRef_validate owner) (
  guard (validateMetadataKey key) (
  guard (validateWSMetadataUpsertRequest key req) (
  Rpc (fun requestID => pb_ClientEnvelope_UpsertUserMetadata
         {| pb_UpsertUserMetadataRequest_RequestId := requestID;
            pb_UpsertUserMetadataRequest_Owner := userRefToProto owner;
            pb_UpsertUserMetadataRequest_Key := key;
            pb_UpsertUserMetadataRequest_Value := default [] (cloneBytesPreserveNil (up_Value req));
            pb_UpsertUserMetadataRequest_ExpiresAt := optionalStringField (up_ExpiresAt req) |})
      (expect "missing metadata in upsert_user_metadata_response")))).

Definition WSDeleteUserMetadata (owner : UserRef) (key : string) : call UserMetadata :=
  guard_as "invalid owner: %w" (UserRef_validate owner) (
  guard (validateMetadataKey key) (
  Rpc (fun requestID => pb_ClientEnvelope_DeleteUserMetadata
         {| pb_DeleteUserMetadataRequest_RequestId := requestID;
            pb_DeleteUserMetadataRequest_Owner := userRefToProto owner;
            pb_DeleteUserMetadataRequest_Key := key |})
      (expect "missing metadata in delete_user_metadata_response"))).

Definition WSScanUserMetadata (owner : UserRef) (req : ScanUserMetadataRequest) : call UserMetadataPage :=
  guard_as "invalid owner: %w" (UserRef_validate owner) (
  guard (ScanUserMetadataRequest_validate req) (
  let limit := if 0 <? ScanUserMetadataRequest_Limit req then i32 (ScanUserMetadataRequest_Limit req) else 0 in
  Rpc (fun requestID => pb_ClientEnvelope_ScanUserMetadata
         {| pb_ScanUserMetadataRequest_RequestId := requestID;
            pb_ScanUserMetadataRequest_Owner := userRefToProto owner;
            pb_ScanUserMetadataRequest_Prefix := ScanUserMetadataRequest_Prefix req;
            pb_ScanUserMetadataRequest_After := ScanUserMetadataRequest_After req;
            pb_ScanUserMetadataRequest_Limit := limit |})
      (expect "missing page in scan_user_metadata_response"))).

Definition UpsertAttachment (owner subject : UserRef) (attachmentType : AttachmentType) (configJSON : bytes) : call Attachment :=
  guard_as "invalid owner: %w" (UserRef_validate owner) (
  guard_as "invalid subject: %w" (UserRef_validate subject) (
  Rpc (fun requestID => pb_ClientEnvelope_UpsertUserAttachment
         {| pb_UpsertUserAttachmentRequest_RequestId := requestID;
            pb_UpsertUserAttachmentRequest_Owner := userRefToProto owner;
            pb_UpsertUserAttachmentRequest_Subject := userRefToProto subject;
            pb_UpsertUserAttachmentRequest_AttachmentType := attachmentTypeToProto attachmentType;
            pb_UpsertUserAttachmentRequest_ConfigJson := configJSON |})
      (expect "missing attachment in upsert_user_attachment_response"))).

Definition DeleteAttachment (owner subject : UserRef) (attachmentType : AttachmentType) : call Attachment :=
  guard_as "invalid owner: %w" (UserRef_validate owner) (
  guard_as "invalid subject: %w" (UserRef_validate subject) (
  Rpc (fun requestID => pb_ClientEnvelope_DeleteUserAttachment
         {| pb_DeleteUserAttachmentRequest_RequestId := requestID;
            pb_DeleteUserAttachmentRequest_Owner := userRefToProto owner;
            pb_DeleteUserAttachmentRequest_Subject := userRefToProto subject;
            pb_DeleteUserAttachmentRequest_AttachmentType := attachmentTypeToProto attachmentType |})
      (expect "missing attachment in delete_user_attachment_response"))).

Definition ListAttachments (owner : UserRef) (attachmentType : AttachmentType) : call (list Attachment) :=
  guard_as "invalid owner: %w" (UserRef_validate owner) (
  Rpc (fun requestID => pb_ClientEnvelope_ListUserAttachments
         {| pb_ListUserAttachmentsRequest_RequestId := requestID;
            pb_ListUserAttachmentsRequest_Owner := userRefToProto owner;
            pb_ListUserAttachmentsRequest_AttachmentType := attachmentTypeToProto attachmentType |})
      (expect "missing items in list_user_attachments_response")).

(** The [pb.Attachment] built from an attachment to view it as a subscription or an entry. *)
Definition attachment_view (a : Attachment) : option pb_Attachment :=
  Some {| pb_Attachment_Owner := userRefToProto (Attachment_Owner a);
          pb_Attachment_Subject := userRefToProto (Attachment_Subject a);
          pb_Attachment_AttachmentType := ATTACHMENT_TYPE_UNSPECIFIED;
          pb_Attachment_ConfigJson := [];
          pb_Attachment_AttachedAt := Attachment_AttachedAt a;
          pb_Attachment_DeletedAt := Attachment_DeletedAt a;
          pb_Attachment_OriginNodeId := Attachment_OriginNodeID a |}.

Definition empty_config : bytes := Encoding.str "{}".

Definition CreateSubscription (userRef channelRef : UserRef) : call () :=
  call_map (fun _ => tt) (UpsertAttachment userRef channelRef AttachmentTypeChannelSubscription empty_config).
Definition SubscribeChannel (subscriber channel : UserRef) : call Subscription :=
  call_map (fun a => subscriptionFromProto (attachment_view a))
    (UpsertAttachment subscriber channel AttachmentTypeChannelSubscription empty_config).
Definition UnsubscribeChannel (subscriber channel : UserRef) : call Subscription :=
  call_map (fun a => subscriptionFromProto (attachment_view a))
    (DeleteAttachment subscriber channel AttachmentTypeChannelSubscription).
Definition ListSubscriptions (subscriber : UserRef) : call (list Subscription) :=
  call_map (collect (fun a => mkSubscription (Attachment_Owner a) (Attachment_Subject a) (Attachment_AttachedAt a)
                                (Attachment_DeletedAt a) (Attachment_OriginNodeID a)))
    (ListAttachments subscriber AttachmentTypeChannelSubscription).
Definition BlockUser (owner blocked : UserRef) : call BlacklistEntry :=
  call_map (fun a => blacklistEntryFromProto (attachment_view a))
    (UpsertAttachment owner blocked AttachmentTypeUserBlacklist empty_config).
Definition UnblockUser (owner blocked : UserRef) : call BlacklistEntry :=
  call_map (fun a => blacklistEntryFromProto (attachment_view a))
    (DeleteAttachment owner blocked AttachmentTypeUserBlacklist).
Definition ListBlockedUsers (owner : UserRef) : call (list BlacklistEntry) :=
  call_map (collect (fun a => mkBlacklistEntry (Attachment_Owner a) (Attachment_Subject a) (Attachment_AttachedAt a)
                                (Attachment_DeletedAt a) (Attachment_OriginNodeID a)))
    (ListAttachments owner AttachmentTypeUserBlacklist).

Definition WSListMessages (target : UserRef) (limit : Z) : call (list Message) :=
  guard_as "invalid target: %w" (UserRef_validate target) (
  Rpc (fun requestID => pb_ClientEnvelope_ListMessages
         {| pb_ListMessagesRequest_RequestId := requestID;
            pb_ListMessagesRequest_User := userRefToProto target;
            pb_ListMessagesRequest_Limit := i32 limit |})
      (expect "missing items in list_messages_response")).

Definition WSListUsers (req : ListUsersRequest) : call (list User) :=
  let req := ListUsersRequest_normalized req in
  guard (ListUsersRequest_validate req) (
  Rpc (fun requestID => pb_ClientEnvelope_ListUsers
         {| pb_ListUsersRequest_RequestId := requestID;
            pb_ListUsersRequest_Name := ListUsersRequest_Name req;
            pb_ListUsersRequest_Uid := userRefToProto (ListUsersRequest_UID req) |})
      (expect "missing items in list_users_response")).

Definition ListEvents (after limit : Z) : call (list Event) :=
  Rpc (fun requestID => pb_ClientEnvelope_ListEvents
         {| pb_ListEventsRequest_RequestId := requestID;
            pb_ListEventsRequest_After := after;
            pb_ListEventsRequest_Limit := i32 limit |})
      (expect "missing items in list_events_response").

Definition ListClusterNodes : call (list ClusterNode) :=
  Rpc (fun requestID => pb_ClientEnvelope_ListClusterNodes (mkpb_ListClusterNodesRequest requestID))
      (expect "missing items in list_cluster_nodes_response").

Definition ListNodeLoggedInUsers (nodeID : Z) : call (list LoggedInUser) :=
  if nodeID =? 0 then Refuse (errors_New "node_id is required")
  else
    Rpc (fun requestID => pb_ClientEnvelope_ListNodeLoggedInUsers
           {| pb_ListNodeLoggedInUsersRequest_RequestId := requestID;
              pb_ListNodeLoggedInUsersRequest_NodeId := nodeID |})
        (expect "missing items in list_node_logged_in_users_response").

Definition ResolveUserSessions (user : UserRef) : call ResolvedUserSessions :=
  guard_as "invalid user: %w" (UserRef_validate user) (
  Rpc (fun requestID => pb_ClientEnvelope_ResolveUserSessions
         {| pb_ResolveUserSessionsRequest_RequestId := requestID;
            pb_ResolveUserSessionsRequest_User := userRefToProto user |})
      (expect "missing sessions in resolve_user_sessions_response")).

Definition Client_OperationsStatus : call OperationsStatus :=
  Rpc (fun requestID => pb_ClientEnvelope_OperationsStatus (mkpb_OperationsStatusRequest requestID))
      (expect "missing status in operations_status_response").

Definition Metrics : call string :=
  Rpc (fun requestID => pb_ClientEnvelope_Metrics (mkpb_MetricsRequest requestID))
      (expect "missing text in metrics_response").

(** ** Responses *)

(** The request a response resolves and the value it carries, for the responses that
    [handleServerEnvelope] only converts and hands to [resolvePending]. *)
Definition response_of (body : pb_ServerEnvelope_Body) : option (Z * any) :=
  match body with
  | pb_ServerEnvelope_Pong v => Some (pb_Pong_RequestId v, AUnit)
  | pb_ServerEnvelope_CreateUserResponse v =>
      Some (pb_CreateUserResponse_RequestId v, AUser (userFromProto (pb_CreateUserResponse_User v)))
  | pb_ServerEnvelope_GetUserResponse v =>
      Some (pb_GetUserResponse_RequestId v, AUser (userFromProto (pb_GetUserResponse_User v)))
  | pb_ServerEnvelope_GetUserMetadataResponse v =>
      Some (pb_GetUserMetadataResponse_RequestId v,
            AUserMetadata (userMetadataFromProto (pb_GetUserMetadataResponse_Metadata v)))
  | pb_ServerEnvelope_UpsertUserMetadataResponse v =>
      Some (pb_UpsertUserMetadataResponse_RequestId v,
            AUserMetadata (userMetadataFromProto (pb_UpsertUserMetadataResponse_Metadata v)))
  | pb_ServerEnvelope_DeleteUserMetadataResponse v =>
      Some (pb_DeleteUserMetadataResponse_RequestId v,
            AUserMetadata (userMetadataFromProto (pb_DeleteUserMetadataResponse_Metadata v)))
  | pb_ServerEnvelope_ScanUserMetadataResponse v =>
      Some (pb_ScanUserMetadataResponse_RequestId v, AUserMetadataPage (userMetadataPageFromProto (Some v)))
  | pb_ServerEnvelope_UpdateUserResponse v =>
      Some (pb_UpdateUserResponse_RequestId v, AUser (userFromProto (pb_UpdateUserResponse_User v)))
  | pb_ServerEnvelope_DeleteUserResponse v =>
      Some (pb_DeleteUserResponse_RequestId v,
            ADeleteUserResult (mkDeleteUserResult (pb_DeleteUserResponse_Status v)
                                 (userRefFromProto (pb_DeleteUserResponse_User v))))
  | pb_ServerEnvelope_ListUsersResponse v =>
      Some (pb_ListUsersResponse_RequestId v, AUsers (usersFromProto (pb_ListUsersResponse_Items v)))
  | pb_ServerEnvelope_ListMessagesResponse v =>
      Some (pb_ListMessagesResponse_RequestId v, AMessages (messagesFromProto (pb_ListMessagesResponse_Items v)))
  | pb_ServerEnvelope_UpsertUserAttachmentResponse v =>
      Some (pb_UpsertUserAttachmentResponse_RequestId v,
            AAttachment (attachmentFromProto (pb_UpsertUserAttachmentResponse_Attachment v)))
  | pb_ServerEnvelope_DeleteUserAttachmentResponse v =>
      Some (pb_DeleteUserAttachmentResponse_RequestId v,
            AAttachment (attachmentFromProto (pb_DeleteUserAttachmentResponse_Attachment v)))
  | pb_ServerEnvelope_ListUserAttachmentsResponse v =>
      Some (pb_ListUserAttachmentsResponse_RequestId v,
            AAttachments (attachmentsFromProto (pb_ListUserAttachmentsResponse_Items v)))
  | pb_ServerEnvelope_ListEventsResponse v =>
      Some (pb_ListEventsResponse_RequestId v, AEvents (eventsFromProto (pb_ListEventsResponse_Items v)))
  | pb_ServerEnvelope_ListClusterNodesResponse v =>
      Some (pb_ListClusterNodesResponse_RequestId v,
            AClusterNodes (clusterNodesFromProto (pb_ListClusterNodesResponse_Items v)))
  | pb_ServerEnvelope_ListNodeLoggedInUsersResponse v =>
      Some (pb_ListNodeLoggedInUsersResponse_RequestId v,
            ALoggedInUsers (loggedInUsersFromProto (pb_ListNodeLoggedInUsersResponse_Items v)))
  | pb_ServerEnvelope_ResolveUserSessionsResponse v =>
      Some (pb_ResolveUserSessionsResponse_RequestId v,
            AResolvedUserSessions (resolvedUserSessionsFromProto (Some v)))
  | pb_ServerEnvelope_OperationsStatusResponse v =>
      Some (pb_OperationsStatusResponse_RequestId v,
            AOperationsStatus (operationsStatusFromProto (pb_OperationsStatusResponse_Status v)))
  | pb_ServerEnvelope_MetricsResponse v =>
      Some (pb_MetricsResponse_RequestId v, AString (pb_MetricsResponse_Text v))
  | _ => None
  end.

(** ** The methods together *)

Inductive method : Type :=
| MCreateUser (req : CreateUserRequest) | MCreateChannel (req : CreateUserRequest)
| MSendMessage (input : SendMessageInput) | MSendPacket (input : SendPacketInput)
| MPostPacket (node : Z) (target : UserRef) (body : bytes) (mode : DeliveryMode)
| MGetUser (target : UserRef) | MUpdateUser (target : UserRef) (req : UpdateUserRequest) | MDeleteUser (target : UserRef)
| MGetMetadata (owner : UserRef) (key : string)
| MUpsertMetadata (owner : UserRef) (key : string) (req : UpsertUserMetadataRequest)
| MDeleteMetadata (owner : UserRef) (key : string)
| MScanMetadata (owner : UserRef) (req : ScanUserMetadataRequest)
| MUpsertAttachment (owner subject : UserRef) (t : AttachmentType) (config : bytes)
| MDeleteAttachment (owner subject : UserRef) (t : AttachmentType)
| MListAttachments (owner : UserRef) (t : AttachmentType)
| MListMessages (target : UserRef) (limit : Z) | MListUsers (req : ListUsersRequest)
| MListEvents (start limit : Z) | MListClusterNodes | MListNodeLoggedInUsers (node : Z)
| MResolveUserSessions (user : UserRef) | MOperationsStatus | MMetrics
| MPostMessage (target : UserRef) (body : bytes)
| MSendPacketToSession (target : UserRef) (session : SessionRef) (body : bytes) (mode : DeliveryMode)
| MCreateSubscription (user channel : UserRef) | MSubscribeChannel (subscriber channel : UserRef)
| MUnsubscribeChannel (subscriber channel : UserRef) | MListSubscriptions (subscriber : UserRef)
| MBlockUser (owner blocked : UserRef) | MUnblockUser (owner blocked : UserRef) | MListBlockedUsers (owner : UserRef).

(** What a call sends, if it sends anything. *)
Definition build_of {A} (c : call A) : option (Z -> pb_ClientEnvelope_Body) :=
  match c with Refuse _ => None | Rpc build _ => Some build end.

Definition request_of (m : method) : option (Z -> pb_ClientEnvelope_Body) :=
  match m with
  | MCreateUser req => build_of (CreateUser req) | MCreateChannel req => build_of (CreateChannel req)
  | MSendMessage input => build_of (SendMessage input) | MSendPacket input => build_of (SendPacket input)
  | MPostPacket n t b mode => build_of (PostPacket n t b mode)
  | MGetUser t => build_of (GetUser t) | MUpdateUser t req => build_of (UpdateUser t req)
  | MDeleteUser t => build_of (DeleteUser t)
  | MGetMetadata o k => build_of (WSGetUserMetadata o k)
  | MUpsertMetadata o k r => build_of (WSUpsertUserMetadata o k r)
  | MDeleteMetadata o k => build_of (WSDeleteUserMetadata o k)
  | MScanMetadata o r => build_of (WSScanUserMetadata o r)
  | MUpsertAttachment o s t c => build_of (UpsertAttachment o s t c)
  | MDeleteAttachment o s t => build_of (DeleteAttachment o s t)
  | MListAttachments o t => build_of (ListAttachments o t)
  | MListMessages t l => build_of (WSListMessages t l) | MListUsers r => build_of (WSListUsers r)
  | MListEvents a l => build_of (ListEvents a l) | MListClusterNodes => build_of ListClusterNodes
  | MListNodeLoggedInUsers n => build_of (ListNodeLoggedInUsers n)
  | MResolveUserSessions u => build_of (ResolveUserSessions u)
  | MOperationsStatus => build_of Client_OperationsStatus | MMetrics => build_of Metrics
  | MPostMessage t b => build_of (PostMessage t b)
  | MSendPacketToSession t s b mode => build_of (SendPacketToSession t s b mode)
  | MCreateSubscription u c => build_of (CreateSubscription u c)
  | MSubscribeChannel u c => build_of (SubscribeChannel u c) | MUnsubscribeChannel u c => build_of (UnsubscribeChannel u c)
  | MListSubscriptions u => build_of (ListSubscriptions u)
  | MBlockUser o b => build_of (BlockUser o b) | MUnblockUser o b => build_of (UnblockUser o b)
  | MListBlockedUsers o => build_of (ListBlockedUsers o)
  end.

(** The ID a request carries, and the users it must name. *)
Definition request_id (b : pb_ClientEnvelope_Body) : option Z :=
  match b with
  | pb_ClientEnvelope_Login _ | pb_ClientEnvelope_AckMessage _ => None
  | pb_ClientEnvelope_SendMessage v => Some (pb_SendMessageRequest_RequestId v)
  | pb_ClientEnvelope_Ping v => Some (pb_Ping_RequestId v)
  | pb_ClientEnvelope_CreateUser v => Some (pb_CreateUserRequest_RequestId v)
  | pb_ClientEnvelope_GetUser v => Some (pb_GetUserRequest_RequestId v)
  | pb_ClientEnvelope_UpdateUser v => Some (pb_UpdateUserRequest_RequestId v)
  | pb_ClientEnvelope_DeleteUser v => Some (pb_DeleteUserRequest_RequestId v)
  | pb_ClientEnvelope_ListMessages v => Some (pb_ListMessagesRequest_RequestId v)
  | pb_ClientEnvelope_UpsertUserAttachment v => Some (pb_UpsertUserAttachmentRequest_RequestId v)
  | pb_ClientEnvelope_DeleteUserAttachment v => Some (pb_DeleteUserAttachmentRequest_RequestId v)
  | pb_ClientEnvelope_ListUserAttachments v => Some (pb_ListUserAttachmentsRequest_RequestId v)
  | pb_ClientEnvelope_ListEvents v => Some (pb_ListEventsRequest_RequestId v)
  | pb_ClientEnvelope_OperationsStatus v => Some (pb_OperationsStatusRequest_RequestId v)
  | pb_ClientEnvelope_Metrics v => Some (pb_MetricsRequest_RequestId v)
  | pb_ClientEnvelope_ListClusterNodes v => Some (pb_ListClusterNodesRequest_RequestId v)
  | pb_ClientEnvelope_ListNodeLoggedInUsers v => Some (pb_ListNodeLoggedInUsersRequest_RequestId v)
  | pb_ClientEnvelope_ResolveUserSessions v => Some (pb_ResolveUserSessionsRequest_RequestId v)
  | pb_ClientEnvelope_GetUserMetadata v => Some (pb_GetUserMetadataRequest_RequestId v)
  | pb_ClientEnvelope_UpsertUserMetadata v => Some (pb_UpsertUserMetadataRequest_RequestId v)
  | pb_ClientEnvelope_DeleteUserMetadata v => Some (pb_DeleteUserMetadataRequest_RequestId v)
  | pb_ClientEnvelope_ScanUserMetadata v => Some (pb_ScanUserMetadataRequest_RequestId v)
  | pb_ClientEnvelope_ListUsers v => Some (pb_ListUsersRequest_RequestId v)
  | pb_ClientEnvelope_StreamFrame v => Some (pb_StreamFrameRequest_RequestId v)
  end.

Definition named_users (b : pb_ClientEnvelope_Body) : list (option pb_UserRef) :=
  match b with
  | pb_ClientEnvelope_SendMessage v => [pb_SendMessageRequest_Target v]
  | pb_ClientEnvelope_GetUser v => [pb_GetUserRequest_User v]
  | pb_ClientEnvelope_UpdateUser v => [pb_UpdateUserRequest_User v]
  | pb_ClientEnvelope_DeleteUser v => [pb_DeleteUserRequest_User v]
  | pb_ClientEnvelope_ListMessages v => [pb_ListMessagesRequest_User v]
  | pb_ClientEnvelope_UpsertUserAttachment v =>
      [pb_UpsertUserAttachmentRequest_Owner v; pb_UpsertUserAttachmentRequest_Subject v]
  | pb_ClientEnvelope_DeleteUserAttachment v =>
      [pb_DeleteUserAttachmentRequest_Owner v; pb_DeleteUserAttachmentRequest_Subject v]
  | pb_ClientEnvelope_ListUserAttachments v => [pb_ListUserAttachmentsRequest_Owner v]
  | pb_ClientEnvelope_ResolveUserSessions v => [pb_ResolveUserSessionsRequest_User v]
  | pb_ClientEnvelope_GetUserMetadata v => [pb_GetUserMetadataRequest_Owner v]
  | pb_ClientEnvelope_UpsertUserMetadata v => [pb_UpsertUserMetadataRequest_Owner v]
  | pb_ClientEnvelope_DeleteUserMetadata v => [pb_DeleteUserMetadataRequest_Owner v]
  | pb_ClientEnvelope_ScanUserMetadata v => [pb_ScanUserMetadataRequest_Owner v]
  | _ => []
  end.

(** A reference to an actual user. *)
Definition names_user (r : option pb_UserRef) : Prop :=
  exists n u, r = Some (mkpb_UserRef n u) /\ n <> 0 /\ u <> 0.

Lemma userRef_names r : UserRef_validate r = None -> names_user (userRefToProto r).
Proof.
  rewrite UserRef_validate_None. intros [Hn Hu]. exists (ur_NodeID r), (ur_UserID r).
  unfold userRefToProto, UserRef_IsZero. by rewrite (proj2 (Z.eqb_neq _ _) Hn).
Qed.
#[export] Hint Resolve userRef_names : go.

Lemma build_guard {A} v (rest : call A) build :
  build_of (guard v rest) = Some build -> v = None /\ build_of rest = Some build.
Proof. by destruct v. Qed.
Lemma build_guard_as {A} f v (rest : call A) build :
  build_of (guard_as f v rest) = Some build -> v = None /\ build_of rest = Some build.
Proof. by destruct v. Qed.
Lemma build_map {A B} (f : A -> B) c : build_of (call_map f c) = build_of c.
Proof. by destruct c. Qed.

(** Walks the guards a call that sends has passed. *)
Ltac built H :=
  repeat first
    [ rewrite build_map in H
    | apply build_guard in H as [? H] | apply build_guard_as in H as [? H]
    | match type of H with build_of (if ?b then _ else _) = _ =>
        let E := fresh "E" in destruct b eqn:E; [discriminate H|] end ];
  injection H as <-.

(** Whatever a method is called with, the request it sends, if it sends any,
    carries the ID drawn for it and names an actual user wherever the request must name one. *)
Lemma requests_wellformed m build id :
  request_of m = Some build ->
  request_id (build id) = Some id /\ Forall names_user (named_users (build id)).
Proof.
  destruct m; simpl; intros H;
    unfold CreateChannel, CreateUser, PostPacket, PostMessage, SendMessage, SendPacketToSession, SendPacket,
      WSScanUserMetadata, ListNodeLoggedInUsers, CreateSubscription, SubscribeChannel, UnsubscribeChannel,
      ListSubscriptions, BlockUser, UnblockUser, ListBlockedUsers in H;
    built H; (split; [done|]); simpl; auto with go.
Qed.

(** A message or event limit is sent as it is given exactly when it fits 32 bits;
    a larger one wraps around, so asking for 2^32 messages sends a limit of 0. *)
Theorem api_limit_truncated target limit id :
  UserRef_validate target = None ->
  exists build, request_of (MListMessages target limit) = Some build /\
    exists v, build id = pb_ClientEnvelope_ListMessages v /\
      (pb_ListMessagesRequest_Limit v = limit <-> -2147483648 <= limit < 2147483648) /\
      (limit = 4294967296 -> pb_ListMessagesRequest_Limit v = 0).
Proof.
  intros Ht. simpl. unfold WSListMessages. rewrite Ht. eexists. split; [done|]. eexists. split; [done|].
  simpl. unfold i32. split; [|by intros ->].
  pose proof (Z.mod_pos_bound (limit + 2147483648) 4294967296 eq_refl). split; [lia|].
  intros. rewrite Z.mod_small; lia.
Qed.

Lemma api_limit_truncated_witness :
  UserRef_validate (mkUserRef 1 2) = None /\
  exists build, request_of (MListMessages (mkUserRef 1 2) 4294967296) = Some build /\
    exists v, build 5 = pb_ClientEnvelope_ListMessages v /\ pb_ListMessagesRequest_Limit v = 0.
Proof.
  split; [reflexivity|].
  destruct (api_limit_truncated (mkUserRef 1 2) 4294967296 5 eq_refl) as (b & Hb & v & Hv & _ & H0).
  exists b. split; [exact Hb|]. exists v. split; [exact Hv|]. by apply H0.
Defined.
