(* ===== verification/Client.v ===== *)
(** * The WebSocket client (client.go): state and operations

    The [Client] struct, with the pending RPCs, the tracked stream sends, the relay manager
    and the cursor store, and one function per method that runs under its locks. What the
    environment decides (the outcome of a write, a read, a dial) is an argument; what the
    client does to the outside (frames, handler callbacks) is a list of events, in order.
    A transport is the number of its connection; a result channel is a cell of [c_chans] that
    holds at most one result, as its Go buffer does. *)

From stdpp Require Import base list strings gmap.
From S2P Require Import Prelude Errors Types StreamProtocol Wire RelayConn RelayManager Text Metadata Password.
From S2P Require Import Records Convert Requests Store ClientApi.

Definition clientProtocolVersion : string := "client-v1alpha5".
Definition DefaultStreamSendPendingLimit : Z := 1024.

(** Durations are nanoseconds. *)
Definition Second : Z := 1000000000.

(** Which optional interfaces the handler implements; [NopHandler] has none. *)
Record Handler : Type := mkHandler { h_Stream : bool; h_StreamSend : bool; h_RelayOrphan : bool }.
Definition NopHandler : Handler := mkHandler false false false.

(** A nil interface or pointer is [None]. *)
Record Config (S : Type) : Type := mkConfig {
  cfg_BaseURL : string;
  cfg_Credentials : Credentials;
  cfg_CursorStore : option S;
  cfg_Handler : option Handler;
  cfg_Reconnect : bool;
  cfg_InitialReconnectDelay : Z;
  cfg_MaxReconnectDelay : Z;
  cfg_PingInterval : Z;
  cfg_RequestTimeout : Z;
  cfg_AckMessages : bool;
  cfg_TransientOnly : bool;
  cfg_RealtimeStream : bool;
  cfg_StreamSendPendingLimit : Z;
}.
Arguments mkConfig {S}. Arguments cfg_BaseURL {S}. Arguments cfg_Credentials {S}. Arguments cfg_CursorStore {S}.
Arguments cfg_Handler {S}. Arguments cfg_Reconnect {S}. Arguments cfg_InitialReconnectDelay {S}.
Arguments cfg_MaxReconnectDelay {S}. Arguments cfg_PingInterval {S}. Arguments cfg_RequestTimeout {S}.
Arguments cfg_AckMessages {S}. Arguments cfg_TransientOnly {S}. Arguments cfg_RealtimeStream {S}.
Arguments cfg_StreamSendPendingLimit {S}.

Record StreamSendMetadata : Type := mkStreamSendMetadata {
  sm_Target : UserRef;
  sm_TargetSession : SessionRef;
  sm_StreamID : StreamID;
  sm_Kind : StreamFrameKind;
  sm_Epoch : Z;
}.
Record StreamSendResult : Type := mkStreamSendResult {
  sres_RequestID : Z;
  sres_Metadata : StreamSendMetadata;
  sres_Err : option error;
}.

(** [requestResult]: the read loop stores a value or an error. *)
Abbreviation requestResult := (result error any).

Record Client (S : Type) : Type := mkClient {
  c_cfg : Config S;
  c_store : S;
  c_handler : Handler;
  c_closed : bool;
  c_stopReconnect : bool;
  c_conn : option nat;
  c_authenticated : bool;
  c_loginInfo : LoginInfo;
  c_pending : gmap Z nat;
  c_chans : gmap nat (option requestResult);
  c_nextChan : nat;
  c_streamSendPending : gmap Z StreamSendMetadata;
  c_requestID : Z;
  c_relay : option Relay;
  c_firstConnect : option (option error);
}.
Arguments mkClient {S}. Arguments c_cfg {S}. Arguments c_store {S}. Arguments c_handler {S}. Arguments c_closed {S}.
Arguments c_stopReconnect {S}. Arguments c_conn {S}. Arguments c_authenticated {S}. Arguments c_loginInfo {S}.
Arguments c_pending {S}. Arguments c_chans {S}. Arguments c_nextChan {S}. Arguments c_streamSendPending {S}.
Arguments c_requestID {S}. Arguments c_relay {S}. Arguments c_firstConnect {S}.

(** What the client does that others can see. *)
Inductive client_event : Type :=
| EOnLogin (info : LoginInfo)
| EOnMessage (m : Message)
| EOnPacket (p : Packet)
| EOnStream (p : Packet) (f : StreamFrame)
| EOnError (e : error)
| EOnDisconnect (e : error)
| EOnStreamSendResult (r : StreamSendResult)
| ERelayEvent (e : relay_event)
| EWrite (conn : nat) (body : pb_ClientEnvelope_Body)
| ECloseTransport (conn : nat).

Section client.
Context {S : Type}.
Implicit Types c : Client S.

(** ** Field updates *)

Definition set_store (v : S) c : Client S :=
  mkClient (c_cfg c) v (c_handler c) (c_closed c) (c_stopReconnect c) (c_conn c) (c_authenticated c) (c_loginInfo c)
    (c_pending c) (c_chans c) (c_nextChan c) (c_streamSendPending c) (c_requestID c) (c_relay c) (c_firstConnect c).
Definition set_closed (v : bool) c : Client S :=
  mkClient (c_cfg c) (c_store c) (c_handler c) v (c_stopReconnect c) (c_conn c) (c_authenticated c) (c_loginInfo c)
    (c_pending c) (c_chans c) (c_nextChan c) (c_streamSendPending c) (c_requestID c) (c_relay c) (c_firstConnect c).
Definition set_stop (v : bool) c : Client S :=
  mkClient (c_cfg c) (c_store c) (c_handler c) (c_closed c) v (c_conn c) (c_authenticated c) (c_loginInfo c)
    (c_pending c) (c_chans c) (c_nextChan c) (c_streamSendPending c) (c_requestID c) (c_relay c) (c_firstConnect c).
(** [c.conn], [c.authenticated] and [c.loginInfo], which only change together. *)
Definition set_session (conn : option nat) (auth : bool) (info : LoginInfo) c : Client S :=
  mkClient (c_cfg c) (c_store c) (c_handler c) (c_closed c) (c_stopReconnect c) conn auth info
    (c_pending c) (c_chans c) (c_nextChan c) (c_streamSendPending c) (c_requestID c) (c_relay c) (c_firstConnect c).
Definition set_rpc (pending : gmap Z nat) (chans : gmap nat (option requestResult)) (next : nat) c : Client S :=
  mkClient (c_cfg c) (c_store c) (c_handler c) (c_closed c) (c_stopReconnect c) (c_conn c) (c_authenticated c)
    (c_loginInfo c) pending chans next (c_streamSendPending c) (c_requestID c) (c_relay c) (c_firstConnect c).
Definition set_streamSend (v : gmap Z StreamSendMetadata) c : Client S :=
  mkClient (c_cfg c) (c_store c) (c_handler c) (c_closed c) (c_stopReconnect c) (c_conn c) (c_authenticated c)
    (c_loginInfo c) (c_pending c) (c_chans c) (c_nextChan c) v (c_requestID c) (c_relay c) (c_firstConnect c).
Definition set_requestID (v : Z) c : Client S :=
  mkClient (c_cfg c) (c_store c) (c_handler c) (c_closed c) (c_stopReconnect c) (c_conn c) (c_authenticated c)
    (c_loginInfo c) (c_pending c) (c_chans c) (c_nextChan c) (c_streamSendPending c) v (c_relay c) (c_firstConnect c).
Definition set_relay (v : option Relay) c : Client S :=
  mkClient (c_cfg c) (c_store c) (c_handler c) (c_closed c) (c_stopReconnect c) (c_conn c) (c_authenticated c)
    (c_loginInfo c) (c_pending c) (c_chans c) (c_nextChan c) (c_streamSendPending c) (c_requestID c) v (c_firstConnect c).
Definition set_firstConnect (v : option (option error)) c : Client S :=
  mkClient (c_cfg c) (c_store c) (c_handler c) (c_closed c) (c_stopReconnect c) (c_conn c) (c_authenticated c)
    (c_loginInfo c) (c_pending c) (c_chans c) (c_nextChan c) (c_streamSendPending c) (c_requestID c) (c_relay c) v.

(** ** Construction *)

(** [if cfg.X <= 0 { cfg.X = d }] *)
Definition default_pos (v d : Z) : Z := if v <=? 0 then d else v.

Definition NewClient (NewMemoryCursorStore : S) (cfg : Config S) : result error (Client S) :=
  if bool_decide (TrimSpace_string (cfg_BaseURL cfg) = "") then Err (errors_New "base URL is required")
  else
    match Credentials_validate (cfg_Credentials cfg) with
    | Some e => Err (Wrapf "invalid credentials: %w" [] e)
    | None =>
        let store := default NewMemoryCursorStore (cfg_CursorStore cfg) in
        let handler := default NopHandler (cfg_Handler cfg) in
        let cfg :=
          mkConfig (cfg_BaseURL cfg) (cfg_Credentials cfg) (Some store) (Some handler)
            (if negb (cfg_Reconnect cfg) then true else cfg_Reconnect cfg)
            (default_pos (cfg_InitialReconnectDelay cfg) Second)
            (default_pos (cfg_MaxReconnectDelay cfg) (30 * Second))
            (default_pos (cfg_PingInterval cfg) (30 * Second))
            (default_pos (cfg_RequestTimeout cfg) (10 * Second))
            (if negb (cfg_AckMessages cfg) then true else cfg_AckMessages cfg)
            (cfg_TransientOnly cfg) (cfg_RealtimeStream cfg)
            (default_pos (cfg_StreamSendPendingLimit cfg) DefaultStreamSendPendingLimit) in
        Ok (mkClient cfg store handler false false None false zero_LoginInfo ∅ ∅ 0 ∅ 0 None None)
    end.

Definition CurrentLogin c : option LoginInfo :=
  if negb (c_authenticated c) then None else Some (c_loginInfo c).

(** ** Results of RPCs *)

Definition nextRequestID c : Z * Client S :=
  let id := c_requestID c +u 1 in (id, set_requestID id c).

Definition registerPending (requestID : Z) c : result error (nat * Client S) :=
  if c_closed c then Err (Sentinel ErrClosed)
  else
    let ch := c_nextChan c in
    Ok (ch, set_rpc (<[requestID := ch]> (c_pending c)) (<[ch := None]> (c_chans c)) (Datatypes.S ch) c).

Definition unregisterPending (requestID : Z) c : Client S :=
  set_rpc (delete requestID (c_pending c)) (c_chans c) (c_nextChan c) c.

(** [select { case ch <- result: default: }] *)
Definition offer (ch : nat) (r : requestResult) (chans : gmap nat (option requestResult)) :=
  match chans !! ch with
  | Some None => <[ch := Some r]> chans
  | _ => chans
  end.

Definition resolvePending (requestID : Z) (r : requestResult) c : bool * Client S :=
  match c_pending c !! requestID with
  | None => (false, c)
  | Some ch => (true, set_rpc (c_pending c) (offer ch r (c_chans c)) (c_nextChan c) c)
  end.

Definition failAllPending (err : error) c : Client S :=
  set_rpc (c_pending c)
    (fold_right (fun ch chans => offer ch (Err err) chans) (c_chans c) (snd <$> map_to_list (c_pending c)))
    (c_nextChan c) c.

(** ** Tracked stream sends *)

Definition registerStreamSend (requestID : Z) (metadata : StreamSendMetadata) c : option error * Client S :=
  if c_closed c then (Some (Sentinel ErrClosed), c)
  else if cfg_StreamSendPendingLimit (c_cfg c) <=? Z.of_nat (size (c_streamSendPending c))
  then (Some (Sentinel ErrStreamSendPendingFull), c)
  else (None, set_streamSend (<[requestID := metadata]> (c_streamSendPending c)) c).

Definition takeStreamSend (requestID : Z) c : option StreamSendMetadata * Client S :=
  match c_streamSendPending c !! requestID with
  | Some metadata => (Some metadata, set_streamSend (delete requestID (c_streamSendPending c)) c)
  | None => (None, c)
  end.

Definition notifyStreamSend (r : StreamSendResult) c : list client_event :=
  if h_StreamSend (c_handler c) then [EOnStreamSendResult r] else [].

Definition completeStreamSend (requestID : Z) (err : option error) c : Client S * list client_event :=
  match takeStreamSend requestID c with
  | (None, c) => (c, [])
  | (Some metadata, c) => (c, notifyStreamSend (mkStreamSendResult requestID metadata err) c)
  end.

Definition failAllStreamSends (err : error) c : Client S * list client_event :=
  (set_streamSend ∅ c,
   flat_map (fun '(requestID, metadata) => notifyStreamSend (mkStreamSendResult requestID metadata (Some err)) c)
     (map_to_list (c_streamSendPending c))).

(** ** Writing *)

(** The checks of [sendEnvelopeOnTransport] before it queues for the writer lock. *)
Definition sendBegin c : error + nat :=
  if c_closed c then inl (Sentinel ErrClosed)
  else
    match c_conn c with
    | None => inl (Sentinel ErrNotConnected)
    | Some conn => if negb (c_authenticated c) then inl (Sentinel ErrNotConnected) else inr conn
    end.

Definition invalidateTransport (conn : nat) c : Client S * list client_event :=
  if negb (bool_decide (c_conn c = Some conn)) then (c, [])
  else (set_session None false zero_LoginInfo c, [ECloseTransport conn]).

(** [writeProtoPayload]: [err] is what [conn.Write] returned. *)
Definition writeProtoPayload (conn : nat) (body : pb_ClientEnvelope_Body) (err : option error) c
    : option error * Client S * list client_event :=
  match err with
  | Some e => let '(c', evs) := invalidateTransport conn c in (Some e, c', evs)
  | None => (None, c, [EWrite conn body])
  end.

(** The checks of [writeProtoOnTransport] once it holds the writer lock: the section under
    [stateMu], then the caller's context. *)
Definition writeTransport_check (conn : nat) (ctxErr : option error) c : option error :=
  if c_closed c then Some (Sentinel ErrClosed)
  else if negb (bool_decide (c_conn c = Some conn) && c_authenticated c) then Some (Sentinel ErrDisconnected)
  else ctxErr.

(** [writeProtoOnTransport]: the checks, then [conn.Write] outside [stateMu]. Both run here
    with nothing in between; ClientRun takes them as two steps, between which the serve loop
    can drop the transport and [Close] can run. *)
Definition writeProtoOnTransport (conn : nat) (body : pb_ClientEnvelope_Body) (ctxErr err : option error) c
    : option error * Client S * list client_event :=
  match writeTransport_check conn ctxErr c with
  | Some e => (Some e, c, [])
  | None => writeProtoPayload conn body err c
  end.

Definition sendEnvelope (body : pb_ClientEnvelope_Body) (ctxErr err : option error) c
    : option error * Client S * list client_event :=
  match sendBegin c with
  | inr conn => writeProtoOnTransport conn body ctxErr err c
  | inl e => (Some e, c, [])
  end.

Definition invalidatePingTransport (conn : option nat) (err : option error) c : Client S * list client_event :=
  match conn, err with
  | Some conn, Some err =>
      if bool_decide (is_Some (errors_As_ServerError err)) || errors_Is err ErrClosed
         || errors_Is err ErrNotConnected || errors_Is err Canceled
      then (c, [])
      else invalidateTransport conn c
  | _, _ => (c, [])
  end.

Definition streamFrameRequest (requestID : Z) (target : UserRef) (targetSession : SessionRef) (frame : StreamFrame)
    : pb_StreamFrameRequest :=
  {| pb_StreamFrameRequest_RequestId := requestID;
     pb_StreamFrameRequest_Target := userRefToProto target;
     pb_StreamFrameRequest_TargetSession := sessionRefToProto targetSession;
     pb_StreamFrameRequest_StreamId := sf_ID frame;
     pb_StreamFrameRequest_Kind := sf_Kind frame;
     pb_StreamFrameRequest_Epoch := sf_Epoch frame;
     pb_StreamFrameRequest_Offset := sf_Offset frame;
     pb_StreamFrameRequest_Window := sf_Window frame;
     pb_StreamFrameRequest_Payload := sf_Payload frame |}.

Definition SendStreamFrame (target : UserRef) (targetSession : SessionRef) (frame : StreamFrame)
    (ctxErr err : option error) c : option error * Client S * list client_event :=
  match UserRef_validate target with
  | Some e => (Some e, c, [])
  | None =>
      if negb (length (sf_ID frame) =? 16)%nat then (Some (errors_New "stream ID must be 16 bytes"), c, [])
      else sendEnvelope (pb_ClientEnvelope_StreamFrame (streamFrameRequest 0 target targetSession frame)) ctxErr err c
  end.

(** The checks of [SendStreamFrameTracked] before it draws an ID. *)
Definition trackedCheck (target : UserRef) (targetSession : SessionRef) (frame : StreamFrame) : option error :=
  first_err [
    UserRef_validate target;
    if SessionRef_IsZero targetSession then None
    else match SessionRef_validate targetSession with
         | Some e => Some (Wrapf "invalid target_session: %w" [] e) | None => None end;
    if (sf_Kind frame <? StreamFrameOpen) || (StreamFrameClose <? sf_Kind frame)
    then Some (Errorf "invalid stream frame kind %d" [FInt (sf_Kind frame)]) else None;
    if DefaultStreamMaxFrame <? len (sf_Payload frame)
    then Some (Errorf "stream payload exceeds %d bytes" [FInt DefaultStreamMaxFrame]) else None ].

Definition trackedMetadata (target : UserRef) (targetSession : SessionRef) (frame : StreamFrame) : StreamSendMetadata :=
  mkStreamSendMetadata target targetSession (sf_ID frame) (sf_Kind frame) (sf_Epoch frame).

(** ** Receiving *)

Context `{CursorStore S}.

Definition persistMessage (msg : Message) c : option error * Client S :=
  let '(s, err) := SaveMessage msg (c_store c) in
  match err with
  | Some e => (Some e, set_store s c)
  | None => let '(s, err) := SaveCursor (Message_Cursor msg) s in (err, set_store s c)
  end.

(** [handler.OnStream] when the handler consumes streams. *)
Definition dispatchStream (pkt : Packet) (frame : StreamFrame) c : list client_event :=
  if h_Stream (c_handler c) then [EOnStream pkt frame] else [EOnPacket pkt].

Definition streamFramePushed (f : pb_StreamFramePushed) c : option error * Client S * list client_event :=
  if negb (length (pb_StreamFramePushed_StreamId f) =? 16)%nat then (Some (EProtocol "invalid stream id" []), c, [])
  else
    let pkt := mkPacket 0 0 0 (userRefFromProto (pb_StreamFramePushed_Recipient f))
                 (userRefFromProto (pb_StreamFramePushed_Sender f)) [] ""
                 (sessionRefFromProto (pb_StreamFramePushed_SourceSession f)) in
    let frame := mkStreamFrame (pb_StreamFramePushed_Kind f mod 256) (pb_StreamFramePushed_StreamId f)
                   (pb_StreamFramePushed_Epoch f) (pb_StreamFramePushed_Offset f)
                   (pb_StreamFramePushed_Window f) (pb_StreamFramePushed_Payload f) in
    (None, c, dispatchStream pkt frame c).

(** A packet: the relay manager sees it first, then a stream frame, then the application. *)
Definition packetPushed (unmarshal : bytes -> result error pb_RelayEnvelope) (now : Z) (pkt : Packet) c
    : result error (option error * Client S * list client_event) :=
  '(handled, c, evs) ←
     match c_relay c with
     | None => mret (false, c, [])
     | Some r =>
         '(handled, r', evs) ← handlePacket unmarshal (h_RelayOrphan (c_handler c)) pkt now r;
         mret (handled : bool, set_relay (Some r') c, ERelayEvent <$> evs)
     end;
  if handled : bool then mret (None, c, evs)
  else if IsStreamFrame (p_Body pkt)
  then
    match UnmarshalStreamFrame (p_Body pkt) with
    | Ok frame => mret (None, c, evs ++ dispatchStream pkt frame c)
    | Err e => mret (Some e, c, evs)
    | Panic => Panic
    end
  else mret (None, c, evs ++ [EOnPacket pkt]).

Definition messagePushed (msg : Message) (ctxErr err : option error) c : option error * Client S * list client_event :=
  match persistMessage msg c with
  | (Some e, c) => (Some e, c, [])
  | (None, c) =>
      let '(c, evs) :=
        if cfg_AckMessages (c_cfg c)
        then
          let '(e, c, evs) :=
            sendEnvelope (pb_ClientEnvelope_AckMessage (mkpb_AckMessage (cursorToProto (Message_Cursor msg)))) ctxErr err c in
          match e with
          | Some e => if negb (errors_Is e ErrNotConnected) && negb (errors_Is e ErrClosed)
                      then (c, evs ++ [EOnError e]) else (c, evs)
          | None => (c, evs)
          end
        else (c, []) in
      (None, c, evs ++ [EOnMessage msg])
  end.

Definition sendMessageResponse (v : pb_SendMessageResponse) c : Client S :=
  let '(r, c) :=
    match pb_SendMessageResponse_body v with
    | Some (pb_SendMessageResponse_Message m) =>
        let msg := messageFromProto (Some m) in
        match persistMessage msg c with
        | (Some e, c) => (Err e, c)
        | (None, c) => (Ok (AMessage msg), c)
        end
    | Some (pb_SendMessageResponse_TransientAccepted a) => (Ok (ARelayAccepted (relayAcceptedFromProto (Some a))), c)
    | None => (Err (EProtocol "empty send_message_response" []), c)
    end in
  (resolvePending (pb_SendMessageResponse_RequestId v) r c).2.

Definition serverError (v : pb_Error) : error :=
  EServer (mkServerError (pb_Error_Code v) (pb_Error_Message v) (pb_Error_RequestId v)).

Definition errorResponse (v : pb_Error) c : option error * Client S * list client_event :=
  if negb (pb_Error_RequestId v =? 0)
  then
    match resolvePending (pb_Error_RequestId v) (Err (serverError v)) c with
    | (true, c) => (None, c, [])
    | (false, c) =>
        let '(c, evs) := completeStreamSend (pb_Error_RequestId v) (Some (serverError v)) c in (None, c, evs)
    end
  else (Some (serverError v), c, []).

(** [handleServerEnvelope]: [ctxErr] and [err] are the outcomes of the write of an ACK. *)
Definition handleServerEnvelope (unmarshal : bytes -> result error pb_RelayEnvelope) (now : Z) (ctxErr err : option error)
    (env : pb_ServerEnvelope) c : result error (option error * Client S * list client_event) :=
  match pb_ServerEnvelope_body env with
  | Some (pb_ServerEnvelope_MessagePushed v) =>
      mret (messagePushed (messageFromProto (pb_MessagePushed_Message v)) ctxErr err c)
  | Some (pb_ServerEnvelope_StreamFrame f) => mret (streamFramePushed f c)
  | Some (pb_ServerEnvelope_StreamFrameResult v) =>
      let '(c, evs) := completeStreamSend (pb_StreamFrameResult_RequestId v) None c in mret (None, c, evs)
  | Some (pb_ServerEnvelope_PacketPushed v) => packetPushed unmarshal now (packetFromProto (pb_PacketPushed_Packet v)) c
  | Some (pb_ServerEnvelope_SendMessageResponse v) => mret (None, sendMessageResponse v c, [])
  | Some (pb_ServerEnvelope_Error v) => mret (errorResponse v c)
  | Some (pb_ServerEnvelope_LoginResponse v) =>
      mret (Some (EProtocol "unexpected login_response after authentication" []), c, [])
  | Some body =>
      match response_of body with
      | Some (id, v) => mret (None, (resolvePending id (Ok v) c).2, [])
      | None => mret (Some (EProtocol "unsupported server envelope" []), c, [])
      end
  | None => mret (Some (EProtocol "unsupported server envelope" []), c, [])
  end.

(** ** The session *)

Definition loginRequest (seen : list MessageCursor) c : pb_ClientEnvelope_Body :=
  let creds := cfg_Credentials (c_cfg c) in
  let '(loginUser, loginName) := loginSelector creds in
  pb_ClientEnvelope_Login
    {| pb_LoginRequest_User := loginUser;
       pb_LoginRequest_LoginName := loginName;
       pb_LoginRequest_Password := WireValue (Credentials_Password creds);
       pb_LoginRequest_SeenMessages := collect cursorToProto seen;
       pb_LoginRequest_TransientOnly := cfg_TransientOnly (c_cfg c);
       pb_LoginRequest_ProtocolVersion := clientProtocolVersion |}.

Definition expectLogin (env : pb_ServerEnvelope) c : (error + LoginInfo) * Client S :=
  match pb_ServerEnvelope_body env with
  | Some (pb_ServerEnvelope_LoginResponse v) =>
      let got := pb_LoginResponse_ProtocolVersion v in
      if negb (bool_decide (got = clientProtocolVersion))
      then (inl (EProtocol "unsupported login response protocol version: got=%q want=%q"
                   [FStr got; FStr clientProtocolVersion]), set_stop true c)
      else (inr (mkLoginInfo (userFromProto (pb_LoginResponse_User v)) (pb_LoginResponse_ProtocolVersion v)
                  (sessionRefFromProto (pb_LoginResponse_SessionRef v))), c)
  | Some (pb_ServerEnvelope_Error v) =>
      (inl (serverError v),
       set_stop (bool_decide (pb_Error_Code v = "unauthorized")
                 || bool_decide (pb_Error_Code v = "unsupported_protocol_version")) c)
  | _ => (inl (EProtocol "expected login_response or error" []), c)
  end.

Definition signalFirstConnect (err : option error) c : Client S :=
  match c_firstConnect c with None => set_firstConnect (Some err) c | Some _ => c end.

(** [connectAndServe] up to the login request: the transport is [conn] when the dial succeeds. *)
Definition beginSession (dialErr : option error) (conn : nat) (ctxErr writeErr : option error) c
    : option error * list client_event :=
  if c_closed c then (Some (Sentinel ErrClosed), [])
  else
    match LoadSeenMessages (c_store c) with
    | inl e => (Some e, [])
    | inr seen =>
        match dialErr with
        | Some e => (Some e, [])
        | None =>
            match ctxErr with
            | Some e => (Some e, [ECloseTransport conn])
            | None =>
                match writeErr with
                | Some e => (Some e, [ECloseTransport conn])
                | None => (None, [EWrite conn (loginRequest seen c)])
                end
            end
        end
    end.

(** ... from the first frame the server sends (or the error of the read) to the read loop. *)
Definition establish (conn : nat) (serverEnv : error + pb_ServerEnvelope) c
    : option error * Client S * list client_event :=
  match serverEnv with
  | inl e => (Some e, c, [ECloseTransport conn])
  | inr env =>
      match expectLogin env c with
      | (inr info, c) =>
          (None, signalFirstConnect None (set_session (Some conn) true info c), [EOnLogin info])
      | (inl e, c) => (Some e, c, [ECloseTransport conn])
      end
  end.

(** The read loop over the envelopes that arrive, each with the outcome of its ACK's write. *)
Record arrival : Type := mkArrival { a_env : pb_ServerEnvelope; a_now : Z; a_ctxErr : option error; a_err : option error }.

Definition on_error (e : option error) : list client_event := match e with Some e => [EOnError e] | None => [] end.

Fixpoint readLoop (unmarshal : bytes -> result error pb_RelayEnvelope) (l : list arrival) c
    : result error (Client S * list client_event) :=
  match l with
  | [] => mret (c, [])
  | a :: l =>
      '(e, c, evs) ← handleServerEnvelope unmarshal (a_now a) (a_ctxErr a) (a_err a) (a_env a) c;
      '(c, evs') ← readLoop unmarshal l c;
      mret (c, evs ++ on_error e ++ evs')
  end.

(** What [readLoop] returns when a read fails with [err]; [normal] says that the peer closed
    the connection normally. *)
Definition readLoop_error (err : error) (normal : bool) : error :=
  if errors_Is err Canceled || normal then Sentinel ErrClosed else err.

(** The end of [connectAndServe], in its four critical sections. *)
Definition dropSession (conn : nat) c : Client S :=
  set_session (if bool_decide (c_conn c = Some conn) then None else c_conn c) false zero_LoginInfo c.
Definition closeRelays (reason : error) c : Client S :=
  let r := default newRelay (c_relay c) in set_relay (Some (RelayManager.closeAll (Some reason) r)) c.
Definition endSession (conn : nat) (readErr : error) c : Client S * list client_event :=
  let c := dropSession conn c in
  let c := failAllPending (Sentinel ErrDisconnected) c in
  let '(c, evs) := failAllStreamSends (Sentinel ErrDisconnected) c in
  (closeRelays (Sentinel ErrDisconnected) c, evs ++ [EOnDisconnect readErr; ECloseTransport conn]).

(** What the environment does during one [connectAndServe]. *)
Record session : Type := mkSession {
  s_conn : nat;
  s_dialErr : option error;
  s_ctxErr : option error;
  s_writeErr : option error;
  s_first : error + pb_ServerEnvelope;
  s_arrivals : list arrival;
  s_readErr : error;
  s_normal : bool;                 (* the peer's close status is normal *)
}.

Definition connectAndServe (unmarshal : bytes -> result error pb_RelayEnvelope) (s : session) c
    : result error (option error * Client S * list client_event) :=
  match beginSession (s_dialErr s) (s_conn s) (s_ctxErr s) (s_writeErr s) c with
  | (Some e, evs) => mret (Some e, c, evs)
  | (None, evs1) =>
      match establish (s_conn s) (s_first s) c with
      | (Some e, c, evs2) => mret (Some e, c, evs1 ++ evs2)
      | (None, c, evs2) =>
          '(c, evs3) ← readLoop unmarshal (s_arrivals s) c;
          let readErr := readLoop_error (s_readErr s) (s_normal s) in
          let '(c, evs4) := endSession (s_conn s) readErr c in
          mret (Some readErr, c, evs1 ++ evs2 ++ evs3 ++ evs4)
      end
  end.

(** [Close] *)
Definition Close c : Client S * list client_event :=
  if c_closed c then (c, [])
  else
    let conn := c_conn c in
    let c := set_session None false zero_LoginInfo (set_closed true c) in
    let '(c, evs) := failAllStreamSends (Sentinel ErrClosed) c in
    (closeRelays (Sentinel ErrClosed) c,
     evs ++ match conn with Some conn => [ECloseTransport conn] | None => [] end).

Definition shouldRetry (err : error) c : bool :=
  if c_closed c then false
  else if c_stopReconnect c then false
  else if negb (cfg_Reconnect (c_cfg c)) then false
  else
    match errors_As_ServerError err with
    | Some e => if Unauthorized (Some e) then false else negb (errors_Is err ErrClosed)
    | None => negb (errors_Is err ErrClosed)
    end.

(** One turn of [run] after [connectAndServe] returned [err]: the client is done, or waits
    before it connects again and doubles the next delay. *)
Inductive run_next : Type :=
| RunReturn
| RunContinue (delay : Z)
| RunWait (wait delay : Z).

Definition run_turn (err : option error) (delay : Z) c : run_next * Client S * list client_event :=
  match err with
  | None =>
      let delay := cfg_InitialReconnectDelay (c_cfg c) in
      (if c_closed c then RunReturn else RunContinue delay, c, [])
  | Some err =>
      if c_closed c || negb (shouldRetry err c)
      then (RunReturn, failAllPending err (signalFirstConnect (Some err) c), [])
      else
        let next := i64 (delay * 2) in
        let next := if cfg_MaxReconnectDelay (c_cfg c) <? next then cfg_MaxReconnectDelay (c_cfg c) else next in
        (RunWait delay next, c, [EOnError err])
  end.

(** [run] when the client is closed while it waits. *)
Definition run_cancelled c : Client S := failAllPending (Sentinel ErrClosed) c.

End client.
