(* ===== verification/ClientRun.v ===== *)
(** * RPCs over reconnecting transports: the interleavings of client.go

    The goroutines that call RPCs ([rpcOnTransport], one critical section per step), the serve
    loop (login, envelopes, the critical sections of the teardown), [Close] and the
    invalidation of a transport, interleaved arbitrarily by [cl_step]. Request IDs are drawn
    fewer than 2^64 times. *)

From stdpp Require Import base list strings gmap.
From S2P Require Import Prelude Errors Types StreamProtocol Wire RelayManager Records Convert Requests Store ClientApi Client.

(** Where a goroutine is in [rpcOnTransport]. *)
Inductive rpc_pc : Type :=
| PRegister (id : Z)
| PSnapshot (id : Z) (ch : nat)
| PWrite (id : Z) (ch conn : nat)       (* waits for writeMu *)
| PPayload (id : Z) (ch conn : nat)     (* holds writeMu, past the checks of writeProtoOnTransport *)
| PWait (id : Z) (ch conn : nat)
| PDone (id : Z) (res : requestResult).

(** A goroutine, and whether the context of its caller is done. *)
Record rpc_thread : Type := mkThread { t_pc : rpc_pc; t_done : bool }.

(** Where the serve loop is. *)
Inductive serve_pc : Type :=
| SIdle                        (* between connections *)
| SReading (conn : nat)        (* in readLoop *)
| SDropped (conn : nat)        (* conn = nil *)
| SFailed (conn : nat)         (* after failAllPending *)
| SStopped.

Definition pc_id (p : rpc_pc) : Z :=
  match p with PRegister id | PSnapshot id _ | PWrite id _ _ | PPayload id _ _ | PWait id _ _ | PDone id _ => id end.
(** The channel a goroutine has registered and not given back. *)
Definition pc_chan (p : rpc_pc) : option nat :=
  match p with PSnapshot _ ch | PWrite _ ch _ | PPayload _ ch _ | PWait _ ch _ => Some ch | _ => None end.
Definition pc_conn (p : rpc_pc) : option nat :=
  match p with PWrite _ _ conn | PPayload _ _ conn | PWait _ _ conn => Some conn | _ => None end.
(** The goroutine has the writer lock. *)
Definition pc_writing (p : rpc_pc) : bool := match p with PPayload _ _ _ => true | _ => false end.

Section run.
Context {S : Type} `{CursorStore S}.
Context (unmarshal : bytes -> result error pb_RelayEnvelope).
Implicit Types c : Client S.

Record machine : Type := mkMachine {
  m_client : Client S;
  m_threads : gmap nat rpc_thread;
  m_serve : serve_pc;
  m_nextConn : nat;
  m_failed : gset nat;                       (* transports whose pending RPCs were failed *)
  m_log : list (Z * requestResult);          (* responses read, in order *)
}.

Definition upd_client (c : Client S) (m : machine) : machine :=
  mkMachine c (m_threads m) (m_serve m) (m_nextConn m) (m_failed m) (m_log m).
Definition upd_thread (k : nat) (t : rpc_thread) (m : machine) : machine :=
  mkMachine (m_client m) (<[k := t]> (m_threads m)) (m_serve m) (m_nextConn m) (m_failed m) (m_log m).
Definition upd_serve (s : serve_pc) (m : machine) : machine :=
  mkMachine (m_client m) (m_threads m) s (m_nextConn m) (m_failed m) (m_log m).

(** The request an envelope resolves, and with what. *)
Definition resolution (env : pb_ServerEnvelope) (c : Client S) : option (Z * requestResult) :=
  match pb_ServerEnvelope_body env with
  | Some (pb_ServerEnvelope_SendMessageResponse v) =>
      Some (pb_SendMessageResponse_RequestId v,
        match pb_SendMessageResponse_body v with
        | Some (pb_SendMessageResponse_Message m) =>
            match (persistMessage (messageFromProto (Some m)) c).1 with
            | Some e => Err e
            | None => Ok (AMessage (messageFromProto (Some m)))
            end
        | Some (pb_SendMessageResponse_TransientAccepted a) => Ok (ARelayAccepted (relayAcceptedFromProto (Some a)))
        | None => Err (EProtocol "empty send_message_response" [])
        end)
  | Some (pb_ServerEnvelope_Error v) =>
      if negb (pb_Error_RequestId v =? 0) then Some (pb_Error_RequestId v, Err (serverError v)) else None
  | Some body => (fun '(id, v) => (id, Ok v)) <$> response_of body
  | None => None
  end.

(** No goroutine is between the checks of [writeProtoOnTransport] and the end of its write. *)
Definition writer_free (m : machine) : bool :=
  forallb (fun kt => negb (pc_writing (t_pc kt.2))) (map_to_list (m_threads m)).

(** [rpcOnTransport] returns: its deferred [unregisterPending] runs. *)
Definition rpc_return (k : nat) (id : Z) (res : requestResult) (done : bool) (c : Client S) (m : machine) : machine :=
  upd_thread k (mkThread (PDone id res) done) (upd_client (unregisterPending id c) m).

Inductive cl_step : machine -> machine -> Prop :=
| step_draw m k id c' :
    m_threads m !! k = None -> c_requestID (m_client m) + 1 < two64 ->
    nextRequestID (m_client m) = (id, c') ->
    cl_step m (upd_thread k (mkThread (PRegister id) false) (upd_client c' m))
| step_register m k d id ch c' :
    m_threads m !! k = Some (mkThread (PRegister id) d) ->
    registerPending id (m_client m) = Ok (ch, c') ->
    cl_step m (upd_thread k (mkThread (PSnapshot id ch) d) (upd_client c' m))
| step_register_err m k d id e :
    m_threads m !! k = Some (mkThread (PRegister id) d) ->
    registerPending id (m_client m) = Err e ->
    cl_step m (upd_thread k (mkThread (PDone id (Err e)) d) m)
| step_snapshot m k d id ch conn :
    m_threads m !! k = Some (mkThread (PSnapshot id ch) d) ->
    sendBegin (m_client m) = inr conn ->
    cl_step m (upd_thread k (mkThread (PWrite id ch conn) d) m)
| step_snapshot_err m k d id ch e :
    m_threads m !! k = Some (mkThread (PSnapshot id ch) d) ->
    sendBegin (m_client m) = inl e ->
    cl_step m (rpc_return k id (Err e) d (m_client m) m)
| step_check m k d id ch conn ctxErr :
    m_threads m !! k = Some (mkThread (PWrite id ch conn) d) -> writer_free m = true ->
    writeTransport_check conn ctxErr (m_client m) = None ->
    cl_step m (upd_thread k (mkThread (PPayload id ch conn) d) m)
| step_check_err m k d id ch conn ctxErr e :
    m_threads m !! k = Some (mkThread (PWrite id ch conn) d) -> writer_free m = true ->
    writeTransport_check conn ctxErr (m_client m) = Some e ->
    cl_step m (rpc_return k id (Err e) d (m_client m) m)
| step_write m k d id ch conn body err c' evs :
    m_threads m !! k = Some (mkThread (PPayload id ch conn) d) ->
    writeProtoPayload conn body err (m_client m) = (None, c', evs) ->
    cl_step m (upd_thread k (mkThread (PWait id ch conn) d) (upd_client c' m))
| step_write_err m k d id ch conn body err e c' evs :
    m_threads m !! k = Some (mkThread (PPayload id ch conn) d) ->
    writeProtoPayload conn body err (m_client m) = (Some e, c', evs) ->
    cl_step m (rpc_return k id (Err e) d c' m)
| step_result m k d id ch conn r :
    m_threads m !! k = Some (mkThread (PWait id ch conn) d) ->
    c_chans (m_client m) !! ch = Some (Some r) ->
    cl_step m (rpc_return k id r d
      (set_rpc (c_pending (m_client m)) (<[ch := None]> (c_chans (m_client m))) (c_nextChan (m_client m)) (m_client m)) m)
| step_ctx m k p :
    m_threads m !! k = Some (mkThread p false) ->
    cl_step m (upd_thread k (mkThread p true) m)
| step_after_func m k p ch :
    m_threads m !! k = Some (mkThread p true) -> pc_chan p = Some ch ->
    cl_step m (upd_client (unregisterPending (pc_id p) (m_client m)) m)
| step_wait_ctx m k id ch conn e :
    m_threads m !! k = Some (mkThread (PWait id ch conn) true) ->
    cl_step m (rpc_return k id (Err e) true (m_client m) m)
| step_login m env c' evs :
    m_serve m = SIdle -> establish (m_nextConn m) (inr env) (m_client m) = (None, c', evs) ->
    cl_step m (mkMachine c' (m_threads m) (SReading (m_nextConn m)) (Datatypes.S (m_nextConn m)) (m_failed m) (m_log m))
| step_login_err m e env c' evs :
    m_serve m = SIdle -> establish (m_nextConn m) env (m_client m) = (Some e, c', evs) ->
    cl_step m (mkMachine c' (m_threads m) SIdle (Datatypes.S (m_nextConn m)) (m_failed m) (m_log m))
| step_envelope m conn env now ctxErr err res c' evs :
    m_serve m = SReading conn ->
    handleServerEnvelope unmarshal now ctxErr err env (m_client m) = Ok (res, c', evs) ->
    cl_step m (mkMachine c' (m_threads m) (SReading conn) (m_nextConn m) (m_failed m)
                 (m_log m ++ option_list (resolution env (m_client m))))
| step_drop m conn :
    m_serve m = SReading conn ->
    cl_step m (upd_serve (SDropped conn) (upd_client (dropSession conn (m_client m)) m))
| step_fail m conn :
    m_serve m = SDropped conn ->
    cl_step m (mkMachine (failAllPending (Sentinel ErrDisconnected) (m_client m)) (m_threads m) (SFailed conn)
                 (m_nextConn m) ({[conn]} ∪ m_failed m) (m_log m))
| step_end m conn evs c' :
    m_serve m = SFailed conn ->
    failAllStreamSends (Sentinel ErrDisconnected) (m_client m) = (c', evs) ->
    cl_step m (upd_serve SIdle (upd_client (closeRelays (Sentinel ErrDisconnected) c') m))
| step_stop m delay err c' evs :
    m_serve m = SIdle -> run_turn (Some err) delay (m_client m) = (RunReturn, c', evs) ->
    cl_step m (upd_serve SStopped (upd_client c' m))
| step_close m c' evs :
    Close (m_client m) = (c', evs) ->
    cl_step m (upd_client c' m)
| step_invalidate m conn c' evs :
    invalidateTransport conn (m_client m) = (c', evs) ->
    cl_step m (upd_client c' m).

Definition cl_start (c : Client S) : machine := mkMachine c ∅ SIdle 0 ∅ [].

(** A client as [NewClient] makes it. *)
Definition fresh_client (c : Client S) : Prop :=
  c_pending c = ∅ /\ c_chans c = ∅ /\ c_conn c = None /\ c_requestID c = 0.

Inductive cl_reachable (c0 : Client S) : machine -> Prop :=
| reach_start : cl_reachable c0 (cl_start c0)
| reach_step m m' : cl_reachable c0 m -> cl_step m m' -> cl_reachable c0 m'.

(** ** What the operations do to the RPC state *)

Definition rpc_view (c : Client S) := (c_pending c, c_chans c, c_nextChan c, c_requestID c).

Lemma invalidate_view conn c c' evs :
  invalidateTransport conn c = (c', evs) -> rpc_view c' = rpc_view c /\ (c_conn c' = c_conn c \/ c_conn c' = None).
Proof. unfold invalidateTransport. intros Hi. case_match; simplify_eq; split; auto. Qed.

Lemma payload_view conn body err c e c' evs :
  writeProtoPayload conn body err c = (e, c', evs) ->
  rpc_view c' = rpc_view c /\ (c_conn c' = c_conn c \/ c_conn c' = None).
Proof.
  unfold writeProtoPayload. destruct err; [|by intros; simplify_eq; auto].
  destruct (invalidateTransport conn c) as [c1 evs1] eqn:Ei. intros. simplify_eq. by eapply invalidate_view.
Qed.

Lemma write_view conn body ctxErr err c e c' evs :
  writeProtoOnTransport conn body ctxErr err c = (e, c', evs) ->
  rpc_view c' = rpc_view c /\ (c_conn c' = c_conn c \/ c_conn c' = None).
Proof.
  unfold writeProtoOnTransport. destruct (writeTransport_check conn ctxErr c); [by intros; simplify_eq; auto|].
  by apply payload_view.
Qed.

Lemma send_view body ctxErr err c e c' evs :
  sendEnvelope body ctxErr err c = (e, c', evs) ->
  rpc_view c' = rpc_view c /\ (c_conn c' = c_conn c \/ c_conn c' = None).
Proof.
  unfold sendEnvelope. destruct (sendBegin c); intros Hs; [by simplify_eq; auto|by eapply write_view].
Qed.

Lemma persist_view msg c e c' :
  persistMessage msg c = (e, c') -> rpc_view c' = rpc_view c /\ c_conn c' = c_conn c.
Proof.
  unfold persistMessage. destruct (SaveMessage msg (c_store c)) as [s [e1|]]; [by intros; simplify_eq|].
  destruct (SaveCursor _ s) as [s2 e2]. by intros; simplify_eq.
Qed.

Lemma complete_view id err c c' evs :
  completeStreamSend id err c = (c', evs) -> rpc_view c' = rpc_view c /\ c_conn c' = c_conn c.
Proof.
  unfold completeStreamSend, takeStreamSend. destruct (c_streamSendPending c !! id); intros; by simplify_eq.
Qed.

Lemma pushed_view msg ctxErr err c e c' evs :
  messagePushed msg ctxErr err c = (e, c', evs) ->
  rpc_view c' = rpc_view c /\ (c_conn c' = c_conn c \/ c_conn c' = None).
Proof.
  unfold messagePushed. destruct (persistMessage msg c) as [[e1|] c1] eqn:Ep;
    apply persist_view in Ep as [Hv Hc]; rewrite <- Hv, <- Hc; [by intros; simplify_eq; auto|].
  destruct (cfg_AckMessages (c_cfg c1)); [|by intros; simplify_eq; auto].
  destruct (sendEnvelope _ ctxErr err c1) as [[e2 c2] evs2] eqn:Es. apply send_view in Es.
  destruct e2 as [e2|]; [destruct (negb (errors_Is e2 _) && _)|]; intros Hx; injection Hx as <- <- <-; exact Es.
Qed.

Lemma resolve_conn id r c : c_conn (resolvePending id r c).2 = c_conn c.
Proof. unfold resolvePending. by destruct (c_pending c !! id). Qed.

Lemma resolve_view id r c c1 :
  rpc_view c1 = rpc_view c -> rpc_view (resolvePending id r c1).2 = rpc_view (resolvePending id r c).2.
Proof.
  unfold rpc_view. intros [= Hp Hc Hn Hi]. unfold resolvePending. rewrite Hp.
  destruct (c_pending c !! id); simpl; congruence.
Qed.

Lemma sendMessageResponse_view v c :
  let r := default (0, Err (errors_New "")) (resolution (mkpb_ServerEnvelope (Some (pb_ServerEnvelope_SendMessageResponse v))) c) in
  rpc_view (sendMessageResponse v c) = rpc_view (resolvePending r.1 r.2 c).2 /\ c_conn (sendMessageResponse v c) = c_conn c.
Proof.
  unfold sendMessageResponse, resolution; simpl. destruct (pb_SendMessageResponse_body v) as [[m|a]|]; simpl.
  - destruct (persistMessage _ c) as [[e|] c1] eqn:Ep; simpl; apply persist_view in Ep as [Hv Hc];
      rewrite resolve_conn, Hc; split; [by apply resolve_view|done|by apply resolve_view|done].
  - by rewrite resolve_conn.
  - by rewrite resolve_conn.
Qed.

(** An envelope resolves its request and otherwise leaves the RPCs alone. *)
Lemma handle_view now ctxErr err env c e c' evs :
  handleServerEnvelope unmarshal now ctxErr err env c = Ok (e, c', evs) ->
  rpc_view c' = rpc_view match resolution env c with Some (id, r) => (resolvePending id r c).2 | None => c end /\
  (c_conn c' = c_conn c \/ c_conn c' = None).
Proof.
  unfold handleServerEnvelope, resolution. destruct (pb_ServerEnvelope_body env) as [[]|] eqn:Eb; simpl;
    try (intros Hok; injection Hok as <- <- <-; rewrite ?resolve_conn; by auto).
  - intros Hok. injection Hok as Hok. by eapply pushed_view.
  - intros Hok. injection Hok as <- <- <-. pose proof (sendMessageResponse_view v c) as [Hv Hc].
    simpl in Hv. rewrite Hv, Hc. auto.
  - unfold errorResponse. destruct (negb (pb_Error_RequestId v =? 0)); [|by intros Hok; injection Hok as <- <- <-; auto].
    unfold resolvePending. destruct (c_pending c !! pb_Error_RequestId v);
      [by intros Hok; injection Hok as <- <- <-; auto|].
    destruct (completeStreamSend _ _ c) as [c1 evs1] eqn:Ec. apply complete_view in Ec as [Hv Hc].
    intros Hok. injection Hok as <- <- <-. rewrite Hv, Hc. auto.
  - unfold packetPushed. intros Hok.
    destruct (c_relay c) as [r|].
    + destruct (handlePacket _ _ _ now r) as [[[h r'] evs']|e1|]; simpl in Hok; try done.
      destruct h; [by injection Hok as <- <- <-; auto|].
      destruct (IsStreamFrame _); [destruct (UnmarshalStreamFrame _)|]; simpl in Hok; try done;
        injection Hok as <- <- <-; auto.
    + simpl in Hok. destruct (IsStreamFrame _); [destruct (UnmarshalStreamFrame _)|]; simpl in Hok; try done;
        injection Hok as <- <- <-; auto.
  - intros Hok. injection Hok as Hok. unfold streamFramePushed in Hok. destruct (negb _); simplify_eq; auto.
  - destruct (completeStreamSend _ _ c) as [c1 evs1] eqn:Ec. apply complete_view in Ec as [Hv Hc].
    intros Hok. injection Hok as <- <- <-. rewrite Hv, Hc. auto.
Qed.

(** ** The invariant *)

Record cl_inv (m : machine) : Prop := {
  ci_range : is_u64 (c_requestID (m_client m));
  ci_ids k t : m_threads m !! k = Some t -> 0 < pc_id (t_pc t) <= c_requestID (m_client m);
  ci_uniq k1 k2 t1 t2 : m_threads m !! k1 = Some t1 -> m_threads m !! k2 = Some t2 ->
    pc_id (t_pc t1) = pc_id (t_pc t2) -> k1 = k2;
  ci_chan k t ch : m_threads m !! k = Some t -> pc_chan (t_pc t) = Some ch ->
    (ch < c_nextChan (m_client m))%nat /\ is_Some (c_chans (m_client m) !! ch);
  ci_chan_uniq k1 k2 t1 t2 ch : m_threads m !! k1 = Some t1 -> m_threads m !! k2 = Some t2 ->
    pc_chan (t_pc t1) = Some ch -> pc_chan (t_pc t2) = Some ch -> k1 = k2;
  ci_registered k t ch : m_threads m !! k = Some t -> pc_chan (t_pc t) = Some ch -> t_done t = false ->
    c_pending (m_client m) !! pc_id (t_pc t) = Some ch;
  ci_pending id ch : c_pending (m_client m) !! id = Some ch -> (ch < c_nextChan (m_client m))%nat /\
    forall k t, m_threads m !! k = Some t -> pc_chan (t_pc t) = Some ch -> pc_id (t_pc t) = id;
  ci_conn g : c_conn (m_client m) = Some g -> m_serve m = SReading g;
  ci_serve g : m_serve m = SReading g \/ m_serve m = SDropped g -> (g < m_nextConn m)%nat;
  ci_failed g : g ∈ m_failed m -> (g < m_nextConn m)%nat /\ m_serve m <> SReading g /\ m_serve m <> SDropped g;
  ci_full k t ch g : m_threads m !! k = Some t -> pc_chan (t_pc t) = Some ch -> pc_conn (t_pc t) = Some g ->
    t_done t = false -> g ∈ m_failed m -> exists r, c_chans (m_client m) !! ch = Some (Some r);
  ci_log k t ch v : m_threads m !! k = Some t -> pc_chan (t_pc t) = Some ch ->
    c_chans (m_client m) !! ch = Some (Some (Ok v)) -> (pc_id (t_pc t), Ok v) ∈ m_log m;
  ci_result k id v d : m_threads m !! k = Some (mkThread (PDone id (Ok v)) d) -> (id, Ok v) ∈ m_log m;
}.

Lemma inv_start c : fresh_client c -> cl_inv (cl_start c).
Proof.
  intros (Hp & Hc & Hn & Hi). unfold cl_start. constructor; simpl; rewrite ?Hp, ?Hc, ?Hn, ?Hi;
    try (by intros; simplify_map_eq); try set_solver; try done; by intros g [?|?].
Qed.

(** An operation that leaves the RPCs alone and does not set the transport. *)
Lemma inv_client m c' :
  cl_inv m -> rpc_view c' = rpc_view (m_client m) ->
  (c_conn c' = c_conn (m_client m) \/ c_conn c' = None) -> cl_inv (upd_client c' m).
Proof.
  intros [] [= Hp Hc Hn Hi] Hconn. constructor; simpl; rewrite ?Hp, ?Hc, ?Hn, ?Hi; try done.
  intros g Hg. destruct Hconn as [Hs|Hs]; rewrite Hs in Hg; [by apply ci_conn0|done].
Qed.

(** A goroutine moves on. *)
Lemma inv_thread m k t t' :
  cl_inv m -> m_threads m !! k = Some t ->
  pc_id (t_pc t') = pc_id (t_pc t) ->
  (pc_chan (t_pc t') = pc_chan (t_pc t) \/ pc_chan (t_pc t') = None) ->
  (t_done t' = false -> t_done t = false) ->
  (forall g, pc_conn (t_pc t') = Some g -> pc_conn (t_pc t) = Some g \/ c_conn (m_client m) = Some g) ->
  (forall id v d, t' = mkThread (PDone id (Ok v)) d -> (id, Ok v) ∈ m_log m) ->
  cl_inv (upd_thread k t' m).
Proof.
  intros [] Ht Hid Hch Hd Hg Hok.
  assert (forall k0 t0, <[k := t']> (m_threads m) !! k0 = Some t0 ->
    exists t1, m_threads m !! k0 = Some t1 /\ pc_id (t_pc t0) = pc_id (t_pc t1) /\
      (forall ch, pc_chan (t_pc t0) = Some ch -> pc_chan (t_pc t1) = Some ch) /\
      (t_done t0 = false -> t_done t1 = false) /\
      (forall g, pc_conn (t_pc t0) = Some g -> pc_conn (t_pc t1) = Some g \/ c_conn (m_client m) = Some g)) as Hlk.
  { intros k0 t0. destruct (decide (k = k0)) as [<-|Hne].
    - rewrite lookup_insert_eq. intros [= <-]. exists t. split_and!; try done. intros ch Hc.
      destruct Hch as [Hch|Hch]; rewrite Hch in Hc; done.
    - rewrite lookup_insert_ne by done. intros H0. exists t0. split_and!; auto. }
  constructor; simpl; try done.
  - intros k0 t0 H0. destruct (Hlk _ _ H0) as (t1 & H1 & -> & _). eauto.
  - intros k1 k2 t1 t2 H1 H2. destruct (Hlk _ _ H1) as (? & ? & -> & _), (Hlk _ _ H2) as (? & ? & -> & _). eauto.
  - intros k0 t0 ch H0. destruct (Hlk _ _ H0) as (t1 & H1 & _ & Hc & _). eauto.
  - intros k1 k2 t1 t2 ch H1 H2.
    destruct (Hlk _ _ H1) as (? & ? & _ & ? & _), (Hlk _ _ H2) as (? & ? & _ & ? & _). eauto.
  - intros k0 t0 ch H0. destruct (Hlk _ _ H0) as (t1 & H1 & -> & Hc & Hdn & _). eauto.
  - intros id ch Hp. destruct (ci_pending0 _ _ Hp) as [Hlt Hall]. split; [done|].
    intros k0 t0 H0 Hc0. destruct (Hlk _ _ H0) as (t1 & H1 & -> & Hc & _). eauto.
  - intros k0 t0 ch g H0 Hc0 Hg0 Hd0 Hf. destruct (Hlk _ _ H0) as (t1 & H1 & _ & Hc & Hdn & Hgg).
    destruct (Hgg _ Hg0) as [Hg1|Hg1]; [eauto|]. apply ci_conn0 in Hg1. by apply ci_failed0 in Hf as (_ & Hf & _).
  - intros k0 t0 ch v H0. destruct (Hlk _ _ H0) as (t1 & H1 & -> & Hc & _). eauto.
  - intros k0 id v d. destruct (decide (k = k0)) as [<-|Hne].
    + rewrite lookup_insert_eq. intros [= ->]. eauto.
    + rewrite lookup_insert_ne by done. eauto.
Qed.

(** A registration is given back. *)
Lemma inv_unregister m id :
  cl_inv m ->
  (forall k t, m_threads m !! k = Some t -> pc_id (t_pc t) = id -> t_done t = false -> pc_chan (t_pc t) = None) ->
  cl_inv (upd_client (unregisterPending id (m_client m)) m).
Proof.
  intros [] Hno. constructor; simpl; try done.
  - intros k t ch Ht Hc Hd. rewrite lookup_delete_ne; [by eauto|].
    intros Heq. specialize (Hno _ _ Ht (eq_sym Heq) Hd). congruence.
  - intros id' ch Hp. apply lookup_delete_Some in Hp as [_ Hp]. eauto.
Qed.

(** Results arrive in channels: a full one keeps its result, a new result is logged or an error. *)
Lemma inv_results m c' failed' log' serve' :
  cl_inv m ->
  c_pending c' = c_pending (m_client m) -> c_nextChan c' = c_nextChan (m_client m) ->
  c_requestID c' = c_requestID (m_client m) ->
  (forall g, c_conn c' = Some g -> serve' = SReading g) ->
  (forall g, serve' = SReading g \/ serve' = SDropped g -> (g < m_nextConn m)%nat) ->
  (forall g, g ∈ failed' -> (g < m_nextConn m)%nat /\ serve' <> SReading g /\ serve' <> SDropped g) ->
  (forall x, x ∈ m_log m -> x ∈ log') ->
  (forall ch x, c_chans (m_client m) !! ch = Some (Some x) -> c_chans c' !! ch = Some (Some x)) ->
  (forall ch, is_Some (c_chans (m_client m) !! ch) -> is_Some (c_chans c' !! ch)) ->
  (forall k t ch v, m_threads m !! k = Some t -> pc_chan (t_pc t) = Some ch -> c_chans c' !! ch = Some (Some (Ok v)) ->
     c_chans (m_client m) !! ch = Some (Some (Ok v)) \/ (pc_id (t_pc t), Ok v) ∈ log') ->
  (forall k t ch g, m_threads m !! k = Some t -> pc_chan (t_pc t) = Some ch -> pc_conn (t_pc t) = Some g ->
     t_done t = false -> g ∈ failed' -> g ∈ m_failed m \/ exists r, c_chans c' !! ch = Some (Some r)) ->
  cl_inv (mkMachine c' (m_threads m) serve' (m_nextConn m) failed' log').
Proof.
  intros [] Hp Hn Hi Hconn Hserve Hfailed Hlog Hkeep Hsome Hnew Hfull.
  constructor; simpl; rewrite ?Hp, ?Hn, ?Hi; try done.
  - intros k t ch Ht Hc. destruct (ci_chan0 _ _ _ Ht Hc). auto.
  - intros k t ch g Ht Hc Hg Hd Hf. destruct (Hfull _ _ _ _ Ht Hc Hg Hd Hf) as [Hf'|Hr]; [|done].
    destruct (ci_full0 _ _ _ _ Ht Hc Hg Hd Hf') as [r Hr]. eauto.
  - intros k t ch v Ht Hc Hv. destruct (Hnew _ _ _ _ Ht Hc Hv) as [Hv'|?]; [|done]. eauto.
  - intros k id v d Ht. eauto.
Qed.

(** ** Channels *)

Lemma offer_lookup ch r chans k :
  offer ch r chans !! k =
  if bool_decide (k = ch) then match chans !! ch with Some None => Some (Some r) | x => x end else chans !! k.
Proof.
  unfold offer. case_bool_decide as Hk.
  - subst. destruct (chans !! ch) as [[]|] eqn:E; rewrite ?lookup_insert_eq; done.
  - destruct (chans !! ch) as [[]|]; rewrite ?lookup_insert_ne by done; done.
Qed.

Lemma offers_lookup err l chans k :
  fold_right (fun ch chans => offer ch (Err err) chans) chans l !! k =
  match chans !! k with
  | Some None => if bool_decide (k ∈ l) then Some (Some (Err err)) else Some None
  | x => x
  end.
Proof.
  induction l as [|ch l IH]; simpl.
  - by destruct (chans !! k) as [[]|].
  - rewrite offer_lookup. set (F := fold_right _ chans l) in *. destruct (decide (k = ch)) as [->|Hne].
    + rewrite (bool_decide_true (ch = ch)), (bool_decide_true (ch ∈ ch :: l)) by (done || constructor).
      rewrite IH. destruct (chans !! ch) as [[]|]; [done| |done]. by case_bool_decide.
    + rewrite (bool_decide_false (k = ch)), IH by done. destruct (chans !! k) as [[]|]; [done| |done].
      erewrite (bool_decide_ext (k ∈ ch :: l)); [done|]. rewrite elem_of_cons. naive_solver.
Qed.

Lemma pending_chans c k :
  k ∈ (snd <$> map_to_list (c_pending c)) <-> exists id, c_pending c !! id = Some k.
Proof.
  rewrite list_elem_of_fmap. split.
  - intros ([id ch] & -> & Hin). exists id. by apply elem_of_map_to_list in Hin.
  - intros [id Hid]. exists (id, k). split; [done|]. by apply elem_of_map_to_list.
Qed.

Lemma failAll_lookup err c k :
  c_chans (failAllPending err c) !! k =
  match c_chans c !! k with
  | Some None => if bool_decide (k ∈ (snd <$> map_to_list (c_pending c))) then Some (Some (Err err)) else Some None
  | x => x
  end.
Proof. apply offers_lookup. Qed.

Lemma failAll_keep err c ch x :
  c_chans c !! ch = Some (Some x) -> c_chans (failAllPending err c) !! ch = Some (Some x).
Proof. rewrite failAll_lookup. by intros ->. Qed.

Lemma failAll_some err c ch : is_Some (c_chans c !! ch) -> is_Some (c_chans (failAllPending err c) !! ch).
Proof. rewrite failAll_lookup. intros [[x|] ->]; [done|]. by case_bool_decide. Qed.

(** It never makes up a value. *)
Lemma failAll_new err c ch v :
  c_chans (failAllPending err c) !! ch = Some (Some (Ok v)) -> c_chans c !! ch = Some (Some (Ok v)).
Proof. rewrite failAll_lookup. destruct (c_chans c !! ch) as [[]|]; try done. by case_bool_decide. Qed.

Lemma resolve_lookup id r c k :
  c_chans (resolvePending id r c).2 !! k =
  match c_chans c !! k with
  | Some None => if bool_decide (c_pending c !! id = Some k) then Some (Some r) else Some None
  | x => x
  end.
Proof.
  unfold resolvePending. destruct (c_pending c !! id) as [ch|]; simpl.
  - rewrite offer_lookup. destruct (decide (k = ch)) as [->|Hne].
    + rewrite !bool_decide_true by done. done.
    + rewrite !bool_decide_false by congruence. by destruct (c_chans c !! k) as [[]|].
  - by destruct (c_chans c !! k) as [[]|].
Qed.

(** ** Every step keeps the invariant *)

(** Two goroutines never share a registered channel, so once one has left its channel no other has it. *)
Lemma inv_other m k t t' id d res :
  cl_inv m -> m_threads m !! k = Some t -> pc_id (t_pc t) = id ->
  t' = mkThread (PDone id res) d ->
  forall k0 t0, <[k := t']> (m_threads m) !! k0 = Some t0 -> pc_id (t_pc t0) = id -> pc_chan (t_pc t0) = None.
Proof.
  intros [] Ht Hid -> k0 t0. destruct (decide (k = k0)) as [<-|Hne].
  - rewrite lookup_insert_eq. by intros [= <-].
  - rewrite lookup_insert_ne by done. intros H0 Hid0. exfalso. apply Hne. eapply ci_uniq0; eauto. congruence.
Qed.

(** [rpc_return] after an operation that leaves the RPCs alone. *)
Lemma inv_return m k t id d res c' :
  cl_inv m -> m_threads m !! k = Some t -> pc_id (t_pc t) = id -> (d = false -> t_done t = false) ->
  (forall v, res = Ok v -> (id, Ok v) ∈ m_log m) ->
  rpc_view c' = rpc_view (m_client m) -> (c_conn c' = c_conn (m_client m) \/ c_conn c' = None) ->
  cl_inv (rpc_return k id res d c' m).
Proof.
  intros Hinv Ht Hid Hd Hok Hv Hc.
  assert (cl_inv (upd_thread k (mkThread (PDone id res) d) (upd_client c' m))) as H1.
  { apply (inv_thread _ _ t); simpl; try done; [by apply inv_client|by right|].
    intros id' v d' [= <- -> <-]. by apply Hok. }
  apply (inv_unregister _ id) in H1; [exact H1|].
  intros k0 t0 H0 Hid0 _. simpl in H0. by eapply (inv_other m k t _ id d res Hinv Ht Hid eq_refl).
Qed.

Lemma inv_draw m k id c' :
  cl_inv m -> m_threads m !! k = None -> c_requestID (m_client m) + 1 < two64 ->
  nextRequestID (m_client m) = (id, c') ->
  cl_inv (upd_thread k (mkThread (PRegister id) false) (upd_client c' m)).
Proof.
  intros [] Hk Hlt. unfold nextRequestID. rewrite u64_add_small by (unfold is_u64 in *; lia).
  intros [= <- <-].
  assert (forall k0 t0, <[k := mkThread (PRegister (c_requestID (m_client m) + 1)) false]> (m_threads m) !! k0 = Some t0 ->
    (k0 = k /\ t0 = mkThread (PRegister (c_requestID (m_client m) + 1)) false) \/
    (k0 <> k /\ m_threads m !! k0 = Some t0)) as Hlk.
  { intros k0 t0. destruct (decide (k = k0)) as [<-|]; [rewrite lookup_insert_eq; intros [= <-]; by left|].
    rewrite lookup_insert_ne by done. right. done. }
  constructor; simpl; try done.
  - unfold is_u64 in *. lia.
  - intros k0 t0 H0. destruct (Hlk _ _ H0) as [[-> ->]|[Hn H1]]; simpl; [unfold is_u64 in *; lia|].
    apply ci_ids0 in H1. lia.
  - intros k1 k2 t1 t2 H1 H2 Heq.
    destruct (Hlk _ _ H1) as [[-> ->]|[Hn1 H1']], (Hlk _ _ H2) as [[-> ->]|[Hn2 H2']]; simpl in *; eauto;
      exfalso; [apply ci_ids0 in H2'; lia | apply ci_ids0 in H1'; lia].
  - intros k0 t0 ch H0 Hc. destruct (Hlk _ _ H0) as [[-> ->]|[Hn H1]]; [done|eauto].
  - intros k1 k2 t1 t2 ch H1 H2 Hc1 Hc2.
    destruct (Hlk _ _ H1) as [[-> ->]|[Hn1 H1']], (Hlk _ _ H2) as [[-> ->]|[Hn2 H2']]; try done; eauto.
  - intros k0 t0 ch H0 Hc Hd. destruct (Hlk _ _ H0) as [[-> ->]|[Hn H1]]; [done|eauto].
  - intros id ch Hp. destruct (ci_pending0 _ _ Hp) as [Hlt0 Hall]. split; [done|].
    intros k0 t0 H0 Hc. destruct (Hlk _ _ H0) as [[-> ->]|[Hn H1]]; [done|eauto].
  - intros k0 t0 ch g H0 Hc. destruct (Hlk _ _ H0) as [[-> ->]|[Hn H1]]; [done|eauto].
  - intros k0 t0 ch v H0 Hc. destruct (Hlk _ _ H0) as [[-> ->]|[Hn H1]]; [done|eauto].
  - intros k0 id v d H0. destruct (Hlk _ _ H0) as [[_ [=]]|[Hn H1]]. eauto.
Qed.

Lemma inv_register m k d id ch c' :
  cl_inv m -> m_threads m !! k = Some (mkThread (PRegister id) d) ->
  registerPending id (m_client m) = Ok (ch, c') ->
  cl_inv (upd_thread k (mkThread (PSnapshot id ch) d) (upd_client c' m)).
Proof.
  intros [] Hk. unfold registerPending. destruct (c_closed _); [done|]. intros [= <- <-].
  set (n := c_nextChan (m_client m)) in *.
  assert (forall k0 t0, <[k := mkThread (PSnapshot id n) d]> (m_threads m) !! k0 = Some t0 ->
    (k0 = k /\ t0 = mkThread (PSnapshot id n) d) \/ (k0 <> k /\ m_threads m !! k0 = Some t0)) as Hlk.
  { intros k0 t0. destruct (decide (k = k0)) as [<-|]; [rewrite lookup_insert_eq; intros [= <-]; by left|].
    rewrite lookup_insert_ne by done. right. done. }
  constructor; simpl; try done.
  - intros k0 t0 H0. destruct (Hlk _ _ H0) as [[-> ->]|[Hn H1]]; simpl; [by apply (ci_ids0 _ _ Hk)|eauto].
  - intros k1 k2 t1 t2 H1 H2 Heq.
    destruct (Hlk _ _ H1) as [[-> ->]|[Hn1 H1']], (Hlk _ _ H2) as [[-> ->]|[Hn2 H2']]; simpl in *; eauto.
  - intros k0 t0 ch H0 Hc. destruct (Hlk _ _ H0) as [[-> ->]|[Hn H1]]; simpl in Hc.
    + injection Hc as <-. rewrite lookup_insert_eq. split; [lia|done].
    + destruct (ci_chan0 _ _ _ H1 Hc) as [Hl Hs]. fold n in Hl. rewrite lookup_insert_ne by lia. split; [lia|done].
  - intros k1 k2 t1 t2 ch H1 H2 Hc1 Hc2.
    destruct (Hlk _ _ H1) as [[-> ->]|[Hn1 H1']], (Hlk _ _ H2) as [[-> ->]|[Hn2 H2']]; simpl in *; eauto.
    + injection Hc1 as <-. destruct (ci_chan0 _ _ _ H2' Hc2) as [Hl _]. fold n in Hl; lia.
    + injection Hc2 as <-. destruct (ci_chan0 _ _ _ H1' Hc1) as [Hl _]. fold n in Hl; lia.
  - intros k0 t0 ch H0 Hc Hd. destruct (Hlk _ _ H0) as [[-> ->]|[Hn H1]]; simpl in *.
    + injection Hc as <-. by rewrite lookup_insert_eq.
    + rewrite lookup_insert_ne; [eauto|]. intros ->. apply Hn. by eapply ci_uniq0.
  - intros id' ch Hp. destruct (decide (id = id')) as [<-|Hne].
    + rewrite lookup_insert_eq in Hp. injection Hp as <-. split; [lia|]. intros k0 t0 H0 Hc.
      destruct (Hlk _ _ H0) as [[-> ->]|[Hn H1]]; [done|]. destruct (ci_chan0 _ _ _ H1 Hc) as [Hl _]. fold n in Hl; lia.
    + rewrite lookup_insert_ne in Hp by done. destruct (ci_pending0 _ _ Hp) as [Hlt Hall]. split; [fold n in Hlt; lia|].
      intros k0 t0 H0 Hc. destruct (Hlk _ _ H0) as [[-> ->]|[Hn H1]]; [|eauto].
      simpl in Hc. injection Hc as <-. fold n in Hlt; lia.
  - intros k0 t0 ch g H0 Hc Hg Hd Hf. destruct (Hlk _ _ H0) as [[-> ->]|[Hn H1]]; [done|].
    destruct (ci_chan0 _ _ _ H1 Hc) as [Hl _]. fold n in Hl. rewrite lookup_insert_ne by lia. eauto.
  - intros k0 t0 ch v H0 Hc. destruct (Hlk _ _ H0) as [[-> ->]|[Hn H1]]; simpl in *.
    + injection Hc as <-. by rewrite lookup_insert_eq.
    + destruct (ci_chan0 _ _ _ H1 Hc) as [Hl _]. fold n in Hl. rewrite lookup_insert_ne by lia. eauto.
  - intros k0 id' v d' H0. destruct (Hlk _ _ H0) as [[_ [=]]|[Hn H1]]. eauto.
Qed.

(** A channel that no goroutine holds any more is emptied. *)
Lemma inv_drain m ch :
  cl_inv m -> (forall k t, m_threads m !! k = Some t -> pc_chan (t_pc t) <> Some ch) ->
  cl_inv (upd_client (set_rpc (c_pending (m_client m)) (<[ch := None]> (c_chans (m_client m)))
                        (c_nextChan (m_client m)) (m_client m)) m).
Proof.
  intros [] Hno. constructor; simpl; try done.
  - intros k t ch' Ht Hc. rewrite lookup_insert_ne; [by eauto|]. intros ->. by eapply Hno.
  - intros k t ch' g Ht Hc. rewrite lookup_insert_ne; [by eauto|]. intros ->. by eapply Hno.
  - intros k t ch' v Ht Hc. rewrite lookup_insert_ne; [by eauto|]. intros ->. by eapply Hno.
Qed.

(** Receiving a result empties the goroutine's own channel, which no other goroutine has. *)
Lemma inv_receive m k id ch conn d r :
  cl_inv m -> m_threads m !! k = Some (mkThread (PWait id ch conn) d) ->
  c_chans (m_client m) !! ch = Some (Some r) ->
  cl_inv (rpc_return k id r d
    (set_rpc (c_pending (m_client m)) (<[ch := None]> (c_chans (m_client m))) (c_nextChan (m_client m)) (m_client m)) m).
Proof.
  intros Hinv Hk Hr.
  assert (cl_inv (rpc_return k id r d (m_client m) m)) as H1.
  { eapply inv_return; eauto. intros v ->. by apply (ci_log _ Hinv _ _ _ v Hk eq_refl). }
  apply (inv_drain _ ch) in H1; [exact H1|].
  intros k0 t0. simpl. destruct (decide (k = k0)) as [<-|Hne].
  - rewrite lookup_insert_eq. by intros [= <-].
  - rewrite lookup_insert_ne by done. intros H0 Hc. apply Hne. by eapply (ci_chan_uniq _ Hinv k k0).
Qed.

Lemma inv_ctx m k p b : cl_inv m -> m_threads m !! k = Some (mkThread p false) -> cl_inv (upd_thread k (mkThread p b) m).
Proof.
  intros Hinv Hk. apply (inv_thread _ _ (mkThread p false)); simpl; try done; auto.
  intros id v d [= -> ->]. by eapply ci_result.
Qed.

Lemma inv_after_func m k p :
  cl_inv m -> m_threads m !! k = Some (mkThread p true) ->
  cl_inv (upd_client (unregisterPending (pc_id p) (m_client m)) m).
Proof.
  intros Hinv Hk. apply inv_unregister; [done|]. intros k0 t0 H0 Hid Hd. exfalso.
  assert (k0 = k) as -> by by eapply (ci_uniq _ Hinv). by simplify_eq/=.
Qed.

(** A new transport. *)
Lemma inv_login m c' :
  cl_inv m -> m_serve m = SIdle -> rpc_view c' = rpc_view (m_client m) -> c_conn c' = Some (m_nextConn m) ->
  cl_inv (mkMachine c' (m_threads m) (SReading (m_nextConn m)) (Datatypes.S (m_nextConn m)) (m_failed m) (m_log m)).
Proof.
  intros [] Hs [= Hp Hc Hn Hi] Hconn. constructor; simpl; rewrite ?Hp, ?Hc, ?Hn, ?Hi; try done.
  - intros g Hg. congruence.
  - intros g [[= <-]|[=]]. lia.
  - intros g Hg. destruct (ci_failed0 _ Hg) as (Hlt & _ & _). split; [lia|]. split; [|done]. intros [= Heq]. lia.
Qed.

Lemma establish_view conn env c e c' evs :
  establish conn env c = (e, c', evs) ->
  rpc_view c' = rpc_view c /\
  match e with None => c_conn c' = Some conn | Some _ => c_conn c' = c_conn c end.
Proof.
  unfold establish. destruct env as [e1|env]; [by intros; simplify_eq|].
  unfold expectLogin. destruct (pb_ServerEnvelope_body env) as [[]|]; try (by intros; simplify_eq).
  destruct (negb _); [by intros; simplify_eq|]. intros; simplify_eq. unfold signalFirstConnect. simpl.
  destruct (c_firstConnect c); simpl; auto.
Qed.

(** [c.conn = nil] after the read loop, of the loop's own transport. *)
Lemma inv_drop m conn :
  cl_inv m -> m_serve m = SReading conn ->
  cl_inv (upd_serve (SDropped conn) (upd_client (dropSession conn (m_client m)) m)).
Proof.
  intros Hinv Hs.
  apply (inv_results m (dropSession conn (m_client m)) (m_failed m) (m_log m) (SDropped conn));
    try done; simpl; try (by auto); try (by intros; left).
  - intros g. case_bool_decide as Hc; [done|]. intros Hg. apply (ci_conn _ Hinv) in Hg as Hg'.
    rewrite Hs in Hg'. injection Hg' as ->. done.
  - intros g [[=]|[= <-]]. apply (ci_serve _ Hinv). by left.
  - intros g Hg. destruct (ci_failed _ Hinv _ Hg) as (Hl & Hr & Hd). split_and!; [done..|].
    intros [= ->]. done.
Qed.

(** [failAllPending(ErrDisconnected)]: from here on the transport is failed. *)
Lemma inv_fail m conn :
  cl_inv m -> m_serve m = SDropped conn ->
  cl_inv (mkMachine (failAllPending (Sentinel ErrDisconnected) (m_client m)) (m_threads m) (SFailed conn)
            (m_nextConn m) ({[conn]} ∪ m_failed m) (m_log m)).
Proof.
  intros Hinv Hs. apply inv_results; try done.
  - intros g Hg. apply (ci_conn _ Hinv) in Hg. congruence.
  - by intros g [?|?].
  - intros g [->%elem_of_singleton|Hg]%elem_of_union; [split; [|done]; apply (ci_serve _ Hinv); by right|].
    split; [|done]. by apply (ci_failed _ Hinv).
  - apply failAll_keep.
  - apply failAll_some.
  - intros k t ch v _ _ Hv. left. by eapply failAll_new.
  - intros k t ch g Ht Hc Hg Hd _. right.
    pose proof (ci_registered _ Hinv _ _ _ Ht Hc Hd) as Hp. destruct (ci_chan _ Hinv _ _ _ Ht Hc) as [_ [x Hx]].
    rewrite failAll_lookup, Hx. destruct x; [by eexists|].
    rewrite bool_decide_true by (apply pending_chans; by eexists). by eexists.
Qed.

(** [failAllPending] when the client stops. *)
Lemma inv_stop m err :
  cl_inv m -> m_serve m = SIdle ->
  cl_inv (upd_serve SStopped (upd_client (failAllPending err (m_client m)) m)).
Proof.
  intros Hinv Hs. apply (inv_results m (failAllPending err (m_client m)) (m_failed m) (m_log m) SStopped); try done.
  - intros g Hg. apply (ci_conn _ Hinv) in Hg. congruence.
  - by intros g [?|?].
  - intros g Hg. split; [|done]. by apply (ci_failed _ Hinv).
  - apply failAll_keep.
  - apply failAll_some.
  - intros k t ch v _ _ Hv. left. by eapply failAll_new.
  - auto.
Qed.

(** An envelope: the response reaches the goroutine of its request, and is logged. *)
Lemma inv_envelope m conn env now ctxErr err res c' evs :
  cl_inv m -> m_serve m = SReading conn ->
  handleServerEnvelope unmarshal now ctxErr err env (m_client m) = Ok (res, c', evs) ->
  cl_inv (mkMachine c' (m_threads m) (SReading conn) (m_nextConn m) (m_failed m)
            (m_log m ++ option_list (resolution env (m_client m)))).
Proof.
  intros Hinv Hs Hh. apply handle_view in Hh as [Hv Hc].
  assert (forall id r, resolution env (m_client m) = Some (id, r) ->
            c_pending c' = c_pending (m_client m) /\ c_nextChan c' = c_nextChan (m_client m) /\
            c_requestID c' = c_requestID (m_client m) /\
            forall ch, c_chans c' !! ch = c_chans (resolvePending id r (m_client m)).2 !! ch) as Hr.
  { intros id r E. rewrite E in Hv. unfold rpc_view in Hv. injection Hv as -> -> -> ->.
    unfold resolvePending. by destruct (c_pending (m_client m) !! id). }
  assert (resolution env (m_client m) = None -> rpc_view c' = rpc_view (m_client m)) as Hn.
  { intros E. by rewrite E in Hv. }
  clear Hv. rewrite <- Hs. destruct (resolution env (m_client m)) as [[id r]|]; simpl.
  - destruct (Hr _ _ eq_refl) as (Hp & Hx & Hi & Hch). apply inv_results; try done; try (by auto).
    + intros g Hg. apply (ci_conn _ Hinv). destruct Hc as [Hc|Hc]; congruence.
    + apply (ci_serve _ Hinv).
    + apply (ci_failed _ Hinv).
    + intros x Hx'. apply elem_of_app. by left.
    + intros ch x Hch'. by rewrite Hch, resolve_lookup, Hch'.
    + intros ch [x Hx']. rewrite Hch, resolve_lookup, Hx'. destruct x; [done|]. by case_bool_decide.
    + intros k t ch v Ht Hct. rewrite Hch, resolve_lookup.
      destruct (c_chans (m_client m) !! ch) as [[]|]; [by left| |done]. case_bool_decide as Hpd; [|done].
      intros [= ->]. right. destruct (ci_pending _ Hinv _ _ Hpd) as [_ Hall].
      rewrite (Hall _ _ Ht Hct). apply elem_of_app. right. by constructor.
  - rewrite app_nil_r. specialize (Hn eq_refl).
    pose proof (inv_client m c' Hinv Hn Hc) as H1. by destruct m.
Qed.

Lemma inv_step m m' : cl_inv m -> cl_step m m' -> cl_inv m'.
Proof.
  intros Hinv Hstep. destruct Hstep as
    [m k id c' Hk Hlt Hn | m k d id ch c' Hk Hr | m k d id e Hk Hr | m k d id ch conn Hk Hb | m k d id ch e Hk Hb
    |m k d id ch conn ctxErr Hk Hfree Hw | m k d id ch conn ctxErr e Hk Hfree Hw
    |m k d id ch conn body err c' evs Hk Hw | m k d id ch conn body err e c' evs Hk Hw
    |m k d id ch conn r Hk Hr | m k p Hk | m k p ch Hk Hc | m k id ch conn e Hk | m env c' evs Hs He
    |m e env c' evs Hs He | m conn env now ctxErr err res c' evs Hs Hh | m conn Hs | m conn Hs | m conn evs c' Hs Hf
    |m delay err c' evs Hs Hr | m c' evs Hc | m conn c' evs Hi].
  - by apply inv_draw.
  - by apply inv_register.
  - eapply inv_thread; eauto; simpl; auto; by intros; simplify_eq.
  - eapply inv_thread; eauto; simpl; auto; [|by intros; simplify_eq].
    intros g [= <-]. right. unfold sendBegin in Hb. repeat case_match; by simplify_eq.
  - eapply inv_return; eauto; by auto.
  - eapply inv_thread; eauto; simpl; auto; by intros; simplify_eq.
  - eapply inv_return; eauto; by auto.
  - apply payload_view in Hw as [Hv Hc].
    assert (cl_inv (upd_client c' m)) as H1 by by apply inv_client.
    eapply inv_thread in H1; [exact H1|exact Hk|done|by left|done|by left|by intros; simplify_eq].
  - apply payload_view in Hw as [Hv Hc]. eapply inv_return; eauto; done.
  - by eapply inv_receive.
  - by apply inv_ctx.
  - by eapply inv_after_func.
  - eapply inv_return; eauto; by auto.
  - apply establish_view in He as [Hv Hc]. by apply inv_login.
  - apply establish_view in He as [Hv Hc]. assert (cl_inv (upd_client c' m)) as H1 by (apply inv_client; auto).
    destruct H1. constructor; simpl in *; try done.
    + intros g Hg. apply ci_conn0 in Hg. congruence.
    + by intros g [?|?].
    + intros g Hg. destruct (ci_failed0 _ Hg) as (? & _ & _). split; [lia|done].
  - by eapply inv_envelope.
  - by apply inv_drop.
  - by apply inv_fail.
  - assert (rpc_view (closeRelays (Sentinel ErrDisconnected) c') = rpc_view (m_client m) /\
            c_conn (closeRelays (Sentinel ErrDisconnected) c') = c_conn (m_client m)) as [Hv Hc].
    { unfold failAllStreamSends in Hf. by simplify_eq. }
    pose proof (inv_client m _ Hinv Hv (or_introl Hc)) as []. constructor; simpl in *; try done.
    + intros g Hg. apply ci_conn0 in Hg. congruence.
    + by intros g [?|?].
    + intros g Hg. by destruct (ci_failed0 _ Hg) as (? & _ & _).
  - unfold run_turn in Hr. destruct (c_closed (m_client m) || _); [|done]. injection Hr as <- <-.
    assert (cl_inv (upd_client (signalFirstConnect (Some err) (m_client m)) m)) as H1.
    { unfold signalFirstConnect. destruct (c_firstConnect (m_client m)); apply inv_client; auto. }
    by apply (inv_stop _ err) in H1.
  - apply inv_client; [done|..]; unfold Close in Hc; destruct (c_closed (m_client m)); [by simplify_eq|..];
      simpl in Hc; simplify_eq; simpl; auto.
  - apply invalidate_view in Hi as [Hv Hc]. by apply inv_client.
Qed.

Lemma reachable_inv c0 m : fresh_client c0 -> cl_reachable c0 m -> cl_inv m.
Proof. intros Hf. induction 1; [by apply inv_start|by eapply inv_step]. Qed.

(** ** Properties *)

(** A registered goroutine of a transport that was torn down has its result in its channel. *)
Lemma failed_result m k t ch conn :
  cl_inv m -> m_threads m !! k = Some t -> pc_chan (t_pc t) = Some ch -> pc_conn (t_pc t) = Some conn ->
  conn ∈ m_failed m -> t_done t = true \/ exists r, c_chans (m_client m) !! ch = Some (Some r).
Proof. intros Hinv Ht Hch Hc Hg. destruct (t_done t) eqn:Hd; [by left|right]. by eapply ci_full. Qed.

(** The transport in [c.conn] has not been failed, so a goroutine that has not passed the checks
    of another one is refused. *)
Lemma check_failed m conn ctxErr :
  cl_inv m -> conn ∈ m_failed m -> exists e, writeTransport_check conn ctxErr (m_client m) = Some e.
Proof.
  intros Hinv Hg. unfold writeTransport_check. destruct (c_closed _); [by eexists|].
  rewrite bool_decide_false; [by eexists|]. intros Hconn. apply (ci_conn _ Hinv) in Hconn.
  destruct (ci_failed _ Hinv _ Hg) as (_ & Hn & _). done.
Qed.


(** C10: client_rpc_correlated. A value an RPC returns is the one a server response carried for exactly the
    request ID this RPC drew, and no other RPC of the client ever has that ID. *)
Theorem client_rpc_correlated c0 m k id v d :
  fresh_client c0 -> cl_reachable c0 m ->
  m_threads m !! k = Some (mkThread (PDone id (Ok v)) d) ->
  (id, Ok v) ∈ m_log m /\ 0 < id < two64 /\
  (forall k' t', m_threads m !! k' = Some t' -> pc_id (t_pc t') = id -> k' = k).
Proof.
  intros Hf Hr Ht. pose proof (reachable_inv _ _ Hf Hr) as Hinv. split_and!.
  - by eapply ci_result.
  - apply (ci_ids _ Hinv) in Ht. simpl in Ht. lia.
  - apply (ci_ids _ Hinv) in Ht. pose proof (ci_range _ Hinv) as []. simpl in *. lia.
  - intros k' t' Ht' Hid. by eapply (ci_uniq _ Hinv).
Qed.

End run.

(** ** Witnesses *)

Definition demo_config : Config MemoryCursorStore :=
  mkConfig "http://h" (Requests.demo_credentials) None None true Second (30 * Second) Second Second true false false 16.
Definition demo_client : Client MemoryCursorStore :=
  mkClient demo_config NewMemoryCursorStore NopHandler false false None false zero_LoginInfo ∅ ∅ 0 ∅ 0 None None.
Definition no_relay (_ : bytes) : result error pb_RelayEnvelope := Err (errors_New "proto").
Definition demo_login : pb_ServerEnvelope :=
  mkpb_ServerEnvelope (Some (pb_ServerEnvelope_LoginResponse (mkpb_LoginResponse None clientProtocolVersion None))).
Definition demo_pong : pb_ServerEnvelope := mkpb_ServerEnvelope (Some (pb_ServerEnvelope_Pong (mkpb_Pong 1))).
Definition demo_ping : pb_ClientEnvelope_Body := pb_ClientEnvelope_Ping (mkpb_Ping 1).

Lemma demo_fresh : fresh_client demo_client.
Proof. by repeat split. Qed.

(** Extends a run by a step whose premises compute. *)
Tactic Notation "extend" hyp(H) uconstr(st) := eapply reach_step in H; [|eapply st; reflexivity].


Lemma client_rpc_correlated_witness :
  exists m, cl_reachable no_relay demo_client m /\ m_threads m !! 0%nat = Some (mkThread (PDone 1 (Ok AUnit)) false) /\
    (1, Ok AUnit) ∈ m_log m.
Proof.
  pose proof (reach_start no_relay demo_client) as Hr.
  extend Hr (step_draw no_relay _ 0%nat 1).
  extend Hr (step_login no_relay _ demo_login).
  extend Hr (step_register no_relay _ 0%nat false 1 0%nat).
  extend Hr (step_snapshot no_relay _ 0%nat false 1 0%nat 0%nat).
  extend Hr (step_check no_relay _ 0%nat false 1 0%nat 0%nat None).
  extend Hr (step_write no_relay _ 0%nat false 1 0%nat 0%nat demo_ping None).
  extend Hr (step_envelope no_relay _ 0%nat demo_pong 0 None None).
  extend Hr (step_result no_relay _ 0%nat false 1 0%nat 0%nat (Ok AUnit)).
  eexists. split; [exact Hr|]. split; [reflexivity|].
  exact (proj1 (client_rpc_correlated no_relay demo_client _ 0%nat 1 AUnit false demo_fresh Hr eq_refl)).
Defined.
