(* ===== verification/ClientAnswers.v ===== *)
(** * What the methods of the WebSocket client make of the answers

    For every method of ClientApi: the response a server sends for its request, what
    [handleServerEnvelope] stores for the request, and what the method returns for a stored
    value of any type. *)

From stdpp Require Import base list strings gmap.
From S2P Require Import Prelude Errors Types StreamProtocol Wire RelayManager Password Records Convert WireCodec Requests Store ClientApi Client ClientRun.

(** ** Dynamic types *)

Inductive go_kind : Type :=
| KUnit | KMessage | KRelayAccepted | KUser | KUsers | KDeleteUserResult | KUserMetadata | KUserMetadataPage
| KAttachment | KAttachments | KMessages | KEvents | KClusterNodes | KLoggedInUsers | KResolvedUserSessions
| KOperationsStatus | KString.
#[export] Instance go_kind_eq_dec : EqDecision go_kind.
Proof. solve_decision. Defined.

Definition kind_of (v : any) : go_kind :=
  match v with
  | AUnit => KUnit | AMessage _ => KMessage | ARelayAccepted _ => KRelayAccepted | AUser _ => KUser | AUsers _ => KUsers
  | ADeleteUserResult _ => KDeleteUserResult | AUserMetadata _ => KUserMetadata | AUserMetadataPage _ => KUserMetadataPage
  | AAttachment _ => KAttachment | AAttachments _ => KAttachments | AMessages _ => KMessages | AEvents _ => KEvents
  | AClusterNodes _ => KClusterNodes | ALoggedInUsers _ => KLoggedInUsers
  | AResolvedUserSessions _ => KResolvedUserSessions | AOperationsStatus _ => KOperationsStatus | AString _ => KString
  end.

(** ** What a method returns *)

Inductive returned : Type :=
| RValue (v : any)
| RSubscription (v : Subscription) | RSubscriptions (v : list Subscription)
| RBlacklistEntry (v : BlacklistEntry) | RBlacklistEntries (v : list BlacklistEntry).

(** What a call makes of the value of its request. *)
Definition result_of {A} (wrap : A -> returned) (c : call A) : option (any -> result error returned) :=
  match c with Refuse _ => None | Rpc _ k => Some (fun v => wrap <$> k v) end.

Definition method_result (m : method) : option (any -> result error returned) :=
  match m with
  | MCreateUser req => result_of (RValue ∘ AUser) (CreateUser req)
  | MCreateChannel req => result_of (RValue ∘ AUser) (CreateChannel req)
  | MSendMessage input => result_of (RValue ∘ AMessage) (SendMessage input)
  | MPostMessage t b => result_of (RValue ∘ AMessage) (PostMessage t b)
  | MSendPacket input => result_of (RValue ∘ ARelayAccepted) (SendPacket input)
  | MSendPacketToSession t s b mode => result_of (RValue ∘ ARelayAccepted) (SendPacketToSession t s b mode)
  | MPostPacket n t b mode => result_of (fun _ : () => RValue AUnit) (PostPacket n t b mode)
  | MGetUser t => result_of (RValue ∘ AUser) (GetUser t)
  | MUpdateUser t req => result_of (RValue ∘ AUser) (UpdateUser t req)
  | MDeleteUser t => result_of (RValue ∘ ADeleteUserResult) (DeleteUser t)
  | MGetMetadata o k => result_of (RValue ∘ AUserMetadata) (WSGetUserMetadata o k)
  | MUpsertMetadata o k req => result_of (RValue ∘ AUserMetadata) (WSUpsertUserMetadata o k req)
  | MDeleteMetadata o k => result_of (RValue ∘ AUserMetadata) (WSDeleteUserMetadata o k)
  | MScanMetadata o req => result_of (RValue ∘ AUserMetadataPage) (WSScanUserMetadata o req)
  | MUpsertAttachment o s t c => result_of (RValue ∘ AAttachment) (UpsertAttachment o s t c)
  | MDeleteAttachment o s t => result_of (RValue ∘ AAttachment) (DeleteAttachment o s t)
  | MListAttachments o t => result_of (RValue ∘ AAttachments) (ListAttachments o t)
  | MListMessages t l => result_of (RValue ∘ AMessages) (WSListMessages t l)
  | MListUsers req => result_of (RValue ∘ AUsers) (WSListUsers req)
  | MListEvents a l => result_of (RValue ∘ AEvents) (ListEvents a l)
  | MListClusterNodes => result_of (RValue ∘ AClusterNodes) ListClusterNodes
  | MListNodeLoggedInUsers n => result_of (RValue ∘ ALoggedInUsers) (ListNodeLoggedInUsers n)
  | MResolveUserSessions u => result_of (RValue ∘ AResolvedUserSessions) (ResolveUserSessions u)
  | MOperationsStatus => result_of (RValue ∘ AOperationsStatus) Client_OperationsStatus
  | MMetrics => result_of (RValue ∘ AString) Metrics
  | MCreateSubscription u c => result_of (fun _ : () => RValue AUnit) (CreateSubscription u c)
  | MSubscribeChannel u c => result_of RSubscription (SubscribeChannel u c)
  | MUnsubscribeChannel u c => result_of RSubscription (UnsubscribeChannel u c)
  | MListSubscriptions u => result_of RSubscriptions (ListSubscriptions u)
  | MBlockUser o b => result_of RBlacklistEntry (BlockUser o b)
  | MUnblockUser o b => result_of RBlacklistEntry (UnblockUser o b)
  | MListBlockedUsers o => result_of RBlacklistEntries (ListBlockedUsers o)
  end.

(** ** The specification: type, error text and view per method *)

Definition answer_kind (m : method) : go_kind :=
  match m with
  | MCreateUser _ | MCreateChannel _ | MGetUser _ | MUpdateUser _ _ => KUser
  | MSendMessage _ | MPostMessage _ _ => KMessage
  | MSendPacket _ | MSendPacketToSession _ _ _ _ | MPostPacket _ _ _ _ => KRelayAccepted
  | MDeleteUser _ => KDeleteUserResult
  | MGetMetadata _ _ | MUpsertMetadata _ _ _ | MDeleteMetadata _ _ => KUserMetadata
  | MScanMetadata _ _ => KUserMetadataPage
  | MUpsertAttachment _ _ _ _ | MDeleteAttachment _ _ _ | MCreateSubscription _ _ | MSubscribeChannel _ _
  | MUnsubscribeChannel _ _ | MBlockUser _ _ | MUnblockUser _ _ => KAttachment
  | MListAttachments _ _ | MListSubscriptions _ | MListBlockedUsers _ => KAttachments
  | MListMessages _ _ => KMessages | MListUsers _ => KUsers | MListEvents _ _ => KEvents
  | MListClusterNodes => KClusterNodes | MListNodeLoggedInUsers _ => KLoggedInUsers
  | MResolveUserSessions _ => KResolvedUserSessions | MOperationsStatus => KOperationsStatus | MMetrics => KString
  end.

Definition subscription_of (a : Attachment) : Subscription :=
  mkSubscription (Attachment_Owner a) (Attachment_Subject a) (Attachment_AttachedAt a) (Attachment_DeletedAt a)
    (Attachment_OriginNodeID a).
Definition blacklist_entry_of (a : Attachment) : BlacklistEntry :=
  mkBlacklistEntry (Attachment_Owner a) (Attachment_Subject a) (Attachment_AttachedAt a) (Attachment_DeletedAt a)
    (Attachment_OriginNodeID a).

(** What the method shows of a value: the value itself but for the views over attachments. *)
Definition shown (m : method) (v : any) : returned :=
  match m, v with
  | (MPostPacket _ _ _ _ | MCreateSubscription _ _), _ => RValue AUnit
  | (MSubscribeChannel _ _ | MUnsubscribeChannel _ _), AAttachment a => RSubscription (subscription_of a)
  | (MBlockUser _ _ | MUnblockUser _ _), AAttachment a => RBlacklistEntry (blacklist_entry_of a)
  | MListSubscriptions _, AAttachments l => RSubscriptions (subscription_of <$> l)
  | MListBlockedUsers _, AAttachments l => RBlacklistEntries (blacklist_entry_of <$> l)
  | _, v => RValue v
  end.

(** The response a server sends for a request of the method, with a value of the method's type. *)
Definition reply (m : method) (id count : Z) (v : any) : option pb_ServerEnvelope_Body :=
  match m, v with
  | (MCreateUser _ | MCreateChannel _), AUser u =>
      Some (pb_ServerEnvelope_CreateUserResponse (mkpb_CreateUserResponse id (Some (user_wire u))))
  | MGetUser _, AUser u => Some (pb_ServerEnvelope_GetUserResponse (mkpb_GetUserResponse id (Some (user_wire u))))
  | MUpdateUser _ _, AUser u => Some (pb_ServerEnvelope_UpdateUserResponse (mkpb_UpdateUserResponse id (Some (user_wire u))))
  | (MSendMessage _ | MPostMessage _ _), AMessage x =>
      Some (pb_ServerEnvelope_SendMessageResponse
              (mkpb_SendMessageResponse id (Some (pb_SendMessageResponse_Message (message_wire x)))))
  | (MSendPacket _ | MSendPacketToSession _ _ _ _ | MPostPacket _ _ _ _), ARelayAccepted x =>
      Some (pb_ServerEnvelope_SendMessageResponse
              (mkpb_SendMessageResponse id (Some (pb_SendMessageResponse_TransientAccepted (relayAccepted_wire x)))))
  | MDeleteUser _, ADeleteUserResult x =>
      Some (pb_ServerEnvelope_DeleteUserResponse
              (mkpb_DeleteUserResponse id (DeleteUserResult_Status x) (userRefToProto (DeleteUserResult_User x))))
  | MGetMetadata _ _, AUserMetadata x =>
      Some (pb_ServerEnvelope_GetUserMetadataResponse (mkpb_GetUserMetadataResponse id (Some (userMetadata_wire x))))
  | MUpsertMetadata _ _ _, AUserMetadata x =>
      Some (pb_ServerEnvelope_UpsertUserMetadataResponse (mkpb_UpsertUserMetadataResponse id (Some (userMetadata_wire x))))
  | MDeleteMetadata _ _, AUserMetadata x =>
      Some (pb_ServerEnvelope_DeleteUserMetadataResponse (mkpb_DeleteUserMetadataResponse id (Some (userMetadata_wire x))))
  | MScanMetadata _ _, AUserMetadataPage x =>
      Some (pb_ServerEnvelope_ScanUserMetadataResponse
              (mkpb_ScanUserMetadataResponse id (wires (UserMetadataPage_Items x)) (UserMetadataPage_Count x)
                 (UserMetadataPage_NextAfter x)))
  | (MUpsertAttachment _ _ _ _ | MCreateSubscription _ _ | MSubscribeChannel _ _ | MBlockUser _ _), AAttachment x =>
      Some (pb_ServerEnvelope_UpsertUserAttachmentResponse (mkpb_UpsertUserAttachmentResponse id (Some (attachment_wire x))))
  | (MDeleteAttachment _ _ _ | MUnsubscribeChannel _ _ | MUnblockUser _ _), AAttachment x =>
      Some (pb_ServerEnvelope_DeleteUserAttachmentResponse (mkpb_DeleteUserAttachmentResponse id (Some (attachment_wire x))))
  | (MListAttachments _ _ | MListSubscriptions _ | MListBlockedUsers _), AAttachments l =>
      Some (pb_ServerEnvelope_ListUserAttachmentsResponse (mkpb_ListUserAttachmentsResponse id (wires l) count))
  | MListMessages _ _, AMessages l =>
      Some (pb_ServerEnvelope_ListMessagesResponse (mkpb_ListMessagesResponse id (wires l) count))
  | MListUsers _, AUsers l => Some (pb_ServerEnvelope_ListUsersResponse (mkpb_ListUsersResponse id (wires l) count))
  | MListEvents _ _, AEvents l => Some (pb_ServerEnvelope_ListEventsResponse (mkpb_ListEventsResponse id (wires l) count))
  | MListClusterNodes, AClusterNodes l =>
      Some (pb_ServerEnvelope_ListClusterNodesResponse (mkpb_ListClusterNodesResponse id (wires l) count))
  | MListNodeLoggedInUsers n, ALoggedInUsers l =>
      Some (pb_ServerEnvelope_ListNodeLoggedInUsersResponse (mkpb_ListNodeLoggedInUsersResponse id n (wires l) count))
  | MResolveUserSessions _, AResolvedUserSessions x =>
      Some (pb_ServerEnvelope_ResolveUserSessionsResponse
              (mkpb_ResolveUserSessionsResponse id (userRefToProto (ResolvedUserSessions_User x))
                 (wires (ResolvedUserSessions_Presence x)) (wires (ResolvedUserSessions_Sessions x)) count))
  | MOperationsStatus, AOperationsStatus x =>
      Some (pb_ServerEnvelope_OperationsStatusResponse (mkpb_OperationsStatusResponse id (Some (operationsStatus_wire x))))
  | MMetrics, AString x => Some (pb_ServerEnvelope_MetricsResponse (mkpb_MetricsResponse id x))
  | _, _ => None
  end.

(** Values the wire can carry: named constants, no typed view of metadata. *)
Definition value_ok (v : any) : Prop :=
  match v with
  | ARelayAccepted x => deliveryMode_ok (ra_DeliveryMode x)
  | AUserMetadata x => UserMetadata_TypedValue x = None
  | AUserMetadataPage x => Forall (fun m => UserMetadata_TypedValue m = None) (UserMetadataPage_Items x)
  | AAttachment x => attachmentType_ok (Attachment_AttachmentType x)
  | AAttachments l => Forall (fun a => attachmentType_ok (Attachment_AttachmentType a)) l
  | _ => True
  end.

(** ** The methods *)

Lemma result_guard {A} (wrap : A -> returned) v c k :
  result_of wrap (guard v c) = Some k -> result_of wrap c = Some k.
Proof. by destruct v. Qed.
Lemma result_guard_as {A} (wrap : A -> returned) f v c k :
  result_of wrap (guard_as f v c) = Some k -> result_of wrap c = Some k.
Proof. by destruct v. Qed.

Lemma result_map_guard {A B} (wrap : B -> returned) (f : A -> B) v c k :
  result_of wrap (call_map f (guard v c)) = Some k -> result_of wrap (call_map f c) = Some k.
Proof. by destruct v. Qed.
Lemma result_map_guard_as {A B} (wrap : B -> returned) (f : A -> B) fmt v c k :
  result_of wrap (call_map f (guard_as fmt v c)) = Some k -> result_of wrap (call_map f c) = Some k.
Proof. by destruct v. Qed.

Lemma subscription_view a : subscriptionFromProto (attachment_view a) = subscription_of a.
Proof. unfold subscriptionFromProto, attachment_view, subscription_of. simpl. by rewrite !userRef_wire. Qed.
Lemma blacklist_view a : blacklistEntryFromProto (attachment_view a) = blacklist_entry_of a.
Proof. unfold blacklistEntryFromProto, attachment_view, blacklist_entry_of. simpl. by rewrite !userRef_wire. Qed.

Lemma result_build {A} (wrap : A -> returned) c : is_Some (result_of wrap c) <-> is_Some (build_of c).
Proof. destruct c; simpl; split; intros [x Hx]; try discriminate Hx; by eexists. Qed.

(** A method has a result to make exactly when it sends a request. *)
Lemma result_request m : is_Some (method_result m) <-> is_Some (request_of m).
Proof. destruct m; apply result_build. Qed.

(** Walks the guards a call that sends has passed. *)
Ltac answered H :=
  repeat first
    [ apply result_guard in H | apply result_guard_as in H | apply result_map_guard in H | apply result_map_guard_as in H
    | match type of H with result_of _ (if ?b then _ else _) = _ => destruct b; [discriminate H|] end
    | match type of H with result_of _ (call_map _ (if ?b then _ else _)) = _ => destruct b; [discriminate H|] end ];
  injection H as <-.

Lemma method_returns m k :
  method_result m = Some k ->
  exists msg, forall v, k v = if decide (kind_of v = answer_kind m) then Ok (shown m v) else Err (EProtocol msg []).
Proof.
  destruct m; simpl; intros H;
    unfold CreateChannel, CreateUser, PostPacket, PostMessage, SendMessage, SendPacketToSession, SendPacket,
      GetUser, UpdateUser, DeleteUser, WSGetUserMetadata, WSUpsertUserMetadata, WSDeleteUserMetadata,
      WSScanUserMetadata, ListNodeLoggedInUsers, CreateSubscription, SubscribeChannel, UnsubscribeChannel,
      ListSubscriptions, BlockUser, UnblockUser, ListBlockedUsers, UpsertAttachment, DeleteAttachment, ListAttachments,
      WSListMessages, WSListUsers, ResolveUserSessions in H; answered H;
    eexists; intros []; simpl; try reflexivity;
    by rewrite ?subscription_view, ?blacklist_view, ?collect_map.
Qed.

(** ** The read loop *)

Section answers.
Context {S : Type} `{CursorStore S}.
Context (unmarshal : bytes -> result error pb_RelayEnvelope).
Implicit Types c : Client S.

Lemma handle_response now ctxErr err body id v c :
  response_of body = Some (id, v) ->
  handleServerEnvelope unmarshal now ctxErr err (mkpb_ServerEnvelope (Some body)) c =
    Ok (None, (resolvePending id (Ok v) c).2, []).
Proof. destruct body; simpl; intros Hr; try discriminate Hr; by injection Hr as <- <-. Qed.

(** The message of a send response is stored first. *)
Definition stored (v : any) c c' : Prop :=
  match v with AMessage x => persistMessage x c = (None, c') | _ => c' = c end.

Lemma handle_message now ctxErr err id x c c' :
  persistMessage x c = (None, c') ->
  handleServerEnvelope unmarshal now ctxErr err (mkpb_ServerEnvelope (Some (pb_ServerEnvelope_SendMessageResponse
    (mkpb_SendMessageResponse id (Some (pb_SendMessageResponse_Message (message_wire x))))))) c =
    Ok (None, (resolvePending id (Ok (AMessage x)) c').2, []).
Proof.
  intros Hp. unfold handleServerEnvelope, sendMessageResponse.
  cbn [pb_ServerEnvelope_body pb_SendMessageResponse_body pb_SendMessageResponse_RequestId].
  pose proof (@go_of_wire _ _ message_codec x I) as E. change (messageFromProto (Some (message_wire x)) = x) in E.
  by rewrite E, Hp.
Qed.

Lemma handle_accepted now ctxErr err id x c :
  deliveryMode_ok (ra_DeliveryMode x) ->
  handleServerEnvelope unmarshal now ctxErr err (mkpb_ServerEnvelope (Some (pb_ServerEnvelope_SendMessageResponse
    (mkpb_SendMessageResponse id (Some (pb_SendMessageResponse_TransientAccepted (relayAccepted_wire x))))))) c =
    Ok (None, (resolvePending id (Ok (ARelayAccepted x)) c).2, []).
Proof.
  intros Hx. unfold handleServerEnvelope, sendMessageResponse.
  cbn [pb_ServerEnvelope_body pb_SendMessageResponse_body pb_SendMessageResponse_RequestId].
  pose proof (@go_of_wire _ _ relayAccepted_codec x Hx) as E.
  change (relayAcceptedFromProto (Some (relayAccepted_wire x)) = x) in E. by rewrite E.
Qed.

(** The server's own response puts exactly its value into the channel of the request. *)
Lemma reply_stored m id count v body now ctxErr err c c' :
  reply m id count v = Some body -> value_ok v -> stored v c c' ->
  handleServerEnvelope unmarshal now ctxErr err (mkpb_ServerEnvelope (Some body)) c =
    Ok (None, (resolvePending id (Ok v) c').2, []).
Proof.
  intros Hr Hv Hst.
  destruct m, v; simpl in Hr; try discriminate Hr; injection Hr as <-; simpl in Hv, Hst; try subst c';
    try (by apply handle_message); try (by apply handle_accepted); apply handle_response; simpl; f_equal; f_equal; f_equal.
  all: try exact (@go_of_wire _ _ user_codec _ I).
  all: try exact (@go_of_wire _ _ userMetadata_codec _ Hv).
  all: try exact (@go_of_wire _ _ attachment_codec _ Hv).
  all: try exact (@go_of_wire _ _ operationsStatus_codec _ I).
  all: try (apply (collect_wires attachment_codec); exact Hv).
  all: try (first [apply (collect_wires user_codec) | apply (collect_wires message_codec) | apply (collect_wires event_codec)
                  |apply (collect_wires clusterNode_codec) | apply (collect_wires loggedInUser_codec)]; by apply all_ok).
  all: try (match goal with x : DeleteUserResult |- _ => destruct x; simpl; by rewrite userRef_wire end).
  all: try exact (@go_of_wire _ _ userMetadataPage_codec _ Hv).
  all: try exact (@go_of_wire _ _ resolvedUserSessions_codec _ I).
Qed.

(** C39: api_methods_faithful. For every RPC method of the WebSocket client but Ping, which asks for no
    value: (1) the request it sends, if it sends any, carries the ID drawn for it and
    names an actual user wherever the request must name one; (2) when the server answers the
    request with the response of that method for a value the wire can carry, the read loop stores
    exactly that value for the request and the method returns it, or its view of it (a message is
    persisted first); (3) for whatever value is stored, the method returns its view of it when the
    value has the method's Go type, and a protocol error otherwise. The type is all that is
    tested: a response of another kind with the same type (that of CreateUser under the ID of a
    GetUser) is returned as the value. *)
Theorem api_methods_faithful m build :
  request_of m = Some build ->
  (forall id, request_id (build id) = Some id /\ Forall names_user (named_users (build id))) /\
  (forall id count v body now ctxErr err c c' ch,
     reply m id count v = Some body -> value_ok v -> stored v c c' ->
     c_pending c' !! id = Some ch -> c_chans c' !! ch = Some None ->
     exists c'', handleServerEnvelope unmarshal now ctxErr err (mkpb_ServerEnvelope (Some body)) c = Ok (None, c'', []) /\
       c_chans c'' !! ch = Some (Some (Ok v)) /\
       exists k, method_result m = Some k /\ k v = Ok (shown m v)) /\
  (exists k msg, method_result m = Some k /\
     forall v, k v = if decide (kind_of v = answer_kind m) then Ok (shown m v) else Err (EProtocol msg [])).
Proof.
  intros Hm. destruct (proj2 (result_request m) (mk_is_Some _ _ Hm)) as [k Hk].
  destruct (method_returns m k Hk) as [msg Hret]. split_and!.
  - intros id. by eapply requests_wellformed.
  - intros id count v body now ctxErr err c c' ch Hr Hv Hst Hp Hc. eexists.
    split; [by eapply reply_stored|]. split.
    + unfold resolvePending. rewrite Hp. simpl. unfold offer. rewrite Hc. by rewrite lookup_insert_eq.
    + exists k. split; [done|]. rewrite Hret. rewrite decide_True; [done|].
      destruct m, v; simpl in Hr; by try discriminate Hr.
  - by exists k, msg.
Qed.
End answers.

(** A GetUser under ID 7: its own response; a CreateUser response under its ID; the text of a
    MetricsResponse. *)
Definition waiting_client : Client MemoryCursorStore :=
  mkClient demo_config NewMemoryCursorStore NopHandler false false (Some 0%nat) true zero_LoginInfo
    {[7 := 0%nat]} {[0%nat := None]} 1 ∅ 7 None None.
Definition get_user : method := MGetUser (mkUserRef 1 2).

Lemma api_methods_faithful_witness :
  exists build, request_of get_user = Some build /\ request_id (build 7) = Some 7 /\
    exists k, method_result get_user = Some k /\ k (AUser zero_User) = Ok (RValue (AUser zero_User)) /\
      (exists body c, reply (MCreateUser (mkCreateUserRequest "n" "" zero_PasswordInput [] "user")) 7 0 (AUser zero_User) = Some body /\
         handleServerEnvelope no_relay 0 None None (mkpb_ServerEnvelope (Some body)) waiting_client = Ok (None, c, []) /\
         c_chans c !! 0%nat = Some (Some (Ok (AUser zero_User)))) /\
      exists msg, k (AString "text") = Err (EProtocol msg []).
Proof.
  eexists. split; [reflexivity|].
  destruct (api_methods_faithful no_relay get_user _ eq_refl) as (Hreq & Hrep & k & msg & Hk & Hret).
  split; [exact (proj1 (Hreq 7))|]. exists k. split; [exact Hk|]. split.
  - destruct (Hrep 7 0 (AUser zero_User) _ 0 None None waiting_client waiting_client 0%nat eq_refl I eq_refl eq_refl eq_refl)
      as (c & _ & _ & k' & Hk' & Hv). assert (k' = k) as -> by congruence. exact Hv.
  - split; [|exists msg; rewrite Hret; reflexivity].
    eexists _, _. split; [reflexivity|]. split; [reflexivity|]. reflexivity.
Defined.
