(* ===== verification/ClientTracked.v ===== *)
(** * Tracked stream sends: SendStreamFrameTracked of client.go among results and disconnects

    Every goroutine that is in [SendStreamFrameTracked], one critical section per step, with
    the writes of [writeProtoOnTransport] in their two parts, interleaved with the envelopes of
    the server, the teardown of a session, [Close] and whatever else the client does. What the
    handler was told is kept in a log, so that what a caller is returned can be compared with
    what was reported for its frame. The writer lock is not modelled here: it only removes
    interleavings. *)

From stdpp Require Import base list strings gmap.
From S2P Require Import Prelude Errors Types StreamProtocol Wire RelayManager Records Convert Requests Store ClientApi Client ClientRun.

(** The arguments of a call. *)
Record tracked_call : Type := mkTracked { tk_target : UserRef; tk_session : SessionRef; tk_frame : StreamFrame }.
Definition tk_metadata (a : tracked_call) : StreamSendMetadata :=
  trackedMetadata (tk_target a) (tk_session a) (tk_frame a).
Definition tk_body (id : Z) (a : tracked_call) : pb_ClientEnvelope_Body :=
  pb_ClientEnvelope_StreamFrame (streamFrameRequest id (tk_target a) (tk_session a) (tk_frame a)).

(** Where a goroutine is in [SendStreamFrameTracked]. *)
Inductive track_pc : Type :=
| TRegister (id : Z)                     (* has drawn its ID *)
| TSnapshot (id : Z)                     (* is in the table *)
| TCheck (id : Z) (conn : nat)
| TPayload (id : Z) (conn : nat)
| TTake (id : Z) (e : error)             (* the write failed *)
| TRefused (id : Z) (e : error)          (* has returned the error of registerStreamSend *)
| TFailed (id : Z) (e : error)           (* has returned the error of the write *)
| TSent (id : Z).                        (* has returned its ID *)

Definition track_id (p : track_pc) : Z :=
  match p with
  | TRegister id | TSnapshot id | TCheck id _ | TPayload id _ | TTake id _ | TRefused id _ | TFailed id _ | TSent id => id
  end.
(** It was entered in the table. *)
Definition track_registered (p : track_pc) : bool :=
  match p with TRegister _ | TRefused _ _ => false | _ => true end.
(** ... and has not taken itself out again. *)
Definition track_waits (p : track_pc) : bool :=
  match p with TRegister _ | TRefused _ _ | TFailed _ _ => false | _ => true end.

(** The send a notification reports. *)
Definition notice (e : client_event) : option (Z * StreamSendMetadata) :=
  match e with EOnStreamSendResult r => Some (sres_RequestID r, sres_Metadata r) | _ => None end.

Section tracked.
Context {S : Type} `{CursorStore S}.
Context (unmarshal : bytes -> result error pb_RelayEnvelope).
Implicit Types c : Client S.

Record tracker : Type := mkTracker {
  tr_client : Client S;
  tr_calls : gmap nat (tracked_call * track_pc);
  tr_log : list client_event;              (* what the handler was told, oldest first *)
}.
Implicit Types m : tracker.

Definition reported m : list (Z * StreamSendMetadata) := omap notice (tr_log m).
Definition tr_call (k : nat) (a : tracked_call) (p : track_pc) c m : tracker :=
  mkTracker c (<[k := (a, p)]> (tr_calls m)) (tr_log m).
Definition tr_event c (evs : list client_event) m : tracker := mkTracker c (tr_calls m) (tr_log m ++ evs).

(** What the rest of the client does, with the events it causes. *)
Inductive env_step c : Client S -> list client_event -> Prop :=
| env_envelope env now ctxErr err e c' evs :
    handleServerEnvelope unmarshal now ctxErr err env c = Ok (e, c', evs) -> env_step c c' evs
| env_login conn env e c' evs : establish conn env c = (e, c', evs) -> env_step c c' evs
| env_drop conn : env_step c (dropSession conn c) []
| env_fail err c' evs : failAllStreamSends err c = (c', evs) -> env_step c c' evs
| env_close c' evs : Close c = (c', evs) -> env_step c c' evs
| env_invalidate conn c' evs : invalidateTransport conn c = (c', evs) -> env_step c c' evs
| env_rpc pending chans next : (* a request is registered, resolved, failed or forgotten *)
    env_step c (set_rpc pending chans next c) []
| env_relay r : env_step c (set_relay r c) []
| env_signal err : env_step c (signalFirstConnect err c) [].

Inductive tr_step : tracker -> tracker -> Prop :=
| tr_draw m k a id c' :
    tr_calls m !! k = None -> trackedCheck (tk_target a) (tk_session a) (tk_frame a) = None ->
    c_requestID (tr_client m) + 1 < two64 -> nextRequestID (tr_client m) = (id, c') ->
    tr_step m (tr_call k a (TRegister id) c' m)
| tr_register m k a id e c' :
    tr_calls m !! k = Some (a, TRegister id) -> registerStreamSend id (tk_metadata a) (tr_client m) = (e, c') ->
    tr_step m (tr_call k a (match e with None => TSnapshot id | Some e => TRefused id e end) c' m)
| tr_snapshot m k a id r :
    tr_calls m !! k = Some (a, TSnapshot id) -> sendBegin (tr_client m) = r ->
    tr_step m (tr_call k a (match r with inr conn => TCheck id conn | inl e => TTake id e end) (tr_client m) m)
| tr_check m k a id conn ctxErr r :
    tr_calls m !! k = Some (a, TCheck id conn) -> writeTransport_check conn ctxErr (tr_client m) = r ->
    tr_step m (tr_call k a (match r with None => TPayload id conn | Some e => TTake id e end) (tr_client m) m)
| tr_write m k a id conn err e c' evs :
    tr_calls m !! k = Some (a, TPayload id conn) ->
    writeProtoPayload conn (tk_body id a) err (tr_client m) = (e, c', evs) ->
    tr_step m (tr_call k a (match e with None => TSent id | Some e => TTake id e end) c' m)
| tr_take m k a id e md c' :
    tr_calls m !! k = Some (a, TTake id e) -> takeStreamSend id (tr_client m) = (md, c') ->
    tr_step m (tr_call k a (TFailed id e) c' m)
| tr_other_draw m id c' :       (* another RPC draws its ID *)
    c_requestID (tr_client m) + 1 < two64 -> nextRequestID (tr_client m) = (id, c') ->
    tr_step m (tr_event c' [] m)
| tr_env m c' evs : env_step (tr_client m) c' evs -> tr_step m (tr_event c' evs m).

Definition tracked_start c : Prop :=
  c_streamSendPending c = ∅ /\ is_u64 (c_requestID c) /\ h_StreamSend (c_handler c) = true.

Inductive tr_reachable (c0 : Client S) : tracker -> Prop :=
| tr_start : tr_reachable c0 (mkTracker c0 ∅ [])
| tr_next m m' : tr_reachable c0 m -> tr_step m m' -> tr_reachable c0 m'.

(** ** What the operations do to the table and the log *)

(** The sends that leave the table are those that are reported. *)
Definition reports c c' (evs : list client_event) : Prop :=
  c_requestID c' = c_requestID c /\ c_cfg c' = c_cfg c /\ c_handler c' = c_handler c /\
  map_to_list (c_streamSendPending c) ≡ₚ map_to_list (c_streamSendPending c') ++ omap notice evs.

Definition stream_view c := (c_streamSendPending c, c_requestID c, c_cfg c, c_handler c).

Lemma reports_quiet c c' evs : stream_view c' = stream_view c -> omap notice evs = [] -> reports c c' evs.
Proof. intros [= Hp Hi Hc Hh] Hn. unfold reports. rewrite Hp, Hi, Hc, Hh, Hn. by rewrite app_nil_r. Qed.

Lemma reports_complete id err c c' evs :
  h_StreamSend (c_handler c) = true -> completeStreamSend id err c = (c', evs) -> reports c c' evs.
Proof.
  unfold completeStreamSend, takeStreamSend. intros Hh.
  destruct (c_streamSendPending c !! id) as [md|] eqn:E; intros; simplify_eq; [|by apply reports_quiet].
  unfold reports, notifyStreamSend. simpl. rewrite Hh. split_and!; try done. simpl.
  rewrite <- (map_to_list_delete _ _ _ E). by rewrite Permutation_app_comm.
Qed.

Lemma reports_failAll err c c' evs :
  h_StreamSend (c_handler c) = true -> failAllStreamSends err c = (c', evs) -> reports c c' evs.
Proof.
  intros Hh [= <- <-]. unfold reports. split_and!; try done. simpl. rewrite map_to_list_empty. simpl.
  unfold notifyStreamSend. rewrite Hh. induction (map_to_list _) as [|[id md] l IH]; [done|].
  simpl. by constructor.
Qed.

Lemma invalidate_stream conn c c' evs :
  invalidateTransport conn c = (c', evs) -> stream_view c' = stream_view c /\ omap notice evs = [].
Proof. unfold invalidateTransport. intros. case_match; by simplify_eq. Qed.

Lemma payload_stream conn body err c e c' evs :
  writeProtoPayload conn body err c = (e, c', evs) -> stream_view c' = stream_view c /\ omap notice evs = [].
Proof.
  unfold writeProtoPayload. destruct err; [|by intros; simplify_eq].
  destruct (invalidateTransport conn c) as [c1 evs1] eqn:E. intros. simplify_eq. by eapply invalidate_stream.
Qed.

Lemma send_stream body ctxErr err c e c' evs :
  sendEnvelope body ctxErr err c = (e, c', evs) -> stream_view c' = stream_view c /\ omap notice evs = [].
Proof.
  unfold sendEnvelope, writeProtoOnTransport. destruct (sendBegin c); [by intros; simplify_eq|].
  destruct (writeTransport_check _ _ c); [by intros; simplify_eq|]. apply payload_stream.
Qed.

Lemma persist_stream msg c e c' : persistMessage msg c = (e, c') -> stream_view c' = stream_view c.
Proof.
  unfold persistMessage. destruct (SaveMessage msg (c_store c)) as [s [e1|]]; [by intros; simplify_eq|].
  destruct (SaveCursor _ s). by intros; simplify_eq.
Qed.

Lemma pushed_stream msg ctxErr err c e c' evs :
  messagePushed msg ctxErr err c = (e, c', evs) -> stream_view c' = stream_view c /\ omap notice evs = [].
Proof.
  unfold messagePushed. destruct (persistMessage msg c) as [[e1|] c1] eqn:Ep; apply persist_stream in Ep as <-;
    [by intros; simplify_eq|].
  destruct (cfg_AckMessages _); [|by intros; simplify_eq].
  destruct (sendEnvelope _ ctxErr err c1) as [[e2 c2] evs2] eqn:Es. apply send_stream in Es as [Hv Hn].
  destruct e2 as [e2|]; [destruct (negb (errors_Is e2 _) && _)|]; intros Hx; injection Hx as <- <- <-;
    (split; [exact Hv|]); by rewrite ?omap_app, Hn.
Qed.

Lemma resolve_stream id r c : stream_view (resolvePending id r c).2 = stream_view c.
Proof. unfold resolvePending. by destruct (c_pending c !! id). Qed.

Lemma dispatch_notices pkt frame c : omap notice (dispatchStream pkt frame c) = [].
Proof. unfold dispatchStream. by destruct (h_Stream _). Qed.

Lemma relay_notices evs : omap notice (ERelayEvent <$> evs) = [].
Proof. by induction evs. Qed.

Lemma packet_stream now pkt c e c' evs :
  packetPushed unmarshal now pkt c = Ok (e, c', evs) -> stream_view c' = stream_view c /\ omap notice evs = [].
Proof.
  unfold packetPushed. intros Hok.
  assert (forall (r : result error (bool * Client S * list client_event)),
    (forall h c1 evs1, r = Ok (h, c1, evs1) -> stream_view c1 = stream_view c /\ omap notice evs1 = []) ->
    ('(h, c1, evs1) ← r;
     if h : bool then mret (None, c1, evs1)
     else if IsStreamFrame (p_Body pkt)
     then match UnmarshalStreamFrame (p_Body pkt) with
          | Ok frame => mret (None, c1, evs1 ++ dispatchStream pkt frame c1)
          | Err e => mret (Some e, c1, evs1) | Panic => Panic end
     else mret (None, c1, evs1 ++ [EOnPacket pkt])) = Ok (e, c', evs) ->
    stream_view c' = stream_view c /\ omap notice evs = []) as Hgen.
  { intros [[[h c1] evs1]| |] Hr Hb; simpl in Hb; try done. destruct (Hr _ _ _ eq_refl) as [Hv Hn].
    destruct h; [by injection Hb as <- <- <-|].
    destruct (IsStreamFrame _); [destruct (UnmarshalStreamFrame _)|]; simpl in Hb;
      try done; injection Hb as <- <- <-; rewrite ?omap_app, ?dispatch_notices, ?Hn; done. }
  eapply Hgen; [|exact Hok]. intros h c1 evs1. destruct (c_relay c) as [r|]; [|by intros [= <- <- <-]].
  destruct (handlePacket _ _ _ now r) as [[[h' r'] evs']| |]; simpl; try done.
  intros [= <- <- <-]. by rewrite relay_notices.
Qed.

Lemma handle_reports now ctxErr err env c e c' evs :
  h_StreamSend (c_handler c) = true ->
  handleServerEnvelope unmarshal now ctxErr err env c = Ok (e, c', evs) -> reports c c' evs.
Proof.
  intros Hh. unfold handleServerEnvelope. destruct (pb_ServerEnvelope_body env) as [b|];
    [|intros [= <- <- <-]; by apply reports_quiet].
  assert (forall (p : option error * Client S * list client_event),
    stream_view p.1.2 = stream_view c /\ omap notice p.2 = [] -> @Ok error _ p = Ok (e, c', evs) -> reports c c' evs) as Hq.
  { intros p [Hv Hn] Hp. injection Hp as ->. by apply reports_quiet. }
  destruct b; simpl;
    try (intros Hok; refine (Hq _ _ Hok); split; [apply resolve_stream|done]);
    try (intros Hok; refine (Hq _ _ Hok); done).
  - apply Hq. destruct (messagePushed _ _ _ c) as [[e1 c1] evs1] eqn:E. by eapply pushed_stream.
  - apply Hq. simpl. split; [|done]. unfold sendMessageResponse.
    destruct (pb_SendMessageResponse_body v) as [[m|a]|]; simpl; [|apply resolve_stream..].
    destruct (persistMessage _ c) as [[e1|] c1] eqn:Ep; apply persist_stream in Ep as <-; apply resolve_stream.
  - unfold errorResponse. destruct (negb _); [|apply Hq; by split].
    destruct (resolvePending _ _ c) as [b c1] eqn:E.
    pose proof (resolve_stream (pb_Error_RequestId v) (Err (serverError v)) c) as Hv. rewrite E in Hv. simpl in Hv.
    destruct b; [by apply Hq|].
    unfold resolvePending in E. destruct (c_pending c !! _); [done|]. injection E as <-.
    destruct (completeStreamSend _ _ c) as [c2 evs2] eqn:Ec. intros [= <- <- <-]. by eapply reports_complete.
  - intros Hok. apply packet_stream in Hok as [??]. by apply reports_quiet.
  - apply Hq. unfold streamFramePushed. destruct (negb _); [done|]. simpl. by rewrite dispatch_notices.
  - destruct (completeStreamSend _ _ c) as [c2 evs2] eqn:Ec. intros [= <- <- <-]. by eapply reports_complete.
Qed.

Lemma close_reports c c' evs : h_StreamSend (c_handler c) = true -> Close c = (c', evs) -> reports c c' evs.
Proof.
  intros Hh. unfold Close. destruct (c_closed c); [intros [= <- <-]; by apply reports_quiet|].
  set (c1 := set_session None false zero_LoginInfo (set_closed true c)).
  destruct (failAllStreamSends (Sentinel ErrClosed) c1) as [c2 evs2] eqn:E. intros [= <- <-].
  apply reports_failAll in E as (Hi & Hc & Hd & Hp); [|done]. unfold reports.
  rewrite omap_app. simpl in *. split_and!; try done. rewrite Hp.
  by destruct (c_conn c); rewrite app_nil_r.
Qed.

Lemma env_reports c c' evs : h_StreamSend (c_handler c) = true -> env_step c c' evs -> reports c c' evs.
Proof.
  intros Hh [env now ctxErr err e c1 evs1 Hok|conn env e c1 evs1 He|conn|err c1 evs1 Hf|c1 evs1 Hc|conn c1 evs1 Hi
    |pending chans next|r|err]; try by apply reports_quiet.
  - by eapply handle_reports.
  - unfold establish in He. destruct env as [e1|env]; [by simplify_eq; apply reports_quiet|].
    unfold expectLogin in He. destruct (pb_ServerEnvelope_body env) as [[]|]; simpl in He;
      try (injection He as <- <- <-; by apply reports_quiet).
    destruct (negb _); injection He as <- <- <-; [by apply reports_quiet|].
    unfold signalFirstConnect. simpl. destruct (c_firstConnect _); by apply reports_quiet.
  - by eapply reports_failAll.
  - by apply close_reports.
  - apply invalidate_stream in Hi as [??]. by apply reports_quiet.
  - unfold signalFirstConnect. destruct (c_firstConnect _); by apply reports_quiet.
Qed.

(** ** The invariant *)

Abbreviation table := (gmap Z StreamSendMetadata).

(** A call that waits is in the table or has been reported; any other has no entry. *)
Definition accounted (tbl : table) (rep : list (Z * StreamSendMetadata)) (a : tracked_call) (p : track_pc) : Prop :=
  let id := track_id p in
  if track_waits p
  then (tbl !! id = Some (tk_metadata a) /\ id ∉ fst <$> rep) \/ (tbl !! id = None /\ (id, tk_metadata a) ∈ rep)
  else tbl !! id = None /\ (track_registered p = false -> id ∉ fst <$> rep).

Abbreviation tbl m := (c_streamSendPending (tr_client m)).

Record tr_inv (c0 : Client S) m : Prop := {
  ti_cfg : c_cfg (tr_client m) = c_cfg c0;
  ti_handler : c_handler (tr_client m) = c_handler c0;
  ti_range : is_u64 (c_requestID (tr_client m));
  ti_ids k a p : tr_calls m !! k = Some (a, p) -> track_id p <= c_requestID (tr_client m);
  ti_uniq k1 k2 a1 a2 p1 p2 : tr_calls m !! k1 = Some (a1, p1) -> tr_calls m !! k2 = Some (a2, p2) ->
    track_id p1 = track_id p2 -> k1 = k2;
  ti_size : Z.of_nat (size (tbl m)) <= Z.max 0 (cfg_StreamSendPendingLimit (c_cfg c0));
  ti_nodup : NoDup (fst <$> reported m);
  ti_acc k a p : tr_calls m !! k = Some (a, p) -> accounted (tbl m) (reported m) a p;
  ti_owner id md : tbl m !! id = Some md \/ (id, md) ∈ reported m ->
    exists k a p, tr_calls m !! k = Some (a, p) /\ track_id p = id /\ md = tk_metadata a;
}.

Lemma reported_gone c0 m id : tr_inv c0 m -> id ∈ fst <$> reported m -> tbl m !! id = None.
Proof.
  intros Hinv Hin. apply list_elem_of_fmap in Hin as ([id' md] & -> & Hin). simpl.
  destruct (ti_owner _ _ Hinv id' md (or_intror Hin)) as (k & a & p & Hk & <- & ->).
  assert (track_id p ∈ fst <$> reported m) as Hrep by (apply list_elem_of_fmap; by eexists (_, _)).
  apply (ti_acc _ _ Hinv) in Hk. unfold accounted in Hk. destruct (track_waits p); [|by destruct Hk].
  destruct Hk as [[_ Hk]|[Hk _]]; [by destruct Hk|done].
Qed.

(** What a permutation of the table into what stays and what is reported says key by key. *)
Lemma split_table (t t' : table) (new : list (Z * StreamSendMetadata)) :
  map_to_list t ≡ₚ map_to_list t' ++ new ->
  (forall id md, t !! id = Some md <-> t' !! id = Some md \/ (id, md) ∈ new) /\
  NoDup (fst <$> new) /\ (forall id, id ∈ fst <$> new -> t' !! id = None) /\ (size t' <= size t)%nat.
Proof.
  intros Hp. pose proof (NoDup_fst_map_to_list t) as Hnd. rewrite Hp, fmap_app in Hnd.
  apply NoDup_app in Hnd as (_ & Hd & Hnd). split_and!; [|done|..].
  - intros id md. rewrite <- (elem_of_map_to_list t id md), Hp, elem_of_app. by rewrite elem_of_map_to_list.
  - intros id Hin. destruct (t' !! id) as [md|] eqn:E; [|done]. exfalso. apply (Hd id); [|done].
    apply list_elem_of_fmap. exists (id, md). split; [done|]. by apply elem_of_map_to_list.
  - apply Permutation_length in Hp. rewrite length_app in Hp.
    rewrite !length_map_to_list in Hp. lia.
Qed.

Lemma inv_event c0 m c' evs : tr_inv c0 m -> reports (tr_client m) c' evs -> tr_inv c0 (tr_event c' evs m).
Proof.
  intros Hinv (Hi & Hc & Hh & Hp). apply split_table in Hp as (Hlk & Hnd & Hgone & Hsz).
  assert (reported (tr_event c' evs m) = reported m ++ omap notice evs) as Hrep by apply omap_app.
  assert (forall id, tbl m !! id = None -> c_streamSendPending c' !! id = None /\ id ∉ fst <$> omap notice evs) as Hnone.
  { intros id Hid. split.
    - destruct (c_streamSendPending c' !! id) eqn:E; [|done]. pose proof (proj2 (Hlk _ _) (or_introl E)). congruence.
    - intros Hin. apply list_elem_of_fmap in Hin as ([? md] & -> & Hin). simpl in *.
      pose proof (proj2 (Hlk _ _) (or_intror Hin)). congruence. }
  constructor; simpl; rewrite ?Hrep, ?Hi, ?Hc, ?Hh; try apply Hinv.
  - pose proof (ti_size _ _ Hinv). lia.
  - rewrite fmap_app. apply NoDup_app. split_and!; [apply Hinv| |done].
    intros id Hin. by apply Hnone, (reported_gone c0).
  - intros k a p Hk. pose proof (ti_acc _ _ Hinv _ _ _ Hk) as Ha. unfold accounted in *.
    destruct (track_waits p); rewrite fmap_app, !elem_of_app.
    + destruct Ha as [[Ht Hr]|[Ht Hr]].
      * destruct (proj1 (Hlk _ _) Ht) as [Ht'|Hin]; [left|right].
        -- split; [done|]. intros [?|Hin]; [done|]. by rewrite (Hgone _ Hin) in Ht'.
        -- split; [|by right]. apply Hgone, list_elem_of_fmap. by eexists (_, _).
      * right. split; [by apply Hnone|by left].
    + destruct Ha as [Ht Hr]. destruct (Hnone _ Ht) as [Ht' Hn]. split; [done|]. intros Hreg [?|?]; [by apply Hr|done].
  - intros id md Ho. apply (ti_owner _ _ Hinv). rewrite elem_of_app in Ho.
    destruct Ho as [Ho|[Ho|Ho]]; [left|by right|left]; apply Hlk; auto.
Qed.

(** A goroutine moves on: only the entry of its own ID changes. *)
Lemma inv_call c0 m k a p p' c' :
  tr_inv c0 m -> tr_calls m !! k = Some (a, p) -> track_id p' = track_id p ->
  c_requestID c' = c_requestID (tr_client m) -> c_cfg c' = c_cfg (tr_client m) -> c_handler c' = c_handler (tr_client m) ->
  (forall id, id <> track_id p -> c_streamSendPending c' !! id = tbl m !! id) ->
  (c_streamSendPending c' !! track_id p = None \/ c_streamSendPending c' !! track_id p = Some (tk_metadata a)) ->
  Z.of_nat (size (c_streamSendPending c')) <= Z.max 0 (cfg_StreamSendPendingLimit (c_cfg c0)) ->
  accounted (c_streamSendPending c') (reported m) a p' ->
  tr_inv c0 (tr_call k a p' c' m).
Proof.
  intros Hinv Hk Hid Hi Hc Hh Hne Heq Hsz Hacc.
  assert (forall k0 a0 p0, <[k := (a, p')]> (tr_calls m) !! k0 = Some (a0, p0) ->
    (k0 = k /\ a0 = a /\ p0 = p') \/ (k0 <> k /\ tr_calls m !! k0 = Some (a0, p0))) as Hlk.
  { intros k0 a0 p0. destruct (decide (k = k0)) as [<-|]; [rewrite lookup_insert_eq; intros [= <- <-]; by left|].
    rewrite lookup_insert_ne by done. by right. }
  constructor; simpl; rewrite ?Hi, ?Hc, ?Hh; try apply Hinv; try done.
  - intros k0 a0 p0 H0. destruct (Hlk _ _ _ H0) as [(-> & -> & ->)|[_ H1]]; [rewrite Hid|]; by eapply (ti_ids _ _ Hinv).
  - intros k1 k2 a1 a2 p1 p2 H1 H2 Heq'.
    destruct (Hlk _ _ _ H1) as [(-> & -> & ->)|[? H1']], (Hlk _ _ _ H2) as [(-> & -> & ->)|[? H2']]; try done;
      eapply (ti_uniq _ _ Hinv); eauto; congruence.
  - intros k0 a0 p0 H0. destruct (Hlk _ _ _ H0) as [(-> & -> & ->)|[Hnk H1]]; [done|].
    pose proof (ti_acc _ _ Hinv _ _ _ H1) as Ha. unfold accounted in *. change (reported _) with (reported m).
    rewrite Hne; [done|]. intros Heq'. apply Hnk. by eapply (ti_uniq _ _ Hinv).
  - intros id md Ho.
    assert (exists k0 a0 p0, tr_calls m !! k0 = Some (a0, p0) /\ track_id p0 = id /\ md = tk_metadata a0) as (k0 & a0 & p0 & H0 & He & ->).
    { destruct Ho as [Ho|Ho]; [|by apply (ti_owner _ _ Hinv); right].
      destruct (decide (id = track_id p)) as [->|Hn]; [|rewrite Hne in Ho by done; apply (ti_owner _ _ Hinv); by left].
      exists k, a, p. split_and!; try done. destruct Heq as [Heq|Heq]; congruence. }
    destruct (decide (k0 = k)) as [->|Hn].
    + rewrite Hk in H0. injection H0 as <- <-. exists k, a, p'. rewrite lookup_insert_eq. split_and!; congruence.
    + exists k0, a0, p0. by rewrite lookup_insert_ne.
Qed.

(** ... without touching the table. *)
Lemma inv_move c0 m k a p p' c' :
  tr_inv c0 m -> tr_calls m !! k = Some (a, p) -> track_id p' = track_id p ->
  track_waits p' = track_waits p -> track_registered p' = track_registered p ->
  stream_view c' = stream_view (tr_client m) -> tr_inv c0 (tr_call k a p' c' m).
Proof.
  intros Hinv Hk Hid Hw Hr [= Hp Hi Hc Hh]. pose proof (ti_acc _ _ Hinv _ _ _ Hk) as Ha.
  apply (inv_call c0 m k a p); try done; rewrite ?Hp; try done; [|apply Hinv|].
  - destruct (tbl m !! track_id p) as [md|] eqn:E; [right|by left].
    destruct (ti_owner _ _ Hinv _ _ (or_introl E)) as (k0 & a0 & p0 & H0 & Hid0 & ->).
    assert (k0 = k) as -> by by eapply (ti_uniq _ _ Hinv). congruence.
  - unfold accounted in *. by rewrite Hid, Hw, Hr.
Qed.

Lemma inv_tr_draw c0 m k a id c' :
  tr_inv c0 m -> tr_calls m !! k = None -> c_requestID (tr_client m) + 1 < two64 ->
  nextRequestID (tr_client m) = (id, c') -> tr_inv c0 (tr_call k a (TRegister id) c' m).
Proof.
  intros Hinv Hk Hlt Hn. pose proof (ti_range _ _ Hinv) as Hu. unfold nextRequestID in Hn.
  rewrite u64_add_small in Hn by (unfold is_u64 in *; lia). injection Hn as <- <-. set (n := c_requestID _) in *.
  assert (forall id md, tbl m !! id = Some md \/ (id, md) ∈ reported m -> id <> n + 1) as Hold.
  { intros id md Ho ->. destruct (ti_owner _ _ Hinv _ _ Ho) as (k0 & a0 & p0 & H0 & Hid & _).
    apply (ti_ids _ _ Hinv) in H0. fold n in H0. lia. }
  assert (forall k0 a0 p0, <[k := (a, TRegister (n + 1))]> (tr_calls m) !! k0 = Some (a0, p0) ->
    (k0 = k /\ a0 = a /\ p0 = TRegister (n + 1)) \/ (k0 <> k /\ tr_calls m !! k0 = Some (a0, p0))) as Hlk.
  { intros k0 a0 p0. destruct (decide (k = k0)) as [<-|]; [rewrite lookup_insert_eq; intros [= <- <-]; by left|].
    rewrite lookup_insert_ne by done. by right. }
  constructor; simpl; try apply Hinv.
  - unfold is_u64 in *. lia.
  - intros k0 a0 p0 H0. destruct (Hlk _ _ _ H0) as [(-> & -> & ->)|[_ H1]]; simpl; [lia|].
    apply (ti_ids _ _ Hinv) in H1. fold n in H1. lia.
  - intros k1 k2 a1 a2 p1 p2 H1 H2 Heq.
    destruct (Hlk _ _ _ H1) as [(-> & -> & ->)|[? H1']], (Hlk _ _ _ H2) as [(-> & -> & ->)|[? H2']]; try done;
      [apply (ti_ids _ _ Hinv) in H2'; fold n in H2'; simpl in Heq; lia
      |apply (ti_ids _ _ Hinv) in H1'; fold n in H1'; simpl in Heq; lia|].
    by eapply (ti_uniq _ _ Hinv).
  - intros k0 a0 p0 H0. destruct (Hlk _ _ _ H0) as [(-> & -> & ->)|[_ H1]]; [|by apply (ti_acc _ _ Hinv) in H1].
    split; simpl.
    + destruct (tbl m !! (n + 1)) as [md|] eqn:E; [|done]. by destruct (Hold _ md (or_introl E)).
    + intros _ Hin. apply list_elem_of_fmap in Hin as ([i md] & Hi & Hin). simpl in Hi. subst i.
      by destruct (Hold _ md (or_intror Hin)).
  - intros id md Ho. destruct (ti_owner _ _ Hinv id md Ho) as (k0 & a0 & p0 & H0 & He).
    exists k0, a0, p0. rewrite lookup_insert_ne by congruence. done.
Qed.

Lemma inv_tr_register c0 m k a id e c' :
  tr_inv c0 m -> tr_calls m !! k = Some (a, TRegister id) ->
  registerStreamSend id (tk_metadata a) (tr_client m) = (e, c') ->
  tr_inv c0 (tr_call k a (match e with None => TSnapshot id | Some e => TRefused id e end) c' m).
Proof.
  intros Hinv Hk. unfold registerStreamSend.
  destruct (c_closed _); [intros [= <- <-]; by apply (inv_move c0 m k a (TRegister id))|].
  destruct (_ <=? _) eqn:Hle; [intros [= <- <-]; by apply (inv_move c0 m k a (TRegister id))|]. bool_facts.
  intros [= <- <-]. destruct (ti_acc _ _ Hinv _ _ _ Hk) as [Hnone Hrep]. simpl in *.
  apply (inv_call c0 m k a (TRegister id)); try done; simpl.
  - intros id' Hn. by rewrite lookup_insert_ne.
  - right. by rewrite lookup_insert_eq.
  - rewrite map_size_insert_None by done. rewrite (ti_cfg _ _ Hinv) in Hle. lia.
  - left. simpl. rewrite lookup_insert_eq. split; [done|by apply Hrep].
Qed.

Lemma inv_tr_take c0 m k a id e md c' :
  tr_inv c0 m -> tr_calls m !! k = Some (a, TTake id e) -> takeStreamSend id (tr_client m) = (md, c') ->
  tr_inv c0 (tr_call k a (TFailed id e) c' m).
Proof.
  intros Hinv Hk. unfold takeStreamSend. destruct (tbl m !! id) as [md'|] eqn:E; intros [= <- <-].
  - apply (inv_call c0 m k a (TTake id e)); try done; simpl.
    + intros id' Hn. by rewrite lookup_delete_ne.
    + left. by rewrite lookup_delete_eq.
    + pose proof (ti_size _ _ Hinv). rewrite map_size_delete, E. lia.
    + split; simpl; [by rewrite lookup_delete_eq|done].
  - apply (inv_call c0 m k a (TTake id e)); try done; [by left|apply Hinv].
Qed.

Lemma inv_tr_step c0 m m' :
  h_StreamSend (c_handler c0) = true -> tr_inv c0 m -> tr_step m m' -> tr_inv c0 m'.
Proof.
  intros Hh Hinv Hst.
  assert (h_StreamSend (c_handler (tr_client m)) = true) as Hhm by (by rewrite (ti_handler _ _ Hinv)).
  destruct Hst as [m k a id c' Hk Hck Hlt Hn|m k a id e c' Hk Hr|m k a id r Hk Hr|m k a id conn ctxErr r Hk Hr
    |m k a id conn err e c' evs Hk Hw|m k a id e md c' Hk Ht|m id c' Hlt Hn|m c' evs He].
  - by apply inv_tr_draw.
  - by apply inv_tr_register.
  - apply (inv_move c0 m k a (TSnapshot id)); try done; by destruct r.
  - apply (inv_move c0 m k a (TCheck id conn)); try done; by destruct r.
  - apply payload_stream in Hw as [Hv _]. apply (inv_move c0 m k a (TPayload id conn)); try done; by destruct e.
  - by eapply inv_tr_take.
  - pose proof (ti_range _ _ Hinv) as Hu. unfold nextRequestID in Hn.
    rewrite u64_add_small in Hn by (unfold is_u64 in *; lia). injection Hn as <- <-.
    assert (tr_inv c0 (tr_event (tr_client m) [] m)) as [] by by apply inv_event, reports_quiet.
    constructor; simpl in *; try done; [unfold is_u64 in *; lia|]. intros k a p Hk. apply ti_ids0 in Hk. lia.
  - by apply inv_event, env_reports.
Qed.

Lemma tr_reachable_inv c0 m : tracked_start c0 -> tr_reachable c0 m -> tr_inv c0 m.
Proof.
  intros (He & Hu & Hh) Hr. induction Hr as [|m m' _ IH Hst]; [|by eapply inv_tr_step].
  constructor; simpl; rewrite ?He; try done; try (by intros; simplify_map_eq).
  - rewrite map_size_empty. lia.
  - constructor.
  - intros id md [Ho|Ho]; [by simplify_map_eq|]. by apply not_elem_of_nil in Ho.
Qed.

(** A step reports only sends that were in the table. *)
Lemma step_reported c0 m m' id :
  h_StreamSend (c_handler c0) = true -> tr_inv c0 m -> tr_step m m' ->
  id ∈ fst <$> reported m' -> id ∈ fst <$> reported m \/ is_Some (tbl m !! id).
Proof.
  intros Hh Hinv Hst. destruct Hst as [| | | | | |m id' c' _ _|m c' evs He]; try (by left);
    unfold reported; simpl; rewrite omap_app, fmap_app, elem_of_app; intros [?|Hin]; try (by left).
  - by apply not_elem_of_nil in Hin.
  - right. apply env_reports in He as (_ & _ & _ & Hp); [|by rewrite (ti_handler _ _ Hinv)].
    apply split_table in Hp as (Hlk & _). apply list_elem_of_fmap in Hin as ([i md] & -> & Hin).
    exists md. apply Hlk. by right.
Qed.

End tracked.

(** ** A send that is both reported and returned as an error *)

Definition stream_client : Client MemoryCursorStore :=
  mkClient demo_config NewMemoryCursorStore (mkHandler true true false) false false None false zero_LoginInfo
    ∅ ∅ 0 ∅ 0 None None.
Definition demo_tracked : tracked_call :=
  mkTracked (mkUserRef 1 2) zero_SessionRef (mkStreamFrame StreamFrameOpen (replicate 16 Byte.x00) 1 0 0 []).

Lemma demo_tracked_start : tracked_start stream_client.
Proof. split_and!; try done. Qed.

(** Extends a run by a step whose premises compute. *)
Tactic Notation "track" hyp(H) uconstr(st) := eapply tr_next in H; [|eapply st; reflexivity].
Tactic Notation "track_env" hyp(H) uconstr(st) :=
  eapply tr_next in H; [|eapply tr_env; eapply st; reflexivity].

