(* ===== verification/ClientProps.v ===== *)
(** * What the client promises: messages, logins, reconnection *)

From stdpp Require Import base list strings gmap.
From S2P Require Import Prelude Errors Types StreamProtocol Wire RelayManager Text Password Records Convert WireCodec.
From S2P Require Import Requests Store ClientApi Client ClientRun.

Section props.
Context {S : Type} `{CursorStoreLaws S}.
Context (unmarshal : bytes -> result error pb_RelayEnvelope).
Implicit Types c : Client S.

(** ** Messages are remembered before they are acknowledged or delivered *)

(** The messages an event acknowledges or delivers. *)
Definition event_cursor (e : client_event) : option MessageCursor :=
  match e with
  | EWrite _ (pb_ClientEnvelope_AckMessage v) => Some (cursorFromProto (pb_AckMessage_Cursor v))
  | EOnMessage m => Some (Message_Cursor m)
  | _ => None
  end.

Lemma persist_seen msg c e c' :
  persistMessage msg c = (e, c') ->
  (e = None -> seen (c_store c') (Message_Cursor msg)) /\ (forall x, seen (c_store c) x -> seen (c_store c') x).
Proof.
  unfold persistMessage. destruct (SaveMessage msg (c_store c)) as [s [e1|]] eqn:Em; intros Hp; simplify_eq/=.
  - split; [done|]. intros x. by eapply SaveMessage_keeps.
  - destruct (SaveCursor _ s) as [s2 e2] eqn:Es. simplify_eq/=. split.
    + intros ->. by eapply SaveCursor_seen.
    + intros x Hx. eapply SaveCursor_keeps; [exact Es|]. by eapply SaveMessage_keeps.
Qed.

Lemma invalidate_store conn c : c_store (invalidateTransport conn c).1 = c_store c.
Proof. unfold invalidateTransport. by case_match. Qed.

Lemma invalidate_events conn c : Forall (fun e => event_cursor e = None) (invalidateTransport conn c).2.
Proof. unfold invalidateTransport. case_match; by repeat constructor. Qed.

Lemma send_store body ctxErr err c e c' evs :
  sendEnvelope body ctxErr err c = (e, c', evs) ->
  c_store c' = c_store c /\ Forall (fun ev => event_cursor ev = None \/ exists conn, ev = EWrite conn body) evs.
Proof.
  unfold sendEnvelope, writeProtoOnTransport, writeProtoPayload.
  destruct (sendBegin c) as [|conn]; [by intros; simplify_eq|].
  destruct (writeTransport_check conn ctxErr c); [by intros; simplify_eq|].
  destruct err.
  - pose proof (invalidate_store conn c) as Hs. pose proof (invalidate_events conn c) as He.
    destruct (invalidateTransport conn c) as [c1 evs1]. intros; simplify_eq. split; [done|].
    eapply List.Forall_impl; [|exact He]. by intros; left.
  - intros; simplify_eq. split; [done|]. constructor; [right; by eexists|constructor].
Qed.

Lemma pushed_seen msg ctxErr err c e c' evs :
  messagePushed msg ctxErr err c = (e, c', evs) ->
  (forall x, seen (c_store c) x -> seen (c_store c') x) /\
  Forall (fun ev => forall x, event_cursor ev = Some x -> seen (c_store c') x) evs.
Proof.
  unfold messagePushed. destruct (persistMessage msg c) as [[e1|] c1] eqn:Ep; apply persist_seen in Ep as [Hm Hk].
  { intros; simplify_eq. split; [done|constructor]. }
  specialize (Hm eq_refl). destruct (cfg_AckMessages (c_cfg c1)).
  - destruct (sendEnvelope _ ctxErr err c1) as [[e2 c2] evs2] eqn:Es. apply send_store in Es as [Hs He].
    assert (Forall (fun ev => forall x, event_cursor ev = Some x -> seen (c_store c2) x) evs2) as Hev.
    { eapply List.Forall_impl; [|exact He]. intros ev [Hn|[conn ->]] x Hx; [congruence|].
      simpl in Hx. injection Hx as <-. rewrite Hs. exact Hm. }
    assert (forall ev, Forall (fun ev => forall x, event_cursor ev = Some x -> seen (c_store c2) x)
              ((evs2 ++ on_error ev) ++ [EOnMessage msg])) as Hall.
    { intros ev. apply Forall_app; split; [apply Forall_app; split; [done|by destruct ev; repeat constructor]|].
      constructor; [|constructor]. intros x [= <-]. by rewrite Hs. }
    destruct e2 as [e2|]; [destruct (negb _ && _)|]; intros; simplify_eq; split;
      try (by intros x Hx; rewrite Hs; auto); [exact (Hall (Some e2))|..];
      specialize (Hall None); by rewrite app_nil_r in Hall.
  - intros; simplify_eq. split; [done|]. constructor; [|constructor]. by intros x [= <-].
Qed.

Lemma complete_store id err c c' evs :
  completeStreamSend id err c = (c', evs) ->
  c_store c' = c_store c /\ Forall (fun ev => event_cursor ev = None) evs.
Proof.
  unfold completeStreamSend, takeStreamSend, notifyStreamSend.
  destruct (c_streamSendPending c !! id); simpl; intros; simplify_eq; [|done]. split; [done|].
  destruct (h_StreamSend _); by repeat constructor.
Qed.

Lemma sendMessageResponse_store v c x : seen (c_store c) x -> seen (c_store (sendMessageResponse v c)) x.
Proof.
  intros Hx. unfold sendMessageResponse.
  assert (forall id r c1, c_store (@resolvePending S id r c1).2 = c_store c1) as Hres
    by (intros; unfold resolvePending; by destruct (_ !! id)).
  destruct (pb_SendMessageResponse_body v) as [[m|a]|]; rewrite ?Hres; try done.
  destruct (persistMessage _ c) as [[e|] c1] eqn:Ep; rewrite ?Hres; apply persist_seen in Ep as [_ Hk]; auto.
Qed.

(** What an envelope does to the memory of the store and to the events. *)
Definition memory_ok (c c' : Client S) (evs : list client_event) : Prop :=
  (forall x, seen (c_store c) x -> seen (c_store c') x) /\
  Forall (fun ev => forall x, event_cursor ev = Some x -> seen (c_store c') x) evs.

Lemma memory_none c c' evs :
  c_store c' = c_store c -> Forall (fun ev => event_cursor ev = None) evs -> memory_ok c c' evs.
Proof.
  intros Hs He. split; [by rewrite Hs|]. eapply List.Forall_impl; [|exact He]. intros ev Hn x Hx. congruence.
Qed.

Lemma memory_trans c1 c2 c3 evs1 evs2 :
  memory_ok c1 c2 evs1 -> memory_ok c2 c3 evs2 -> memory_ok c1 c3 (evs1 ++ evs2).
Proof.
  intros [H1 E1] [H2 E2]. split; [auto|]. apply Forall_app; split; [|done].
  eapply List.Forall_impl; [|exact E1]. auto.
Qed.

Lemma dispatch_events pkt f c : Forall (fun ev => event_cursor ev = None) (dispatchStream pkt f c).
Proof. unfold dispatchStream. case_match; by repeat constructor. Qed.

Lemma packet_memory now pkt c e c' evs :
  packetPushed unmarshal now pkt c = Ok (e, c', evs) -> memory_ok c c' evs.
Proof.
  unfold packetPushed.
  assert (forall evs, Forall (fun ev => event_cursor ev = None) (ERelayEvent <$> evs)) as Hr
    by (intros l; induction l; by constructor).
  destruct (c_relay c) as [r|]; simpl.
  - destruct (handlePacket _ _ _ now r) as [[[h r'] evs']|e1|]; simpl; try done.
    destruct h; [intros [= <- <- <-]; by apply memory_none|].
    destruct (IsStreamFrame _); [destruct (UnmarshalStreamFrame _)|]; simpl; try done; intros [= <- <- <-];
      apply memory_none; try done; apply Forall_app; split; auto using dispatch_events; by repeat constructor.
  - destruct (IsStreamFrame _); [destruct (UnmarshalStreamFrame _)|]; simpl; try done; intros [= <- <- <-];
      apply memory_none; try done; auto using dispatch_events; by repeat constructor.
Qed.

Lemma handle_memory now ctxErr err env c e c' evs :
  handleServerEnvelope unmarshal now ctxErr err env c = Ok (e, c', evs) -> memory_ok c c' evs.
Proof.
  assert (forall id r c1, c_store (@resolvePending S id r c1).2 = c_store c1) as Hres
    by (intros; unfold resolvePending; by destruct (_ !! id)).
  unfold handleServerEnvelope. destruct (pb_ServerEnvelope_body env) as [[]|]; simpl;
    try (intros [= <- <- <-]; by apply memory_none; rewrite ?Hres).
  - intros [= Hok]. by eapply pushed_seen.
  - intros [= <- <- <-]. split; [apply sendMessageResponse_store|constructor].
  - unfold errorResponse. destruct (negb _); [|by intros [= <- <- <-]; apply memory_none].
    unfold resolvePending. destruct (c_pending c !! _); [by intros [= <- <- <-]; apply memory_none|].
    destruct (completeStreamSend _ _ c) as [c1 evs1] eqn:Ec. intros [= <- <- <-].
    apply complete_store in Ec as [? ?]. by apply memory_none.
  - apply packet_memory.
  - unfold streamFramePushed. destruct (negb _); intros [= <- <- <-]; apply memory_none; try done.
    apply dispatch_events.
  - destruct (completeStreamSend _ _ c) as [c1 evs1] eqn:Ec. intros [= <- <- <-].
    apply complete_store in Ec as [? ?]. by apply memory_none.
Qed.

Lemma readLoop_memory l c c' evs : readLoop unmarshal l c = Ok (c', evs) -> memory_ok c c' evs.
Proof.
  revert c evs. induction l as [|a l IH]; intros c evs; simpl.
  - intros [= <- <-]. by apply memory_none.
  - destruct (handleServerEnvelope _ _ _ _ _ c) as [[[e c1] evs1]|e1|] eqn:Eh; simpl; try done.
    apply handle_memory in Eh. destruct (readLoop _ l c1) as [[c2 evs2]|e2|] eqn:El; simpl; try done.
    intros [= <- <-]. apply IH in El. eapply memory_trans; [exact Eh|].
    eapply memory_trans; [|exact El]. apply memory_none; [done|]. by destruct e; repeat constructor.
Qed.

(** C11: client_ack_after_persist. Whatever the server sends in whatever order, a message is acknowledged
    and handed to the application only after its cursor is stored, for every store that keeps
    the interface's promise: the login request of the next session lists the cursor of every
    message acknowledged or delivered in this one. *)
Theorem client_ack_after_persist l c c' evs x conn :
  readLoop unmarshal l c = Ok (c', evs) ->
  x ∈ omap event_cursor evs ->
  seen (c_store c') x /\
  (forall conn' b, beginSession None conn None None c' = (None, [EWrite conn' b]) -> exists v,
     b = pb_ClientEnvelope_Login v /\ cursorToProto x ∈ pb_LoginRequest_SeenMessages v /\ conn' = conn).
Proof.
  intros Hl Hx. apply readLoop_memory in Hl as [_ He]. apply list_elem_of_omap in Hx as (ev & Hin & Hev).
  assert (seen (c_store c') x) as Hs.
  { rewrite List.Forall_forall in He. apply (He ev); [by apply list_elem_of_In|done]. }
  split; [done|]. intros conn' b. unfold beginSession. destruct (c_closed c'); [done|].
  destruct (LoadSeenMessages (c_store c')) as [e|lst] eqn:Eld; [done|].
  pose proof (Load_seen _ _ _ Eld Hs) as Hxin.
  unfold loginRequest. destruct (loginSelector _) as [u n]. intros [= <- <-]. eexists. split; [done|]. split; [|done].
  simpl. rewrite collect_map. apply list_elem_of_fmap. by exists x.
Qed.

(** ** Reconnection *)

(** [run] over what the environment does in each session: the events, the waits between
    sessions, and whether it returned. *)
Fixpoint run (l : list session) (delay : Z) c : result error (Client S * list client_event * list Z * bool) :=
  match l with
  | [] => mret (c, [], [], false)
  | s :: l =>
      '(err, c, evs) ← connectAndServe unmarshal s c;
      match run_turn err delay c with
      | (RunReturn, c, evs') => mret (c, evs ++ evs', [], true)
      | (RunContinue delay, c, evs') =>
          '(c, evs'', waits, done) ← run l delay c; mret (c, evs ++ evs' ++ evs'', waits, done)
      | (RunWait wait delay, c, evs') =>
          '(c, evs'', waits, done) ← run l delay c; mret (c, evs ++ evs' ++ evs'', wait :: waits, done)
      end
  end.

Lemma invalidate_cfg conn c : c_cfg (invalidateTransport conn c).1 = c_cfg c.
Proof. unfold invalidateTransport. by case_match. Qed.

Lemma send_cfg body ctxErr err c e c' evs : sendEnvelope body ctxErr err c = (e, c', evs) -> c_cfg c' = c_cfg c.
Proof.
  unfold sendEnvelope, writeProtoOnTransport, writeProtoPayload. destruct (sendBegin c) as [|conn]; [by intros; simplify_eq|].
  pose proof (invalidate_cfg conn c). destruct (invalidateTransport conn c) as [c1 evs1].
  destruct (writeTransport_check conn ctxErr c); [by intros; simplify_eq|]. destruct err; intros; by simplify_eq/=.
Qed.

Lemma persist_cfg msg c e c' : persistMessage msg c = (e, c') -> c_cfg c' = c_cfg c.
Proof.
  unfold persistMessage. destruct (SaveMessage msg (c_store c)) as [s [e1|]]; [by intros; simplify_eq|].
  destruct (SaveCursor _ s). by intros; simplify_eq.
Qed.

Lemma resolve_cfg id r c : c_cfg (resolvePending id r c).2 = c_cfg c.
Proof. unfold resolvePending. by destruct (_ !! id). Qed.

Lemma complete_cfg id err c : c_cfg (completeStreamSend id err c).1 = c_cfg c.
Proof. unfold completeStreamSend, takeStreamSend. by destruct (_ !! id). Qed.

Lemma pushed_cfg msg ctxErr err c : c_cfg (messagePushed msg ctxErr err c).1.2 = c_cfg c.
Proof.
  unfold messagePushed. destruct (persistMessage msg c) as [[e1|] c1] eqn:Ep; apply persist_cfg in Ep; [done|].
  destruct (cfg_AckMessages (c_cfg c1)); [|done].
  destruct (sendEnvelope _ ctxErr err c1) as [[e2 c2] evs2] eqn:Es. apply send_cfg in Es.
  destruct e2; [destruct (negb _ && _)|]; simpl; congruence.
Qed.

Lemma sendMessageResponse_cfg v c : c_cfg (sendMessageResponse v c) = c_cfg c.
Proof.
  unfold sendMessageResponse. destruct (pb_SendMessageResponse_body v) as [[m|a]|]; rewrite ?resolve_cfg; try done.
  destruct (persistMessage _ c) as [[e|] c1] eqn:Ep; apply persist_cfg in Ep; by rewrite resolve_cfg.
Qed.

Lemma packet_cfg now pkt c e c' evs : packetPushed unmarshal now pkt c = Ok (e, c', evs) -> c_cfg c' = c_cfg c.
Proof.
  unfold packetPushed. destruct (c_relay c) as [r|]; simpl.
  - destruct (handlePacket _ _ _ now r) as [[[h r'] evs']|e1|]; simpl; try done.
    destruct h, (IsStreamFrame (p_Body pkt)), (UnmarshalStreamFrame (p_Body pkt)); simpl; try done; by intros [= <- <- <-].
  - destruct (IsStreamFrame (p_Body pkt)), (UnmarshalStreamFrame (p_Body pkt)); simpl; try done; by intros [= <- <- <-].
Qed.

Lemma handle_cfg now ctxErr err env c e c' evs :
  handleServerEnvelope unmarshal now ctxErr err env c = Ok (e, c', evs) -> c_cfg c' = c_cfg c.
Proof.
  unfold handleServerEnvelope. destruct (pb_ServerEnvelope_body env) as [[]|]; simpl;
    try (intros [= <- <- <-]; by rewrite ?resolve_cfg, ?sendMessageResponse_cfg).
  - intros [= Hok]. pose proof (pushed_cfg (messageFromProto (pb_MessagePushed_Message v)) ctxErr err c) as Hc.
    by rewrite Hok in Hc.
  - unfold errorResponse. pose proof (complete_cfg (pb_Error_RequestId v) (Some (serverError v))
      (resolvePending (pb_Error_RequestId v) (Err (serverError v)) c).2) as Hc.
    pose proof (resolve_cfg (pb_Error_RequestId v) (Err (serverError v)) c) as Hr.
    destruct (negb _); [|by intros [= <- <- <-]].
    destruct (resolvePending _ _ c) as [[] c1]; [by intros [= <- <- <-]|].
    destruct (completeStreamSend _ _ _) as [c2 evs2]. intros [= <- <- <-]. simpl in *. congruence.
  - apply packet_cfg.
  - unfold streamFramePushed. destruct (negb _); by intros [= <- <- <-].
  - pose proof (complete_cfg (pb_StreamFrameResult_RequestId v) None c) as Hc.
    destruct (completeStreamSend _ _ c). by intros [= <- <- <-].
Qed.

Lemma readLoop_cfg l c c' evs : readLoop unmarshal l c = Ok (c', evs) -> c_cfg c' = c_cfg c.
Proof.
  revert c evs. induction l as [|a l IH]; intros c evs; simpl; [by intros [= <- <-]|].
  destruct (handleServerEnvelope _ _ _ _ _ c) as [[[e c1] evs1]|e1|] eqn:Eh; simpl; try done.
  apply handle_cfg in Eh. destruct (readLoop _ l c1) as [[c2 evs2]|e2|] eqn:El; simpl; try done.
  intros [= <- <-]. apply IH in El. congruence.
Qed.

Lemma establish_cfg conn env c e c' evs : establish conn env c = (e, c', evs) -> c_cfg c' = c_cfg c.
Proof.
  unfold establish, expectLogin. destruct env as [e1|env]; [by intros; simplify_eq|].
  destruct (pb_ServerEnvelope_body env) as [[]|]; try (by intros; simplify_eq).
  destruct (negb _); intros; simplify_eq; [done|]. unfold signalFirstConnect. by destruct (c_firstConnect _).
Qed.

(** A session always ends in an error, and never changes the configuration. *)
Lemma connectAndServe_err s c err c' evs :
  connectAndServe unmarshal s c = Ok (err, c', evs) -> err <> None /\ c_cfg c' = c_cfg c.
Proof.
  unfold connectAndServe. destruct (beginSession _ _ _ _ c) as [[e|] evs1]; [by intros [= <- <- <-]|].
  destruct (establish _ _ c) as [[e1 c1] evs2] eqn:He. apply establish_cfg in He.
  destruct e1; [by intros [= <- <- <-]|].
  destruct (readLoop _ _ c1) as [[c2 evs3]|e2|] eqn:El; simpl; try done. apply readLoop_cfg in El.
  unfold endSession. intros [= <- <- <-]. simpl. split; [done|]. congruence.
Qed.

(** The [k]-th wait of the exponential backoff: [run] caps the delay only when it doubles it. *)
Definition backoff (cfg : Config S) (k : nat) : Z :=
  match k with
  | O => cfg_InitialReconnectDelay cfg
  | _ => Z.min (cfg_MaxReconnectDelay cfg) (cfg_InitialReconnectDelay cfg * 2 ^ Z.of_nat k)
  end.

Lemma backoff_next cfg k :
  0 < cfg_InitialReconnectDelay cfg < 2 ^ 62 -> 0 < cfg_MaxReconnectDelay cfg < 2 ^ 62 ->
  let next := i64 (backoff cfg k * 2) in
  (if cfg_MaxReconnectDelay cfg <? next then cfg_MaxReconnectDelay cfg else next) = backoff cfg (Datatypes.S k).
Proof.
  intros Hi Hm. set (M := cfg_MaxReconnectDelay cfg) in *. set (I := cfg_InitialReconnectDelay cfg) in *.
  assert (backoff cfg (Datatypes.S k) = Z.min M (2 * (I * 2 ^ Z.of_nat k))) as ->.
  { unfold backoff. fold M I. rewrite Nat2Z.inj_succ, Z.pow_succ_r by lia. f_equal. ring. }
  assert (0 < 2 ^ Z.of_nat k) by (apply Z.pow_pos_nonneg; lia).
  assert (0 < backoff cfg k < 2 ^ 62 /\ Z.min M (backoff cfg k * 2) = Z.min M (2 * (I * 2 ^ Z.of_nat k))) as [Hb <-].
  { unfold backoff. fold M I. destruct k as [|k]; [simpl Z.of_nat; rewrite Z.pow_0_r; lia|].
    set (p := 2 ^ Z.of_nat (Datatypes.S k)) in *. assert (0 < I * p) by nia. lia. }
  cbv zeta. assert (i64 (backoff cfg k * 2) = backoff cfg k * 2) as ->.
  { unfold i64, two64. rewrite Z.mod_small; lia. }
  destruct (M <? _) eqn:E; bool_facts; lia.
Qed.

(** C37: client_backoff. For delays between 0 and 2^62 ns, the client waits exactly Initial before its
    first reconnection and min(Max, Initial * 2^k) before its (k+1)-th one, k >= 1, whatever the
    sessions in between did: a session, however long it served, always ends with an error, so the
    delay is never reset to its initial value. Only the first wait is not capped: with an Initial
    above Max, which NewClient accepts, it exceeds Max. *)
Theorem client_backoff l c c' evs waits stopped k w :
  0 < cfg_InitialReconnectDelay (c_cfg c) < 2 ^ 62 -> 0 < cfg_MaxReconnectDelay (c_cfg c) < 2 ^ 62 ->
  run l (cfg_InitialReconnectDelay (c_cfg c)) c = Ok (c', evs, waits, stopped) ->
  waits !! k = Some w -> w = backoff (c_cfg c) k.
Proof.
  intros Hi Hm Hrun.
  assert (forall l n c1 c' evs waits stopped, c_cfg c1 = c_cfg c ->
    run l (backoff (c_cfg c) n) c1 = Ok (c', evs, waits, stopped) ->
    forall k w, waits !! k = Some w -> w = backoff (c_cfg c) (n + k)) as Hall.
  { clear l c' evs waits stopped Hrun k w. induction l as [|s l IH]; intros n c1 c' evs waits stopped Hc; simpl.
    - by intros [= <- <- <- <-].
    - destruct (connectAndServe _ s c1) as [[[err c2] evs2]|e|] eqn:Es; simpl; try done.
      apply connectAndServe_err in Es as [Herr Hc2]. destruct err as [err|]; [clear Herr|done]. rewrite Hc in Hc2.
      unfold run_turn. destruct (c_closed c2 || _); [by intros [= <- <- <- <-]|].
      rewrite Hc2, backoff_next by lia.
      destruct (run l _ c2) as [[[[c3 evs3] ws] st]|e|] eqn:El; simpl; try done. intros [= <- <- <- <-] k w.
      destruct k as [|k]; simpl.
      + intros [= <-]. by rewrite Nat.add_0_r.
      + intros Hk. rewrite (IH _ _ _ _ _ _ Hc2 El _ _ Hk). f_equal. lia. }
  intros Hk. by apply (Hall l 0%nat c c' evs waits stopped).
Qed.

(** Login replies after which the client must not try again. *)
Definition refusal (env : pb_ServerEnvelope) : bool :=
  match pb_ServerEnvelope_body env with
  | Some (pb_ServerEnvelope_LoginResponse v) => negb (bool_decide (pb_LoginResponse_ProtocolVersion v = clientProtocolVersion))
  | Some (pb_ServerEnvelope_Error v) =>
      bool_decide (pb_Error_Code v = "unauthorized") || bool_decide (pb_Error_Code v = "unsupported_protocol_version")
  | _ => false
  end.

(** C38: client_login_refused. When the server refuses the login for good (bad credentials or a protocol
    version mismatch on either side), the run loop returns without another attempt: Connect
    gets that error, every waiting RPC fails with it and no transport is installed. Any other
    login error is retried while the client is open. *)
Theorem client_login_refused s env c delay :
  s_first s = inr env -> (exists evs, beginSession (s_dialErr s) (s_conn s) (s_ctxErr s) (s_writeErr s) c = (None, evs)) ->
  c_firstConnect c = None -> c_closed c = false -> cfg_Reconnect (c_cfg c) = true ->
  (refusal env = true -> exists e c' evs,
     connectAndServe unmarshal s c = Ok (Some e, c', evs) /\ c_conn c' = c_conn c /\
     run_turn (Some e) delay c' = (RunReturn, failAllPending e (set_firstConnect (Some (Some e)) c'), [])) /\
  (forall v, pb_ServerEnvelope_body env = Some (pb_ServerEnvelope_Error v) -> refusal env = false ->
     exists next c' evs, connectAndServe unmarshal s c = Ok (Some (serverError v), c', evs) /\
       run_turn (Some (serverError v)) delay c' = (RunWait delay next, c', [EOnError (serverError v)])).
Proof.
  intros Hs [evs1 Hb] Hfc Hcl Hrc. unfold connectAndServe. rewrite Hb, Hs. unfold establish, expectLogin, refusal. split.
  - destruct (pb_ServerEnvelope_body env) as [[]|]; try done; intros Hr; simpl.
    + rewrite Hr. do 3 eexists. split; [done|]. split; [done|].
      unfold run_turn, shouldRetry, signalFirstConnect. simpl. rewrite Hcl. simpl. by rewrite Hfc.
    + do 3 eexists. split; [done|]. split; [done|].
      unfold run_turn, shouldRetry, signalFirstConnect. simpl. rewrite Hcl, Hr. simpl. by rewrite Hfc.
  - intros v -> Hr. do 3 eexists. split; [done|]. unfold run_turn, shouldRetry. simpl. rewrite Hcl, Hr, Hrc. simpl.
    apply orb_false_iff in Hr as [Hu _]. by rewrite Hu.
Qed.

Lemma begin_no_disconnect dialErr conn ctxErr writeErr c d :
  EOnDisconnect d ∉ (beginSession dialErr conn ctxErr writeErr c).2.
Proof.
  unfold beginSession. destruct (c_closed c); [set_solver|]. destruct (LoadSeenMessages _); [set_solver|].
  destruct dialErr; [set_solver|]. destruct ctxErr; [set_solver|]. destruct writeErr; set_solver.
Qed.

Lemma establish_no_disconnect conn env c d : EOnDisconnect d ∉ (establish conn env c).2.
Proof.
  unfold establish. destruct env as [e|env]; [set_solver|].
  destruct (expectLogin env c) as [[e|info] c1]; set_solver.
Qed.

(** An established session is one whose end is reported through OnDisconnect. *)
Definition served (evs : list client_event) : Prop := exists d, EOnDisconnect d ∈ evs.

(** When the server ends an established session with the normal close
    status, the client does not reconnect although it was never closed: the session ends with
    the error that stands for the client's own Close, which is never retried. *)
Theorem client_normal_close_final s c err c' evs delay :
  connectAndServe unmarshal s c = Ok (err, c', evs) -> s_normal s = true -> served evs ->
  err = Some (Sentinel ErrClosed) /\
  exists c'', run_turn err delay c' = (RunReturn, c'', []).
Proof.
  unfold connectAndServe. intros Hc Hn [d Hd].
  pose proof (begin_no_disconnect (s_dialErr s) (s_conn s) (s_ctxErr s) (s_writeErr s) c d) as Hb.
  destruct (beginSession _ _ _ _ c) as [[e|] evs1]; [by injection Hc as <- <- <-|]. simpl in Hb.
  pose proof (establish_no_disconnect (s_conn s) (s_first s) c d) as He.
  destruct (establish _ _ c) as [[[e1|] c1] evs2]; [injection Hc as <- <- <-; set_solver|].
  destruct (readLoop _ _ c1) as [[c2 evs3]|e2|]; simpl in Hc; try done.
  unfold readLoop_error in Hc. rewrite Hn, orb_true_r in Hc. injection Hc as <- <- <-.
  split; [done|]. unfold run_turn, shouldRetry. simpl.
  repeat case_match; simplify_eq/=; try done; by eexists.
Qed.

End props.

(** Every timeout and limit is positive. *)
Definition usable_config {S} (cfg : Config S) : Prop :=
  0 < cfg_InitialReconnectDelay cfg /\ 0 < cfg_MaxReconnectDelay cfg /\ 0 < cfg_PingInterval cfg /\
  0 < cfg_RequestTimeout cfg /\ 0 < cfg_StreamSendPendingLimit cfg.

(** NewClient accepts exactly a base URL that is not blank with credentials that
    validate; every timeout and limit of the client is then positive, the given positive ones
    unchanged, and both Reconnect and AckMessages are true, whatever the configuration asked:
    a configuration that sets them to false gives the same client. *)
Theorem client_new_config {S} (store : S) cfg :
  (is_ok (NewClient store cfg) = true <->
     TrimSpace_string (cfg_BaseURL cfg) <> "" /\ Credentials_validate (cfg_Credentials cfg) = None) /\
  (forall c, NewClient store cfg = Ok c ->
     cfg_Reconnect (c_cfg c) = true /\ cfg_AckMessages (c_cfg c) = true /\
     usable_config (c_cfg c) /\
     (0 < cfg_InitialReconnectDelay cfg -> cfg_InitialReconnectDelay (c_cfg c) = cfg_InitialReconnectDelay cfg) /\
     (0 < cfg_StreamSendPendingLimit cfg -> cfg_StreamSendPendingLimit (c_cfg c) = cfg_StreamSendPendingLimit cfg) /\
     fresh_client c) /\
  (forall r a, NewClient store (mkConfig (cfg_BaseURL cfg) (cfg_Credentials cfg) (cfg_CursorStore cfg) (cfg_Handler cfg)
      r (cfg_InitialReconnectDelay cfg) (cfg_MaxReconnectDelay cfg) (cfg_PingInterval cfg) (cfg_RequestTimeout cfg)
      a (cfg_TransientOnly cfg) (cfg_RealtimeStream cfg) (cfg_StreamSendPendingLimit cfg)) = NewClient store cfg).
Proof.
  assert (forall v d, 0 < d -> 0 < default_pos v d) as Hpos
    by (intros v d Hd; unfold default_pos; destruct (v <=? 0) eqn:E; bool_facts; lia).
  assert (forall v d, 0 < v -> default_pos v d = v) as Hid
    by (intros v d Hv; unfold default_pos; destruct (v <=? 0) eqn:E; bool_facts; lia).
  unfold NewClient. split; [|split].
  - case_bool_decide; [naive_solver|]. destruct (Credentials_validate _); naive_solver.
  - intros c. case_bool_decide; [done|]. destruct (Credentials_validate _); [done|]. intros [= <-]. unfold usable_config. simpl.
    split_and!; try (by apply Hpos); try (by apply Hid).
    + by destruct (cfg_Reconnect cfg).
    + by destruct (cfg_AckMessages cfg).
    + by repeat split.
  - intros r a. simpl. destruct r, a, (cfg_Reconnect cfg), (cfg_AckMessages cfg); reflexivity.
Qed.

(** ** Witnesses *)

Lemma client_new_config_witness :
  exists c, NewClient NewMemoryCursorStore (mkConfig "http://h" demo_credentials None None false 0 0 0 0 false false false 0) = Ok c /\
    cfg_Reconnect (c_cfg c) = true.
Proof.
  destruct (client_new_config NewMemoryCursorStore
    (mkConfig "http://h" demo_credentials None None false 0 0 0 0 false false false 0)) as (_ & H & _).
  eexists. split; [reflexivity|]. apply H. reflexivity.
Defined.

(** A session in which one message arrives. *)
Definition online_client : Client MemoryCursorStore := set_session (Some 0%nat) true zero_LoginInfo demo_client.
Definition demo_message : pb_Message := mkpb_Message None 3 4 None [] "t".
Definition demo_push : pb_ServerEnvelope :=
  mkpb_ServerEnvelope (Some (pb_ServerEnvelope_MessagePushed (mkpb_MessagePushed (Some demo_message)))).
Definition demo_arrivals : list arrival := [mkArrival demo_push 0 None None].
Definition demo_received : Client MemoryCursorStore * list client_event :=
  match readLoop no_relay demo_arrivals online_client with Ok p => p | _ => (online_client, []) end.

Lemma demo_received_run : readLoop no_relay demo_arrivals online_client = Ok (demo_received.1, demo_received.2).
Proof.
  unfold demo_received.
  destruct (readLoop no_relay demo_arrivals online_client) as [[]| |] eqn:E; [reflexivity|..]; vm_compute in E; discriminate.
Qed.

Lemma client_ack_after_persist_witness :
  omap event_cursor demo_received.2 = [mkMessageCursor 3 4; mkMessageCursor 3 4] /\
  mkMessageCursor 3 4 ∈ ms_order (c_store demo_received.1).
Proof.
  split; [reflexivity|].
  eapply (proj1 (@client_ack_after_persist _ _ memory_store_laws no_relay demo_arrivals online_client demo_received.1 demo_received.2
           (mkMessageCursor 3 4) 1%nat demo_received_run _)).
  Unshelve. change (omap event_cursor demo_received.2) with [mkMessageCursor 3 4; mkMessageCursor 3 4]. by left.
Defined.

(** Three sessions that fail to dial. *)
Definition demo_session : session :=
  mkSession 0 (Some (EConnection "dial" (errors_New "refused"))) None None (inl (errors_New "")) [] (errors_New "") false.
Definition demo_waits (c : Client MemoryCursorStore) : list Z :=
  match run no_relay [demo_session; demo_session; demo_session] (cfg_InitialReconnectDelay (c_cfg c)) c with
  | Ok (_, _, waits, _) => waits | _ => [] end.

(** An initial delay above the maximum. *)
Definition slow_config : Config MemoryCursorStore :=
  mkConfig "http://h" Requests.demo_credentials None None true (60 * Second) (30 * Second) Second Second true false false 16.
Definition slow_client : Client MemoryCursorStore :=
  mkClient slow_config NewMemoryCursorStore NopHandler false false None false zero_LoginInfo ∅ ∅ 0 ∅ 0 None None.

Lemma client_backoff_witness :
  demo_waits demo_client = [Second; 2 * Second; 4 * Second] /\ 4 * Second = backoff demo_config 2 /\
  demo_waits slow_client = [60 * Second; 30 * Second; 30 * Second] /\ 60 * Second = backoff slow_config 0.
Proof.
  split; [reflexivity|]. split; [|split; [reflexivity|]].
  - eapply (client_backoff no_relay [demo_session; demo_session; demo_session] demo_client _ _ (demo_waits demo_client) _ 2%nat);
      [by vm_compute|by vm_compute|reflexivity|reflexivity].
  - eapply (client_backoff no_relay [demo_session; demo_session; demo_session] slow_client _ _ (demo_waits slow_client) _ 0%nat);
      [by vm_compute|by vm_compute|reflexivity|reflexivity].
Defined.

Definition refused_session : session :=
  mkSession 0 None None None
    (inr (mkpb_ServerEnvelope (Some (pb_ServerEnvelope_Error (mkpb_Error "unauthorized" "no" 0))))) [] (errors_New "") false.

Lemma client_login_refused_witness :
  exists e c' evs, connectAndServe no_relay refused_session demo_client = Ok (Some e, c', evs) /\
    c_conn c' = None /\
    run_turn (Some e) Second c' = (RunReturn, failAllPending e (set_firstConnect (Some (Some e)) c'), []).
Proof.
  eapply (client_login_refused no_relay refused_session
    (mkpb_ServerEnvelope (Some (pb_ServerEnvelope_Error (mkpb_Error "unauthorized" "no" 0)))) demo_client Second);
    try reflexivity.
  eexists. reflexivity.
Defined.

Definition normal_session : session := mkSession 0 None None None (inr demo_login) [] (errors_New "closed") true.

Lemma client_normal_close_final_witness :
  exists c' evs, connectAndServe no_relay normal_session demo_client = Ok (Some (Sentinel ErrClosed), c', evs) /\
    c_closed c' = false /\ exists c'', run_turn (Some (Sentinel ErrClosed)) Second c' = (RunReturn, c'', []).
Proof.
  do 2 eexists. split; [reflexivity|]. split; [reflexivity|].
  eapply (client_normal_close_final no_relay normal_session demo_client (Some (Sentinel ErrClosed)));
    [reflexivity|reflexivity|]. eexists. do 2 right. by left.
Defined.
