(* ===== verification/RelayTransport.v ===== *)
(** * Relay frames over the client (sendRelayEnvelopeOnce of relay.go, and the client's packets)

    How a frame that one connection hands to its transport becomes a packet of the client, and how
    the packet reaches the connection of the peer: the composition of the relay manager with the
    request methods and the read loop of the client. *)

From Stdlib Require Import Strings.Byte.
From stdpp Require Import base list strings gmap.
From S2P Require Import Prelude Errors Types Wire RelayConn RelayDispatch RelayManager Records Convert WireCodec Store ClientApi Client ClientRun ClientProps.

(** ** Sending *)

(** The delivery mode of a connection's packets. *)
Definition packetMode (c : RelayConnection) : DeliveryMode :=
  if bool_decide (rc_DeliveryMode (config c) = "") then DeliveryModeBestEffort else rc_DeliveryMode (config c).

(** [sendRelayEnvelopeOnce]: [override] is the connection's [sendEnvelope], if it is set, and
    [rpc] the client's RPC under the context with the request timeout. *)
Definition sendRelayEnvelopeOnce (marshal : pb_RelayEnvelope -> result error bytes)
    (override : option (RelayEnvelope -> option error)) (rpc : (Z -> pb_ClientEnvelope_Body) -> result error any)
    (c : RelayConnection) (env : RelayEnvelope) : result error () :=
  match override with
  | Some sendEnvelope => check (sendEnvelope env)
  | None =>
      body ← encodeRelayEnvelope marshal env;
      run_call rpc (call_map (fun _ => tt)
        (SendPacket (mkSendPacketInput (remotePeer c) body (packetMode c) (remoteSession c))))
  end.

(** ** What the peer makes of it *)

Section travels.
Context (marshal : pb_RelayEnvelope -> result error bytes) (unmarshal : bytes -> result error pb_RelayEnvelope).
(** proto.Unmarshal reads back what proto.Marshal writes, and a message with a field set is not
    written as nothing. *)
Context (marshal_read : forall m data, marshal m = Ok data -> unmarshal data = Ok m).
Context (marshal_nonempty : forall m data, marshal m = Ok data -> pb_RelayEnvelope_RelayId m <> "" -> data <> []).

(** The request that carries [env] from [c]. *)
Definition carries (c : RelayConnection) (data : bytes) (requestID : Z) : pb_ClientEnvelope_Body :=
  pb_ClientEnvelope_SendMessage
    {| pb_SendMessageRequest_RequestId := requestID;
       pb_SendMessageRequest_Target := userRefToProto (remotePeer c);
       pb_SendMessageRequest_Body := data;
       pb_SendMessageRequest_DeliveryKind := CLIENT_DELIVERY_KIND_TRANSIENT;
       pb_SendMessageRequest_DeliveryMode := deliveryModeToProto (packetMode c);
       pb_SendMessageRequest_SyncMode := CLIENT_MESSAGE_SYNC_MODE_UNSPECIFIED;
       pb_SendMessageRequest_TargetSession := sessionRefToProto (remoteSession c) |}.

(** A connection whose peer [SendPacket] accepts as a target. *)
Definition addressed (c : RelayConnection) : Prop :=
  UserRef_validate (remotePeer c) = None /\ validatePacketMode (packetMode c) = None /\
  (SessionRef_IsZero (remoteSession c) = true \/ SessionRef_validate (remoteSession c) = None).

Lemma sendRelayEnvelopeOnce_rpc rpc c env data :
  addressed c -> re_RelayID env <> "" -> encodeRelayEnvelope marshal env = Ok data ->
  sendRelayEnvelopeOnce marshal None rpc c env =
  (v ← rpc (carries c data); (fun _ => tt) <$> (expect "missing transient_accepted in send response" v : result error RelayAccepted)).
Proof.
  intros (Hpeer & Hmode & Hsession) Hid He. unfold sendRelayEnvelopeOnce. rewrite He. cbn [mbind result_bind].
  unfold SendPacket. cbn [SendPacketInput_Target SendPacketInput_Body SendPacketInput_DeliveryMode SendPacketInput_TargetSession].
  rewrite Hpeer, Hmode. assert (data <> []) as Hne by (by eapply marshal_nonempty).
  assert ((len data =? 0) = false) as -> by (destruct data; [done|]; unfold len; simpl; lia).
  assert ((if SessionRef_IsZero (remoteSession c) then None else SessionRef_validate (remoteSession c)) = None) as ->
    by (destruct Hsession as [->| ->]; [done|by case_match]).
  done.
Qed.

(** The packet that the server pushes for a request: its body and the sender's reference; the
    rest of it is the server's. *)
Definition pushed (data : bytes) (sender : UserRef) (pkt : pb_Packet) : Prop :=
  pb_Packet_Body pkt = data /\ userRefFromProto (pb_Packet_Sender pkt) = sender.

Definition push_envelope (pkt : pb_Packet) : pb_ServerEnvelope :=
  mkpb_ServerEnvelope (Some (pb_ServerEnvelope_PacketPushed (mkpb_PacketPushed (Some pkt)))).

Lemma handlePacket_travels env data sender pkt co now r :
  re_RelayID env <> "" -> re_Kind env <> RelayKindUnspecified ->
  encodeRelayEnvelope marshal env = Ok data -> pushed data sender pkt ->
  handlePacket unmarshal co (packetFromProto (Some pkt)) now r =
  match re_Kind env with
  | RelayKindOpen => '(r', evs) ← acceptIncoming env sender now r; mret (true, r', evs)
  | _ =>
      match rm_conns r !! re_RelayID env with
      | Some ref =>
          match rm_heap r !! ref with
          | Some c => mret (true, settle ref c (enqueueEnvelope c (take_snapshot c env) env) r, [])
          | None => mret (true, r, [])
          end
      | None =>
          let event := mkRelayOrphan (re_RelayID env) (re_Kind env) in
          mret (true, r, (if rm_onOrphan r then [EvOrphan event] else []) ++ (if co then [EvClientOrphan event] else []))
      end
  end.
Proof.
  intros Hid Hkind He [Hbody Hsender]. unfold handlePacket. cbn [packetFromProto p_Body p_Sender]. rewrite Hbody, Hsender.
  rewrite (proj1 (relay_envelope_roundtrip marshal unmarshal env data marshal_read He)).
  rewrite bool_decide_false by done. by destruct (re_Kind env).
Qed.

(** A client whose relay manager has the connection that owns the ID of [env]. *)
Definition owns {S} (b : Client S) (r : Relay) (ref : nat) (cb : RelayConnection) (env : RelayEnvelope) : Prop :=
  c_relay b = Some r /\ rm_conns r !! re_RelayID env = Some ref /\ rm_heap r !! ref = Some cb.

(** C5: relay_frame_travels. What one end of a relay connection hands to its transport is what the
    other end is given. The frame goes out as one transient packet to the peer and its session, in
    the connection's delivery mode, and is accepted exactly when the server says so. When the
    server pushes that packet, the client of the peer hands the very same frame to the connection
    that owns its ID, changes no other connection and shows the application nothing; an OPEN
    frame reaches [acceptIncoming] with the sender that the server vouches for. *)
Theorem relay_frame_travels {S} `{CursorStore S} ca env data :
  addressed ca -> re_RelayID env <> "" -> re_Kind env <> RelayKindUnspecified ->
  encodeRelayEnvelope marshal env = Ok data ->
  (forall rpc, sendRelayEnvelopeOnce marshal None rpc ca env = Ok tt <-> exists accepted, rpc (carries ca data) = Ok (ARelayAccepted accepted)) /\
  (forall rpc e, rpc (carries ca data) = Err e -> sendRelayEnvelopeOnce marshal None rpc ca env = Err e) /\
  (forall (b : Client S) r ref cb pkt sender now ctxErr err, pushed data sender pkt -> owns b r ref cb env ->
     re_Kind env <> RelayKindOpen ->
     handleServerEnvelope unmarshal now ctxErr err (push_envelope pkt) b =
       Ok (None, set_relay (Some (settle ref cb (enqueueEnvelope cb (take_snapshot cb env) env) r)) b, [])) /\
  (forall (b : Client S) r r' evs pkt sender now ctxErr err, pushed data sender pkt -> c_relay b = Some r ->
     re_Kind env = RelayKindOpen -> acceptIncoming env sender now r = Ok (r', evs) ->
     handleServerEnvelope unmarshal now ctxErr err (push_envelope pkt) b =
       Ok (None, set_relay (Some r') b, ERelayEvent <$> evs)).
Proof.
  intros Haddr Hid Hkind He. pose proof (fun rpc => sendRelayEnvelopeOnce_rpc rpc ca env data Haddr Hid He) as Hsend.
  pose proof (fun sender pkt co now r => handlePacket_travels env data sender pkt co now r Hid Hkind He) as Hpacket.
  split_and!.
  - intros rpc. rewrite Hsend. split.
    + destruct (rpc _) as [v|e|] eqn:E; [|done..]. unfold expect. destruct v; try done. eauto.
    + by intros [a ->].
  - intros rpc e Hrpc. by rewrite Hsend, Hrpc.
  - intros b r ref cb pkt sender now ctxErr err Hpush (Hr & Hown & Hheap) Hopen.
    unfold handleServerEnvelope, push_envelope, packetPushed. cbn [pb_ServerEnvelope_body pb_PacketPushed_Packet].
    rewrite Hr, (Hpacket _ _ _ _ _ Hpush), Hown, Hheap. by destruct (re_Kind env).
  - intros b r r' evs pkt sender now ctxErr err Hpush Hr Hopen Hacc.
    unfold handleServerEnvelope, push_envelope, packetPushed. cbn [pb_ServerEnvelope_body pb_PacketPushed_Packet].
    by rewrite Hr, (Hpacket _ _ _ _ _ Hpush), Hopen, Hacc.
Qed.
End travels.

(** ** A frame that travels *)

Definition travelling : RelayEnvelope := mkRelayEnvelope "r1" RelayKindData demo_s1 demo_s2 1 0 [Byte.x61] 5.
Definition travelling_pb : pb_RelayEnvelope :=
  mkpb_RelayEnvelope "r1" 3 (session_to_pb demo_s1) (session_to_pb demo_s2) 1 0 [Byte.x61] 5.
Definition demo_end : RelayConnection :=
  mkRelayConnection "r1" DefaultRelayConfig (mkUserRef 2 20) demo_s2 demo_s1 (mkLifecycle RelayStateOpen true false [] None false)
    (mkSendWindow 1 1 ∅ 0 None) (mkRecvWindow 1 ∅ 0 0) (mkAdmission None ∅ 0 false false) (mkAckWorker None 0 None None 0 false) [] [].
Definition demo_push : pb_Packet := mkpb_Packet 1 1 2 None (userRefToProto (mkUserRef 1 10)) [Byte.x01] 1 None.
Definition demo_peer : Client MemoryCursorStore := set_relay (Some demo_mgr) demo_client.

Lemma relay_frame_travels_witness :
  sendRelayEnvelopeOnce (one_marshal travelling_pb) None (fun _ => Ok (ARelayAccepted zero_RelayAccepted))
    demo_end travelling = Ok tt /\
  exists r', handleServerEnvelope (one_unmarshal travelling_pb) 9 None None (push_envelope demo_push) demo_peer =
             Ok (None, set_relay (Some r') demo_peer, []).
Proof.
  destruct (fun Hread Hnonempty => @relay_frame_travels (one_marshal travelling_pb) (one_unmarshal travelling_pb) Hread Hnonempty
              MemoryCursorStore _ demo_end travelling [Byte.x01]) as (Hsend & _ & Hpush & _).
  - intros m data. unfold one_marshal. destruct (bool_decide (m = travelling_pb)) eqn:E; [|discriminate].
    apply bool_decide_eq_true_1 in E as ->. intros [= <-]. reflexivity.
  - intros m data. unfold one_marshal. destruct (bool_decide (m = travelling_pb)); [|discriminate]. intros [= <-] _. discriminate.
  - vm_compute. repeat split; try reflexivity. by right.
  - discriminate.
  - discriminate.
  - vm_compute. reflexivity.
  - split; [apply Hsend; eexists; reflexivity|].
    destruct (rm_heap demo_mgr !! 0%nat) as [cb|] eqn:Eh; [|vm_compute in Eh; discriminate Eh].
    eexists. apply (Hpush demo_peer demo_mgr 0%nat cb demo_push (mkUserRef 1 10)); [by split|split; [reflexivity|]|discriminate].
    split; [vm_compute; reflexivity|exact Eh].
Defined.
