(* ===== verification/ClientDial.v ===== *)
(** * The transport of the client: its URL, dialing, reading, pings, Connect (client.go)

    websocket.Dial, the reads of its connection and proto.Unmarshal are arguments, and so are
    net/url's Parse and String: [URL] holds the fields that the client looks at or sets, and the
    rest (user, host, port) as it came. *)

From Stdlib Require Import Strings.Byte.
From stdpp Require Import base list strings.
From S2P Require Import Prelude Errors Types Wire Text Encoding Url Requests Records Store ClientApi Client.

Record URL : Type := mkURL { url_Scheme : string; url_Authority : string; url_Path : string; url_RawQuery : string; url_Fragment : string }.

Definition trimSlashes (s : string) : string := String.string_of_list_byte (TrimRight_slash (str s)).

(** [websocketURL] between [url.Parse] and [u.String()]. *)
Definition websocketTarget (realtime : bool) (u : URL) : result error URL :=
  scheme ← (if bool_decide (url_Scheme u = "http") then Ok "ws"
            else if bool_decide (url_Scheme u = "https") then Ok "wss"
            else if bool_decide (url_Scheme u = "ws") || bool_decide (url_Scheme u = "wss") then Ok (url_Scheme u)
            else Err (Errorf "unsupported base URL scheme %q" [FStr (url_Scheme u)]));
  let path := if realtime then "/ws/realtime" else "/ws/client" in
  let path := if bool_decide (url_Path u = "") || bool_decide (url_Path u = "/") then path
              else trimSlashes (url_Path u) +:+ path in
  mret (mkURL scheme (url_Authority u) path "" "").

(** What [websocket.Dial] gives: a transport, or an error with the status of the response if
    there was one. *)
Inductive dial_result : Type := Dialed (conn : nat) | DialFailed (status : option Z) (err : error).

Section transport.
Context (url_Parse : string -> result error URL) (url_String : URL -> string).

Definition websocketURL (base : string) (realtime : bool) : result error string :=
  u ← url_Parse base;
  u ← websocketTarget realtime u;
  mret (url_String u).

Definition dial {S} (Dial : string -> dial_result) (cfg : Config S) : result error nat :=
  wsURL ← websocketURL (cfg_BaseURL cfg) (cfg_RealtimeStream cfg);
  match Dial wsURL with
  | Dialed conn => Ok conn
  | DialFailed (Some status) err => Err (EConnection "dial" (Wrapf "status=%d: %w" [FInt status] err))
  | DialFailed None err => Err (EConnection "dial" err)
  end.

(** [read] is what [conn.Read] returned. *)
Definition readProto (Unmarshal : bytes -> option pb_ServerEnvelope) (read : result error bytes) : result error pb_ServerEnvelope :=
  match read with
  | Ok payload => match Unmarshal payload with Some env => Ok env | None => Err (EProtocol "invalid protobuf frame" []) end
  | Err err => Err (EConnection "read" err)
  | Panic => Panic
  end.

(** One tick of [pingLoop]: [err] is what [Ping] returned. *)
Definition pingTick (err : option error) : list client_event :=
  match err with
  | Some e =>
      if negb (errors_Is e ErrNotConnected) && negb (errors_Is e ErrClosed) && negb (errors_Is e ErrDisconnected)
      then [EOnError e] else []
  | None => []
  end.

(** The target keeps host and path prefix of the base, asks for the endpoint of the session's
    kind without query or fragment, and secures exactly what the base secures. *)
Lemma websocketTarget_spec realtime u v : websocketTarget realtime u = Ok v ->
  url_Authority v = url_Authority u /\ url_RawQuery v = "" /\ url_Fragment v = "" /\
  (url_Scheme v = "ws" /\ (url_Scheme u = "http" \/ url_Scheme u = "ws") \/
   url_Scheme v = "wss" /\ (url_Scheme u = "https" \/ url_Scheme u = "wss")) /\
  exists prefix, url_Path v = prefix +:+ (if realtime then "/ws/realtime" else "/ws/client") /\
    (prefix = "" \/ prefix = trimSlashes (url_Path u)).
Proof.
  unfold websocketTarget. intros Hv.
  destruct (bool_decide (url_Scheme u = "http")) eqn:E1; [|destruct (bool_decide (url_Scheme u = "https")) eqn:E2;
    [|destruct (bool_decide (url_Scheme u = "ws") || bool_decide (url_Scheme u = "wss")) eqn:E3; [|discriminate Hv]]]; simpl in Hv; injection Hv as <-; bool_facts; simpl; (do 3 (split; [done|])); split.
  all: try (destruct (bool_decide (url_Path u = "") || bool_decide (url_Path u = "/"));
    [exists ""|exists (trimSlashes (url_Path u))]; by eauto).
  - auto.
  - auto.
  - destruct E3; bool_facts; auto.
Qed.

(** A transport that cannot be made or read is a [ConnectionError], which the run loop retries. *)
Lemma dial_error {S} Dial (cfg : Config S) u e :
  url_Parse (cfg_BaseURL cfg) = Ok u -> is_ok (websocketTarget (cfg_RealtimeStream cfg) u) = true -> dial Dial cfg = Err e ->
  exists inner, e = EConnection "dial" inner.
Proof.
  intros Hu Ht. unfold dial, websocketURL. rewrite Hu. cbn [mbind result_bind].
  destruct (websocketTarget _ u); [|done..]. cbn [mbind result_bind mret result_ret].
  destruct (Dial _) as [conn|[status|] err]; [done|..]; intros [= <-]; eauto.
Qed.
End transport.

(** ** Connect *)

(** [startOnce], and whether the value of [firstConnect] (a channel of one, filled once by
    [signalFirstConnect]) has been received. *)
Record starter : Type := mkStarter { sr_started : bool; sr_received : bool }.

(** [c.startOnce.Do]: whether this call starts [run]. *)
Definition Connect_start (s : starter) : bool * starter := (negb (sr_started s), mkStarter true (sr_received s)).

(** The select of [Connect]: the first connection's outcome, or the end of the caller's context;
    [pick] resolves the choice when both are ready. *)
Definition Connect_wait {S} (pick : bool) (ctxErr : option error) (c : Client S) (s : starter) : option (option error * starter) :=
  match (if sr_received s then None else c_firstConnect c), ctxErr with
  | Some outcome, Some e => if pick then Some (outcome, mkStarter (sr_started s) true) else Some (Some e, s)
  | Some outcome, None => Some (outcome, mkStarter (sr_started s) true)
  | None, Some e => Some (Some e, s)
  | None, None => None
  end.

(** Only one call ever starts the run loop, and only one ever receives the outcome of the first
    connection: a later [Connect], even of a client that is online, waits for its context. *)
Lemma Connect_once {S} (c : Client S) s :
  (Connect_start (Connect_start s).2).1 = false /\
  (forall pick ctxErr outcome s', Connect_wait pick ctxErr c s = Some (outcome, s') -> outcome = None ->
     c_firstConnect c = Some None /\
     forall (c' : Client S) pick', Connect_wait pick' None c' s' = None /\
       forall e, Connect_wait pick' (Some e) c' s' = Some (Some e, s')).
Proof.
  split; [done|]. intros pick ctxErr outcome s' Hw ->. unfold Connect_wait in Hw.
  destruct (sr_received s) eqn:Er; [by destruct ctxErr|].
  destruct (c_firstConnect c) as [outcome|]; [|by destruct ctxErr]. destruct ctxErr; [destruct pick|]; by simplify_eq.
Qed.
