(* ===== verification/DemoValue.v ===== *)
(** * Values of the demo runner (the data and the generic operations of demo/runtime.go)

    [dyn] is what an [any] holds there: what yaml.v3 decodes a scenario into, the SDK's structs
    as reflection shows them, and what [normalizeValue] makes of both. A Go map is the list of
    its bindings, without repeated keys, in the order in which a [range] visits them: another
    visit of the same map is another list ([reordered] in DemoMatchProps). *)

From Stdlib Require Import Strings.Ascii Strings.Byte Floats.SpecFloat.
From stdpp Require Import base list strings.
From S2P Require Import Prelude Errors Text Encoding Float64 JsonMarshal.

(** [reflect.StructField]: the name, the [json] key of the tag, and [IsExported]. *)
Record StructField : Type := mkStructField { sf_Name : string; sf_Tag : string; sf_Exported : bool }.

Inductive dyn : Type :=
| DNil
| DBool (b : bool)
| DInt (z : Z) | DInt32 (z : Z) | DInt64 (z : Z) | DUint64 (z : Z)
| DFloat64 (f : spec_float)
| DString (s : string)
| DNamed (ty : string) (s : string)              (* a string of a defined type *)
| DBytes (b : bytes)                             (* []byte; an empty one is nil *)
| DArray (l : list dyn)                          (* []any *)
| DMap (m : list (string * dyn))                 (* map[string]any *)
| DSlice (ty : string) (l : list dyn)            (* a slice or array of another type *)
| DStruct (ty : string) (fields : list (StructField * dyn))
| DPtr (ty : string) (p : option dyn)
| DAnyMap (m : list (dyn * dyn))                 (* map[any]any, from keys that are not strings *)
| DTime (text json : string).                    (* time.Time: its String and its MarshalJSON *)

(** ** Maps *)

Fixpoint mget {A} (k : string) (m : list (string * A)) : option A :=
  match m with
  | [] => None
  | (k', a) :: m => if bool_decide (k = k') then Some a else mget k m
  end.

(** [m[k] = a] *)
Fixpoint mput {A} (k : string) (a : A) (m : list (string * A)) : list (string * A) :=
  match m with
  | [] => [(k, a)]
  | (k', a') :: m => if bool_decide (k = k') then (k', a) :: m else (k', a') :: mput k a m
  end.

(** ** Text *)

(** [strings.Split(s, sep)] for a separator of one character. *)
Fixpoint Split (sep : ascii) (s : string) : list string :=
  match s with
  | EmptyString => [""]
  | String c s =>
      if bool_decide (c = sep) then "" :: Split sep s
      else match Split sep s with p :: ps => String c p :: ps | [] => [String c EmptyString] end
  end.

Definition of_bytes (b : bytes) : string := String.string_of_list_byte b.
(** [%d] *)
Definition Itoa (z : Z) : string := of_bytes (FormatInt z).

Fixpoint insert_key {A} (kv : string * A) (l : list (string * A)) : list (string * A) :=
  match l with
  | [] => [kv]
  | kv' :: l => if String.leb kv.1 kv'.1 then kv :: kv' :: l else kv' :: insert_key kv l
  end.
(** Bindings in the order of their keys ([sort.Strings], [fmtsort], [encoding/json]). *)
Definition sort_keys {A} (l : list (string * A)) : list (string * A) := foldr insert_key [] l.

Fixpoint join (sep : string) (l : list string) : string :=
  match l with
  | [] => ""
  | [x] => x
  | x :: l => x +:+ sep +:+ join sep l
  end.

(** [fmt.Sprint(v)], the [%v] of a value. The keys of a [map[any]any] are sorted by the
    addresses of their types first: here they come as they are. *)
Fixpoint Sprint (v : dyn) : string :=
  match v with
  | DNil => "<nil>"
  | DBool b => if b then "true" else "false"
  | DInt z | DInt32 z | DInt64 z | DUint64 z => Itoa z
  | DFloat64 f => of_bytes (FormatFloat f)
  | DString s | DNamed _ s => s
  | DBytes b => "[" +:+ join " " ((fun c => Itoa (byte_Z c)) <$> b) +:+ "]"
  | DArray l | DSlice _ l => "[" +:+ join " " (map Sprint l) +:+ "]"
  | DMap m =>
      "map[" +:+ join " " ((fun kv => kv.1 +:+ ":" +:+ kv.2) <$> sort_keys (map (fun '(k, v) => (k, Sprint v)) m)) +:+ "]"
  | DAnyMap m => "map[" +:+ join " " (map (fun '(k, v) => Sprint k +:+ ":" +:+ Sprint v) m) +:+ "]"
  | DStruct _ fields => "{" +:+ join " " (map (fun '(_, v) => Sprint v) fields) +:+ "}"
  | DPtr _ None => "<nil>"
  | DPtr _ (Some v) => "&" +:+ Sprint v
  | DTime text _ => text
  end.

(** [%T] *)
Definition TypeName (v : dyn) : string :=
  match v with
  | DNil => "<nil>" | DBool _ => "bool" | DInt _ => "int" | DInt32 _ => "int32" | DInt64 _ => "int64"
  | DUint64 _ => "uint64" | DFloat64 _ => "float64" | DString _ => "string" | DNamed ty _ => ty
  | DBytes _ => "[]uint8" | DArray _ => "[]interface {}" | DMap _ => "map[string]interface {}"
  | DSlice ty _ | DStruct ty _ | DPtr ty _ => ty
  | DAnyMap _ => "map[interface {}]interface {}" | DTime _ _ => "time.Time"
  end.

(** ** [normalizeValue] *)

Definition jsonFieldName (field : StructField) : string :=
  let tag := sf_Tag field in
  if bool_decide (tag = "") then sf_Name field
  else
    let name := default "" (head (Split "," tag)) in
    if bool_decide (name = "") then sf_Name field else name.

(** [out[name] = v] for the fields that have a name. *)
Definition put_field (field : StructField) (v : dyn) (out : list (string * dyn)) : list (string * dyn) :=
  if negb (sf_Exported field) then out
  else
    let name := jsonFieldName field in
    if bool_decide (name = "-") || bool_decide (name = "") then out else mput name v out.

(** A map filled by a loop over keys and values. *)
Definition put_all {K A} (put : K -> A -> list (string * A) -> list (string * A)) (l : list (K * A)) : list (string * A) :=
  fold_left (fun out kv => put kv.1 kv.2 out) l [].

Fixpoint normalizeValue (value : dyn) : dyn :=
  match value with
  | DPtr _ None => DNil
  | DPtr _ (Some v) => normalizeValue v
  | DStruct _ fields => DMap (put_all put_field (map (fun '(f, v) => (f, normalizeValue v)) fields))
  | DBytes b => DBytes ([] ++ b)
  | DArray l | DSlice _ l => DArray (map normalizeValue l)
  | DMap m => DMap (put_all mput (map (fun '(k, v) => (k, normalizeValue v)) m))
  | DAnyMap m => DMap (put_all (fun k => mput (Sprint k)) (map (fun '(k, v) => (k, normalizeValue v)) m))
  | DTime _ _ => DMap []                         (* a struct without exported fields *)
  | v => v
  end.

(** ** Paths and copies *)

Fixpoint lookup_parts (current : dyn) (parts : list string) : option dyn :=
  match parts with
  | [] => Some current
  | part :: parts =>
      match current with
      | DMap m => match mget part m with Some next => lookup_parts next parts | None => None end
      | _ => None
      end
  end.

Definition lookupPath (root : dyn) (path : string) : option dyn := lookup_parts root (Split "." path).

(** Values are immutable here, so a copy is equal to its original ([cloneValue_id]). *)
Fixpoint cloneValue (value : dyn) : dyn :=
  match value with
  | DMap m => DMap (map (fun '(k, v) => (k, cloneValue v)) m)
  | DArray l => DArray (map cloneValue l)
  | DBytes b => DBytes ([] ++ b)
  | v => v
  end.

Definition cloneStringMap (m : list (string * dyn)) : list (string * dyn) :=
  map (fun '(k, v) => (k, cloneValue v)) m.
