(* ===== verification/DemoMatch.v ===== *)
(** * Matching and substitution of scenario values (demo/runtime.go)

    [matchSubset] compares an expectation with what the server sent, [resolveValue] puts the
    scenario's variables into a value, [decodeBytes] turns a scenario value into bytes. *)

From Stdlib Require Import Strings.Ascii Strings.Byte Floats.SpecFloat.
From stdpp Require Import base list strings.
From S2P Require Import Prelude Errors Text Encoding Float64 JsonMarshal DemoValue.

(** ** Fields of a request *)

Definition stringValue (value : dyn) : result error string :=
  match value with
  | DString v => Ok v
  | _ => Err (Errorf "expected string, got %T" [FStr (TypeName value)])
  end.

(** [%w] behind a prefix that names the field. *)
Definition in_field {A} (format key : string) (r : result error A) : result error A :=
  match r with Err e => Err (Wrapf format [FStr key] e) | r => r end.

Definition required_error (key : string) : error := Errorf "%s is required" [FStr key].

Definition stringField (values : list (string * dyn)) (key : string) (required : bool) : result error string :=
  match mget key values with
  | None => if required then Err (required_error key) else Ok ""
  | Some raw => in_field "%s: %w" key (stringValue raw)
  end.

Definition int64Field `{Platform} (values : list (string * dyn)) (key : string) (required : bool) : result error Z :=
  match mget key values with
  | None => if required then Err (required_error key) else Ok 0
  | Some raw =>
      match raw with
      | DInt v => Ok v
      | DInt64 v => Ok v
      | DUint64 v => Ok (i64 v)
      | DFloat64 v => Ok (int64_of v)
      | DString v =>
          match ParseInt 64 (str v) with
          | Some value => Ok value
          | None => Err (Errorf "%s must be an integer" [FStr key])
          end
      | _ => Err (Errorf "%s must be an integer" [FStr key])
      end
  end.

(** [int(value)] changes nothing on a 64-bit platform. *)
Definition intField `{Platform} (values : list (string * dyn)) (key : string) (required : bool) : result error Z :=
  i64 <$> int64Field values key required.

(** [json.Marshal(v)] of a value: the keys of an object are sorted; a [map[any]any], an
    infinity and a NaN are errors. *)
Fixpoint json_Marshal (v : dyn) : option bytes :=
  match v with
  | DNil | DPtr _ None => Some (str "null")
  | DBool b => Some (if b then str "true" else str "false")
  | DInt z | DInt32 z | DInt64 z | DUint64 z => Some (FormatInt z)
  | DFloat64 f => json_float f
  | DString s | DNamed _ s => Some (quote (str s))
  | DBytes b => Some (if bool_decide (b = []) then str "null" else quote (b64_encode b))
  | DArray l | DSlice _ l =>
      texts ← mapM json_Marshal l;
      Some (x5b :: comma_sep texts ++ [x5d])
  | DMap m =>
      texts ← mapM (fun '(k, v) => t ← json_Marshal v; Some (k, t)) m;
      Some (x7b :: comma_sep ((fun kt => quote (str kt.1) ++ x3a :: kt.2) <$> sort_keys texts) ++ [x7d])
  | DPtr _ (Some v) => json_Marshal v
  | DStruct _ fields =>
      texts ← mapM (fun '(f, v) => t ← json_Marshal v; Some (jsonFieldName f, t)) fields;
      Some (x7b :: comma_sep ((fun kt => quote (str kt.1) ++ x3a :: kt.2) <$> texts) ++ [x7d])
  | DTime _ json => Some (str json)
  | DAnyMap _ => None
  end.

Definition decodeBytes (value : dyn) : result error bytes :=
  match value with
  | DString v => Ok (str v)
  | DBytes v => Ok ([] ++ v)
  | DMap v =>
      format ← stringField v "format" true;
      match mget "value" v with
      | None => Err (errors_New "value is required")
      | Some rawValue =>
          if bool_decide (format = "json") then
            match json_Marshal rawValue with
            | Some data => Ok data
            | None => Err (errors_New "json: unsupported value")
            end
          else if bool_decide (format = "base64") then
            text ← stringValue rawValue;
            match b64_decode (str text) with
            | Some data => Ok data
            | None => Err (errors_New "illegal base64 data")
            end
          else Err (Errorf "unsupported bytes format %q" [FStr format])
      end
  | _ => Err (Errorf "expected string or {format,value}, got %T" [FStr (TypeName value)])
  end.

Definition bytesField (values : list (string * dyn)) (key : string) (required : bool) : result error bytes :=
  match mget key values with
  | None => if required then Err (required_error key) else Ok []
  | Some raw => in_field "%s: %w" key (decodeBytes raw)
  end.

(** ** Matching *)

Definition numericEqual (expected : spec_float) (actual : dyn) : bool :=
  match actual with
  | DInt v | DInt64 v | DUint64 v => SFeqb expected (float64_of v)
  | DFloat64 v => SFeqb expected v
  | _ => false
  end.

(** [reflect.DeepEqual] on what reaches it: normalized values that are neither numbers of the
    four types, nor maps, slices or bytes on the left. *)
Definition DeepEqual (expected actual : dyn) : bool :=
  match expected, actual with
  | DNil, DNil => true
  | DBool a, DBool b => Bool.eqb a b
  | DInt32 a, DInt32 b => a =? b
  | DString a, DString b => bool_decide (a = b)
  | DNamed t a, DNamed u b => bool_decide (t = u) && bool_decide (a = b)
  | _, _ => false
  end.

Definition sameScalar (expected actual : dyn) : bool :=
  match expected with
  | DInt exp | DInt64 exp | DUint64 exp => numericEqual (float64_of exp) actual
  | DFloat64 exp => numericEqual exp actual
  | _ => DeepEqual expected actual
  end.

Definition pathValue (path : string) : string := if bool_decide (path = "") then "value" else path.

Definition mismatch (path : string) (expected actual : dyn) : error :=
  Errorf "%s: expected %v, got %v" [FStr (pathValue path); FStr (Sprint expected); FStr (Sprint actual)].

(** What one binding of an expected object asks for: its value, matched below the next path. *)
Definition match_key (match_at : string -> dyn -> option error) (path key : string) (act : list (string * dyn))
    : option error :=
  match mget key act with
  | None => Some (Errorf "%s: missing key %q" [FStr (pathValue path); FStr key])
  | Some actualValue => match_at (if bool_decide (path = "") then key else path +:+ "." +:+ key) actualValue
  end.

Fixpoint matchAt (path : string) (expected actual : dyn) {struct expected} : option error :=
  let compare :=
    match expected with
    | DMap exp =>
        match actual with
        | DMap act =>
            (fix keys exp := match exp with
             | [] => None
             | (key, value) :: exp =>
                 match match_key (fun next => matchAt next value) path key act with Some e => Some e | None => keys exp end
             end) exp
        | _ => Some (Errorf "%s: expected object, got %T" [FStr (pathValue path); FStr (TypeName actual)])
        end
    | DArray exp =>
        match actual with
        | DArray act =>
            if negb (len exp =? len act)
            then Some (Errorf "%s: expected array length %d, got %d" [FStr (pathValue path); FInt (len exp); FInt (len act)])
            else
              (fix items i exp act := match exp, act with
               | e :: exp, a :: act =>
                   match matchAt (pathValue path +:+ "[" +:+ Itoa i +:+ "]") e a with
                   | Some e => Some e
                   | None => items (i + 1) exp act
                   end
               | _, _ => None
               end) 0 exp act
        | _ => Some (Errorf "%s: expected array, got %T" [FStr (pathValue path); FStr (TypeName actual)])
        end
    | DBytes exp =>
        match actual with
        | DBytes act => if bool_decide (exp = act) then None
                        else Some (Errorf "%s: expected %q, got %q" [FStr (pathValue path); FStr (of_bytes exp); FStr (of_bytes act)])
        | _ => Some (Errorf "%s: expected bytes, got %T" [FStr (pathValue path); FStr (TypeName actual)])
        end
    | _ => if sameScalar expected actual then None else Some (mismatch path expected actual)
    end in
  match actual with
  | DBytes actualBytes =>
      match decodeBytes expected with
      | Ok expectedBytes =>
          if bool_decide (expectedBytes = actualBytes) then None
          else Some (Errorf "%s: expected %q, got %q"
                       [FStr (pathValue path); FStr (of_bytes expectedBytes); FStr (of_bytes actualBytes)])
      | _ => compare
      end
  | _ => compare
  end.

Definition matchSubset (expected actual : dyn) : option error :=
  matchAt "" (normalizeValue expected) (normalizeValue actual).

(** ** Variables *)

Definition name_start (c : ascii) : bool :=
  in_range "A" "Z" c || in_range "a" "z" c || bool_decide (c = "_"%char).
Definition name_char (c : ascii) : bool := name_start c || in_range "0" "9" c.

(** [varNamePattern] of schema.go: [^[A-Za-z_][A-Za-z0-9_]*$] *)
Definition validVarName (name : string) : bool :=
  match name with
  | EmptyString => false
  | String c name => name_start c && forallb name_char (String.list_ascii_of_string name)
  end.

Fixpoint span_name (s : string) : string * string :=
  match s with
  | String c s' => if name_char c then let '(n, r) := span_name s' in (String c n, r) else ("", s)
  | EmptyString => ("", "")
  end.

(** A variable reference (a dollar sign and a name in braces) at the front: the name, and the rest. *)
Definition var_at (s : string) : option (string * string) :=
  match s with
  | String "$"%char (String "{"%char s) =>
      let '(name, rest) := span_name s in
      match rest with
      | String "}"%char rest => if validVarName name then Some (name, rest) else None
      | _ => None
      end
  | _ => None
  end.

(** [exactVarPattern.FindStringSubmatch] *)
Definition exactVar (s : string) : option string :=
  match var_at s with Some (name, EmptyString) => Some name | _ => None end.

(** What one match of [embeddedVarPattern] is replaced by. *)
Definition embedded_text (vars : list (string * dyn)) (name : string) : string :=
  match mget name vars with
  | Some (DBytes item) => of_bytes item
  | Some item => Sprint item
  | None => "${" +:+ name +:+ "}"
  end.

(** [embeddedVarPattern.ReplaceAllStringFunc]; [skip] characters belong to the last match. *)
Fixpoint embed (vars : list (string * dyn)) (skip : nat) (s : string) : string :=
  match s with
  | EmptyString => ""
  | String c s' =>
      match skip with
      | S skip => embed vars skip s'
      | O =>
          match var_at s with
          | Some (name, _) => embedded_text vars name +:+ embed vars (String.length name + 2) s'
          | None => String c (embed vars 0 s')
          end
      end
  end.

Fixpoint resolveValue (value : dyn) (vars : list (string * dyn)) : dyn :=
  match value with
  | DMap v => DMap (map (fun '(key, item) => (key, resolveValue item vars)) v)
  | DArray v => DArray (map (fun item => resolveValue item vars) v)
  | DString v =>
      match exactVar v with
      | Some name => match mget name vars with Some resolved => cloneValue resolved | None => value end
      | None => DString (embed vars 0 v)
      end
  | v => cloneValue v
  end.

(** ** Examples *)

Example resolve_1 :
  let vars := [("n", DInt 7); ("b", DBytes (str "raw")); ("m", DMap [("z", DNil); ("a", DArray [DBool true; DFloat64 (float64_of 3)])])] in
  (resolveValue (DString "${n}") vars, resolveValue (DString "x${n}${b}-${nope}${m}$") vars, resolveValue (DString "$${n") vars)
  = (DInt 7, DString "x7raw-${nope}map[a:[true 3] z:<nil>]$", DString "$${n").
Proof. vm_compute. reflexivity. Qed.

Example match_1 :
  let act := DMap [("body", DBytes (str "[1]")); ("n", DInt64 9007199254740992); ("mode", DNamed "turntf.DeliveryMode" "best_effort");
                   ("l", DSlice "[]int" [DInt 1; DInt 2])] in
  (matchSubset (DMap [("body", DMap [("format", DString "json"); ("value", DArray [DInt 1])]); ("n", DFloat64 (float64_of (2 ^ 53)));
                      ("l", DArray [DInt64 1; DInt 2])]) act,
   matchSubset (DMap [("n", DInt 9007199254740993)]) act, is_Some (matchSubset (DMap [("mode", DString "best_effort")]) act) : Prop)
  = (None, None, is_Some (Some (Errorf "%s: expected %v, got %v" [FStr "mode"; FStr "best_effort"; FStr "best_effort"]))).
Proof. vm_compute. reflexivity. Qed.
