(* ===== verification/DemoMatchProps.v ===== *)
(** * What matching and substitution promise

    Normalized values and their induction principle, [matchAt] as a relation without paths, and
    its two consequences: a value matches itself, and the order in which Go visits the bindings
    of a map changes the outcome only when two of its keys print alike. *)

From Stdlib Require Import Strings.Ascii Strings.Byte Floats.SpecFloat.
From stdpp Require Import base list strings sorting.
From S2P Require Import Prelude Errors Text Encoding Float64 JsonMarshal DemoValue DemoMatch.

(** ** Floats compare equal to themselves *)

Definition is_nan (f : spec_float) : bool := match f with S754_nan => true | _ => false end.

Lemma SFeqb_refl f : is_nan f = false -> SFeqb f f = true.
Proof.
  destruct f as [s|s| |s m e]; intros H; try done; unfold SFeqb, SFcompare; [by destruct s|].
  by destruct s; rewrite Z.compare_refl; change (Pos.compare_cont Eq m m) with (Pos.compare m m); rewrite Pos.compare_refl.
Qed.

Definition shr_ok (r : shr_record) : Prop := 0 <= shr_m r.

Lemma shr_1_ok r : shr_ok r -> shr_ok (shr_1 r).
Proof. destruct r as [m b s]. unfold shr_ok. destruct m as [|[p|p|]|]; simpl; lia. Qed.

Lemma iter_shr_1_ok p r : shr_ok r -> shr_ok (SpecFloat.iter_pos shr_1 p r).
Proof. revert r. induction p as [p IH|p IH|]; intros r Hr; simpl; auto using shr_1_ok. Qed.

Lemma shr_fexp_ok m e l : 0 <= m -> shr_ok (shr_fexp prec emax m e l).1.
Proof.
  intros Hm. unfold shr_fexp, shr.
  assert (shr_ok (shr_record_of_loc m l)) as Hr by (by destruct l as [|[]]).
  destruct (_ - _); [done|by apply iter_shr_1_ok|done].
Qed.

Lemma binary_round_aux_number sx m e l : 0 <= m -> is_nan (binary_round_aux prec emax sx m e l) = false.
Proof.
  intros Hm. unfold binary_round_aux. pose proof (shr_fexp_ok m e l Hm) as H1.
  destruct (shr_fexp _ _ m e l) as [r e1]. simpl in H1.
  assert (0 <= round_nearest_even (shr_m r) (loc_of_shr_record r)) as Hn.
  { unfold shr_ok in H1. unfold round_nearest_even. repeat case_match; lia. }
  pose proof (shr_fexp_ok _ e1 loc_Exact Hn) as H2. destruct (shr_fexp _ _ _ e1 loc_Exact) as [r2 e2]. unfold shr_ok in H2.
  simpl in H2. destruct (shr_m r2); [done|by case_match|lia].
Qed.

(** A converted integer is never a NaN. *)
Lemma float64_of_number z : is_nan (float64_of z) = false.
Proof.
  unfold float64_of, binary_normalize, binary_round.
  destruct z; [done|..]; destruct (shl_align _ _ _); by apply binary_round_aux_number.
Qed.

Lemma float64_of_refl z : SFeqb (float64_of z) (float64_of z) = true.
Proof. apply SFeqb_refl, float64_of_number. Qed.

(** ** Normalized values *)

Section dyn_ind.
Context (P : dyn -> Prop).
Context (Hnil : P DNil) (Hbool : forall b, P (DBool b)) (Hint : forall z, P (DInt z)) (Hint32 : forall z, P (DInt32 z))
  (Hint64 : forall z, P (DInt64 z)) (Huint64 : forall z, P (DUint64 z)) (Hfloat : forall f, P (DFloat64 f))
  (Hstring : forall s, P (DString s)) (Hnamed : forall t s, P (DNamed t s)) (Hbytes : forall b, P (DBytes b))
  (Harray : forall l, Forall P l -> P (DArray l))
  (Hmap : forall m : list (string * dyn), Forall (fun kv => P kv.2) m -> P (DMap m))
  (Hslice : forall t l, Forall P l -> P (DSlice t l))
  (Hstruct : forall t (m : list (StructField * dyn)), Forall (fun kv => P kv.2) m -> P (DStruct t m))
  (Hptr : forall t p, (forall v, p = Some v -> P v) -> P (DPtr t p))
  (Hany : forall m : list (dyn * dyn), Forall (fun kv => P kv.2) m -> P (DAnyMap m))
  (Htime : forall t j, P (DTime t j)).

Fixpoint dyn_ind' (v : dyn) : P v :=
  let items := fix go (l : list dyn) : Forall P l :=
    match l with [] => Forall_nil_2 _ | v :: l => Forall_cons_2 _ _ _ (dyn_ind' v) (go l) end in
  match v with
  | DNil => Hnil | DBool b => Hbool b | DInt z => Hint z | DInt32 z => Hint32 z | DInt64 z => Hint64 z
  | DUint64 z => Huint64 z | DFloat64 f => Hfloat f | DString s => Hstring s | DNamed t s => Hnamed t s | DBytes b => Hbytes b
  | DArray l => Harray l (items l)
  | DMap m => Hmap m ((fix go (m : list (string * dyn)) : Forall (fun kv => P kv.2) m :=
      match m with [] => Forall_nil_2 _ | (k, v) :: m => Forall_cons_2 _ (k, v) _ (dyn_ind' v) (go m) end) m)
  | DSlice t l => Hslice t l (items l)
  | DStruct t m => Hstruct t m ((fix go (m : list (StructField * dyn)) : Forall (fun kv => P kv.2) m :=
      match m with [] => Forall_nil_2 _ | (k, v) :: m => Forall_cons_2 _ (k, v) _ (dyn_ind' v) (go m) end) m)
  | DPtr t p => Hptr t p (match p with Some v => fun w e => eq_ind v P (dyn_ind' v) w (f_equal (fun o => default v o) e)
                          | None => fun w e => False_ind _ (eq_ind None (fun o => match o with None => True | Some _ => False end) I _ e) end)
  | DAnyMap m => Hany m ((fix go (m : list (dyn * dyn)) : Forall (fun kv => P kv.2) m :=
      match m with [] => Forall_nil_2 _ | (k, v) :: m => Forall_cons_2 _ (k, v) _ (dyn_ind' v) (go m) end) m)
  | DTime t j => Htime t j
  end.
End dyn_ind.

(** What [normalizeValue] gives: no structs, pointers or other types, and distinct keys. *)
Fixpoint normal (v : dyn) : Prop :=
  match v with
  | DArray l => (fix go l := match l with [] => True | v :: l => normal v /\ go l end) l
  | DMap m => NoDup m.*1 /\ (fix go m := match m with [] => True | (_, v) :: m => normal v /\ go m end) m
  | DSlice _ _ | DStruct _ _ | DPtr _ _ | DAnyMap _ | DTime _ _ => False
  | _ => True
  end.

Lemma normal_array l : normal (DArray l) <-> Forall normal l.
Proof. induction l as [|v l IH]; [by split|]. rewrite Forall_cons, <- IH. done. Qed.

Lemma normal_map m : normal (DMap m) <-> NoDup m.*1 /\ Forall (fun kv => normal kv.2) m.
Proof.
  cbn [normal]. apply and_iff_compat_l. induction m as [|[k v] m IH]; [by split|]. by rewrite Forall_cons, <- IH.
Qed.

(** No NaN anywhere: a NaN is not equal to itself. *)
Fixpoint number_valued (v : dyn) : Prop :=
  match v with
  | DFloat64 f => is_nan f = false
  | DArray l => (fix go l := match l with [] => True | v :: l => number_valued v /\ go l end) l
  | DMap m => (fix go m := match m with [] => True | (_, v) :: m => number_valued v /\ go m end) m
  | _ => True
  end.

Lemma number_valued_array l : number_valued (DArray l) <-> Forall number_valued l.
Proof. induction l as [|v l IH]; [by split|]. rewrite Forall_cons, <- IH. done. Qed.

Lemma number_valued_map m : number_valued (DMap m) <-> Forall (fun kv => number_valued kv.2) m.
Proof. induction m as [|[k v] m IH]; [by split|]. by rewrite Forall_cons, <- IH. Qed.

(** ** Maps as lists of bindings *)

Section assoc.
Context {A : Type}.
Implicit Types (m : list (string * A)) (k : string).

Lemma mput_keys k a m : (mput k a m).*1 = if bool_decide (k ∈ m.*1) then m.*1 else m.*1 ++ [k].
Proof.
  induction m as [|[k' a'] m IH]; [done|]. cbn [mput].
  destruct (bool_decide (k = k')) eqn:Hk; bool_facts.
  - subst. rewrite !fmap_cons. cbn [fst]. by rewrite bool_decide_true by (by left).
  - rewrite !fmap_cons, IH. cbn [fst]. destruct (bool_decide (k ∈ m.*1)) eqn:Hin; bool_facts.
    + by rewrite bool_decide_true by (by right).
    + rewrite bool_decide_false; [done|]. by intros [?|?]%elem_of_cons.
Qed.

Lemma mput_NoDup k a m : NoDup m.*1 -> NoDup (mput k a m).*1.
Proof.
  intros Hm. rewrite mput_keys. case_bool_decide as Hk; [done|].
  apply list.NoDup_app. split_and!; [done| |by apply NoDup_singleton].
  by intros x Hx ->%list_elem_of_singleton.
Qed.

Lemma mput_Forall (P : A -> Prop) k a m :
  Forall (fun kv => P kv.2) m -> P a -> Forall (fun kv => P kv.2) (mput k a m).
Proof.
  induction 1 as [|[k' a'] m Hx Hm IH]; intros Ha; cbn [mput]; [by constructor|].
  case_bool_decide; constructor; auto.
Qed.

Lemma mput_fresh k a m : k ∉ m.*1 -> mput k a m = m ++ [(k, a)].
Proof.
  induction m as [|[k' a'] m IH]; [done|]. intros Hk. cbn [mput]. rewrite bool_decide_false.
  - simpl. f_equal. apply IH. intros ?. apply Hk. rewrite fmap_cons. by right.
  - intros ->. apply Hk. rewrite fmap_cons. by left.
Qed.

Lemma mget_mput k k' a m : mget k' (mput k a m) = if bool_decide (k' = k) then Some a else mget k' m.
Proof.
  induction m as [|[k0 a0] m IH]; [done|]. cbn [mput]. destruct (decide (k = k0)) as [->|Hk].
  - rewrite bool_decide_true by done. cbn [mget]. by destruct (bool_decide (k' = k0)).
  - rewrite bool_decide_false by done. cbn [mget]. rewrite IH.
    destruct (decide (k' = k0)) as [->|Hk']; [|by rewrite (bool_decide_false (k' = k0))].
    by rewrite bool_decide_true, bool_decide_false by done.
Qed.

Lemma mget_in k a m : NoDup m.*1 -> (k, a) ∈ m -> mget k m = Some a.
Proof.
  induction m as [|[k' a'] m IH]; intros Hd Hin; [by apply not_elem_of_nil in Hin|].
  apply NoDup_cons in Hd as [Hk Hd]. cbn [mget]. apply elem_of_cons in Hin as [[= -> ->]|Hin]; [by rewrite bool_decide_true|].
  rewrite bool_decide_false; [by apply IH|]. intros <-. apply Hk. apply list_elem_of_fmap. by exists (k, a).
Qed.

Lemma mget_elem k a m : mget k m = Some a -> (k, a) ∈ m.
Proof.
  induction m as [|[k' a'] m IH]; [done|]. cbn [mget]. case_bool_decide; intros; simplify_eq; [by left|right; auto].
Qed.

Lemma mget_perm k m m' : NoDup m.*1 -> m ≡ₚ m' -> mget k m = mget k m'.
Proof.
  intros Hd Hp. assert (NoDup m'.*1) as Hd' by (by rewrite <- Hp).
  destruct (mget k m) as [a|] eqn:E.
  - apply mget_elem in E. symmetry. apply mget_in; [done|]. by rewrite <- Hp.
  - destruct (mget k m') as [a|] eqn:E'; [|done]. apply mget_elem in E'. rewrite <- Hp in E'.
    rewrite (mget_in k a m) in E by done. done.
Qed.
End assoc.

(** ** Normalization *)

(** The maps that [normalizeValue] fills key by key. *)
Definition good_map (m : list (string * dyn)) : Prop := NoDup m.*1 /\ Forall (fun kv => normal kv.2) m.

Lemma normal_good m : good_map m -> normal (DMap m).
Proof. by intros ?%normal_map. Qed.

Lemma good_map_put k v m : good_map m -> normal v -> good_map (mput k v m).
Proof. intros [Hd Hm] Hv. split; [by apply mput_NoDup|by apply mput_Forall]. Qed.

Lemma good_map_field f v m : good_map m -> normal v -> good_map (put_field f v m).
Proof.
  intros Hm Hv. unfold put_field. destruct (negb _); [done|]. cbv zeta.
  destruct (_ || _); [done|by apply good_map_put].
Qed.

Lemma good_map_nil : good_map [].
Proof. split; [apply NoDup_nil_2|done]. Qed.

Lemma put_all_good {K} put (l : list (K * dyn)) :
  (forall k v m, good_map m -> normal v -> good_map (put k v m)) ->
  Forall (fun kv => normal kv.2) l -> good_map (put_all put l).
Proof.
  intros Hput Hl. unfold put_all. generalize good_map_nil. generalize (@nil (string * dyn)).
  induction Hl as [|[k v] l Hv Hl IH]; intros out Hout; [done|]. by apply IH, Hput.
Qed.

Lemma put_all_fresh (l out : list (string * dyn)) :
  NoDup (out ++ l).*1 -> fold_left (fun out kv => mput kv.1 kv.2 out) l out = out ++ l.
Proof.
  revert out. induction l as [|[k v] l IH]; intros out Hd; [by rewrite app_nil_r|]. cbn [fold_left fst snd].
  rewrite mput_fresh.
  - rewrite IH; by rewrite <- (assoc_L (++)).
  - rewrite fmap_app, fmap_cons in Hd. apply list.NoDup_app in Hd as (_ & Hd & _). intros Hk. apply (Hd k Hk). by left.
Qed.

Lemma Forall_map_snd {K} (P : dyn -> Prop) (f : dyn -> dyn) (m : list (K * dyn)) :
  Forall (fun kv => P (f kv.2)) m -> Forall (fun kv => P kv.2) (map (fun '(k, v) => (k, f v)) m).
Proof. induction 1 as [|[k v] m Hv Hm IH]; by constructor. Qed.

Lemma map_snd_id {K} (f : dyn -> dyn) (m : list (K * dyn)) :
  Forall (fun kv => f kv.2 = kv.2) m -> map (fun '(k, v) => (k, f v)) m = m.
Proof. induction 1 as [|[k v] m Hv Hm IH]; [done|]. simpl in *. by rewrite Hv, IH. Qed.

Lemma map_item_id (f : dyn -> dyn) l : Forall (fun v => f v = v) l -> map f l = l.
Proof. induction 1 as [|v l Hv Hl IH]; [done|]. simpl. by rewrite Hv, IH. Qed.

(** What [normalizeValue] gives is normal. *)
Lemma normalize_normal v : normal (normalizeValue v).
Proof.
  induction v as [| | | | | | | | | |l IH|m IH|t l IH|t m IH|t p IH|m IH|t j] using dyn_ind'; try exact I.
  - by apply normal_array, Forall_map.
  - apply normal_good, put_all_good, Forall_map_snd, IH. exact good_map_put.
  - by apply normal_array, Forall_map.
  - apply normal_good, put_all_good, Forall_map_snd, IH. intros k v m'. apply good_map_field.
  - destruct p as [v|]; [exact (IH v eq_refl)|exact I].
  - apply normal_good, put_all_good, Forall_map_snd, IH. intros k v m'. apply good_map_put.
  - apply normal_good, good_map_nil.
Qed.

(** ... and it changes nothing that is. *)
Lemma normalize_id v : normal v -> normalizeValue v = v.
Proof.
  induction v as [| | | | | | | | | |l IH|m IH|t l IH|t m IH|t p IH|m IH|t j] using dyn_ind'; intros Hv; try done;
    cbn [normalizeValue]; f_equal.
  - apply normal_array in Hv. apply map_item_id. eapply List.Forall_impl; [|exact (proj2 (Forall_and _ _) (conj IH Hv))]. by intros a [Ha Hn]; apply Ha.
  - apply normal_map in Hv as [Hd Hn]. rewrite map_snd_id; [by apply (put_all_fresh m [])|].
    eapply List.Forall_impl; [|exact (proj2 (Forall_and _ _) (conj IH Hn))]. by intros a [Ha Hb]; apply Ha.
Qed.

Lemma cloneValue_id v : cloneValue v = v.
Proof.
  induction v as [| | | | | | | | | |l IH|m IH|t l IH|t m IH|t p IH|m IH|t j] using dyn_ind'; try done; cbn [cloneValue]; f_equal.
  - by apply map_item_id.
  - by apply map_snd_id.
Qed.

Lemma cloneStringMap_id m : cloneStringMap m = m.
Proof. unfold cloneStringMap. induction m as [|[k v] m IH]; [done|]. simpl. by rewrite cloneValue_id, IH. Qed.

(** ** Matching without paths *)

Definition holds (expected actual : dyn) : Prop := matchAt "" expected actual = None.

(** The comparison of two bindings' lists, and of two arrays, as [matchAt] does it. *)
Definition keys_hold (exp act : list (string * dyn)) : Prop :=
  Forall (fun kv => exists v, mget kv.1 act = Some v /\ holds kv.2 v) exp.

(** What is compared when the actual value is not bytes that the expected one stands for. *)
Definition compares (expected actual : dyn) : Prop :=
  match expected, actual with
  | DMap exp, DMap act => keys_hold exp act
  | DArray exp, DArray act => Forall2 holds exp act
  | DMap _, _ | DArray _, _ => False
  | DBytes exp, DBytes act => exp = act
  | DBytes _, _ => False
  | _, _ => sameScalar expected actual = true
  end.

Definition matches (expected actual : dyn) : Prop :=
  match actual with
  | DBytes actualBytes =>
      match decodeBytes expected with Ok expectedBytes => expectedBytes = actualBytes | _ => compares expected actual end
  | _ => compares expected actual
  end.

(** Both loops of [matchAt] return nil exactly when every call in them does. *)
Lemma match_keys_None (match_at : string -> dyn -> dyn -> option error) path act exp :
  (fix keys exp := match exp with
   | [] => None
   | (key, value) :: exp =>
       match match_key (fun next => match_at next value) path key act with Some e => Some e | None => keys exp end
   end) exp = None <->
  Forall (fun kv => exists v next, mget kv.1 act = Some v /\ match_at next kv.2 v = None /\
                      next = if bool_decide (path = "") then kv.1 else path +:+ "." +:+ kv.1) exp.
Proof.
  induction exp as [|[k e] exp IH]; [by split|]. rewrite Forall_cons, <- IH. unfold match_key. simpl.
  destruct (mget k act) as [v|] eqn:E; [|by split; [|intros [(? & ? & ? & _) _]; congruence]].
  destruct (match_at _ e v) eqn:Em; split; try done; naive_solver congruence.
Qed.

Lemma match_items_None (match_at : string -> dyn -> dyn -> option error) (P : dyn -> dyn -> Prop) path i exp act :
  Forall (fun e => forall next a, match_at next e a = None <-> P e a) exp -> length exp = length act ->
  (fix items i exp act := match exp, act with
   | e :: exp, a :: act =>
       match match_at (path +:+ "[" +:+ Itoa i +:+ "]") e a with
       | Some e => Some e
       | None => items (i + 1) exp act
       end
   | _, _ => None
   end) i exp act = None <-> Forall2 P exp act.
Proof.
  intros He. revert i act. induction He as [|e exp He Hexp IH]; intros i [|a act] Hl; try done.
  rewrite Forall2_cons, <- (IH (i + 1)) by (simpl in Hl; lia). rewrite <- (He (path +:+ "[" +:+ Itoa i +:+ "]") a).
  destruct (match_at _ e a); naive_solver.
Qed.

Lemma Forall2_length_no {A B} (P : A -> B -> Prop) l k : len l <> len k -> ~ Forall2 P l k.
Proof. intros Hl H%Forall2_length. unfold len in Hl. lia. Qed.

(** [matchAt] finds no mismatch exactly when the two values match; the path only names them. *)
Lemma matchAt_matches path e a : matchAt path e a = None <-> matches e a.
Proof.
  revert path a. induction e as [| | | | | | | | | |l IH|m IH|t l IH|t m IH|t p IH|m IH|t j] using dyn_ind'; intros path a.
  11:{ assert (Forall (fun e => forall next a, matchAt next e a = None <-> holds e a) l) as IH'.
    { eapply List.Forall_impl; [|exact IH]. intros e He next b. unfold holds.
      etransitivity; [apply (He next b)|symmetry; apply (He "" b)]. }
    destruct a; cbn [matchAt matches compares decodeBytes]; try done.
    destruct (len l =? len l0) eqn:El; bool_facts; cbn [negb].
    - apply match_items_None; [done|]. unfold len in El. lia.
    - split; [done|]. by intros ?%Forall2_length_no. }
  11:{ assert (forall act, (fix keys exp := match exp with
         | [] => None
         | (key, value) :: exp =>
             match match_key (fun next => matchAt next value) path key act with Some e => Some e | None => keys exp end
         end) m = None <-> keys_hold m act) as Hk.
    { intros act. rewrite match_keys_None. unfold keys_hold. rewrite !List.Forall_forall. 
      rewrite List.Forall_forall in IH. split; intros H kv Hin; specialize (H kv Hin).
      - destruct H as (v & next & Hv & Hm & _). exists v. split; [done|]. unfold holds. by apply IH, (IH kv Hin next).
      - destruct H as (v & Hv & Hm). exists v, (if bool_decide (path = "") then kv.1 else path +:+ "." +:+ kv.1).
        split_and!; [done| |done]. by apply IH, (IH kv Hin ""). }
    unfold matches. destruct a; cbn [matchAt compares]; try done; try apply Hk.
    destruct (decodeBytes (DMap m)); [case_bool_decide; naive_solver|done..]. }
  all: unfold matches; destruct a; cbn [matchAt compares decodeBytes]; try (case_bool_decide; naive_solver);
    try (match goal with |- context [sameScalar ?x ?y] => destruct (sameScalar x y) end); split; naive_solver.
Qed.

Lemma holds_matches e a : holds e a <-> matches e a.
Proof. apply matchAt_matches. Qed.

(** ** A value matches itself *)

Lemma sameScalar_self v : normal v -> number_valued v ->
  match v with DArray _ | DMap _ | DBytes _ => True | _ => sameScalar v v = true end.
Proof.
  destruct v as [|b| | | | |f|s|t s| | | | | | | |]; intros Hn Hv; try done; cbn [sameScalar DeepEqual numericEqual].
  - by apply eqb_reflx.
  - by apply float64_of_refl.
  - by apply Z.eqb_refl.
  - by apply float64_of_refl.
  - by apply float64_of_refl.
  - by apply SFeqb_refl.
  - by apply bool_decide_eq_true.
  - by rewrite !bool_decide_true.
Qed.

Lemma matches_self v : normal v -> number_valued v -> matches v v.
Proof.
  induction v as [| | | | | | | | | |l IH|m IH|t l IH|t m IH|t p IH|m IH|t j] using dyn_ind'; intros Hn Hv; try done;
    try (exact (sameScalar_self _ Hn Hv)).
  - apply normal_array in Hn. apply number_valued_array in Hv. cbn [matches compares].
    induction IH as [|v l Hx Hl IH]; [constructor|]. apply Forall_cons in Hn as [? ?]. apply Forall_cons in Hv as [? ?].
    constructor; [by apply matchAt_matches, Hx|by apply IH].
  - apply normal_map in Hn as [Hd Hn]. apply number_valued_map in Hv. cbn [matches compares]. unfold keys_hold.
    rewrite List.Forall_forall in *. intros [k v] Hin. exists v.
    split; [apply mget_in; [done|by apply list_elem_of_In]|]. apply matchAt_matches.
    by apply (IH _ Hin); [apply (Hn _ Hin)|apply (Hv _ Hin)].
Qed.

(** ** The order of a map's bindings does not matter *)

(** The same value but for the order in which Go visits the bindings of its maps. *)
Inductive same : dyn -> dyn -> Prop :=
| same_refl v : same v v
| same_array l l' : Forall2 same l l' -> same (DArray l) (DArray l')
| same_map m m' : (forall k, option_Forall2 same (mget k m) (mget k m')) -> same (DMap m) (DMap m').

Lemma leb_trans a b c : String.leb a b = true -> String.leb b c = true -> String.leb a c = true.
Proof.
  unfold String.leb. revert b c. induction a as [|x a IH]; intros [|y b] [|z c]; simpl; try done.
  unfold Ascii.compare. destruct (N.compare_spec (N_of_ascii x) (N_of_ascii y)) as [E1|E1|E1]; try done;
  destruct (N.compare_spec (N_of_ascii y) (N_of_ascii z)) as [E2|E2|E2]; try done;
  destruct (N.compare_spec (N_of_ascii x) (N_of_ascii z)) as [E3|E3|E3]; try done; try lia. apply IH.
Qed.

Definition key_le {A} (a b : string * A) : Prop := String.leb a.1 b.1 = true.

#[export] Instance key_le_trans {A} : Transitive (@key_le A).
Proof. intros a b c. apply leb_trans. Qed.

Section sorting.
Context {A : Type}.
Implicit Types l : list (string * A).

Lemma insert_key_perm a l : insert_key a l ≡ₚ a :: l.
Proof.
  induction l as [|b l IH]; [done|]. cbn [insert_key]. destruct (String.leb _ _); [done|]. rewrite IH. constructor.
Qed.

Lemma sort_keys_perm l : sort_keys l ≡ₚ l.
Proof. induction l as [|a l IH]; [done|]. unfold sort_keys in *. cbn [foldr]. by rewrite insert_key_perm, IH. Qed.

Lemma insert_key_sorted a l : StronglySorted key_le l -> StronglySorted key_le (insert_key a l).
Proof.
  induction 1 as [|b l Hl IH Hb]; cbn [insert_key]; [by repeat constructor|].
  destruct (String.leb a.1 b.1) eqn:E.
  - constructor; [by constructor|]. constructor; [done|]. eapply List.Forall_impl; [|exact Hb]. intros c. by apply (leb_trans a.1 b.1).
  - constructor; [done|]. rewrite insert_key_perm. constructor; [|done].
    destruct (String.leb_total a.1 b.1); [congruence|done].
Qed.

Lemma sort_keys_sorted l : StronglySorted key_le (sort_keys l).
Proof. induction l as [|a l IH]; [constructor|]. by apply insert_key_sorted. Qed.

(** Sorting distinct keys forgets their order. *)
Lemma sort_keys_perm_eq l l' : NoDup l.*1 -> l ≡ₚ l' -> sort_keys l = sort_keys l'.
Proof.
  intros Hd Hp. apply (StronglySorted_unique_strong key_le).
  - intros [k1 a1] [k2 a2]. rewrite !sort_keys_perm, <- Hp. intros H1 H2 H12 H21. unfold key_le in *. simpl in *.
    assert (k1 = k2) as -> by (by apply String.leb_antisym).
    apply mget_in in H1, H2; congruence.
  - apply sort_keys_sorted.
  - apply sort_keys_sorted.
  - by rewrite !sort_keys_perm.
Qed.
End sorting.

(** *** Lookups decide *)

Lemma mget_None {A} k (m : list (string * A)) : mget k m = None <-> k ∉ m.*1.
Proof.
  induction m as [|[k' a] m IH]; [by split; [intros _ ?%not_elem_of_nil|]|]. cbn [mget]. rewrite fmap_cons, not_elem_of_cons. cbn [fst].
  destruct (bool_decide (k = k')) eqn:E; bool_facts; naive_solver.
Qed.

Lemma mget_perm_of {A} (l l' : list (string * A)) :
  NoDup l.*1 -> NoDup l'.*1 -> (forall k, mget k l = mget k l') -> l ≡ₚ l'.
Proof.
  intros Hd Hd' H. apply NoDup_Permutation; [by eapply NoDup_fmap_1|by eapply NoDup_fmap_1|].
  intros [k a]. split; intros Hin; apply mget_elem; [rewrite <- H|rewrite H]; by apply mget_in.
Qed.

(** [mapM] over the values of a map. *)
Lemma mapM_mget {A B} (f : A -> option B) (m : list (string * A)) ts :
  mapM (fun '(k, v) => t ← f v; Some (k, t)) m = Some ts ->
  ts.*1 = m.*1 /\ forall k, mget k ts = (v ← mget k m; f v).
Proof.
  revert ts. induction m as [|[k v] m IH]; intros ts H; simpl in H; [by injection H as <-|].
  destruct (f v) as [t|] eqn:Ef; [|done]. simpl in H. destruct (mapM _ m) as [ts'|] eqn:Em; [|done]. simplify_eq/=.
  injection H as <-. destruct (IH ts' eq_refl) as [Hk Hg]. split; [by rewrite fmap_cons, Hk|]. intros k'. simpl.
  case_bool_decide; [by rewrite <- Ef|]. apply Hg.
Qed.

Lemma mapM_values_some {A B} (f : A -> option B) (m : list (string * A)) :
  NoDup m.*1 -> is_Some (mapM (fun '(k, v) => t ← f v; Some (k, t)) m) <-> forall k v, mget k m = Some v -> is_Some (f v).
Proof.
  intros Hd. rewrite mapM_is_Some. split.
  - intros H k v Hk. apply mget_elem in Hk. eapply Forall_elem in Hk; [|exact H]. simpl in Hk.
    destruct (f v); [done|]. by destruct Hk.
  - intros H. apply List.Forall_forall. intros [k v] Hin%list_elem_of_In. apply mget_in in Hin; [|done].
    simpl. destruct (H k v Hin) as [t Ht]. by rewrite Ht.
Qed.

(** ** The same value in another order *)

Lemma same_get m m' k v : same (DMap m) (DMap m') -> mget k m = Some v -> exists v', mget k m' = Some v' /\ same v v'.
Proof.
  intros H Hk. inversion H as [|?|? ? Hm]; subst; [exists v; split; [done|constructor]|].
  specialize (Hm k). rewrite Hk in Hm. inversion Hm. eauto.
Qed.

Lemma same_get' m m' k v' : same (DMap m) (DMap m') -> mget k m' = Some v' -> exists v, mget k m = Some v /\ same v v'.
Proof.
  intros H Hk. inversion H as [|?|? ? Hm]; subst; [exists v'; split; [done|constructor]|].
  specialize (Hm k). rewrite Hk in Hm. inversion Hm. eauto.
Qed.

Lemma same_items_refl l : Forall2 same l l.
Proof. induction l as [|v l IH]; constructor; [constructor|done]. Qed.

Lemma same_items l l' : same (DArray l) (DArray l') -> Forall2 same l l'.
Proof. intros H. inversion H as [|? ? Hl|]; subst; [apply same_items_refl|done]. Qed.

Lemma normal_get m k v : normal (DMap m) -> mget k m = Some v -> normal v.
Proof. intros [Hd Hn]%normal_map Hk%mget_elem. by eapply Forall_elem in Hk; [|exact Hn]. Qed.

Lemma json_Marshal_same v v' : normal v -> normal v' -> same v v' -> json_Marshal v = json_Marshal v'.
Proof.
  revert v'. induction v as [| | | | | | | | | |l IH|m IH|t l IH|t m IH|t p IH|m IH|t j] using dyn_ind'; intros v' Hn Hn' Hs;
    try done; try (by inversion Hs).
  - destruct v'; try by inversion Hs. apply same_items in Hs. apply normal_array in Hn, Hn'. cbn [json_Marshal].
    assert (mapM json_Marshal l = mapM json_Marshal l0) as ->; [|done].
    clear -IH Hn Hn' Hs. induction Hs as [|v v' l l' Hv Hl IHl]; [done|]. 
    apply Forall_cons in Hn as [? ?], Hn' as [? ?], IH as [Hx IH]. simpl. by rewrite (Hx v'), IHl.
  - destruct v' as [| | | | | | | | | | |m'| | | | |]; try by inversion Hs.
    pose proof Hn as [Hd _]%normal_map. pose proof Hn' as [Hd' _]%normal_map. cbn [json_Marshal].
    assert (forall k v v', mget k m = Some v -> mget k m' = Some v' -> json_Marshal v = json_Marshal v') as Hjson.
    { intros k v v' Hv Hv'. destruct (same_get m m' k v Hs Hv) as (w & Hw & Hsame). simplify_eq.
      pose proof (mget_elem _ _ _ Hv) as Hin. eapply Forall_elem in Hin; [|exact IH].
      apply Hin; [exact (normal_get m k v Hn Hv)|exact (normal_get m' k v' Hn' Hv')|done]. }
    set (F := fun '(k, v) => t ← json_Marshal v; Some (k, t)).
    assert (forall ts ts', mapM F m = Some ts -> mapM F m' = Some ts' -> sort_keys ts = sort_keys ts') as Hsort.
    { intros ts ts' [Hk Hg]%mapM_mget [Hk' Hg']%mapM_mget. apply sort_keys_perm_eq; [by rewrite Hk|].
      apply mget_perm_of; [by rewrite Hk|by rewrite Hk'|]. intros k. rewrite Hg, Hg'.
      destruct (mget k m) as [v|] eqn:E; [destruct (same_get _ _ _ _ Hs E) as (v' & E' & _); rewrite E'; by eapply Hjson|].
      destruct (mget k m') as [v'|] eqn:E'; [|done]. destruct (same_get' _ _ _ _ Hs E') as (v & Ev & _). congruence. }
    assert (is_Some (mapM F m) <-> is_Some (mapM F m')) as Hsome.
    { unfold F. rewrite !mapM_values_some by done. split; intros H k w Hw.
      - destruct (same_get' _ _ _ _ Hs Hw) as (v & Hv & _). rewrite <- (Hjson k v w) by done. by eapply H.
      - destruct (same_get _ _ _ _ Hs Hw) as (v & Hv & _). rewrite (Hjson k w v) by done. by eapply H. }
    destruct (mapM F m) as [ts|]; destruct (mapM F m') as [ts'|]; simpl.
    + by rewrite (Hsort ts ts').
    + by destruct (proj1 Hsome (mk_is_Some _ _ eq_refl)).
    + by destruct (proj2 Hsome (mk_is_Some _ _ eq_refl)).
    + done.
Qed.

(** Two values that are the same are equal unless both are arrays or both are maps. *)
Lemma same_cases v v' : same v v' ->
  v = v' \/ (exists l l', v = DArray l /\ v' = DArray l') \/ (exists m m', v = DMap m /\ v' = DMap m').
Proof. inversion 1; eauto 10. Qed.

Definition decoded (v : dyn) : option bytes := match decodeBytes v with Ok b => Some b | _ => None end.

Lemma decoded_same e e' : normal e -> normal e' -> same e e' -> decoded e = decoded e'.
Proof.
  intros Hn Hn' Hs. destruct (same_cases e e' Hs) as [->|[(? & ? & -> & ->)|(m & m' & -> & ->)]]; [done..|].
  unfold decoded, decodeBytes, stringField.
  assert (forall k, (exists v v', mget k m = Some v /\ mget k m' = Some v' /\ same v v') \/ (mget k m = None /\ mget k m' = None)) as Hk.
  { intros k. destruct (mget k m) as [v|] eqn:E; [destruct (same_get _ _ _ _ Hs E) as (v' & ? & ?); eauto 10|].
    destruct (mget k m') as [v'|] eqn:E'; [|by right]. destruct (same_get' _ _ _ _ Hs E') as (v & Hv & _). congruence. }
  destruct (Hk "format") as [(f & f' & -> & -> & Hf)|[-> ->]]; [|done].
  destruct (Hk "value") as [(v & v' & Ev & Ev' & Hv)|[-> ->]].
  - rewrite Ev, Ev', (json_Marshal_same v v' (normal_get _ _ _ Hn Ev) (normal_get _ _ _ Hn' Ev') Hv).
    destruct (same_cases f f' Hf) as [<-|[(? & ? & -> & ->)|(? & ? & -> & ->)]]; [|done..].
    destruct (same_cases v v' Hv) as [<-|[(? & ? & -> & ->)|(? & ? & -> & ->)]]; [done|..];
      (destruct (in_field _ _ _); [|done..]); cbn [mbind result_bind]; repeat case_bool_decide; try destruct (json_Marshal _); done.
  - destruct (same_cases f f' Hf) as [<-|[(? & ? & -> & ->)|(? & ? & -> & ->)]]; [|done..].
    by destruct (in_field _ _ _).
Qed.

Lemma same_inv_array l v' : same (DArray l) v' -> exists l', v' = DArray l' /\ Forall2 same l l'.
Proof. intros H. inversion H; subst; eauto using same_items, same_refl. Qed.

Lemma same_inv_map m v' : same (DMap m) v' -> exists m', v' = DMap m' /\ same (DMap m) (DMap m').
Proof. intros H. inversion H; subst; eauto. Qed.

(** What [compares] and [matches] say survives a change of order on both sides. *)
Lemma matches_same e : forall e' a a', normal e -> normal e' -> normal a -> normal a' ->
  same e e' -> same a a' -> matches e a -> matches e' a'.
Proof.
  assert (forall e e' a a', normal e -> normal e' -> same e e' -> same a a' ->
    (compares e a -> compares e' a') -> matches e a -> matches e' a') as Hlift.
  { intros x x' a a' Hn Hn' Hs Ha Hc. pose proof (decoded_same x x' Hn Hn' Hs) as Hd. unfold decoded in Hd. unfold matches.
    destruct (same_cases a a' Ha) as [<-|[(? & ? & -> & ->)|(? & ? & -> & ->)]]; [|done..].
    destruct a; try done. destruct (decodeBytes x), (decodeBytes x'); simplify_eq; done. }
  induction e as [| | | | | | | | | |l IH|m IH|t l IH|t m IH|t p IH|m IH|t j] using dyn_ind'; intros e' a a' Hn Hn' Hna Hna' Hs Ha;
    apply Hlift; try done; clear Hlift; try (inversion Hs; subst; destruct (same_cases a a' Ha) as [<-|[(? & ? & -> & ->)|(? & ? & -> & ->)]]; done).
  - apply same_inv_array in Hs as (l' & -> & Hs). destruct a as [| | | | | | | | | |b| | | | | |]; try done.
    apply same_inv_array in Ha as (b' & -> & Ha). cbn [compares]. apply normal_array in Hn, Hn', Hna, Hna'.
    intros Hm. revert l' b' Hs Ha Hn' Hna'. induction Hm as [|e a l b Hea Hm IHm]; intros l' b' Hs Ha Hn' Hna'.
    + inversion Hs; inversion Ha; subst; constructor.
    + inversion Hs as [|? e' ? l'' He Hl]; inversion Ha as [|? a' ? b'' Hab Hb]; subst.
      apply Forall_cons in Hn as [? ?], Hn' as [? ?], Hna as [? ?], Hna' as [? ?], IH as [Hx IH].
      constructor; [|by apply IHm]. apply holds_matches. eapply Hx; [..|exact He|exact Hab|by apply holds_matches]; done.
  - apply same_inv_map in Hs as (m' & -> & Hs). destruct a as [| | | | | | | | | | |b| | | | |]; try done.
    apply same_inv_map in Ha as (b' & -> & Ha). cbn [compares]. unfold keys_hold. rewrite !List.Forall_forall. rewrite List.Forall_forall in IH.
    pose proof Hn as [Hd _]%normal_map. pose proof Hn' as [Hd' _]%normal_map.
    intros H [k e'] Hin%list_elem_of_In. apply (mget_in _ _ _ Hd') in Hin. destruct (same_get' _ _ _ _ Hs Hin) as (e & He & Hee).
    pose proof (proj1 (list_elem_of_In _ _) (mget_elem _ _ _ He)) as Hin'. destruct (H _ Hin') as (v & Hv & Hev). 
    destruct (same_get _ _ _ _ Ha Hv) as (v' & Hv' & Hvv). exists v'. split; [done|]. apply holds_matches.
    apply (IH (k, e) Hin' e' v v'); [exact (normal_get _ _ _ Hn He)|exact (normal_get _ _ _ Hn' Hin)|
      exact (normal_get _ _ _ Hna Hv)|exact (normal_get _ _ _ Hna' Hv')|exact Hee|exact Hvv|by apply holds_matches].
Qed.

Lemma same_sym v v' : normal v -> same v v' -> same v' v.
Proof.
  revert v'. induction v as [| | | | | | | | | |l IH|m IH|t l IH|t m IH|t p IH|m IH|t j] using dyn_ind'; intros v' Hn Hs;
    try (inversion Hs; subst; apply same_refl).
  - apply same_inv_array in Hs as (l' & -> & Hs). apply normal_array in Hn. constructor.
    induction Hs as [|v v' l l' Hv Hl IHl]; [constructor|]. apply Forall_cons in Hn as [? ?], IH as [Hx IH].
    constructor; [by apply Hx|by apply IHl].
  - apply same_inv_map in Hs as (m' & -> & Hs). constructor. intros k.
    destruct (mget k m) as [v|] eqn:E.
    + destruct (same_get _ _ _ _ Hs E) as (v' & -> & Hv). constructor. pose proof (mget_elem _ _ _ E) as Hin.
      eapply Forall_elem in Hin; [|exact IH]. apply Hin; [by eapply normal_get|done].
    + destruct (mget k m') as [v'|] eqn:E'; [|constructor]. destruct (same_get' _ _ _ _ Hs E') as (v & Hv & _). congruence.
Qed.

(** ** The same value, its maps visited in another order *)

(** What a [range] may make of a value the next time: the bindings of its maps permuted, at any
    depth, under slices, structs and pointers. The fields of a struct keep their order. *)
Inductive reordered : dyn -> dyn -> Prop :=
| re_refl v : reordered v v
| re_array l l' : Forall2 reordered l l' -> reordered (DArray l) (DArray l')
| re_slice ty l l' : Forall2 reordered l l' -> reordered (DSlice ty l) (DSlice ty l')
| re_struct ty m m' :
    Forall2 (fun f f' => f.1 = f'.1 /\ reordered f.2 f'.2) m m' -> reordered (DStruct ty m) (DStruct ty m')
| re_ptr ty v v' : reordered v v' -> reordered (DPtr ty (Some v)) (DPtr ty (Some v'))
| re_map m n m' :
    Forall2 (fun kv kv' => kv.1 = kv'.1 /\ reordered kv.2 kv'.2) m n -> n ≡ₚ m' -> reordered (DMap m) (DMap m')
| re_any m n m' :
    Forall2 (fun kv kv' => kv.1 = kv'.1 /\ reordered kv.2 kv'.2) m n -> n ≡ₚ m' -> reordered (DAnyMap m) (DAnyMap m').

(** The keys of every map are distinct, as printed: a [map[string]any] has no others, a
    [map[any]any] may hold both [1] and ["1"]. *)
Fixpoint keys_apart (v : dyn) : Prop :=
  match v with
  | DArray l | DSlice _ l => (fix go l := match l with [] => True | v :: l => keys_apart v /\ go l end) l
  | DStruct _ m => (fix go m := match m with [] => True | (_, v) :: m => keys_apart v /\ go m end) m
  | DPtr _ (Some v) => keys_apart v
  | DMap m => NoDup m.*1 /\ (fix go m := match m with [] => True | (_, v) :: m => keys_apart v /\ go m end) m
  | DAnyMap m =>
      NoDup (Sprint <$> m.*1) /\ (fix go m := match m with [] => True | (_, v) :: m => keys_apart v /\ go m end) m
  | _ => True
  end.

Lemma keys_apart_items l :
  (fix go l := match l with [] => True | v :: l => keys_apart v /\ go l end) l <-> Forall keys_apart l.
Proof. induction l as [|v l IH]; [by split|]. by rewrite Forall_cons, <- IH. Qed.

Lemma keys_apart_values {K} (m : list (K * dyn)) :
  (fix go m := match m with [] => True | (_, v) :: m => keys_apart v /\ go m end) m <-> Forall (fun kv => keys_apart kv.2) m.
Proof. induction m as [|[k v] m IH]; [by split|]. by rewrite Forall_cons, <- IH. Qed.

(** [same] on the values under equal keys. *)
Notation same_at := (fun kv kv' => kv.1 = kv'.1 /\ same kv.2 kv'.2).

Lemma same_at_get (m n : list (string * dyn)) k :
  Forall2 same_at m n -> option_Forall2 same (mget k m) (mget k n).
Proof.
  induction 1 as [|[k1 v] [k2 w] m n [Hk Hv] Hm IH]; [constructor|]. simpl in Hk, Hv. subst k2. cbn [mget].
  case_bool_decide; [by constructor|done].
Qed.

Lemma binding_keys {K} (R : dyn -> dyn -> Prop) (m n : list (K * dyn)) :
  Forall2 (fun kv kv' => kv.1 = kv'.1 /\ R kv.2 kv'.2) m n -> m.*1 = n.*1.
Proof. induction 1 as [|[k1 v] [k2 w] m n [Hk Hv] Hm IH]; [done|]. rewrite !fmap_cons. simpl in *. by rewrite Hk, IH. Qed.

(** Two maps whose bindings are [same] and come in any order. *)
Lemma same_map_perm (m n m' : list (string * dyn)) :
  NoDup m.*1 -> Forall2 same_at m n -> n ≡ₚ m' -> same (DMap m) (DMap m').
Proof.
  intros Hd Hm Hp. constructor. intros k. rewrite <- (mget_perm k n m'); [by apply same_at_get| |done].
  by rewrite <- (binding_keys _ _ _ Hm).
Qed.

(** The fields of a struct fill the same map. *)
Lemma put_fields_same m n : Forall2 same_at m n -> same (DMap (put_all put_field m)) (DMap (put_all put_field n)).
Proof.
  intros Hm. constructor. unfold put_all.
  assert (forall k, option_Forall2 same (mget k (@nil (string * dyn))) (mget k [])) as Hout by constructor.
  revert Hout. generalize (@nil (string * dyn)) at 1 3. generalize (@nil (string * dyn)).
  induction Hm as [|[f v] [f' w] m n [Hf Hv] Hm IH]; intros out out' Hout; [done|]. simpl in Hf, Hv. subst f'.
  cbn [fold_left fst snd]. apply IH. unfold put_field. destruct (negb _); [done|]. cbv zeta. destruct (_ || _); [done|].
  intros k. rewrite !mget_mput. case_bool_decide; [by constructor|done].
Qed.

(** [normalizeValue] keeps the bindings of a map as they come when their keys print apart. *)
Lemma put_all_keys {K} (key : K -> string) (m : list (K * dyn)) :
  NoDup (key <$> m.*1) -> put_all (fun k => mput (key k)) m = (fun kv => (key kv.1, kv.2)) <$> m.
Proof.
  intros Hd. transitivity (put_all mput ((fun kv => (key kv.1, kv.2)) <$> m)).
  - unfold put_all. generalize (@nil (string * dyn)). clear Hd. induction m as [|[k v] m IH]; intros out; [done|]. apply IH.
  - apply (put_all_fresh _ []). simpl. rewrite <- list_fmap_compose. by rewrite <- list_fmap_compose in Hd.
Qed.

Lemma map_values_keys {K} (f : dyn -> dyn) (m : list (K * dyn)) : (map (fun '(k, v) => (k, f v)) m).*1 = m.*1.
Proof. induction m as [|[k v] m IH]; [done|]. cbn [map]. by rewrite !fmap_cons, IH. Qed.

Lemma same_values {K} (m n : list (K * dyn)) :
  Forall (fun kv => keys_apart kv.2 -> forall v, reordered kv.2 v -> same (normalizeValue kv.2) (normalizeValue v)) m ->
  Forall (fun kv => keys_apart kv.2) m ->
  Forall2 (fun kv kv' => kv.1 = kv'.1 /\ reordered kv.2 kv'.2) m n ->
  Forall2 same_at (map (fun '(k, v) => (k, normalizeValue v)) m) (map (fun '(k, v) => (k, normalizeValue v)) n).
Proof.
  intros IH Ha Hm. induction Hm as [|[k v] [k' w] m n [Hk Hv] Hm IHm]; [constructor|].
  apply Forall_cons in IH as [Hx IH], Ha as [? Ha]. constructor; [|by apply IHm]. split; [done|]. by apply Hx.
Qed.

Lemma same_normalized l n :
  Forall (fun v => keys_apart v -> forall v', reordered v v' -> same (normalizeValue v) (normalizeValue v')) l ->
  Forall keys_apart l -> Forall2 reordered l n -> same (DArray (map normalizeValue l)) (DArray (map normalizeValue n)).
Proof.
  intros IH Ha Hm. constructor. induction Hm as [|v w m n Hv Hm IHm]; [constructor|].
  apply Forall_cons in IH as [Hx IH], Ha as [? Ha]. constructor; [|by apply IHm]. by apply Hx.
Qed.

Lemma reordered_normalize v : keys_apart v -> forall v', reordered v v' -> same (normalizeValue v) (normalizeValue v').
Proof.
  induction v as [| | | | | | | | | |l IH|m IH|t l IH|t m IH|t p IH|m IH|t j] using dyn_ind'; intros Ha v' Hr;
    try (inversion Hr; subst; apply same_refl).
  - inversion Hr as [|? n Hl| | | | |]; subst; [apply same_refl|]. apply same_normalized; [done|by apply keys_apart_items|done].
  - inversion Hr as [| | | | |? n m' Hm Hp|]; subst; [apply same_refl|]. destruct Ha as [Hd Ha%keys_apart_values].
    pose proof (same_values _ _ IH Ha Hm) as Hs. pose proof (binding_keys _ _ _ Hm) as Hk. cbn [normalizeValue]. unfold put_all.
    rewrite (put_all_fresh _ []) by (rewrite app_nil_l, map_values_keys; exact Hd).
    rewrite (put_all_fresh _ []).
    + rewrite !app_nil_l. eapply same_map_perm; [by rewrite map_values_keys|exact Hs|by rewrite Hp].
    + rewrite app_nil_l, map_values_keys, <- Hp. by rewrite <- Hk.
  - inversion Hr as [| |? ? n Hl| | | |]; subst; [apply same_refl|]. apply same_normalized; [done|by apply keys_apart_items|done].
  - inversion Hr as [| | |? ? n Hm| | |]; subst; [apply same_refl|]. apply put_fields_same, same_values; [done|by apply keys_apart_values|done].
  - inversion Hr as [| | | |? ? w Hv| |]; subst; [apply same_refl|]. exact (IH v eq_refl Ha w Hv).
  - inversion Hr as [| | | | | |? n m' Hm Hp]; subst; [apply same_refl|]. destruct Ha as [Hd Ha%keys_apart_values].
    pose proof (same_values _ _ IH Ha Hm) as Hs. cbn [normalizeValue].
    pose proof (binding_keys _ _ _ Hm) as Hk.
    rewrite !put_all_keys by (rewrite map_values_keys; try rewrite <- Hp, <- Hk; exact Hd).
    eapply same_map_perm; [| |by rewrite <- Hp].
    + rewrite <- list_fmap_compose. rewrite <- (map_values_keys normalizeValue m), <- list_fmap_compose in Hd. exact Hd.
    + clear -Hs. induction Hs as [|[k v] [k' w] ? ? [Hk Hv] Hs IHs]; [constructor|]. simpl in Hk, Hv. subst k'. by constructor.
Qed.

(** An expectation whose two keys print alike, and what the server sent. *)
Definition demo_colliding (order : bool) : dyn :=
  let l := [(DInt 1, DString "x"); (DString "1", DString "y")] in DAnyMap (if order then l else reverse l).
Definition demo_one : dyn := DMap [("1", DString "y")].

(** C30: demo_match_order. Go visits the bindings of a map in a random order. When no map of the
    expectation or of the actual value has two keys that print alike ([keys_apart]), whether the
    expectation holds does not depend on that order, on neither side and at no depth, under
    structs, slices and pointers and through the JSON a body is compared with as well; and a
    value without a NaN matches itself, in whatever order each side is visited. Keys that print
    alike do break it: [normalizeValue] keeps the binding it visits last of [1] and ["1"], so
    the same expectation holds in one order and fails in the other. *)
Theorem demo_match_order :
  (forall e e' a a', keys_apart e -> keys_apart a -> reordered e e' -> reordered a a' ->
    (matchSubset e a = None <-> matchSubset e' a' = None) /\
    (number_valued (normalizeValue a) -> matchSubset a a' = None)) /\
  reordered (demo_colliding true) (demo_colliding false) /\
  matchSubset (demo_colliding true) demo_one = None /\ matchSubset (demo_colliding false) demo_one <> None.
Proof.
  split.
  - intros e e' a a' Hke Hka He Ha. apply (reordered_normalize _ Hke) in He. apply (reordered_normalize _ Hka) in Ha.
    pose proof normalize_normal as Hn. unfold matchSubset. rewrite !matchAt_matches. split.
    + split; apply matches_same; auto using same_sym.
    + intros Hnum. eapply (matches_same (normalizeValue a)); [..|by apply matches_self]; auto using same_refl.
  - split; [|by split; vm_compute]. eapply re_any; [|apply Permutation_swap]. repeat constructor.
Qed.

Definition demo_expected (order : bool) : dyn :=
  let l := [("format", DString "json"); ("value", DMap (if order then [("a", DInt 1); ("b", DNil)] else [("b", DNil); ("a", DInt 1)]))] in
  DMap [("body", DMap (if order then l else reverse l))].
Definition demo_actual : dyn :=
  DStruct "turntf.Message" [(mkStructField "Body" "body,omitempty" true, DBytes (str "{" ++ quote (str "a") ++ str ":1," ++ quote (str "b") ++ str ":null}"))].

(** A map with the keys [1] and [2], as yaml.v3 decodes it, in a list. *)
Definition demo_numbered (order : bool) : dyn :=
  let l := [(DInt 1, DFloat64 (float64_of 7)); (DInt 2, DBool true)] in
  DArray [DNil; DAnyMap (if order then l else reverse l)].

Lemma demo_expected_reordered : reordered (demo_expected true) (demo_expected false).
Proof.
  eapply re_map; [|done]. constructor; [|constructor]. split; [done|]. simpl.
  eapply re_map; [|apply Permutation_swap]. constructor; [by split; [|constructor]|]. constructor; [|constructor]. split; [done|].
  eapply re_map; [|apply Permutation_swap]. repeat constructor.
Qed.

Lemma demo_numbered_reordered : reordered (demo_numbered true) (demo_numbered false).
Proof.
  constructor. constructor; [constructor|]. constructor; [|constructor]. eapply re_any; [|apply Permutation_swap]. repeat constructor.
Qed.

Lemma demo_match_order_witness :
  matchSubset (demo_expected true) demo_actual = None /\ matchSubset (demo_expected false) demo_actual = None /\
  matchSubset (demo_numbered true) (demo_numbered false) = None.
Proof.
  pose proof (proj1 demo_match_order) as H.
  assert (keys_apart (demo_expected true)) as He by (cbn; repeat first [exact I | refine (conj _ _) | refine (bool_decide_unpack _ _)]).
  assert (keys_apart (demo_numbered true)) as Hn by (cbn; repeat first [exact I | refine (conj _ _) | refine (bool_decide_unpack _ _)]).
  split; [vm_compute; reflexivity|]. split.
  - refine (proj1 (proj1 (H (demo_expected true) (demo_expected false) demo_actual demo_actual He (conj I I)
                            demo_expected_reordered (re_refl _))) _).
    vm_compute. reflexivity.
  - refine (proj2 (H (demo_numbered true) (demo_numbered true) (demo_numbered true) (demo_numbered false) Hn Hn
                     (re_refl _) demo_numbered_reordered) _).
    vm_compute. auto.
Defined.
