(* ===== verification/DemoSchema.v ===== *)
(** * Scenarios of the demo runner (demo/schema.go)

    The structs of a scenario and everything [Parse] does with one after yaml.v3 has decoded it:
    the defaults and the validation. A Go map is a list of bindings, visited in its order. The
    decoder itself is an argument; what it calls ([UnmarshalYAML]) is defined here. *)

From Stdlib Require Import Strings.Byte.
From stdpp Require Import base list strings.
From S2P Require Import Prelude Errors Types Text Encoding Float64 Password DemoValue DemoMatch.

Definition Version : string := "v1alpha1".

Definition validActions : list string :=
  ["send_message"; "send_packet"; "ping"; "create_user"; "get_user"; "update_user"; "delete_user"; "list_messages";
   "subscribe_channel"; "unsubscribe_channel"; "list_subscriptions"; "block_user"; "unblock_user"; "list_blocked_users";
   "list_events"; "operations_status"; "metrics"; "list_cluster_nodes"; "list_node_logged_in_users";
   "resolve_user_sessions"].

Definition validEvents : list string := ["message_pushed"; "packet_pushed"; "error"; "disconnect"].

(** ** Data; a duration is its nanoseconds *)

Record NodeConfig : Type := mkNodeConfig { nc_BaseURL : string }.
Record CursorRef : Type := mkCursorRef { cref_NodeID : Z; cref_Seq : Z }.
Record UserCredential : Type := mkUserCredential {
  uc_NodeID : Z; uc_UserID : Z; uc_LoginName : string; uc_Password : PasswordInput }.
Record SessionSpec : Type := mkSessionSpec {
  sp_Node : string; sp_User : UserCredential; sp_SeenMessages : list CursorRef }.
Record Defaults : Type := mkDefaults { df_Timeout : Z; df_IdleTimeout : Z; df_AutoAckMessages : option bool }.
Record ErrorExpectation : Type := mkErrorExpectation { ee_Code : string; ee_Message : string }.
Record Expectation : Type := mkExpectation {
  ex_Login : list (string * dyn);
  ex_OK : list (string * dyn);
  ex_Error : option ErrorExpectation;
  ex_Disconnect : string;
}.

(** A nil map is told from an empty one only for [Request]. *)
Inductive Step : Type := mkStep {
  st_Step : string;
  st_Name : string;
  st_Session : string;
  st_Action : string;
  st_Request : option (list (string * dyn));
  st_Expect : option Expectation;
  st_Event : string;
  st_Match : list (string * dyn);
  st_Save : list (string * string);
  st_Timeout : Z;
  st_Duration : Z;
  st_Branches : list (string * list Step);       (* [Branch]: its name and its script *)
}.

Record Scenario : Type := mkScenario {
  sc_Version : string;
  sc_Name : string;
  sc_Description : string;
  sc_Defaults : Defaults;
  sc_Vars : list (string * dyn);
  sc_Nodes : list (string * NodeConfig);
  sc_Sessions : list (string * SessionSpec);
  sc_Script : list Step;
}.

(** ** What the decoder calls *)

(** [(d *Duration) UnmarshalYAML(node)]: [raw] is [node.Decode(&raw)]; a nil node leaves [d]. *)
Definition Duration_UnmarshalYAML `{Platform} (node : option (result error string)) (d : Z) : result error Z :=
  match node with
  | None => Ok d
  | Some decoded =>
      raw ← decoded;
      if bool_decide (TrimSpace_string raw = "") then Ok 0
      else match ParseDuration (str raw) with
           | Some value => Ok value
           | None => Err (Wrapf "invalid duration %q: %w" [FStr raw] (errors_New "time: invalid duration"))
           end
  end.

Section decoder.
Context `{Platform} (GenerateFromPassword : string -> Z -> result error string).

(** [(p *PasswordValue) UnmarshalYAML(node)]: the decoded source and value. *)
Definition PasswordValue_UnmarshalYAML (node : result error (string * string)) : result error PasswordInput :=
  '(source, value) ← node;
  if bool_decide (source = "plain") then PlainPassword GenerateFromPassword value
  else if bool_decide (source = "hashed") then
    let password := HashedPassword value in
    match PasswordInput_Validate password with Some err => Err err | None => Ok password end
  else Err (errors_New "password.source must be plain or hashed").
End decoder.

(** ** Defaults and validation *)

Definition Millisecond : Z := 1000000.

(** A nil [Vars] is already the empty list. *)
Definition applyDefaults (s : Scenario) : Scenario :=
  let d := sc_Defaults s in
  mkScenario (sc_Version s) (sc_Name s) (sc_Description s)
    (mkDefaults (if df_Timeout d <=? 0 then 5 * 1000 * Millisecond else df_Timeout d)
                (if df_IdleTimeout d <=? 0 then 500 * Millisecond else df_IdleTimeout d)
                (match df_AutoAckMessages d with None => Some true | v => v end))
    (sc_Vars s) (sc_Nodes s) (sc_Sessions s) (sc_Script s).

Definition blank (s : string) : bool := bool_decide (TrimSpace_string s = "").

(** The first error of a loop over a slice with its index, or over a map. *)
Fixpoint first_error {A} (f : Z -> A -> option error) (i : Z) (l : list A) : option error :=
  match l with
  | [] => None
  | a :: l => match f i a with Some e => Some e | None => first_error f (i + 1) l end
  end.

(** [if cond { return fmt.Errorf(...) }] *)
Definition fail_if (c : bool) (e : error) (rest : option error) : option error := if c then Some e else rest.
Notation "'return_if' c 'with' e ; rest" := (fail_if c e rest) (at level 200, rest at level 200) : go_scope.

Definition validateNode (name : string) (node : NodeConfig) : option error :=
  return_if blank name with errors_New "nodes contains an empty key";
  return_if blank (nc_BaseURL node) with Errorf "nodes.%s.base_url is required" [FStr name];
  None.

Definition validateSession (nodes : list (string * NodeConfig)) (name : string) (session : SessionSpec) : option error :=
  let user := sp_User session in
  let hasIDSelector := negb (uc_NodeID user =? 0) || negb (uc_UserID user =? 0) in
  let hasLoginNameSelector := negb (bool_decide (TrimSpace_string (uc_LoginName user) = "")) in
  return_if blank name with errors_New "sessions contains an empty key";
  return_if negb (bool_decide (is_Some (mget (sp_Node session) nodes)))
    with Errorf "sessions.%s.node references unknown node %q" [FStr name; FStr (sp_Node session)];
  return_if Bool.eqb hasIDSelector hasLoginNameSelector
    with Errorf "sessions.%s.user requires exactly one of (node_id,user_id) or login_name, plus password" [FStr name];
  return_if hasIDSelector && ((uc_NodeID user =? 0) || (uc_UserID user =? 0))
    with Errorf "sessions.%s.user requires both node_id and user_id when using ID login" [FStr name];
  match PasswordInput_Validate (uc_Password user) with
  | Some err => Some (Wrapf "sessions.%s.user.password: %w" [FStr name] err)
  | None =>
      first_error (fun i cursor =>
        return_if (cref_NodeID cursor =? 0) || (cref_Seq cursor =? 0)
          with Errorf "sessions.%s.seen_messages[%d] requires node_id and seq" [FStr name; FInt i]; None)
        0 (sp_SeenMessages session)
  end.

Definition requireSession (s : Scenario) (path session : string) : option error :=
  return_if blank session with Errorf "%s.session is required" [FStr path];
  return_if negb (bool_decide (is_Some (mget session (sc_Sessions s))))
    with Errorf "%s.session references unknown session %q" [FStr path; FStr session];
  None.

(** [fmt.Sprintf("%s.branches[%d].script[%d]", path, i, j)] and [fmt.Sprintf("script[%d]", i)] *)
Definition branch_path (path : string) (i j : Z) : string :=
  path +:+ ".branches[" +:+ Itoa i +:+ "].script[" +:+ Itoa j +:+ "]".
Definition script_path (i : Z) : string := "script[" +:+ Itoa i +:+ "]".

(** The names of the barriers of a script, in order. *)
Definition barrier_names (script : list Step) : list string :=
  omap (fun st => if bool_decide (st_Step st = "barrier") then Some (st_Name st) else None) script.

(** The barriers of one branch: none twice; each counts once in [required]. *)
Fixpoint branch_barriers (path branch : string) (seen names : list string) (required : list (string * Z))
    : result error (list (string * Z)) :=
  match names with
  | [] => Ok required
  | name :: names =>
      if bool_decide (name ∈ seen)
      then Err (Errorf "%s branch %q repeats barrier %q" [FStr path; FStr branch; FStr name])
      else branch_barriers path branch (name :: seen) names (mput name (default 0 (mget name required) + 1) required)
  end.

Definition validateParallelBarriers (path : string) (branches : list (string * list Step)) : option error :=
  let required := fold_left (fun required b =>
      required ← required; branch_barriers path b.1 [] (barrier_names b.2) required) branches (Ok []) in
  match required with
  | Err err => Some err
  | Ok required =>
      first_error (fun _ nc =>
        return_if negb (nc.2 =? len branches)
          with Errorf "%s barrier %q is not present in every branch" [FStr path; FStr nc.1]; None) 0 required
  | Panic => None
  end.

Definition validateSave (path : string) (save : list (string * string)) : option error :=
  first_error (fun _ ne =>
    return_if negb (validVarName ne.1) with Errorf "%s.save contains invalid variable name %q" [FStr path; FStr ne.1];
    return_if blank ne.2 with Errorf "%s.save.%s is required" [FStr path; FStr ne.1];
    None) 0 save.

(** What [validateStep] asks of a step that is not [parallel]. *)
Definition validateLeaf (s : Scenario) (step : Step) (path : string) (inParallel : bool) : option error :=
  let kind := st_Step step in
  if bool_decide (kind = "connect") then
    match requireSession s path (st_Session step) with
    | Some err => Some err
    | None =>
        return_if (match st_Expect step with Some e => len (ex_Login e) =? 0 | None => true end)
          with Errorf "%s.expect.login is required" [FStr path]; None
    end
  else if bool_decide (kind = "request") then
    match requireSession s path (st_Session step) with
    | Some err => Some err
    | None =>
        return_if negb (bool_decide (st_Action step ∈ validActions)) with Errorf "%s.action must be one of %v" [FStr path];
        return_if (match st_Request step with None => true | Some _ => false end) with Errorf "%s.request is required" [FStr path];
        match st_Expect step with
        | None => Some (Errorf "%s.expect is required" [FStr path])
        | Some e =>
            let hasOK := 0 <? len (ex_OK e) in
            let hasError := bool_decide (is_Some (ex_Error e)) in
            return_if Bool.eqb hasOK hasError with Errorf "%s.expect must contain exactly one of ok or error" [FStr path]; None
        end
    end
  else if bool_decide (kind = "expect_event") then
    match requireSession s path (st_Session step) with
    | Some err => Some err
    | None =>
        return_if negb (bool_decide (st_Event step ∈ validEvents)) with Errorf "%s.event must be one of %v" [FStr path];
        return_if len (st_Match step) =? 0 with Errorf "%s.match is required" [FStr path];
        None
    end
  else if bool_decide (kind = "sleep") then
    return_if st_Duration step <=? 0 with Errorf "%s.duration must be > 0" [FStr path]; None
  else if bool_decide (kind = "close") then requireSession s path (st_Session step)
  else if bool_decide (kind = "barrier") then
    return_if negb inParallel with Errorf "%s.barrier can only be used inside parallel branches" [FStr path];
    return_if blank (st_Name step) with Errorf "%s.name is required" [FStr path];
    None
  else Some (Errorf "%s.step %q is unsupported" [FStr path; FStr kind]).

(** The loop over the steps of branch [i], and the one over the branches. *)
Definition validateScript (validate : Step -> string -> bool -> option error) (path : string) (i : Z) :=
  fix steps (j : Z) (script : list Step) : option error :=
    match script with
    | [] => None
    | st :: script =>
        match validate st (branch_path path i j) true with
        | Some err => Some err
        | None => steps (j + 1) script
        end
    end.

Definition validateBranches (validate : Step -> string -> bool -> option error) (path : string) :=
  fix go (i : Z) (seen : list string) (branches : list (string * list Step)) : option error :=
    match branches with
    | [] => None
    | (name, script) :: branches =>
        return_if blank name with Errorf "%s.branches[%d].name is required" [FStr path; FInt i];
        return_if bool_decide (name ∈ seen) with Errorf "%s.branches contains duplicate name %q" [FStr path; FStr name];
        return_if len script =? 0 with Errorf "%s.branches[%d].script is required" [FStr path; FInt i];
        match validateScript validate path i 0 script with
        | Some err => Some err
        | None => go (i + 1) (name :: seen) branches
        end
    end.

(** [validateStep] *)
Fixpoint validateStep (s : Scenario) (step : Step) (path : string) (inParallel : bool) {struct step} : option error :=
  let body :=
    if bool_decide (st_Step step = "parallel") then
      return_if len (st_Branches step) <? 2 with Errorf "%s.branches must contain at least 2 branches" [FStr path];
      match validateBranches (validateStep s) path 0 [] (st_Branches step) with
      | Some err => Some err
      | None => validateParallelBarriers path (st_Branches step)
      end
    else validateLeaf s step path inParallel in
  match body with Some err => Some err | None => validateSave path (st_Save step) end.

(** [(s *Scenario) Validate() error] *)
Definition Validate (s : Scenario) : option error :=
  return_if negb (bool_decide (sc_Version s = Version)) with Errorf "version must be %q" [FStr Version];
  return_if blank (sc_Name s) with errors_New "name is required";
  return_if len (sc_Nodes s) =? 0 with errors_New "nodes is required";
  match first_error (fun _ nn => validateNode nn.1 nn.2) 0 (sc_Nodes s) with
  | Some err => Some err
  | None =>
      return_if len (sc_Sessions s) =? 0 with errors_New "sessions is required";
      match first_error (fun _ ns => validateSession (sc_Nodes s) ns.1 ns.2) 0 (sc_Sessions s) with
      | Some err => Some err
      | None =>
          return_if len (sc_Script s) =? 0 with errors_New "script is required";
          first_error (fun i step => validateStep s step (script_path i) false) 0 (sc_Script s)
      end
  end.

(** [Parse(data)]: [Decode] is yaml.v3's strict decoder. *)
Definition Parse (Decode : bytes -> result error Scenario) (data : bytes) : result error Scenario :=
  scenario ← Decode data;
  let scenario := applyDefaults scenario in
  match Validate scenario with Some err => Err err | None => Ok scenario end.
