(* ===== verification/DemoReflect.v ===== *)
(** * The SDK's structs as reflection shows them (types.go, as demo/runtime.go uses it)

    [reflect_...] is the struct a reply or an event carries, with its field names and [json]
    tags, as [reflect.ValueOf] gives it to [normalizeValue]. *)

From stdpp Require Import base list strings.
From S2P Require Import Prelude Errors Types Metadata Password Records DemoValue.

Definition json_field (name tag : string) (v : dyn) : StructField * dyn := (mkStructField name tag true, v).
Definition reflect_slice {A} (ty : string) (f : A -> dyn) (l : list A) : dyn := DSlice ty (map f l).

Definition reflect_UserRef (v : UserRef) : dyn := DStruct "turntf.UserRef" [
    json_field "NodeID" "node_id" (DInt64 (ur_NodeID v));
    json_field "UserID" "user_id" (DInt64 (ur_UserID v))].

Definition reflect_SessionRef (v : SessionRef) : dyn := DStruct "turntf.SessionRef" [
    json_field "ServingNodeID" "serving_node_id" (DInt64 (sr_ServingNodeID v));
    json_field "SessionID" "session_id" (DString (sr_SessionID v))].

Definition reflect_User (v : User) : dyn := DStruct "turntf.User" [
    json_field "NodeID" "node_id" (DInt64 (User_NodeID v));
    json_field "UserID" "user_id" (DInt64 (User_UserID v));
    json_field "Username" "username" (DString (User_Username v));
    json_field "LoginName" "login_name" (DString (User_LoginName v));
    json_field "Role" "role" (DString (User_Role v));
    json_field "ProfileJSON" "profile_json,omitempty" (DBytes (User_ProfileJSON v));
    json_field "SystemReserved" "system_reserved" (DBool (User_SystemReserved v));
    json_field "CreatedAt" "created_at,omitempty" (DString (User_CreatedAt v));
    json_field "UpdatedAt" "updated_at,omitempty" (DString (User_UpdatedAt v));
    json_field "OriginNodeID" "origin_node_id" (DInt64 (User_OriginNodeID v))].

Definition reflect_Message (v : Message) : dyn := DStruct "turntf.Message" [
    json_field "Recipient" "recipient" (reflect_UserRef (m_Recipient v));
    json_field "NodeID" "node_id" (DInt64 (m_NodeID v));
    json_field "Seq" "seq" (DInt64 (m_Seq v));
    json_field "Sender" "sender" (reflect_UserRef (m_Sender v));
    json_field "Body" "body" (DBytes (m_Body v));
    json_field "CreatedAtHLC" "created_at_hlc" (DString (m_CreatedAtHLC v))].

Definition reflect_Packet (v : Packet) : dyn := DStruct "turntf.Packet" [
    json_field "PacketID" "packet_id" (DUint64 (p_PacketID v));
    json_field "SourceNodeID" "source_node_id" (DInt64 (p_SourceNodeID v));
    json_field "TargetNodeID" "target_node_id" (DInt64 (p_TargetNodeID v));
    json_field "Recipient" "recipient" (reflect_UserRef (p_Recipient v));
    json_field "Sender" "sender" (reflect_UserRef (p_Sender v));
    json_field "Body" "body" (DBytes (p_Body v));
    json_field "DeliveryMode" "delivery_mode" (DNamed "turntf.DeliveryMode" (p_DeliveryMode v));
    json_field "TargetSession" "target_session" (reflect_SessionRef (p_TargetSession v))].

Definition reflect_RelayAccepted (v : RelayAccepted) : dyn := DStruct "turntf.RelayAccepted" [
    json_field "PacketID" "packet_id" (DUint64 (ra_PacketID v));
    json_field "SourceNodeID" "source_node_id" (DInt64 (ra_SourceNodeID v));
    json_field "TargetNodeID" "target_node_id" (DInt64 (ra_TargetNodeID v));
    json_field "Recipient" "recipient" (reflect_UserRef (ra_Recipient v));
    json_field "DeliveryMode" "delivery_mode" (DNamed "turntf.DeliveryMode" (ra_DeliveryMode v));
    json_field "TargetSession" "target_session" (reflect_SessionRef (ra_TargetSession v))].

Definition reflect_Subscription (v : Subscription) : dyn := DStruct "turntf.Subscription" [
    json_field "Subscriber" "subscriber" (reflect_UserRef (Subscription_Subscriber v));
    json_field "Channel" "channel" (reflect_UserRef (Subscription_Channel v));
    json_field "SubscribedAt" "subscribed_at,omitempty" (DString (Subscription_SubscribedAt v));
    json_field "DeletedAt" "deleted_at,omitempty" (DString (Subscription_DeletedAt v));
    json_field "OriginNodeID" "origin_node_id" (DInt64 (Subscription_OriginNodeID v))].

Definition reflect_BlacklistEntry (v : BlacklistEntry) : dyn := DStruct "turntf.BlacklistEntry" [
    json_field "Owner" "owner" (reflect_UserRef (BlacklistEntry_Owner v));
    json_field "Blocked" "blocked" (reflect_UserRef (BlacklistEntry_Blocked v));
    json_field "BlockedAt" "blocked_at,omitempty" (DString (BlacklistEntry_BlockedAt v));
    json_field "DeletedAt" "deleted_at,omitempty" (DString (BlacklistEntry_DeletedAt v));
    json_field "OriginNodeID" "origin_node_id" (DInt64 (BlacklistEntry_OriginNodeID v))].

Definition reflect_Event (v : Event) : dyn := DStruct "turntf.Event" [
    json_field "Sequence" "sequence" (DInt64 (Event_Sequence v));
    json_field "EventID" "event_id" (DInt64 (Event_EventID v));
    json_field "EventType" "event_type" (DString (Event_EventType v));
    json_field "Aggregate" "aggregate" (DString (Event_Aggregate v));
    json_field "AggregateNodeID" "aggregate_node_id" (DInt64 (Event_AggregateNodeID v));
    json_field "AggregateID" "aggregate_id" (DInt64 (Event_AggregateID v));
    json_field "HLC" "hlc,omitempty" (DString (Event_HLC v));
    json_field "OriginNodeID" "origin_node_id" (DInt64 (Event_OriginNodeID v));
    json_field "EventJSON" "event_json,omitempty" (DBytes (Event_EventJSON v))].

Definition reflect_ClusterNode (v : ClusterNode) : dyn := DStruct "turntf.ClusterNode" [
    json_field "NodeID" "node_id" (DInt64 (ClusterNode_NodeID v));
    json_field "IsLocal" "is_local" (DBool (ClusterNode_IsLocal v));
    json_field "ConfiguredURL" "configured_url,omitempty" (DString (ClusterNode_ConfiguredURL v));
    json_field "Source" "source,omitempty" (DString (ClusterNode_Source v))].

Definition reflect_LoggedInUser (v : LoggedInUser) : dyn := DStruct "turntf.LoggedInUser" [
    json_field "NodeID" "node_id" (DInt64 (LoggedInUser_NodeID v));
    json_field "UserID" "user_id" (DInt64 (LoggedInUser_UserID v));
    json_field "Username" "username" (DString (LoggedInUser_Username v));
    json_field "LoginName" "login_name" (DString (LoggedInUser_LoginName v))].

Definition reflect_OnlineNodePresence (v : OnlineNodePresence) : dyn := DStruct "turntf.OnlineNodePresence" [
    json_field "ServingNodeID" "serving_node_id" (DInt64 (OnlineNodePresence_ServingNodeID v));
    json_field "SessionCount" "session_count" (DInt32 (OnlineNodePresence_SessionCount v));
    json_field "TransportHint" "transport_hint,omitempty" (DString (OnlineNodePresence_TransportHint v))].

Definition reflect_ResolvedSession (v : ResolvedSession) : dyn := DStruct "turntf.ResolvedSession" [
    json_field "Session" "session" (reflect_SessionRef (ResolvedSession_Session v));
    json_field "Transport" "transport,omitempty" (DString (ResolvedSession_Transport v));
    json_field "TransientCapable" "transient_capable" (DBool (ResolvedSession_TransientCapable v))].

Definition reflect_ResolvedUserSessions (v : ResolvedUserSessions) : dyn := DStruct "turntf.ResolvedUserSessions" [
    json_field "User" "user" (reflect_UserRef (ResolvedUserSessions_User v));
    json_field "Presence" "presence,omitempty" (reflect_slice "[]turntf.OnlineNodePresence" reflect_OnlineNodePresence (ResolvedUserSessions_Presence v));
    json_field "Sessions" "sessions,omitempty" (reflect_slice "[]turntf.ResolvedSession" reflect_ResolvedSession (ResolvedUserSessions_Sessions v))].

Definition reflect_MessageTrimStatus (v : MessageTrimStatus) : dyn := DStruct "turntf.MessageTrimStatus" [
    json_field "TrimmedTotal" "trimmed_total" (DInt64 (MessageTrimStatus_TrimmedTotal v));
    json_field "LastTrimmedAt" "last_trimmed_at,omitempty" (DString (MessageTrimStatus_LastTrimmedAt v))].

Definition reflect_ProjectionStatus (v : ProjectionStatus) : dyn := DStruct "turntf.ProjectionStatus" [
    json_field "PendingTotal" "pending_total" (DInt64 (ProjectionStatus_PendingTotal v));
    json_field "LastFailedAt" "last_failed_at,omitempty" (DString (ProjectionStatus_LastFailedAt v))].

Definition reflect_PeerOriginStatus (v : PeerOriginStatus) : dyn := DStruct "turntf.PeerOriginStatus" [
    json_field "OriginNodeID" "origin_node_id" (DInt64 (PeerOriginStatus_OriginNodeID v));
    json_field "AckedEventID" "acked_event_id" (DInt64 (PeerOriginStatus_AckedEventID v));
    json_field "AppliedEventID" "applied_event_id" (DInt64 (PeerOriginStatus_AppliedEventID v));
    json_field "UnconfirmedEvents" "unconfirmed_events" (DInt64 (PeerOriginStatus_UnconfirmedEvents v));
    json_field "CursorUpdatedAt" "cursor_updated_at,omitempty" (DString (PeerOriginStatus_CursorUpdatedAt v));
    json_field "RemoteLastEventID" "remote_last_event_id" (DUint64 (PeerOriginStatus_RemoteLastEventID v));
    json_field "PendingCatchup" "pending_catchup" (DBool (PeerOriginStatus_PendingCatchup v))].

Definition reflect_PeerStatus (v : PeerStatus) : dyn := DStruct "turntf.PeerStatus" [
    json_field "NodeID" "node_id" (DInt64 (PeerStatus_NodeID v));
    json_field "ConfiguredURL" "configured_url,omitempty" (DString (PeerStatus_ConfiguredURL v));
    json_field "Source" "source,omitempty" (DString (PeerStatus_Source v));
    json_field "DiscoveredURL" "discovered_url,omitempty" (DString (PeerStatus_DiscoveredURL v));
    json_field "DiscoveryState" "discovery_state,omitempty" (DString (PeerStatus_DiscoveryState v));
    json_field "LastDiscoveredAt" "last_discovered_at,omitempty" (DString (PeerStatus_LastDiscoveredAt v));
    json_field "LastConnectedAt" "last_connected_at,omitempty" (DString (PeerStatus_LastConnectedAt v));
    json_field "LastDiscoveryError" "last_discovery_error,omitempty" (DString (PeerStatus_LastDiscoveryError v));
    json_field "Connected" "connected" (DBool (PeerStatus_Connected v));
    json_field "SessionDirection" "session_direction,omitempty" (DString (PeerStatus_SessionDirection v));
    json_field "Origins" "origins,omitempty" (reflect_slice "[]turntf.PeerOriginStatus" reflect_PeerOriginStatus (PeerStatus_Origins v));
    json_field "PendingSnapshotPartitions" "pending_snapshot_partitions" (DInt32 (PeerStatus_PendingSnapshotPartitions v));
    json_field "RemoteSnapshotVersion" "remote_snapshot_version,omitempty" (DString (PeerStatus_RemoteSnapshotVersion v));
    json_field "RemoteMessageWindowSize" "remote_message_window_size" (DInt32 (PeerStatus_RemoteMessageWindowSize v));
    json_field "ClockOffsetMS" "clock_offset_ms" (DInt64 (PeerStatus_ClockOffsetMS v));
    json_field "LastClockSync" "last_clock_sync,omitempty" (DString (PeerStatus_LastClockSync v));
    json_field "SnapshotDigestsSentTotal" "snapshot_digests_sent_total" (DUint64 (PeerStatus_SnapshotDigestsSentTotal v));
    json_field "SnapshotDigestsRecvTotal" "snapshot_digests_received_total" (DUint64 (PeerStatus_SnapshotDigestsRecvTotal v));
    json_field "SnapshotChunksSentTotal" "snapshot_chunks_sent_total" (DUint64 (PeerStatus_SnapshotChunksSentTotal v));
    json_field "SnapshotChunksRecvTotal" "snapshot_chunks_received_total" (DUint64 (PeerStatus_SnapshotChunksRecvTotal v));
    json_field "LastSnapshotDigestAt" "last_snapshot_digest_at,omitempty" (DString (PeerStatus_LastSnapshotDigestAt v));
    json_field "LastSnapshotChunkAt" "last_snapshot_chunk_at,omitempty" (DString (PeerStatus_LastSnapshotChunkAt v))].

Definition reflect_OperationsStatus (v : OperationsStatus) : dyn := DStruct "turntf.OperationsStatus" [
    json_field "NodeID" "node_id" (DInt64 (OperationsStatus_NodeID v));
    json_field "MessageWindowSize" "message_window_size" (DInt32 (OperationsStatus_MessageWindowSize v));
    json_field "LastEventSequence" "last_event_sequence" (DInt64 (OperationsStatus_LastEventSequence v));
    json_field "WriteGateReady" "write_gate_ready" (DBool (OperationsStatus_WriteGateReady v));
    json_field "ConflictTotal" "conflict_total" (DInt64 (OperationsStatus_ConflictTotal v));
    json_field "MessageTrim" "message_trim" (reflect_MessageTrimStatus (OperationsStatus_MessageTrim v));
    json_field "Projection" "projection" (reflect_ProjectionStatus (OperationsStatus_Projection v));
    json_field "Peers" "peers,omitempty" (reflect_slice "[]turntf.PeerStatus" reflect_PeerStatus (OperationsStatus_Peers v))].

Definition reflect_DeleteUserResult (v : DeleteUserResult) : dyn := DStruct "turntf.DeleteUserResult" [
    json_field "Status" "status" (DString (DeleteUserResult_Status v));
    json_field "User" "user" (reflect_UserRef (DeleteUserResult_User v))].
