(* ===== verification/DemoAction.v ===== *)
(** * The actions of the demo runner (callAction and the request parsers of demo/runtime.go)

    A request of a scenario is a map; each action parses it into the arguments of one method of
    the client. [callAction] gives the [call] of that method, with the payload made of its
    result, or the error of the parser. *)

From Stdlib Require Import Strings.Byte.
From stdpp Require Import base list strings.
From S2P Require Import Prelude Errors Types Wire Text Encoding Float64 Metadata Password Records Convert Requests.
From S2P Require Import ClientApi DemoValue DemoMatch DemoSchema DemoReflect.

Abbreviation object := (list (string * dyn)).

Section actions.
Context `{Platform} (GenerateFromPassword : string -> Z -> result error string).

(** ** Parsers *)

(** [raw.(map[string]any)] *)
Definition as_object (e : error) (raw : dyn) : result error object :=
  match raw with DMap m => Ok m | _ => Err e end.

Definition parseUserRefField (values : object) (key : string) : result error UserRef :=
  match mget key values with
  | None => Err (required_error key)
  | Some raw =>
      m ← as_object (Errorf "%s must be an object" [FStr key]) raw;
      nodeID ← in_field "%s.%w" key (int64Field m "node_id" true);
      userID ← in_field "%s.%w" key (int64Field m "user_id" true);
      mret (mkUserRef nodeID userID)
  end.

Definition parseSessionRefField (values : object) (key : string) (required : bool) : result error SessionRef :=
  match mget key values with
  | None => if required then Err (required_error key) else Ok zero_SessionRef
  | Some raw =>
      m ← as_object (Errorf "%s must be an object" [FStr key]) raw;
      servingNodeID ← in_field "%s.%w" key (int64Field m "serving_node_id" true);
      sessionID ← in_field "%s.%w" key (stringField m "session_id" true);
      mret (mkSessionRef servingNodeID sessionID)
  end.

Definition parsePasswordValue (raw : dyn) : result error PasswordInput :=
  value ← as_object (errors_New "must be an object with source and value") raw;
  source ← stringField value "source" true;
  text ← stringField value "value" true;
  if bool_decide (source = "plain") then PlainPassword GenerateFromPassword text
  else if bool_decide (source = "hashed") then
    let input := HashedPassword text in
    match PasswordInput_Validate input with Some err => Err err | None => Ok input end
  else Err (Errorf "unsupported password source %q" [FStr source]).

Definition parseSendMessageInput (values : object) : result error SendMessageInput :=
  target ← parseUserRefField values "target";
  body ← bytesField values "body" true;
  mret (mkSendMessageInput target body).

Definition parseSendPacketInput (values : object) : result error SendPacketInput :=
  target ← parseUserRefField values "target";
  body ← bytesField values "body" true;
  match mget "delivery_mode" values with
  | None => Err (errors_New "delivery_mode is required")
  | Some modeValue =>
      mode ← in_field "%s: %w" "delivery_mode" (stringValue modeValue);
      targetSession ← match mget "target_session" values with
                      | Some _ => parseSessionRefField values "target_session" true
                      | None => Ok zero_SessionRef
                      end;
      mret (mkSendPacketInput target body mode targetSession)
  end.

Definition parseCreateUser (values : object) : result error CreateUserRequest :=
  username ← stringField values "username" true;
  loginName ← stringField values "login_name" false;
  role ← stringField values "role" true;
  profile ← bytesField values "profile_json" false;
  password ← match mget "password" values with
             | Some raw => in_field "%s: %w" "password" (parsePasswordValue raw)
             | None => Ok zero_PasswordInput
             end;
  mret (mkCreateUserRequest username loginName password profile role).

(** [if raw, ok := values[key]; ok { value, err := parse(raw); ...; req.F = &value }] *)
Definition optional {A} (values : object) (key : string) (parse : dyn -> result error A) : result error (option A) :=
  match mget key values with
  | Some raw => value ← in_field "%s: %w" key (parse raw); mret (Some value)
  | None => Ok None
  end.

Definition parseUpdateUser (values : object) : result error (UserRef * UpdateUserRequest) :=
  target ← parseUserRefField values "user";
  username ← optional values "username" stringValue;
  loginName ← optional values "login_name" stringValue;
  password ← optional values "password" parsePasswordValue;
  profile ← optional values "profile_json" decodeBytes;
  role ← optional values "role" stringValue;
  mret (target, mkUpdateUserRequest username loginName password profile role).

Definition parseBlacklistRefs (values : object) : result error (UserRef * UserRef) :=
  owner ← parseUserRefField values "owner";
  blocked ← parseUserRefField values "blocked";
  mret (owner, blocked).

(** ** Actions *)

(** What a successful action gives: the payload that is matched, and the root of [save]. *)
Record reply : Type := mkReply { rp_payload : object; rp_root : object }.
Definition ok_reply (payload : object) : reply := mkReply payload [("ok", DMap payload)].

(** [payload := map[string]any{key: normalizeValue(v)}] *)
Definition reply_field (key : string) (v : dyn) : reply := ok_reply [(key, normalizeValue v)].

(** [normalizeValue(v).(map[string]any)] of a struct: the assertion cannot fail. *)
Definition struct_object (v : dyn) : object := match normalizeValue v with DMap m => m | _ => [] end.

Definition listPayload (items : dyn) : object :=
  let list := match normalizeValue items with DArray l => l | _ => [] end in
  [("items", DArray list); ("count", DInt (len list))].

(** [Client.Ping] as a call; what it does to the transport when the RPC fails is
    [invalidatePingTransport]. *)
Definition Ping : call () :=
  Rpc (fun requestID => pb_ClientEnvelope_Ping (mkpb_Ping requestID)) (fun _ => Ok tt).

Definition callAction (action : string) (request : dyn) : result error (call reply) :=
  let req := match request with DMap m => m | _ => [] end in
  if bool_decide (action = "send_message") then
    input ← parseSendMessageInput req;
    mret (call_map (fun msg => reply_field "message" (reflect_Message msg)) (SendMessage input))
  else if bool_decide (action = "send_packet") then
    input ← parseSendPacketInput req;
    mret (call_map (fun accepted => reply_field "transient_accepted" (reflect_RelayAccepted accepted)) (SendPacket input))
  else if bool_decide (action = "ping") then
    mret (call_map (fun _ => ok_reply [("pong", DMap [])]) Ping)
  else if bool_decide (action = "create_user") then
    r ← parseCreateUser req;
    mret (call_map (fun user => reply_field "user" (reflect_User user)) (CreateUser r))
  else if bool_decide (action = "get_user") then
    target ← parseUserRefField req "user";
    mret (call_map (fun user => reply_field "user" (reflect_User user)) (GetUser target))
  else if bool_decide (action = "update_user") then
    '(target, r) ← parseUpdateUser req;
    mret (call_map (fun user => reply_field "user" (reflect_User user)) (UpdateUser target r))
  else if bool_decide (action = "delete_user") then
    target ← parseUserRefField req "user";
    mret (call_map (fun v => ok_reply (struct_object (reflect_DeleteUserResult v))) (DeleteUser target))
  else if bool_decide (action = "list_messages") then
    target ← parseUserRefField req "user";
    limit ← intField req "limit" false;
    mret (call_map (fun l => ok_reply (listPayload (reflect_slice "[]turntf.Message" reflect_Message l)))
            (WSListMessages target limit))
  else if bool_decide (action = "subscribe_channel") then
    subscriber ← parseUserRefField req "subscriber";
    channel ← parseUserRefField req "channel";
    mret (call_map (fun s => reply_field "subscription" (reflect_Subscription s)) (SubscribeChannel subscriber channel))
  else if bool_decide (action = "unsubscribe_channel") then
    subscriber ← parseUserRefField req "subscriber";
    channel ← parseUserRefField req "channel";
    mret (call_map (fun s => reply_field "subscription" (reflect_Subscription s)) (UnsubscribeChannel subscriber channel))
  else if bool_decide (action = "list_subscriptions") then
    subscriber ← parseUserRefField req "subscriber";
    mret (call_map (fun l => ok_reply (listPayload (reflect_slice "[]turntf.Subscription" reflect_Subscription l)))
            (ListSubscriptions subscriber))
  else if bool_decide (action = "block_user") then
    '(owner, blocked) ← parseBlacklistRefs req;
    mret (call_map (fun e => reply_field "entry" (reflect_BlacklistEntry e)) (BlockUser owner blocked))
  else if bool_decide (action = "unblock_user") then
    '(owner, blocked) ← parseBlacklistRefs req;
    mret (call_map (fun e => reply_field "entry" (reflect_BlacklistEntry e)) (UnblockUser owner blocked))
  else if bool_decide (action = "list_blocked_users") then
    owner ← parseUserRefField req "owner";
    mret (call_map (fun l => ok_reply (listPayload (reflect_slice "[]turntf.BlacklistEntry" reflect_BlacklistEntry l)))
            (ListBlockedUsers owner))
  else if bool_decide (action = "list_events") then
    after ← int64Field req "after" false;
    limit ← intField req "limit" false;
    mret (call_map (fun l => ok_reply (listPayload (reflect_slice "[]turntf.Event" reflect_Event l))) (ListEvents after limit))
  else if bool_decide (action = "operations_status") then
    mret (call_map (fun s => reply_field "status" (reflect_OperationsStatus s)) Client_OperationsStatus)
  else if bool_decide (action = "metrics") then
    mret (call_map (fun text => ok_reply [("text", DString text)]) Metrics)
  else if bool_decide (action = "list_cluster_nodes") then
    mret (call_map (fun l => ok_reply (listPayload (reflect_slice "[]turntf.ClusterNode" reflect_ClusterNode l))) ListClusterNodes)
  else if bool_decide (action = "list_node_logged_in_users") then
    nodeID ← int64Field req "node_id" true;
    mret (call_map (fun l => ok_reply (listPayload (reflect_slice "[]turntf.LoggedInUser" reflect_LoggedInUser l)))
            (ListNodeLoggedInUsers nodeID))
  else if bool_decide (action = "resolve_user_sessions") then
    user ← parseUserRefField req "user";
    mret (call_map (fun r => reply_field "resolved_user_sessions" (reflect_ResolvedUserSessions r)) (ResolveUserSessions user))
  else Err (Errorf "unsupported action %q" [FStr action]).

End actions.
