(* ===== verification/DemoRun.v ===== *)
(** * The demo runner (demo/runtime.go): state and sections

    [Runner] and its sessions, the handler of a client, and each [execute...] as what it does
    while it holds the session's mutex. The goroutines of [executeParallel] are a tree of tasks;
    [task_do] is one section of one of them, and [sys_do] any step of the runner or of what
    surrounds it: a callback of a client, or the end of the caller's context. A log line is not
    an effect here. *)

From Stdlib Require Import Strings.Byte.
From stdpp Require Import base list strings gmap.
From S2P Require Import Prelude Errors Types Wire Text Encoding Float64 Metadata Password Records Convert Requests Store.
From S2P Require Import ClientApi Client DemoValue DemoMatch DemoSchema DemoReflect DemoAction.

(** ** State *)

Record sessionEvent : Type := mkSessionEvent { ev_kind : string; ev_payload : object }.
Record sessionHandler : Type := mkSessionHandler { hd_events : list sessionEvent; hd_login : option LoginInfo }.

(** A client made by [executeConnect], with the handler it was given. *)
Record conn : Type := mkConn { cn_client : Client MemoryCursorStore; cn_handler : sessionHandler }.

(** [client] and [handler] are set together: the number of a [conn]. [ss_locked] is [mu]. *)
Record sessionRuntime : Type := mkSessionRuntime {
  ss_name : string;
  ss_nodeName : string;
  ss_node : NodeConfig;
  ss_spec : SessionSpec;
  ss_store : MemoryCursorStore;
  ss_client : option nat;
  ss_locals : object;
  ss_connected : bool;
  ss_closed : bool;
  ss_locked : bool;
}.

Record Runner : Type := mkRunner {
  rn_scenario : Scenario;
  rn_globals : object;
  rn_sessions : list (string * sessionRuntime);
  rn_conns : list conn;
}.

Definition set_conns (l : list conn) (r : Runner) : Runner := mkRunner (rn_scenario r) (rn_globals r) (rn_sessions r) l.
Definition set_sessions (m : list (string * sessionRuntime)) (r : Runner) : Runner :=
  mkRunner (rn_scenario r) (rn_globals r) m (rn_conns r).
Definition put_session (s : sessionRuntime) (r : Runner) : Runner := set_sessions (mput (ss_name s) s (rn_sessions r)) r.
Definition set_locals (v : object) (s : sessionRuntime) : sessionRuntime :=
  mkSessionRuntime (ss_name s) (ss_nodeName s) (ss_node s) (ss_spec s) (ss_store s) (ss_client s) v (ss_connected s) (ss_closed s) (ss_locked s).
Definition set_locked (v : bool) (s : sessionRuntime) : sessionRuntime :=
  mkSessionRuntime (ss_name s) (ss_nodeName s) (ss_node s) (ss_spec s) (ss_store s) (ss_client s) (ss_locals s) (ss_connected s) (ss_closed s) v.
(** [session.client = client; session.handler = handler; session.connected = true] *)
Definition set_connected (k : nat) (s : sessionRuntime) : sessionRuntime :=
  mkSessionRuntime (ss_name s) (ss_nodeName s) (ss_node s) (ss_spec s) (ss_store s) (Some k) (ss_locals s) true (ss_closed s) (ss_locked s).
(** [session.closed = true; session.connected = false] *)
Definition set_disconnected (s : sessionRuntime) : sessionRuntime :=
  mkSessionRuntime (ss_name s) (ss_nodeName s) (ss_node s) (ss_spec s) (ss_store s) (ss_client s) (ss_locals s) false true (ss_locked s).

(** ** The handler *)

Definition push (kind : string) (payload : object) (h : sessionHandler) : sessionHandler :=
  mkSessionHandler (hd_events h ++ [mkSessionEvent kind payload]) (hd_login h).
Definition OnLogin (info : LoginInfo) (h : sessionHandler) : sessionHandler := mkSessionHandler (hd_events h) (Some info).
Definition OnMessage (msg : Message) (h : sessionHandler) : sessionHandler :=
  push "message_pushed" [("message", normalizeValue (reflect_Message msg))] h.
Definition OnPacket (packet : Packet) (h : sessionHandler) : sessionHandler :=
  push "packet_pushed" [("packet", normalizeValue (reflect_Packet packet))] h.
Definition OnError (err : error) (h : sessionHandler) : sessionHandler :=
  match errors_As_ServerError err with
  | Some serverErr =>
      if se_RequestID serverErr =? 0
      then push "error" [("code", DString (se_Code serverErr)); ("message", DString (se_Message serverErr))] h
      else h
  | None => h
  end.
(** [text] is [err.Error()]. *)
Definition OnDisconnect (text : string) (h : sessionHandler) : sessionHandler :=
  push "disconnect" [("message", DString text)] h.

Inductive callback : Type :=
| CbLogin (info : LoginInfo) | CbMessage (m : Message) | CbPacket (p : Packet) | CbError (e : error) | CbDisconnect (text : string).
Definition call_handler (cb : callback) : sessionHandler -> sessionHandler :=
  match cb with
  | CbLogin info => OnLogin info | CbMessage m => OnMessage m | CbPacket p => OnPacket p
  | CbError e => OnError e | CbDisconnect text => OnDisconnect text
  end.

(** One pass of [waitForEvent] over the events: the first that matches, and the others. *)
Fixpoint take_event (kind : string) (expected : dyn) (events : list sessionEvent) : option (sessionEvent * list sessionEvent) :=
  match events with
  | [] => None
  | event :: events =>
      if bool_decide (ev_kind event = kind) && bool_decide (matchSubset expected (DMap (ev_payload event)) = None)
      then Some (event, events)
      else '(found, rest) ← take_event kind expected events; Some (found, event :: rest)
  end.

Definition set_client (c : Client MemoryCursorStore) (n : conn) : conn := mkConn c (cn_handler n).
Definition set_handler (h : sessionHandler) (n : conn) : conn := mkConn (cn_client n) h.

(** The handler of a client that has been made. *)
Definition handler_of (k : nat) (r : Runner) : sessionHandler :=
  match rn_conns r !! k with Some n => cn_handler n | None => mkSessionHandler [] None end.

(** [client.Close()], which returns nil. *)
Definition close_client (k : nat) (r : Runner) : Runner :=
  set_conns (alter (fun n => set_client (Close (cn_client n)).1 n) k (rn_conns r)) r.

(** ** Variables *)

Definition scopeVars (r : Runner) (s : sessionRuntime) : object :=
  fold_left (fun scope kv => mput kv.1 (cloneValue kv.2) scope) (ss_locals s) (cloneStringMap (rn_globals r)).

Fixpoint saveVars (label : string) (bindings : list (string * string)) (root : object) (s : sessionRuntime)
    : option error * sessionRuntime :=
  match bindings with
  | [] => (None, s)
  | (name, path) :: bindings =>
      match lookupPath (DMap root) path with
      | None => (Some (Errorf "%s: save path %q not found" [FStr label; FStr path]), s)
      | Some value => saveVars label bindings root (set_locals (mput name (cloneValue value) (ss_locals s)) s)
      end
  end.

(** [return r.saveVars(...)] of a session that the call has just changed. *)
Definition save_result (label : string) (step : Step) (root : object) (s : sessionRuntime) (r : Runner) : result error () * Runner :=
  let '(err, s) := saveVars label (st_Save step) root s in
  (match err with Some e => Err e | None => Ok tt end, put_session s r).

(** The barriers of the scope a script runs in: how many branches, and the hits. *)
Abbreviation barrierSet := (Z * list (string * Z))%type.

(** [barrierSet.Wait]: the arrival, and whether the loop goes on waiting. *)
Definition Wait_arrive (name : string) (total : Z) (hits : list (string * Z)) : barrierSet :=
  (total, mput name (default 0 (mget name hits) + 1) hits).
Definition Wait_blocked (name : string) (total : Z) (hits : list (string * Z)) : bool :=
  default 0 (mget name hits) <? total.

(** ** The steps of a session; the caller holds its mutex *)

Section execute.
Context `{Platform} (GenerateFromPassword : string -> Z -> result error string).

(** The configuration of [executeConnect]; an hour is 3600 seconds. *)
Definition connect_config (r : Runner) (s : sessionRuntime) (autoAck : bool) : Config MemoryCursorStore :=
  let u := sp_User (ss_spec s) in
  mkConfig (nc_BaseURL (ss_node s)) (mkCredentials (uc_NodeID u) (uc_UserID u) (uc_LoginName u) (uc_Password u))
    (Some (ss_store s)) (Some (mkHandler false false false))
    false Second Second (3600 * Second) (df_Timeout (sc_Defaults (rn_scenario r)))
    autoAck false false 0.

(** [executeConnect] up to the call of [Connect]: the new client's number. [AutoAckMessages] is
    nil in a scenario that did not come out of [Parse]. *)
Definition connect_start (label : string) (s : sessionRuntime) (r : Runner) : result error (nat * Runner) :=
  if ss_connected s then Err (Errorf "%s: session %q is already connected" [FStr label; FStr (ss_name s)])
  else
    match df_AutoAckMessages (sc_Defaults (rn_scenario r)) with
    | None => Panic
    | Some autoAck =>
        match NewClient NewMemoryCursorStore (connect_config r s autoAck) with
        | Ok client => Ok (length (rn_conns r), set_conns (rn_conns r ++ [mkConn client (mkSessionHandler [] None)]) r)
        | Err err => Err (Wrapf "%s: create client: %w" [FStr label] err)
        | Panic => Panic
        end
    end.

Definition login_object (login : LoginInfo) : object :=
  [("user", normalizeValue (reflect_User (LoginInfo_User login)));
   ("protocol_version", DString (LoginInfo_ProtocolVersion login));
   ("session_ref", normalizeValue (reflect_SessionRef (LoginInfo_SessionRef login)))].

(** ... and from its return on. *)
Definition connect_done (label : string) (step : Step) (k : nat) (err : option error) (s : sessionRuntime) (r : Runner)
    : result error () * Runner :=
  match err with
  | Some e => (Err (Wrapf "%s: connect session %q via %s: %w" [FStr label; FStr (ss_name s); FStr (nc_BaseURL (ss_node s))] e), r)
  | None =>
      match hd_login (handler_of k r) with
      | None => (Err (Errorf "%s: missing login info for session %q" [FStr label; FStr (ss_name s)]), close_client k r)
      | Some login =>
          let actual := login_object login in
          match st_Expect step with
          | None => (Panic, r)
          | Some expect =>
              match matchSubset (resolveValue (DMap (ex_Login expect)) (scopeVars r s)) (DMap actual) with
              | Some e => (Err (Wrapf "%s: login assertion failed: %w" [FStr label] e), close_client k r)
              | None => save_result label step [("login", DMap actual)] (set_connected k s) r
              end
          end
      end
  end.

Definition not_connected (label : string) (s : sessionRuntime) : error :=
  Errorf "%s: session %q is not connected" [FStr label; FStr (ss_name s)].

Definition executeClose (label : string) (s : sessionRuntime) (r : Runner) : result error () * Runner :=
  match ss_connected s, ss_client s with
  | true, Some k =>
      if ss_closed s then (Err (Errorf "%s: session %q already closed" [FStr label; FStr (ss_name s)]), r)
      else (Ok tt, put_session (set_disconnected s) (close_client k r))
  | _, _ => (Err (not_connected label s), r)
  end.

(** [o] is what the RPC returns, if the call gets that far. *)
Definition executeRequest (label : string) (step : Step) (o : requestResult) (s : sessionRuntime) (r : Runner)
    : result error () * Runner :=
  match ss_connected s, ss_client s with
  | true, Some _ =>
      let vars := scopeVars r s in
      let request := resolveValue (DMap (default [] (st_Request step))) vars in
      match (c ← callAction GenerateFromPassword (st_Action step) request; run_call (fun _ => o) c) with
      | Panic => (Panic, r)
      | Err err =>
          match (e ← st_Expect step; ex_Error e), errors_As_ServerError err with
          | Some expect, Some serverErr =>
              let actual := [("code", DString (se_Code serverErr)); ("message", DString (se_Message serverErr))] in
              let expected := resolveValue (DMap [("code", DString (ee_Code expect)); ("message", DString (ee_Message expect))]) vars in
              match matchSubset expected (DMap actual) with
              | Some e => (Err (Wrapf "%s: error assertion failed: %w" [FStr label] e), r)
              | None => save_result label step [("error", DMap actual)] s r
              end
          | _, _ => (Err (Wrapf "%s: request %s failed: %w" [FStr label; FStr (st_Action step)] err), r)
          end
      | Ok rep =>
          match st_Expect step with
          | Some expect =>
              if len (ex_OK expect) =? 0
              then (Err (Errorf "%s: missing success expectation for action %s" [FStr label; FStr (st_Action step)]), r)
              else
                match matchSubset (resolveValue (DMap (ex_OK expect)) vars) (DMap (rp_payload rep)) with
                | Some e => (Err (Wrapf "%s: request assertion failed: %w" [FStr label] e), r)
                | None => save_result label step (rp_root rep) s r
                end
          | None => (Err (Errorf "%s: missing success expectation for action %s" [FStr label; FStr (st_Action step)]), r)
          end
      end
  | _, _ => (Err (not_connected label s), r)
  end.

(** One pass of [executeExpectEvent]'s wait: it ends with the first event that matches; without
    one it goes on waiting ([None]) unless the context has ended with [expired]. *)
Definition executeExpectEvent (label : string) (step : Step) (expired : option error) (s : sessionRuntime) (r : Runner)
    : option (result error () * Runner) :=
  match ss_connected s, ss_client s with
  | true, Some k =>
      let h := handler_of k r in
      match take_event (st_Event step) (resolveValue (DMap (st_Match step)) (scopeVars r s)) (hd_events h) with
      | Some (event, rest) =>
          let r := set_conns (alter (set_handler (mkSessionHandler rest (hd_login h))) k (rn_conns r)) r in
          Some (save_result label step (ev_payload event) s r)
      | None =>
          match expired with
          | Some e => Some (Err (Wrapf "%s: expect %s failed: %w" [FStr label; FStr (st_Event step)] e), r)
          | None => None
          end
      end
  | _, _ => Some (Err (not_connected label s), r)
  end.

(** ** Tasks *)

(** Where a script is in its next step: before it, behind the lock of its session, inside
    [Connect] of client [k], or inside [Wait] of a barrier. *)
Inductive phase : Type := Ready | Locked | Connecting (k : nat) | InBarrier.

(** A script that runs ([i] is the index of its next [step]), one that has reached a [parallel]
    step, one that has returned. Of a [parallel]: the hits of its barriers, the error of its
    context once a branch has cancelled it, and what [errCh] holds. *)
Inductive task : Type :=
| TRun (i : Z) (step : Step) (todo : list Step) (ph : phase)
| TPar (i : Z) (hits : list (string * Z)) (cancelled : option error) (errs : list error)
    (branches : list (string * task)) (todo : list Step)
| TDone (err : option error)
| TCrash.

(** What the goroutine does next, with what the environment decides. *)
Inductive act : Type :=
| AGo                               (* the step begins: [parallel], [barrier] or the lock of the session *)
| AOpen | AConnected (err : option error)
| ARequest (o : requestResult)
| AEvent (expired : bool)
| ASleep (fired : bool)
| AClose
| AArrived                          (* [Wait] looks at the hits *)
| AJoin.                            (* [wg.Wait] returns *)

(** The script goes on behind a step that returned [res]. *)
Definition after (i : Z) (todo : list Step) (res : result error ()) : task :=
  match res with
  | Ok _ => match todo with [] => TDone None | st :: todo => TRun (i + 1) st todo Ready end
  | Err e => TDone (Some e)
  | Panic => TCrash
  end.

Definition new_task (script : list Step) : task :=
  match script with [] => TDone None | st :: todo => TRun 0 st todo Ready end.

(** [<-ctx.Done()] of a wait whose context may also reach its own deadline. *)
Definition ctx_or_deadline (ctx : option error) : error := default (Sentinel DeadlineExceeded) ctx.

(** The body of [executeStep] behind the lock: [inl] is the next phase, [inr] the step's result,
    which gives the lock back. *)
Definition session_do (ctx : option error) (label : string) (step : Step) (ph : phase) (a : act) (s : sessionRuntime) (r : Runner)
    : option ((phase + result error ()) * Runner) :=
  let kind := st_Step step in
  let finish p := Some (inr p.1, p.2) in
  match ph, a with
  | Locked, AOpen =>
      if bool_decide (kind = "connect") then
        match connect_start label s r with
        | Ok (k, r) => Some (inl (Connecting k), r)
        | Err e => Some (inr (Err e), r)
        | Panic => Some (inr Panic, r)
        end
      else None
  | Connecting k, AConnected err => finish (connect_done label step k err s r)
  | Locked, ARequest o => if bool_decide (kind = "request") then finish (executeRequest label step o s r) else None
  | Locked, AEvent expired =>
      if bool_decide (kind = "expect_event")
      then p ← executeExpectEvent label step (if expired then Some (ctx_or_deadline ctx) else None) s r; finish p
      else None
  | Locked, ASleep fired =>
      if bool_decide (kind = "sleep") then
        if fired then finish (Ok tt, r)
        else match ctx with Some e => finish (Err (Wrapf "%s: %w" [FStr label] e), r) | None => None end
      else None
  | Locked, AClose =>
      if bool_decide (kind = "close") then finish (executeClose label s r)
      else if bool_decide (kind ∈ ["connect"; "request"; "expect_event"; "sleep"]) then None
      else finish (Err (Errorf "%s: unsupported step %q" [FStr label; FStr kind]), r)
  | _, _ => None
  end.

(** [defer session.mu.Unlock()] *)
Definition unlock (name : string) (r : Runner) : Runner :=
  match mget name (rn_sessions r) with Some s => put_session (set_locked false s) r | None => r end.

(** A section of [executeStep] that runs behind the lock. *)
Definition session_step (ctx : option error) (label : string) (scope : option barrierSet) (a : act) (r : Runner)
    (i : Z) (step : Step) (todo : list Step) (ph : phase) : option (task * option barrierSet * Runner) :=
  s ← mget (st_Session step) (rn_sessions r);
  '(next, r) ← session_do ctx label step ph a s r;
  match next with
  | inl ph => Some (TRun i step todo ph, scope, r)
  | inr res => Some (after i todo res, scope, unlock (st_Session step) r)
  end.

(** One section of a script at its next step. *)
Definition step_do (ctx : option error) (path label : string) (scope : option barrierSet) (a : act) (r : Runner)
    (i : Z) (step : Step) (todo : list Step) (ph : phase) : option (task * option barrierSet * Runner) :=
  let kind := st_Step step in
  match ph, a with
  | Ready, AGo =>
      if bool_decide (kind = "parallel") then
        Some (TPar i [] None [] (map (fun b => (b.1, new_task b.2)) (st_Branches step)) todo, scope, r)
      else if bool_decide (kind = "barrier") then
        match scope with
        | None => Some (TDone (Some (Errorf "%s barrier used outside parallel scope" [FStr path])), scope, r)
        | Some (total, hits) =>
            Some (TRun i step todo InBarrier, Some (Wait_arrive (st_Name step) total hits), r)
        end
      else
        match mget (st_Session step) (rn_sessions r) with
        | None => Some (TCrash, scope, r)          (* the mutex of a nil session *)
        | Some s =>
            if ss_locked s then None
            else Some (TRun i step todo Locked, scope, put_session (set_locked true s) r)
        end
  | InBarrier, AArrived =>
      match scope with
      | None => None
      | Some (total, hits) =>
          if Wait_blocked (st_Name step) total hits
          then match ctx with Some e => Some (TDone (Some e), scope, r) | None => None end
          else Some (after i todo (Ok tt), scope, r)
      end
  | _, _ => session_step ctx label scope a r i step todo ph
  end.

(** The error a task returned. *)
Definition task_error (t : task) : option error := match t with TDone e => e | _ => None end.
Definition task_over (t : task) : bool := match t with TDone _ => true | _ => false end.

(** A section of the task that [route] leads to, through the branches of parallel steps. A
    branch that fails sends its error and cancels the context of the others; a panic in any
    goroutine ends the program. *)
Fixpoint task_do (ctx : option error) (prefix : Z -> string) (name : string) (scope : option barrierSet)
    (route : list nat) (a : act) (r : Runner) (t : task) : option (task * option barrierSet * Runner) :=
  match route, t with
  | [], TRun i step todo ph =>
      let path := prefix i in
      step_do ctx path (if bool_decide (name = "") then path else name +:+ " " +:+ path) scope a r i step todo ph
  | [], TPar i hits cancelled errs branches todo =>
      match a with
      | AJoin =>
          if forallb (fun b => task_over b.2) branches
          then Some (after i todo (match errs with e :: _ => Err e | [] => Ok tt end), scope, r)
          else None
      | _ => None
      end
  | k :: route, TPar i hits cancelled errs branches todo =>
      '(bname, bt) ← branches !! k;
      '(bt', scope', r) ← task_do (match cancelled with Some e => Some e | None => ctx end)
          (branch_path (prefix i) (Z.of_nat k)) bname (Some (len branches, hits)) route a r bt;
      let hits := match scope' with Some (_, hits) => hits | None => hits end in
      let branches := <[k := (bname, bt')]> branches in
      match bt' with
      | TCrash => Some (TCrash, scope, r)
      | TDone (Some e) =>
          Some (TPar i hits (Some (default (default (Sentinel Canceled) ctx) cancelled)) (errs ++ [e]) branches todo, scope, r)
      | _ => Some (TPar i hits cancelled errs branches todo, scope, r)
      end
  | _, _ => None
  end.

(** ** The whole run *)

(** [closeAll], in the order of the names. *)
Definition close_session (r : Runner) (name : string) : Runner :=
  match mget name (rn_sessions r) with
  | None => r
  | Some s =>
      let r := put_session (set_disconnected s) r in
      match ss_client s with Some k => if ss_closed s then r else close_client k r | None => r end
  end.
Definition closeAll (r : Runner) : Runner :=
  fold_left close_session ((sort_keys (rn_sessions r)).*1) r.

Definition new_session (sc : Scenario) (name : string) (spec : SessionSpec) : sessionRuntime :=
  mkSessionRuntime name (sp_Node spec) (default (mkNodeConfig "") (mget (sp_Node spec) (sc_Nodes sc))) spec
    (fold_left (fun store c => (Memory_SaveCursor (mkMessageCursor (cref_NodeID c) (cref_Seq c)) store).1)
       (sp_SeenMessages spec) NewMemoryCursorStore)
    None [] false false false.

Definition new_runner (sc : Scenario) : Runner :=
  mkRunner sc (cloneStringMap (sc_Vars sc)) (map (fun ns => (ns.1, new_session sc ns.1 ns.2)) (sc_Sessions sc)) [].

Record sys : Type := mkSys { sy_ctx : option error; sy_task : task; sy_runner : Runner }.

(** [RunScenario] up to its loop: [None] is the nil scenario. *)
Definition RunScenario (scenario : option Scenario) : result error sys :=
  match scenario with
  | None => Err (errors_New "scenario is required")
  | Some sc =>
      match Validate sc with
      | Some err => Err err
      | None => Ok (mkSys None (new_task (sc_Script sc)) (new_runner sc))
      end
  end.

Inductive sys_act : Type :=
| SStep (route : list nat) (a : act)      (* the runner *)
| SCallback (k : nat) (cb : callback)     (* a client calls its handler *)
| SExpire (e : error).                    (* the caller's context ends *)

Definition sys_do (x : sys_act) (y : sys) : option sys :=
  match x with
  | SStep route a =>
      '(t, _, r) ← task_do (sy_ctx y) script_path "" None route a (sy_runner y) (sy_task y);
      Some (mkSys (sy_ctx y) t r)
  | SCallback k cb =>
      n ← rn_conns (sy_runner y) !! k;
      Some (mkSys (sy_ctx y) (sy_task y)
              (set_conns (<[k := set_handler (call_handler cb (cn_handler n)) n]> (rn_conns (sy_runner y))) (sy_runner y)))
  | SExpire e => match sy_ctx y with None => Some (mkSys (Some e) (sy_task y) (sy_runner y)) | Some _ => None end
  end.

Fixpoint sys_run (l : list sys_act) (y : sys) : option sys :=
  match l with [] => Some y | x :: l => y ← sys_do x y; sys_run l y end.

(** What [RunScenario] returns, and the runner it leaves: the sessions are closed on the way out. *)
Definition finished (y : sys) : option (option error * Runner) :=
  match sy_task y with TDone e => Some (e, closeAll (sy_runner y)) | _ => None end.

End execute.
