(* ===== verification/DemoTasks.v ===== *)
(** * The tasks of the demo runner: what one section changes

    Every section makes the task smaller, keeps each session under its own name, locks and
    unlocks sessions exactly as the tasks hold them, and arrives at barriers one at a time. *)

From stdpp Require Import base list strings gmap.
From S2P Require Import Prelude Errors Types Float64 Password Store ClientApi Client DemoValue DemoMatch DemoMatchProps DemoSchema DemoAction DemoRun.

Section task_ind.
Context (P : task -> Prop).
Context (Hrun : forall i st todo ph, P (TRun i st todo ph))
  (Hpar : forall i hits c errs (bs : list (string * task)) todo, Forall (fun b => P b.2) bs -> P (TPar i hits c errs bs todo))
  (Hdone : forall e, P (TDone e)) (Hcrash : P TCrash).
Fixpoint task_ind' (t : task) : P t :=
  match t with
  | TRun i st todo ph => Hrun i st todo ph
  | TPar i hits c errs bs todo => Hpar i hits c errs bs todo
      ((fix go (bs : list (string * task)) : Forall (fun b => P b.2) bs :=
          match bs with [] => Forall_nil_2 _ | (n, t) :: bs => Forall_cons_2 _ (n, t) _ (task_ind' t) (go bs) end) bs)
  | TDone e => Hdone e
  | TCrash => Hcrash
  end.
End task_ind.

(** ** Size *)

Fixpoint weight (st : Step) : nat :=
  (3 + sum_list_with (fun b => sum_list_with weight b.2) (st_Branches st))%nat.

Definition weights (l : list Step) : nat := sum_list_with weight l.

(** How many sections the task can still run at most. *)
Fixpoint task_size (t : task) : nat :=
  match t with
  | TRun _ st todo ph =>
      (match ph with Ready => weight st | Locked | InBarrier => 2 | Connecting _ => 1 end + weights todo)%nat
  | TPar _ _ _ _ bs todo => (1 + sum_list_with (fun b => task_size b.2) bs + weights todo)%nat
  | TDone _ | TCrash => 0
  end.

Lemma weight_eq st : weight st = (3 + sum_list_with (fun b => weights b.2) (st_Branches st))%nat.
Proof. by destruct st. Qed.

Lemma task_size_new script : (task_size (new_task script) <= weights script)%nat.
Proof. by destruct script. Qed.

Lemma branches_size (bs : list (string * list Step)) :
  (sum_list_with (fun b => task_size b.2) (map (fun b => (b.1, new_task b.2)) bs) <= sum_list_with (fun b => weights b.2) bs)%nat.
Proof. induction bs as [|b bs IH]; simpl; [lia|]. pose proof (task_size_new b.2). lia. Qed.

Lemma task_size_after i todo res : (task_size (after i todo res) <= weights todo)%nat.
Proof. destruct res as [[]|e|]; simpl; [|lia|lia]. destruct todo; simpl; lia. Qed.

Lemma sum_insert {A} (f : A -> nat) l k x y :
  l !! k = Some x -> (sum_list_with f (<[k:=y]> l) + f x = sum_list_with f l + f y)%nat.
Proof.
  revert k. induction l as [|a l IH]; intros [|k] H; simplify_eq/=; [lia|]. specialize (IH k H). lia.
Qed.

Lemma sum_elem {A} (f : A -> nat) l k x : l !! k = Some x -> (f x <= sum_list_with f l)%nat.
Proof. revert k. induction l as [|a l IH]; intros [|k] H; simplify_eq/=; [lia|]. specialize (IH k H). lia. Qed.

Section props.
Context `{Platform} (gen : string -> Z -> result error string).
Implicit Types (t : task) (r : Runner) (scope : option barrierSet).

(** The cases of a section at the head of a script. *)
Lemma session_do_case ctx label st ph a s r next r' :
  session_do gen ctx label st ph a s r = Some (next, r') ->
  (ph = Locked /\ exists k, next = inl (Connecting k)) \/ ((ph = Locked \/ exists k, ph = Connecting k) /\ exists res, next = inr res).
Proof.
  unfold session_do. intros Hs.
  destruct ph, a; simplify_eq/=; repeat case_match; simplify_eq/=; eauto 10.
  all: match type of Hs with (?x ≫= _) = _ => destruct x as [[? ?]|]; simplify_eq/=; eauto 10 end.
Qed.

Definition holding (ph : phase) : bool := match ph with Locked | Connecting _ => true | _ => false end.

Lemma session_step_case ctx label scope a r i st todo ph t' scope' r' :
  session_step gen ctx label scope a r i st todo ph = Some (t', scope', r') ->
  holding ph = true /\ scope' = scope /\
  exists s next r2, mget (st_Session st) (rn_sessions r) = Some s /\ session_do gen ctx label st ph a s r = Some (next, r2) /\
    ((ph = Locked /\ exists k, next = inl (Connecting k) /\ t' = TRun i st todo (Connecting k) /\ r' = r2) \/
     (exists res, next = inr res /\ t' = after i todo res /\ r' = unlock (st_Session st) r2)).
Proof.
  unfold session_step. destruct (mget _ _) as [s|]; [|done]. cbn [mbind option_bind].
  destruct (session_do _ _ _ _ _ _ _ _) as [[next r2]|] eqn:E; [|done]. cbn [mbind option_bind]. intros Hs.
  destruct (session_do_case _ _ _ _ _ _ _ _ _ E) as [[-> [k ->]]|[Hph [res ->]]]; simplify_eq.
  - split_and!; [done..|]. eexists _, _, _. split_and!; [done..|]. left. eauto.
  - split_and!; [destruct Hph as [->|[k ->]]; done|done|]. eexists _, _, _. split_and!; [done..|]. right. eauto.
Qed.

Lemma step_do_smaller ctx path label scope a r i st todo ph t' scope' r' :
  step_do gen ctx path label scope a r i st todo ph = Some (t', scope', r') ->
  (task_size t' < task_size (TRun i st todo ph))%nat.
Proof.
  intros Hs. assert (forall res, task_size (after i todo res) <= weights todo)%nat as Ha by (intros; apply task_size_after).
  assert (session_step gen ctx label scope a r i st todo ph = Some (t', scope', r') ->
    (task_size t' < task_size (TRun i st todo ph))%nat) as Hsession.
  { intros (Hph & _ & s & next & r2 & _ & _ & Hcase)%session_step_case.
    destruct Hcase as [(-> & k & -> & -> & _)|(res & -> & -> & _)]; [simpl; lia|]. specialize (Ha res).
    destruct ph; simpl in *; try done; lia. }
  unfold step_do, Wait_arrive, Wait_blocked in Hs. destruct ph; [| by apply Hsession..|].
  - destruct a; try by apply Hsession. cbn [task_size]. rewrite weight_eq.
    repeat case_match; simplify_eq/=; try lia.
    pose proof (branches_size (st_Branches st)). lia.
  - destruct a; try by apply Hsession. specialize (Ha (Ok tt)). cbn [task_size].
    repeat case_match; simplify_eq; cbn [task_size]; lia.
Qed.

(** Every section makes the task smaller. *)
Lemma task_do_smaller route ctx prefix name scope a r t t' scope' r' :
  task_do gen ctx prefix name scope route a r t = Some (t', scope', r') -> (task_size t' < task_size t)%nat.
Proof.
  revert ctx prefix name scope r t t' scope' r'. induction route as [|k route IH]; intros ctx prefix name scope r t t' scope' r' Hs.
  - destruct t as [i st todo ph|i hits c errs bs todo| |]; simpl in Hs; try done; [by eapply step_do_smaller|].
    destruct a; try done. case_match; simplify_eq. pose proof (task_size_after i todo (match errs with e :: _ => Err e | [] => Ok tt end)).
    simpl. lia.
  - destruct t as [|i hits c errs bs todo| |]; simpl in Hs; try done.
    destruct (bs !! k) as [[bname bt]|] eqn:Ek; [|done]. simpl in Hs.
    destruct (task_do _ _ _ _ _ _ _ _ _) as [[[bt' sc'] r2]|] eqn:E; [|done]. apply IH in E. simpl in Hs.
    pose proof (sum_insert (fun b => task_size b.2) bs k _ (bname, bt') Ek) as Hsum. simpl in Hsum.
    destruct bt' as [| |[e|]|]; simplify_eq/=; lia.
Qed.

(** ** Sessions *)

Definition session_of r (n : string) : option sessionRuntime := mget n (rn_sessions r).

(** The map's keys are the sessions' names. *)
Definition names_ok r : Prop := forall n s, session_of r n = Some s -> ss_name s = n.

(** The same sessions, with the same mutexes; their other fields may differ. *)
Definition keeps r r' : Prop :=
  rn_scenario r' = rn_scenario r /\
  forall n, match session_of r n, session_of r' n with
            | Some s, Some s' => ss_name s' = ss_name s /\ ss_locked s' = ss_locked s
            | None, None => True
            | _, _ => False
            end.

#[local] Instance keeps_refl : Reflexive keeps.
Proof. intros r. split; [done|]. intros n. by destruct (session_of r n). Qed.
#[local] Instance keeps_trans : Transitive keeps.
Proof.
  intros r1 r2 r3 [Hs1 H1] [Hs2 H2]. split; [congruence|]. intros n. specialize (H1 n). specialize (H2 n).
  destruct (session_of r1 n), (session_of r2 n), (session_of r3 n); try done. destruct H1, H2. split; congruence.
Qed.

Lemma keeps_names r r' : keeps r r' -> names_ok r -> names_ok r'.
Proof.
  intros [_ Hk] Hn n s Hs. specialize (Hk n). rewrite Hs in Hk. destruct (session_of r n) as [s0|] eqn:E; [|done].
  rewrite (proj1 Hk). by apply Hn.
Qed.

Lemma keeps_same r r' : rn_scenario r' = rn_scenario r -> rn_sessions r' = rn_sessions r -> keeps r r'.
Proof.
  intros Hc Hs. split; [done|]. intros n. unfold session_of. rewrite Hs. by destruct (mget n (rn_sessions r)).
Qed.

Lemma session_put s r n : session_of (put_session s r) n = if bool_decide (n = ss_name s) then Some s else session_of r n.
Proof. apply mget_mput. Qed.

(** A session that replaces itself. *)
Lemma keeps_put s s' r :
  session_of r (ss_name s) = Some s -> ss_name s' = ss_name s -> ss_locked s' = ss_locked s -> keeps r (put_session s' r).
Proof.
  intros Hs Hn Hl. split; [done|]. intros n. rewrite session_put, Hn. case_bool_decide; subst.
  - by rewrite Hs.
  - by destruct (session_of r n).
Qed.

Lemma saveVars_keeps label bs root s err s' :
  saveVars label bs root s = (err, s') -> ss_name s' = ss_name s /\ ss_locked s' = ss_locked s.
Proof.
  revert s. induction bs as [|[name path] bs IH]; intros s; simpl; [by intros [= _ <-]|].
  destruct (lookupPath _ _); [|by intros [= _ <-]]. intros Hs. by apply IH in Hs.
Qed.

Lemma save_result_keeps label st root s0 s r res r' :
  save_result label st root s r = (res, r') -> session_of r (ss_name s0) = Some s0 ->
  ss_name s = ss_name s0 -> ss_locked s = ss_locked s0 -> keeps r r'.
Proof.
  unfold save_result. intros Hr Hs Hn Hl. destruct (saveVars _ _ _ _) as [err s'] eqn:E. simplify_eq.
  apply saveVars_keeps in E as [Hn' Hl']. apply (keeps_put s0); [done|congruence..].
Qed.

(** A section behind the lock changes its own session only, and not its mutex. *)
Lemma session_do_keeps ctx label st ph a s r next r' :
  session_do gen ctx label st ph a s r = Some (next, r') -> session_of r (ss_name s) = Some s -> keeps r r'.
Proof.
  intros Hd Hs. assert (forall l, keeps r (set_conns l r)) as Hconns by (intros; by apply keeps_same).
  assert (forall root s' r1, rn_sessions r1 = rn_sessions r -> keeps r r1 -> ss_name s' = ss_name s -> ss_locked s' = ss_locked s ->
    keeps r (save_result label st root s' r1).2) as Hsave.
  { intros root s' r1 Hsame Hk Hn Hl. transitivity r1; [done|]. destruct (save_result _ _ _ _ _) as [res r2] eqn:E.
    eapply save_result_keeps; [exact E| |done|done]. unfold session_of. by rewrite Hsame. }
  unfold session_do in Hd. destruct ph as [| |k|], a; try done; repeat case_bool_decide; simplify_eq/=; try done.
  - unfold connect_start in Hd. repeat case_match; simplify_eq/=; done.
  - unfold executeRequest. cbv zeta. repeat case_match; try done; by apply Hsave.
  - unfold executeExpectEvent in Hd. cbv zeta in Hd. repeat case_match; simplify_eq/=; try done; by apply Hsave.
  - repeat case_match; by simplify_eq.
  - unfold executeClose. repeat case_match; try done. simpl. transitivity (close_client n r); [apply Hconns|]. by apply (keeps_put s).
  - unfold connect_done. repeat case_match; try done; try apply Hconns. by apply Hsave.
Qed.

(** ** Mutexes *)

Definition locked r (n : string) : nat := match session_of r n with Some s => if ss_locked s then 1 else 0 | None => 0 end.

(** How many of the task's goroutines are in a step of session [n], behind its lock. *)
Fixpoint held (n : string) (t : task) : nat :=
  match t with
  | TRun _ st _ ph => if holding ph && bool_decide (st_Session st = n) then 1 else 0
  | TPar _ _ _ _ bs _ => sum_list_with (fun b => held n b.2) bs
  | _ => 0
  end.

Lemma held_after n i todo res : held n (after i todo res) = 0%nat.
Proof. destruct res; simpl; [|done..]. by destruct todo. Qed.

Lemma held_branches n (bs : list (string * list Step)) :
  sum_list_with (fun b => held n b.2) (map (fun b => (b.1, new_task b.2)) bs) = 0%nat.
Proof. induction bs as [|b bs IH]; [done|]. simpl. rewrite IH. by destruct b as [? []]. Qed.

Lemma held_new n script : held n (new_task script) = 0%nat.
Proof. by destruct script. Qed.

(** The scenario and the names of the sessions never change. *)
Definition moves r r' : Prop :=
  rn_scenario r' = rn_scenario r /\ names_ok r' /\ forall n, is_Some (session_of r n) <-> is_Some (session_of r' n).

Lemma moves_keeps r r' : names_ok r -> keeps r r' -> moves r r'.
Proof.
  intros Hn Hk. split; [apply Hk|]. split; [by eapply keeps_names|]. intros n. destruct Hk as [_ Hk]. specialize (Hk n).
  destruct (session_of r n), (session_of r' n); done.
Qed.

Lemma locked_keeps r r' n : keeps r r' -> locked r' n = locked r n.
Proof.
  intros [_ Hk]. specialize (Hk n). unfold locked. destruct (session_of r n), (session_of r' n); try done. by destruct Hk as [_ ->].
Qed.

(** Taking or dropping one mutex. *)
Lemma moves_lock r n s b : names_ok r -> session_of r n = Some s ->
  moves r (put_session (set_locked b s) r) /\
  forall m, locked (put_session (set_locked b s) r) m = if bool_decide (m = n) then (if b then 1 else 0)%nat else locked r m.
Proof.
  intros Hn Hs. pose proof (Hn n s Hs) as Hname.
  assert (forall m, session_of (put_session (set_locked b s) r) m = if bool_decide (m = n) then Some (set_locked b s) else session_of r m) as Hput.
  { intros m. rewrite session_put. simpl. by rewrite Hname. }
  split; [split_and!; [done|..]|].
  - intros m s'. rewrite Hput. case_bool_decide; [intros; by simplify_eq|apply Hn].
  - intros m. rewrite Hput. case_bool_decide as Hm; [|done]. subst m. rewrite Hs. by split.
  - intros m. unfold locked. rewrite Hput. case_bool_decide; done.
Qed.

Lemma session_step_locks ctx label scope a r i st todo ph t' scope' r' :
  names_ok r -> locked r (st_Session st) = 1%nat ->
  session_step gen ctx label scope a r i st todo ph = Some (t', scope', r') -> t' <> TCrash ->
  moves r r' /\ forall n, (held n t' + locked r n = held n (TRun i st todo ph) + locked r' n)%nat.
Proof.
  intros Hn Hl (Hph & _ & s & next & r2 & Hs & Hd & Hcase)%session_step_case _.
  assert (keeps r r2) as Hk by (eapply session_do_keeps; [exact Hd|]; by rewrite (Hn _ _ Hs)).
  cbn [held]. rewrite Hph. cbn [andb]. destruct Hcase as [(-> & k & -> & -> & ->)|(res & -> & -> & ->)].
  - split; [by apply moves_keeps|]. intros n. cbn [held holding andb]. rewrite (locked_keeps r r2) by done. lia.
  - pose proof (proj2 Hk (st_Session st)) as Hk'. change (mget (st_Session st) (rn_sessions r)) with (session_of r (st_Session st)) in Hs.
    rewrite Hs in Hk'. destruct (session_of r2 (st_Session st)) as [s2|] eqn:E; [|done].
    pose proof (moves_keeps r r2 Hn Hk) as (Hc & Hn2 & Hdom). unfold unlock.
    change (mget (st_Session st) (rn_sessions r2)) with (session_of r2 (st_Session st)). rewrite E.
    destruct (moves_lock r2 _ s2 false Hn2 E) as [(Hc' & Hn' & Hdom') Hlock].
    split; [split_and!; [congruence|done|intros; by rewrite Hdom]|]. intros n. rewrite held_after, Hlock, (locked_keeps r r2) by done.
    destruct (decide (n = st_Session st)) as [->|Hne]; [rewrite !bool_decide_true by done; lia|].
    rewrite !bool_decide_false by congruence. lia.
Qed.

Lemma step_do_locks ctx path label scope a r i st todo ph t' scope' r' :
  names_ok r -> (forall n, held n (TRun i st todo ph) <= locked r n)%nat ->
  step_do gen ctx path label scope a r i st todo ph = Some (t', scope', r') -> t' <> TCrash ->
  moves r r' /\ forall n, (held n t' + locked r n = held n (TRun i st todo ph) + locked r' n)%nat.
Proof.
  intros Hn Hheld Hs Hcrash. assert (moves r r) as Hrefl by (by apply moves_keeps).
  assert (session_step gen ctx label scope a r i st todo ph = Some (t', scope', r') ->
    moves r r' /\ forall n, (held n t' + locked r n = held n (TRun i st todo ph) + locked r' n)%nat) as Hsession.
  { intros Hst. eapply session_step_locks; [done| |exact Hst|done]. pose proof (session_step_case _ _ _ _ _ _ _ _ _ _ _ _ Hst) as [Hph _].
    specialize (Hheld (st_Session st)). cbn [held] in Hheld. rewrite Hph, bool_decide_true in Hheld by done. simpl in Hheld.
    unfold locked in *. repeat case_match; lia. }
  unfold step_do, Wait_arrive, Wait_blocked in Hs. destruct ph; [| by apply Hsession..|].
  - destruct a; try by apply Hsession. repeat case_match; simplify_eq; try (by split).
    + split; [done|]. intros n. cbn [held holding andb]. rewrite held_branches. lia.
    + bool_facts. match goal with E : mget _ _ = Some ?s, E' : ss_locked ?s = false |- _ => rename s into s0, E into Es, E' into El end.
      destruct (moves_lock r (st_Session st) s0 true Hn Es) as [Hm Hlock]. split; [done|]. intros n. cbn [held holding andb].
      rewrite Hlock. rewrite (bool_decide_ext (st_Session st = n) (n = st_Session st)) by done.
      case_bool_decide as Hne; [|lia]. subst n. unfold locked, session_of. rewrite Es, El. lia.
  - destruct a; try by apply Hsession. repeat case_match; simplify_eq; (split; [done|]); intros n; rewrite ?held_after; done.
Qed.

(** Each section takes and drops mutexes exactly as its task's goroutines hold them. *)
Lemma task_do_locks route ctx prefix name scope a r t t' scope' r' :
  names_ok r -> (forall n, held n t <= locked r n)%nat ->
  task_do gen ctx prefix name scope route a r t = Some (t', scope', r') -> t' <> TCrash ->
  moves r r' /\ forall n, (held n t' + locked r n = held n t + locked r' n)%nat.
Proof.
  revert ctx prefix name scope r t t' scope' r'. induction route as [|k route IH]; intros ctx prefix name scope r t t' scope' r' Hn Hheld Hs Hcrash.
  - destruct t as [i st todo ph|i hits c errs bs todo| |]; simpl in Hs; try done; [by eapply step_do_locks|].
    destruct a; try done. destruct (forallb _ bs) eqn:Eb; simplify_eq. split; [by apply moves_keeps|]. intros n.
    rewrite held_after. cbn [held]. assert (sum_list_with (fun b => held n b.2) bs = 0)%nat as ->; [|done].
    induction bs as [|b bs IHb]; [done|]. simpl in Eb. bool_facts. simpl. rewrite IHb; [by destruct b.2| |done].
    intros m. specialize (Hheld m). simpl in Hheld |- *. lia.
  - destruct t as [|i hits c errs bs todo| |]; simpl in Hs; try done.
    destruct (bs !! k) as [[bname bt]|] eqn:Ek; [|done]. simpl in Hs.
    destruct (task_do _ _ _ _ _ _ _ _ _) as [[[bt' sc'] r2]|] eqn:E; [|done]. simpl in Hs.
    assert (bt' <> TCrash /\ r2 = r' /\ forall n, (held n t' + held n bt = sum_list_with (fun b => held n b.2) bs + held n bt')%nat) as (Hbt & -> & Hsum).
    { split; [by intros ->; simplify_eq|]. pose proof (fun n => sum_insert (fun b => held n b.2) bs k _ (bname, bt') Ek) as Hsum.
      simpl in Hsum. destruct bt' as [| |[e|]|]; simplify_eq; by split. }
    destruct (IH _ _ _ _ _ _ _ _ _ Hn (fun n => Nat.le_trans _ _ _ (sum_elem (fun b => held n b.2) bs k (bname, bt) Ek) (Hheld n)) E Hbt)
      as [Hm Heq]. split; [done|]. intros n. specialize (Heq n). simpl in Heq. specialize (Hsum n). cbn [held]. lia.
Qed.
End props.
