(* ===== verification/DemoBarriers.v ===== *)
(** * Barriers of parallel steps

    What a task has ahead of it ([pending]) and where it waits ([waiting]), how one section
    changes that together with the hits of its scope, and the invariant that ties the hits of
    every running parallel step to the barriers its branches have arrived at. *)

From stdpp Require Import base list strings gmap.
From S2P Require Import Prelude Errors Types Float64 Password Store ClientApi Client DemoValue DemoMatch DemoMatchProps DemoSchema DemoAction DemoRun DemoTasks.

(** The barriers that a task has not arrived at, the one it waits at, and whether it has failed. *)
Definition pending (t : task) : list string :=
  match t with
  | TRun _ st todo Ready => barrier_names (st :: todo)
  | TRun _ _ todo _ | TPar _ _ _ _ _ todo => barrier_names todo
  | _ => []
  end.
Definition waiting (t : task) : option string :=
  match t with TRun _ st _ InBarrier => Some (st_Name st) | _ => None end.
Definition failed (t : task) : bool := match t with TDone (Some _) | TCrash => true | _ => false end.

(** A step and all steps of the branches it runs. *)
Fixpoint flatten (st : Step) : list Step :=
  st :: if bool_decide (st_Step st = "parallel") then flat_map (fun b => flat_map flatten b.2) (st_Branches st) else [].

Fixpoint task_steps (t : task) : list Step :=
  match t with
  | TRun _ st todo _ => flat_map flatten (st :: todo)
  | TPar _ _ _ _ bs todo => flat_map (fun b => task_steps b.2) bs ++ flat_map flatten todo
  | _ => []
  end.

(** [subtask x t]: [x] is [t] or a task among the branches below it. *)
Inductive subtask (x : task) : task -> Prop :=
| subtask_refl : subtask x x
| subtask_branch i hits c errs bs todo n b :
    (n, b) ∈ bs -> subtask x b -> subtask x (TPar i hits c errs bs todo).

Definition hits_of (n : string) (hits : list (string * Z)) : Z := default 0 (mget n hits).
Definition times (n : string) (l : list string) : nat := count_occ String.string_dec l n.

Lemma hits_of_put n m hits : hits_of m (mput n (hits_of n hits + 1) hits) = hits_of m hits + (if bool_decide (m = n) then 1 else 0).
Proof. unfold hits_of. rewrite mget_mput. case_bool_decide; subst; simpl; lia. Qed.

Lemma barrier_names_cons st todo :
  barrier_names (st :: todo) = if bool_decide (st_Step st = "barrier") then st_Name st :: barrier_names todo else barrier_names todo.
Proof. unfold barrier_names. simpl. by case_bool_decide. Qed.

Lemma pending_after i todo res : failed (after i todo res) = false -> pending (after i todo res) = barrier_names todo.
Proof. destruct res; simpl; try done. by destruct todo. Qed.

Lemma waiting_after i todo res : waiting (after i todo res) = None.
Proof. destruct res; simpl; try done. by destruct todo. Qed.

Lemma pending_new script : pending (new_task script) = barrier_names script.
Proof. by destruct script. Qed.

Section view.
Context `{Platform} (gen : string -> Z -> result error string).
Implicit Types (t : task) (r : Runner) (scope : option barrierSet).

(** What one section does to the barriers of the scope: it fails, or it stays where it was, or
    it arrives at the next barrier of its script. *)
Definition view t scope t' scope' : Prop :=
  (scope' = scope /\ failed t' = true) \/
  (scope' = scope /\ failed t' = false /\ waiting t' = None /\ pending t' = pending t /\
     forall n total hits, waiting t = Some n -> scope = Some (total, hits) -> total <= hits_of n hits) \/
  (exists n total hits, scope = Some (total, hits) /\ scope' = Some (total, mput n (hits_of n hits + 1) hits) /\
     failed t' = false /\ waiting t = None /\ waiting t' = Some n /\ pending t = n :: pending t').

Lemma view_after i st todo ph res scope :
  ph <> Ready -> (forall n, ph = InBarrier -> st_Name st = n -> forall total hits, scope = Some (total, hits) -> total <= hits_of n hits) ->
  view (TRun i st todo ph) scope (after i todo res) scope.
Proof.
  intros Hph Hn. destruct (failed (after i todo res)) eqn:E; [by left|]. right; left. split_and!; [done..| | |].
  - apply waiting_after.
  - rewrite pending_after by done. by destruct ph.
  - intros n total hits Hw. destruct ph; simplify_eq/=. by apply Hn.
Qed.

Lemma step_do_view ctx path label scope a r i st todo ph t' scope' r' :
  step_do gen ctx path label scope a r i st todo ph = Some (t', scope', r') -> view (TRun i st todo ph) scope t' scope'.
Proof.
  intros Hs. assert (ph <> InBarrier -> session_step gen ctx label scope a r i st todo ph = Some (t', scope', r') ->
    view (TRun i st todo ph) scope t' scope') as Hsession.
  { intros Hne (Hph & -> & s & next & r2 & _ & _ & Hcase)%session_step_case.
    destruct Hcase as [(-> & k & -> & -> & _)|(res & -> & -> & _)]; [right; left; by split_and!|].
    apply view_after; [by intros ->|done]. }
  unfold step_do, Wait_arrive, Wait_blocked in Hs. destruct ph; [|by apply Hsession..|].
  - destruct a; try by apply Hsession. destruct (decide (st_Step st = "parallel")) as [Ep|Ep].
    { rewrite bool_decide_true in Hs by done. simplify_eq. right; left. split_and!; try done. cbn [pending].
      rewrite barrier_names_cons, Ep. by rewrite bool_decide_false. }
    rewrite bool_decide_false in Hs by done. destruct (decide (st_Step st = "barrier")) as [Eb|Eb].
    { rewrite bool_decide_true in Hs by done. destruct scope as [[total hits]|]; simplify_eq; [|by left].
      right; right. eexists _, _, _. split_and!; try done. cbn [pending]. by rewrite barrier_names_cons, bool_decide_true. }
    rewrite bool_decide_false in Hs by done. destruct (mget _ _) as [s|]; [|simplify_eq; by left].
    destruct (ss_locked s); simplify_eq. right; left. split_and!; try done. cbn [pending]. by rewrite barrier_names_cons, bool_decide_false.
  - destruct a; try (apply session_step_case in Hs as [? _]; done).
    destruct scope as [[total hits]|]; [|done]. change (default 0 (mget (st_Name st) hits)) with (hits_of (st_Name st) hits) in Hs.
    destruct (hits_of (st_Name st) hits <? total) eqn:El; bool_facts.
    + destruct ctx; [|done]. simplify_eq. by left.
    + simplify_eq. apply view_after; [done|]. intros n _ <- t h [= <- <-]. lia.
Qed.

Lemma task_do_view route ctx prefix name scope a r t t' scope' r' :
  task_do gen ctx prefix name scope route a r t = Some (t', scope', r') -> view t scope t' scope'.
Proof.
  intros Hs. destruct route as [|k route].
  - destruct t as [i st todo ph|i hits c errs bs todo| |]; simpl in Hs; try done; [by eapply step_do_view|].
    destruct a; try done. destruct (forallb _ _); [|done]. injection Hs as <- <- <-.
    destruct (failed (after i todo (match errs with e :: _ => Err e | [] => Ok tt end))) eqn:E; [by left|]. right; left. split_and!; [done..| | |done].
    + apply waiting_after.
    + by rewrite pending_after.
  - destruct t as [|i hits c errs bs todo| |]; simpl in Hs; try done.
    destruct (bs !! k) as [[bname bt]|]; [|done]. simpl in Hs. destruct (task_do _ _ _ _ _ _ _ _ _) as [[[bt' sc'] r2]|]; [|done].
    simpl in Hs. destruct bt' as [| |[e|]|]; simplify_eq; first [by left|by right; left].
Qed.

(** ** The steps a task still has are steps it had *)

Lemma steps_after i todo res x : In x (task_steps (after i todo res)) -> In x (flat_map flatten todo).
Proof. destruct res; simpl; try done. by destruct todo. Qed.

Lemma steps_new script : task_steps (new_task script) = flat_map flatten script.
Proof. by destruct script. Qed.

Lemma step_do_steps ctx path label scope a r i st todo ph t' scope' r' x :
  step_do gen ctx path label scope a r i st todo ph = Some (t', scope', r') -> In x (task_steps t') ->
  In x (task_steps (TRun i st todo ph)).
Proof.
  intros Hs Hx. assert (forall res, In x (task_steps (after i todo res)) -> In x (task_steps (TRun i st todo ph))) as Hafter.
  { intros res Hi%steps_after. cbn [task_steps flat_map]. apply in_app_iff. by right. }
  assert (session_step gen ctx label scope a r i st todo ph = Some (t', scope', r') -> In x (task_steps (TRun i st todo ph))) as Hsession.
  { intros (_ & _ & s & next & r2 & _ & _ & [(_ & k & _ & -> & _)|(res & _ & -> & _)])%session_step_case; [done|by eapply Hafter]. }
  unfold step_do, Wait_arrive, Wait_blocked in Hs. destruct ph; [|by apply Hsession..|]; destruct a; try (by apply Hsession);
    repeat case_match; simplify_eq; try done; try (by eapply Hafter).
  cbn [task_steps flat_map] in *. apply in_app_iff in Hx as [Hx|Hx]; apply in_app_iff; [left|by right].
  destruct st as [kind ? ? ? ? ? ? ? ? ? ? bs]. cbn [flatten st_Branches st_Step] in *. right.
  rewrite bool_decide_true by (by bool_facts).
  apply in_flat_map in Hx as (b & Hb & Hx). apply in_map_iff in Hb as (b0 & <- & Hb0). cbn [snd] in Hx. rewrite steps_new in Hx.
  apply in_flat_map. by exists b0.
Qed.

Lemma task_do_steps route ctx prefix name scope a r t t' scope' r' :
  task_do gen ctx prefix name scope route a r t = Some (t', scope', r') -> forall x, In x (task_steps t') -> In x (task_steps t).
Proof.
  revert ctx prefix name scope r t t' scope' r'. induction route as [|k route IH]; intros ctx prefix name scope r t t' scope' r' Hs x Hx.
  - destruct t as [i st todo ph|i hits c errs bs todo| |]; simpl in Hs; try done.
    + by eapply step_do_steps.
    + destruct a; try done. destruct (forallb _ _); [|done]. injection Hs as <- <- <-. apply steps_after in Hx. cbn [task_steps].
      apply in_app_iff. by right.
  - destruct t as [|i hits c errs bs todo| |]; simpl in Hs; try done.
    destruct (bs !! k) as [[bname bt]|] eqn:Ek; [|done]. simpl in Hs. destruct (task_do _ _ _ _ _ _ _ _ _) as [[[bt' sc'] r2]|] eqn:E; [|done].
    simpl in Hs. cbn [task_steps]. apply in_app_iff.
    assert (In x (flat_map (fun b => task_steps b.2) (<[k:=(bname, bt')]> bs)) \/ In x (flat_map flatten todo)) as [Hin|Hin]; [| |by right].
    { apply in_app_iff. by destruct bt' as [| |[e|]|]; simplify_eq. }
    left. apply in_flat_map in Hin as (b & Hb & Hin). apply list_elem_of_In, list_elem_of_lookup in Hb as [j Hj].
    apply in_flat_map. destruct (decide (j = k)) as [->|Hne].
    + rewrite list_lookup_insert_eq in Hj by (by eapply lookup_lt_Some). simplify_eq. exists (bname, bt).
      split; [by apply list_elem_of_In, list_elem_of_lookup; exists k|]. by eapply IH.
    + rewrite list_lookup_insert_ne in Hj by done. exists b. split; [by apply list_elem_of_In, list_elem_of_lookup; exists j|done].
Qed.

End view.

(** ** The invariant of a running parallel step *)

(** [arr] is what the branch, whose barriers are [L] in all, has arrived at. *)
Definition arrives (L : list string) (t : task) (arr : list string) : Prop :=
  exists rest, L = arr ++ rest /\ (failed t = false -> rest = pending t) /\ (forall n, waiting t = Some n -> last arr = Some n).

(** It has passed no barrier that fewer than [total] have hit. *)
Definition passes (total : Z) (hits : list (string * Z)) (t : task) (arr : list string) : Prop :=
  failed t = false -> forall n, n ∈ arr -> waiting t = Some n \/ total <= hits_of n hits.

(** The branches' arrivals, and the hits that count them. *)
Definition arrivals (Q : list (list string) -> Prop) (hits : list (string * Z)) (bs : list (string * task)) : Prop :=
  exists Ls arrs : list (list string), length Ls = length bs /\ length arrs = length bs /\ Q Ls /\
     (forall k L b arr, Ls !! k = Some L -> bs !! k = Some b -> arrs !! k = Some arr ->
        arrives L b.2 arr /\ passes (len bs) hits b.2 arr) /\
     forall n, hits_of n hits = Z.of_nat (sum_list_with (times n) arrs).

(** The hits count the arrivals; the context is cancelled exactly when an error was sent, and
    the errors sent are those of the branches that have failed. *)
Definition par_node (Q : list (list string) -> Prop) (hits : list (string * Z)) (c : option error) (errs : list error)
    (bs : list (string * task)) : Prop :=
  arrivals Q hits bs /\
  (c = None <-> errs = []) /\ (forall b, b ∈ bs -> b.2 <> TCrash) /\ (forall e, e ∈ errs <-> exists n, (n, TDone (Some e)) ∈ bs).

Definition par_ok (Q : list (list string) -> Prop) (t : task) : Prop :=
  forall i hits c errs bs todo, subtask (TPar i hits c errs bs todo) t -> par_node Q hits c errs bs.

(** Every parallel step among [steps] has barriers in its branches as [Q] wants them. *)
Definition steps_ok (Q : list (list string) -> Prop) (steps : list Step) : Prop :=
  forall st, In st steps -> st_Step st = "parallel" -> Q (map (fun b => barrier_names b.2) (st_Branches st)).

Lemma times_app n l k : times n (l ++ k) = (times n l + times n k)%nat.
Proof. apply List.count_occ_app. Qed.

Lemma times_one n m : times m [n] = (if bool_decide (m = n) then 1 else 0)%nat.
Proof. unfold times. simpl. destruct (String.string_dec n m); case_bool_decide; congruence. Qed.

Lemma elem_insert {A} (l : list A) k x y z : l !! k = Some x -> z ∈ <[k:=y]> l -> z = y \/ (z ∈ l).
Proof.
  intros Hk Hz. apply list_elem_of_lookup in Hz as [j Hj]. destruct (decide (j = k)) as [->|Hne].
  - rewrite list_lookup_insert_eq in Hj by (by eapply lookup_lt_Some). left. congruence.
  - rewrite list_lookup_insert_ne in Hj by done. right. apply list_elem_of_lookup. eauto.
Qed.

Lemma elem_insert_new {A} (l : list A) k x y : l !! k = Some x -> y ∈ <[k:=y]> l.
Proof. intros Hk. apply list_elem_of_lookup. exists k. apply list_lookup_insert_eq. by eapply lookup_lt_Some. Qed.

Lemma elem_insert_old {A} (l : list A) k x y z : l !! k = Some x -> z ∈ l -> z <> x -> z ∈ <[k:=y]> l.
Proof.
  intros Hk Hz Hne. apply list_elem_of_lookup in Hz as [j Hj]. apply list_elem_of_lookup. exists j.
  rewrite list_lookup_insert_ne; [done|]. intros ->. congruence.
Qed.

Section node.
Implicit Types (bs : list (string * task)) (hits : list (string * Z)).

(** A branch whose arrivals stay what they were. *)
Lemma arrives_same L t t' arr :
  arrives L t arr -> failed t = false -> waiting t' = None -> (failed t' = true \/ pending t' = pending t) -> arrives L t' arr.
Proof.
  intros (rest & -> & Hrest & _) Hf Hw Hp. exists rest. split_and!; [done| |by rewrite Hw].
  intros Hf'. destruct Hp as [Hp|Hp]; [congruence|]. rewrite Hp. by apply Hrest.
Qed.

Lemma arrives_next L t t' arr n :
  arrives L t arr -> failed t = false -> waiting t' = Some n -> pending t = n :: pending t' -> arrives L t' (arr ++ [n]).
Proof.
  intros (rest & -> & Hrest & _) Hf Hw Hp. exists (pending t'). rewrite (Hrest Hf), Hp. split_and!.
  - by rewrite <- (assoc_L (++)).
  - done.
  - intros m. rewrite Hw, last_snoc. congruence.
Qed.

(** More hits do not close a barrier. *)
Lemma passes_more total hits hits' t arr : (forall n, hits_of n hits <= hits_of n hits') -> passes total hits t arr -> passes total hits' t arr.
Proof. intros Hle Hp Hf n Hn. destruct (Hp Hf n Hn) as [?|?]; [by left|right]. specialize (Hle n). lia. Qed.

(** The arrivals after a section of branch [k]. *)
Lemma arrivals_step Q hits bs k bname bt bt' hits' :
  arrivals Q hits bs -> bs !! k = Some (bname, bt) -> failed bt = false ->
  view bt (Some (len bs, hits)) bt' (Some (len bs, hits')) -> arrivals Q hits' (<[k:=(bname, bt')]> bs).
Proof.
  intros (Ls & arrs & HL & Ha & HQ & Harr & Hh) Hk Hf Hview.
  assert (is_Some (arrs !! k)) as [arr Hka] by (apply lookup_lt_is_Some; rewrite Ha; by eapply lookup_lt_Some).
  assert (forall L, Ls !! k = Some L -> arrives L bt arr /\ passes (len bs) hits bt arr) as Hold by (intros L HkL; by apply (Harr k L (bname, bt))).
  assert (exists arr', (forall L, Ls !! k = Some L -> arrives L bt' arr' /\ passes (len bs) hits' bt' arr') /\
    (forall n, hits_of n hits <= hits_of n hits') /\
    forall n, hits_of n hits' + Z.of_nat (times n arr) = hits_of n hits + Z.of_nat (times n arr')) as (arr' & Harr' & Hle & Hh').
  { destruct Hview as [[[= ->] Hfail]|[([= ->] & Hnf & Hw & Hp & Hopen)|(n & t & h & [= <- <-] & [= ->] & Hnf & Hw & Hw' & Hp)]].
    - exists arr. split; [|done]. intros L [HkL Hpass]%Hold. split; [|intros ?; congruence].
      eapply arrives_same; [done|done|by destruct bt'|by left].
    - exists arr. split; [|done]. intros L [HkL Hpass]%Hold. split; [by eapply arrives_same; [..|right]|].
      intros _ n Hn. right. destruct (Hpass Hf n Hn) as [Hwait|?]; [by eapply Hopen|done].
    - assert (forall m, hits_of m hits <= hits_of m (mput n (hits_of n hits + 1) hits)) as Hmore.
      { intros m. rewrite hits_of_put. case_bool_decide; lia. }
      exists (arr ++ [n]). split_and!; [|done|].
      + intros L [HkL Hpass]%Hold. split; [by eapply arrives_next|].
        intros _ m [Hm| ->%list_elem_of_singleton]%elem_of_app; [|by left]. right.
        destruct (passes_more _ _ _ _ _ Hmore Hpass Hf m Hm) as [?|?]; [congruence|done].
      + intros m. rewrite hits_of_put, times_app, times_one. case_bool_decide; lia. }
  exists Ls, (<[k:=arr']> arrs). split_and!; [by rewrite length_insert|by rewrite !length_insert|done| |].
  - intros j L b x HjL Hjb Hjx. unfold len. rewrite length_insert. fold (len bs). destruct (decide (j = k)) as [->|Hne].
    + rewrite list_lookup_insert_eq in Hjb by (by eapply lookup_lt_Some). rewrite list_lookup_insert_eq in Hjx by (by eapply lookup_lt_Some).
      simplify_eq. by apply Harr'.
    + rewrite list_lookup_insert_ne in Hjb by done. rewrite list_lookup_insert_ne in Hjx by done.
      destruct (Harr j L b x HjL Hjb Hjx) as [? Hpass]. split; [done|]. by eapply passes_more.
  - intros n. pose proof (sum_insert (times n) arrs k arr arr' Hka). specialize (Hh n). specialize (Hh' n). lia.
Qed.

(** A new parallel step. *)
Lemma arrivals_new Q (script : list (string * list Step)) :
  Q (map (fun b => barrier_names b.2) script) -> arrivals Q [] (map (fun b => (b.1, new_task b.2)) script).
Proof.
  intros HQ. exists (map (fun b => barrier_names b.2) script), (map (fun _ => []) script). rewrite !length_map. split_and!; try done.
  - intros k L b arr HL Hb Harr. change (map ?f script) with (f <$> script) in *. rewrite list_lookup_fmap in HL. rewrite list_lookup_fmap in Hb.
    rewrite list_lookup_fmap in Harr.
    destruct (script !! k) as [[n sc]|]; simplify_eq/=. split; [|by intros _ m ?%not_elem_of_nil].
    exists (barrier_names sc). split_and!; [done| |by destruct sc]. intros _. by rewrite pending_new.
  - intros n. clear HQ. unfold hits_of. simpl. induction script as [|b script IH]; [done|]. exact IH.
Qed.

Lemma par_node_new Q (script : list (string * list Step)) :
  Q (map (fun b => barrier_names b.2) script) -> par_node Q [] None [] (map (fun b => (b.1, new_task b.2)) script).
Proof.
  intros HQ. split_and!; [by apply arrivals_new|done| |].
  - intros b Hb. apply list_elem_of_In, in_map_iff in Hb as ([n sc] & <- & _). by destruct sc.
  - intros e. split; [by intros ?%not_elem_of_nil|]. intros (n & Hn). apply list_elem_of_In, in_map_iff in Hn as ([m sc] & Heq & _).
    by destruct sc.
Qed.

(** A branch of a parallel step runs a section. *)
Lemma par_node_step Q hits c errs bs k bname bt bt' hits' :
  par_node Q hits c errs bs -> bs !! k = Some (bname, bt) -> (task_size bt' < task_size bt)%nat ->
  view bt (Some (len bs, hits)) bt' (Some (len bs, hits')) -> bt' <> TCrash ->
  par_node Q hits' (match bt' with TDone (Some _) => Some (default (Sentinel Canceled) c) | _ => c end)
    (match bt' with TDone (Some e) => errs ++ [e] | _ => errs end) (<[k:=(bname, bt')]> bs).
Proof.
  intros (Harr & Hc & Hcrash & Herr) Hk Hsize Hview Hne. split_and!.
  - eapply arrivals_step; [done|done| |done]. destruct bt; simpl in *; try done; lia.
  - destruct bt' as [| |[e|]|]; try done. split; [done|]. by intros [_ ?]%app_eq_nil.
  - intros b Hb. apply (elem_insert _ _ _ _ _ Hk) in Hb as [->|Hb]; [done|by apply Hcrash].
  - assert (forall e n, (n, TDone (Some e)) ∈ <[k:=(bname, bt')]> bs <-> (n = bname /\ bt' = TDone (Some e)) \/ (n, TDone (Some e)) ∈ bs) as Hin.
    { intros e n. split; [intros Hin|intros [[-> ->]|Hin]].
      - apply (elem_insert _ _ _ _ _ Hk) in Hin as [[= -> <-]|Hin]; [by left|by right].
      - by eapply elem_insert_new.
      - eapply elem_insert_old; [done|done|]. intros [= -> <-]. simpl in Hsize. lia. }
    intros e. setoid_rewrite Hin. specialize (Herr e).
    destruct bt' as [| |[e'|]|]; try (rewrite Herr; naive_solver). rewrite elem_of_app, list_elem_of_singleton, Herr. naive_solver.
Qed.
End node.

(** ** The invariant is kept *)

Lemma par_ok_leaf Q t : (forall i hits c errs bs todo, t <> TPar i hits c errs bs todo) -> par_ok Q t.
Proof. intros Ht i hits c errs bs todo Hsub. inversion Hsub; subst; [by destruct (Ht i hits c errs bs todo)|by edestruct Ht]. Qed.

Lemma par_ok_after Q i todo res : par_ok Q (after i todo res).
Proof. apply par_ok_leaf. destruct res; simpl; try done. by destruct todo. Qed.

Lemma par_ok_par Q i hits c errs bs todo :
  par_ok Q (TPar i hits c errs bs todo) <-> par_node Q hits c errs bs /\ forall b, b ∈ bs -> par_ok Q b.2.
Proof.
  split.
  - intros Hok. split; [apply (Hok i hits c errs bs todo); constructor|]. intros [n b] Hb i' hits' c' errs' bs' todo' Hsub.
    apply (Hok i' hits' c' errs' bs' todo'). by econstructor.
  - intros [Hn Hb] i' hits' c' errs' bs' todo' Hsub. inversion Hsub as [|? ? ? ? ? ? n b Hin Hsub']; subst; [done|].
    by apply (Hb _ Hin i' hits' c' errs' bs' todo').
Qed.

Section kept.
Context `{Platform} (gen : string -> Z -> result error string) (Q : list (list string) -> Prop).

Lemma step_do_par ctx path label scope a r i st todo ph t' scope' r' :
  step_do gen ctx path label scope a r i st todo ph = Some (t', scope', r') -> steps_ok Q (flatten st) -> par_ok Q t'.
Proof.
  intros Hs Hq. assert (session_step gen ctx label scope a r i st todo ph = Some (t', scope', r') -> par_ok Q t') as Hsession.
  { intros (_ & _ & s & next & r2 & _ & _ & [(_ & k & _ & -> & _)|(res & _ & -> & _)])%session_step_case; [by apply par_ok_leaf|apply par_ok_after]. }
  unfold step_do, Wait_arrive, Wait_blocked in Hs. destruct ph; [|by apply Hsession..|]; destruct a; try (by apply Hsession);
    repeat case_match; simplify_eq; try (by apply par_ok_leaf); try apply par_ok_after.
  bool_facts. apply par_ok_par. split; [apply par_node_new, Hq; [by destruct st; left|done]|].
  intros b Hb. apply list_elem_of_In, in_map_iff in Hb as ([n sc] & <- & _). apply par_ok_leaf. by destruct sc.
Qed.

Lemma task_do_par route ctx prefix name scope a r t t' scope' r' :
  task_do gen ctx prefix name scope route a r t = Some (t', scope', r') -> steps_ok Q (task_steps t) -> par_ok Q t -> par_ok Q t'.
Proof.
  revert ctx prefix name scope r t t' scope' r'. induction route as [|k route IH]; intros ctx prefix name scope r t t' scope' r' Hs Hq Hok.
  - destruct t as [i st todo ph|i hits c errs bs todo| |]; simpl in Hs; try done.
    + eapply step_do_par; [exact Hs|]. intros x Hx. apply Hq. cbn [task_steps flat_map]. apply in_app_iff. by left.
    + destruct a; try done. destruct (forallb _ _); [|done]. injection Hs as <- <- <-. apply par_ok_after.
  - destruct t as [|i hits c errs bs todo| |]; simpl in Hs; try done.
    destruct (bs !! k) as [[bname bt]|] eqn:Ek; [|done]. simpl in Hs. destruct (task_do _ _ _ _ _ _ _ _ _) as [[[bt' sc'] r2]|] eqn:E; [|done].
    apply par_ok_par in Hok as [Hnode Hbs].
    assert ((bname, bt) ∈ bs) as Hin by (apply list_elem_of_lookup; eauto).
    assert (par_ok Q bt') as Hbt.
    { eapply IH; [exact E| |by apply (Hbs _ Hin)]. intros x Hx. apply Hq. cbn [task_steps]. apply in_app_iff. left.
      apply in_flat_map. exists (bname, bt). split; [by apply list_elem_of_In|done]. }
    assert (exists hits', sc' = Some (len bs, hits')) as [hits' ->].
    { destruct (task_do_view _ _ _ _ _ _ _ _ _ _ _ _ E) as [[-> _]|[[-> _]|(n & tot & h & [= <- <-] & -> & _)]]; eauto. }
    pose proof (fun Hne => par_node_step Q hits c errs bs k bname bt bt' hits' Hnode Ek (task_do_smaller _ _ _ _ _ _ _ _ _ _ _ _ E)
      (task_do_view _ _ _ _ _ _ _ _ _ _ _ _ E) Hne) as Hnode'.
    assert (forall b, b ∈ <[k:=(bname, bt')]> bs -> par_ok Q b.2) as Hbs'.
    { intros b Hb. apply (elem_insert _ _ _ _ _ Ek) in Hb as [->|Hb]; [done|by apply Hbs]. }
    simpl in Hs. destruct bt' as [| |[e|]|]; simplify_eq; try (apply par_ok_par; split; [by apply Hnode'|done]).
    + apply par_ok_par. split; [|done]. destruct (Hnode' ltac:(done)) as (? & ? & ? & ?). split_and!; try done.
      split; [done|]. by intros [_ ?]%app_eq_nil.
    + by apply par_ok_leaf.
Qed.
End kept.

(** ** What an open barrier means *)

(** No branch repeats a barrier, and all branches have the same ones. *)
Definition matched (Ls : list (list string)) : Prop :=
  (forall L, L ∈ Ls -> NoDup L) /\ forall L L' n, L ∈ Ls -> L' ∈ Ls -> n ∈ L -> n ∈ L'.

Lemma sum_each_one {A} (f : A -> nat) l : (forall x, x ∈ l -> f x <= 1)%nat -> (length l <= sum_list_with f l)%nat -> forall x, x ∈ l -> f x = 1%nat.
Proof.
  induction l as [|a l IH]; intros Hf Hs x Hx; [by apply not_elem_of_nil in Hx|]. simpl in Hs.
  assert (forall k : list A, (forall x, x ∈ k -> f x <= 1)%nat -> (sum_list_with f k <= length k)%nat) as Hle.
  { clear. induction k as [|b k IH]; intros Hk; simpl; [lia|]. assert (f b <= 1)%nat by (apply Hk; by left).
    assert (sum_list_with f k <= length k)%nat by (apply IH; intros z Hz; apply Hk; by right). lia. }
  assert (f a <= 1)%nat by (apply Hf; by left). assert (sum_list_with f l <= length l)%nat by (apply Hle; intros z Hz; apply Hf; by right).
  apply elem_of_cons in Hx as [->|Hx]; [lia|]. apply IH; [intros z Hz; apply Hf; by right|lia|done].
Qed.

(** With matched barriers, one that has as many hits as there are branches is ahead of none. *)
Lemma open_barrier hits bs n b : arrivals matched hits bs -> len bs <= hits_of n hits -> b ∈ bs -> n ∉ pending b.2.
Proof.
  intros (Ls & arrs & HL & Ha & HQ & Harr & Hh) Hopen [k Hk]%list_elem_of_lookup Hin.
  assert (is_Some (Ls !! k)) as [L HkL] by (apply lookup_lt_is_Some; rewrite HL; by eapply lookup_lt_Some).
  assert (is_Some (arrs !! k)) as [arr Hka] by (apply lookup_lt_is_Some; rewrite Ha; by eapply lookup_lt_Some).
  assert (forall x, x ∈ arrs -> times n x <= 1)%nat as Hone.
  { intros x [j Hj]%list_elem_of_lookup.
    assert (is_Some (Ls !! j)) as [Lj HjL] by (apply lookup_lt_is_Some; rewrite HL, <- Ha; by eapply lookup_lt_Some).
    assert (is_Some (bs !! j)) as [bj Hjb] by (apply lookup_lt_is_Some; rewrite <- Ha; by eapply lookup_lt_Some).
    destruct (Harr j Lj bj x HjL Hjb Hj) as [(rest & -> & _) _]. assert (NoDup (x ++ rest)) as Hd by (apply HQ, list_elem_of_lookup; eauto).
    apply list.NoDup_app in Hd as [Hd _]. apply NoDup_ListNoDup in Hd. by apply (List.NoDup_count_occ String.string_dec). }
  destruct (Harr k L b arr HkL Hk Hka) as [(rest & -> & Hrest & _) _].
  assert (failed b.2 = false) as Hf by (destruct b as [? [| |[]|]]; simpl in *; try done; by apply not_elem_of_nil in Hin).
  rewrite <- (Hrest Hf) in Hin. assert (NoDup (arr ++ rest)) as Hd by (apply HQ, list_elem_of_lookup; eauto).
  apply list.NoDup_app in Hd as (_ & Hd & _). apply (Hd n); [|done].
  assert (times n arr = 1%nat) as Ht.
  { apply (sum_each_one (times n) arrs); [done| |apply list_elem_of_lookup; eauto]. rewrite Hh in Hopen. unfold len in Hopen. lia. }
  apply list_elem_of_In. apply (List.count_occ_In String.string_dec). unfold times in Ht. lia.
Qed.

(** Nobody has gone past a barrier that a branch still has ahead. *)
Lemma barrier_holds hits bs n b b' :
  arrivals matched hits bs -> b ∈ bs -> b' ∈ bs -> n ∈ pending b'.2 -> failed b.2 = false ->
  n ∈ pending b.2 \/ waiting b.2 = Some n.
Proof.
  intros Harrs Hb Hb' Hn Hf. assert (hits_of n hits < len bs) as Hclosed.
  { destruct (decide (len bs <= hits_of n hits)) as [Hopen|?]; [|lia]. by destruct (open_barrier hits bs n b' Harrs Hopen Hb'). }
  destruct Harrs as (Ls & arrs & HL & Ha & [_ HQ] & Harr & _).
  assert (forall b, b ∈ bs -> failed b.2 = false -> exists L arr, L ∈ Ls /\ L = arr ++ pending b.2 /\ passes (len bs) hits b.2 arr) as Hlist.
  { intros c [k Hk]%list_elem_of_lookup Hfc.
    assert (is_Some (Ls !! k)) as [L HkL] by (apply lookup_lt_is_Some; rewrite HL; by eapply lookup_lt_Some).
    assert (is_Some (arrs !! k)) as [arr Hka] by (apply lookup_lt_is_Some; rewrite Ha; by eapply lookup_lt_Some).
    destruct (Harr k L c arr HkL Hk Hka) as [(rest & -> & Hrest & _) Hpass]. rewrite (Hrest Hfc) in HkL.
    exists (arr ++ pending c.2), arr. split_and!; [by eapply list_elem_of_lookup_2|done|done]. }
  assert (failed b'.2 = false) as Hf' by (destruct b' as [? [| |[]|]]; simpl in *; try done; by apply not_elem_of_nil in Hn).
  destruct (Hlist b Hb Hf) as (L & arr & HL1 & HeqL & Hpass). destruct (Hlist b' Hb' Hf') as (L' & arr' & HL2 & HeqL' & _).
  assert (n ∈ L) as Hin by (apply (HQ L' L n HL2 HL1); subst L'; apply elem_of_app; by right).
  subst L. apply elem_of_app in Hin as [Hin|?]; [right|by left]. destruct (Hpass Hf n Hin) as [?|?]; [done|lia].
Qed.
