(* ===== verification/DemoProgress.v ===== *)
(** * The runner is never stuck on itself

    Whoever holds a session's mutex can go on; without a held mutex every goroutine can, but for
    one that waits at a barrier; and when the branches of every parallel step meet their barriers
    in one order, not all of them wait. *)

From stdpp Require Import base list strings gmap.
From S2P Require Import Prelude Errors Types Float64 Password Store ClientApi Client DemoValue DemoMatch DemoMatchProps DemoSchema DemoAction DemoRun DemoTasks DemoBarriers.

(** The branches meet the barriers in one order. *)
Definition one_order (Ls : list (list string)) : Prop := exists L, forall L', L' ∈ Ls -> L' = L.

Section progress.
Context `{Platform} (gen : string -> Z -> result error string).
Implicit Types (t : task) (r : Runner) (scope : option barrierSet).

Definition can_step (ctx : option error) prefix name scope r t : Prop :=
  exists route a, is_Some (task_do gen ctx prefix name scope route a r t).

Lemma can_step_branch ctx prefix name scope r i hits c errs bs todo k bname bt :
  bs !! k = Some (bname, bt) ->
  can_step (match c with Some e => Some e | None => ctx end) (branch_path (prefix i) (Z.of_nat k)) bname (Some (len bs, hits)) r bt ->
  can_step ctx prefix name scope r (TPar i hits c errs bs todo).
Proof.
  intros Hk (route & a & [[[bt' sc'] r'] Ht]). exists (k :: route), a. cbn [task_do]. rewrite Hk. cbn [mbind option_bind].
  rewrite Ht. cbn [mbind option_bind]. destruct bt' as [| |[]|]; eauto.
Qed.

(** *** Behind a mutex *)

Lemma session_do_progress ctx label st ph s r : holding ph = true -> exists a, is_Some (session_do gen ctx label st ph a s r).
Proof.
  intros Hph. destruct ph as [| |k|]; try done.
  - unfold session_do. destruct (decide (st_Step st = "connect")) as [->|H1].
    { exists AOpen. simpl. destruct (connect_start label s r) as [[]| |]; eauto. }
    destruct (decide (st_Step st = "request")) as [->|H2]; [exists (ARequest (Err (Sentinel ErrClosed))); simpl; eauto|].
    destruct (decide (st_Step st = "expect_event")) as [->|H3].
    { exists (AEvent true). simpl. unfold executeExpectEvent. repeat case_match; simpl; eauto. }
    destruct (decide (st_Step st = "sleep")) as [->|H4]; [exists (ASleep true); simpl; eauto|].
    exists AClose. destruct (decide (st_Step st = "close")) as [->|H5]; [simpl; eauto|]. rewrite bool_decide_false by done.
    rewrite bool_decide_false; [eauto|]. rewrite !elem_of_cons. intros [?|[?|[?|[?|?%not_elem_of_nil]]]]; done.
  - exists (AConnected None). simpl. eauto.
Qed.

Lemma held_progress n t : forall ctx prefix name scope r, (0 < held n t)%nat -> is_Some (session_of r n) -> can_step ctx prefix name scope r t.
Proof.
  induction t as [i st todo ph|i hits c errs bs todo IH| |] using task_ind'; intros ctx prefix name scope r Hheld [s Hs]; simpl in Hheld; try lia.
  - destruct (holding ph) eqn:Hph; [|simpl in Hheld; lia]. case_bool_decide as Hn; [|simpl in Hheld; lia]. subst n.
    destruct (session_do_progress ctx (if bool_decide (name = "") then prefix i else name +:+ " " +:+ prefix i) st ph s r Hph) as [a [[next r'] Ha]].
    exists [], a. cbn [task_do]. assert (is_Some (session_step gen ctx (if bool_decide (name = "") then prefix i else name +:+ " " +:+ prefix i)
      scope a r i st todo ph)) as Hsome.
    { unfold session_step. change (mget (st_Session st) (rn_sessions r)) with (session_of r (st_Session st)). rewrite Hs. cbn [mbind option_bind].
      rewrite Ha. cbn [mbind option_bind]. destruct next; eauto. }
    by destruct ph.
  - assert (exists k b, bs !! k = Some b /\ (0 < held n b.2)%nat) as (k & [bname bt] & Hk & Hb).
    { clear IH. induction bs as [|b bs IHb]; simpl in Hheld; [lia|]. destruct (held n b.2) eqn:E.
      - destruct IHb as (k & b' & ? & ?); [lia|]. by exists (S k), b'.
      - exists 0%nat, b. split; [done|lia]. }
    eapply can_step_branch; [exact Hk|]. assert ((bname, bt) ∈ bs) as Hin by (apply list_elem_of_lookup; eauto).
    eapply Forall_elem in Hin; [|exact IH]. apply Hin; [done|eauto].
Qed.

(** *** No mutex is held *)

(** Waits at a barrier that is not open, in a context that lives. *)
Definition blocked (ctx : option error) scope t : Prop :=
  exists n, waiting t = Some n /\ match scope with Some (total, hits) => ctx = None /\ hits_of n hits < total | None => True end.

Lemma run_progress ctx prefix name scope r i st todo ph :
  (forall n, locked r n = 0%nat) -> (forall n, held n (TRun i st todo ph) = 0%nat) ->
  can_step ctx prefix name scope r (TRun i st todo ph) \/ blocked ctx scope (TRun i st todo ph).
Proof.
  intros Hfree Hheld. assert (holding ph = false) as Hph.
  { specialize (Hheld (st_Session st)). simpl in Hheld. rewrite bool_decide_true in Hheld by done. by destruct (holding ph). }
  destruct ph as [| |k|]; try done.
  - left. exists [], AGo. cbn [task_do]. unfold step_do, Wait_arrive, Wait_blocked. destruct (bool_decide (st_Step st = "parallel")); [eauto|].
    destruct (bool_decide (st_Step st = "barrier")); [destruct scope as [[]|]; eauto|].
    specialize (Hfree (st_Session st)). unfold locked, session_of in Hfree. destruct (mget _ _) as [s|]; [|eauto].
    destruct (ss_locked s); [lia|eauto].
  - destruct scope as [[total hits]|]; [|right; exists (st_Name st); by split].
    destruct (hits_of (st_Name st) hits <? total) eqn:E.
    + destruct ctx as [e|]; [left|right; exists (st_Name st); bool_facts; by split_and!].
      exists [], AArrived. cbn [task_do]. unfold step_do, Wait_arrive, Wait_blocked. fold (hits_of (st_Name st) hits). rewrite E. eauto.
    + left. exists [], AArrived. cbn [task_do]. unfold step_do, Wait_arrive, Wait_blocked. fold (hits_of (st_Name st) hits). rewrite E. eauto.
Qed.

(** Of lists that are all the front of one list, a shortest one is in front of all of them. *)
Lemma shortest_front {A} (arrs : list (list A)) : arrs <> [] -> exists k arr, arrs !! k = Some arr /\ forall x, x ∈ arrs -> (length arr <= length x)%nat.
Proof.
  induction arrs as [|x arrs IH]; [done|]. intros _. destruct arrs as [|y arrs].
  - exists 0%nat, x. split; [done|]. by intros z ->%list_elem_of_singleton.
  - destruct IH as (k & arr & Hk & Hmin); [done|]. destruct (decide (length x <= length arr)%nat) as [Hle|Hlt].
    + exists 0%nat, x. split; [done|]. intros z [->|Hz]%elem_of_cons; [done|]. specialize (Hmin z Hz). lia.
    + exists (S k), arr. split; [done|]. intros z [->|Hz]%elem_of_cons; [lia|by apply Hmin].
Qed.

Lemma front_elem {A} (L arr rest arr' rest' : list A) n :
  L = arr ++ rest -> L = arr' ++ rest' -> (length arr <= length arr')%nat -> last arr = Some n -> n ∈ arr'.
Proof.
  intros -> Heq Hlen Hlast. apply last_Some in Hlast as [l ->]. rewrite length_app in Hlen. simpl in Hlen.
  apply list_elem_of_lookup. exists (length l). assert ((arr' ++ rest') !! length l = Some n) as Hl.
  { rewrite <- Heq, <- (assoc_L (++)). cbn [app]. by apply list_lookup_middle. }
  by rewrite lookup_app_l in Hl by lia.
Qed.

Lemma times_elem n l : n ∈ l -> (1 <= times n l)%nat.
Proof. intros Hn%list_elem_of_In. unfold times. apply (List.count_occ_In String.string_dec) in Hn. lia. Qed.

Lemma sum_at_least {A} (f : A -> nat) l : (forall x, x ∈ l -> 1 <= f x)%nat -> (length l <= sum_list_with f l)%nat.
Proof.
  induction l as [|x l IH]; intros Hf; simpl; [lia|]. assert (1 <= f x)%nat by (apply Hf; by left).
  assert (length l <= sum_list_with f l)%nat by (apply IH; intros y Hy; apply Hf; by right). lia.
Qed.

(** When the branches meet their barriers in one order, they are not all blocked. *)
Lemma not_all_blocked hits errs bs :
  par_node one_order hits None errs bs ->
  (forall b, b ∈ bs -> b.2 = TDone None \/ blocked None (Some (len bs, hits)) b.2) -> forall b, b ∈ bs -> b.2 = TDone None.
Proof.
  intros [(Ls & arrs & HL & Ha & [L HQ] & Harr & Hh) _] Hall b Hb. destruct (Hall b Hb) as [?|Hbl]; [done|exfalso].
  assert (forall k b, bs !! k = Some b -> exists arr rest, arrs !! k = Some arr /\ L = arr ++ rest /\
    (failed b.2 = false -> rest = pending b.2) /\ (forall n, waiting b.2 = Some n -> last arr = Some n)) as Hk.
  { intros k b' Hk. assert (is_Some (Ls !! k)) as [L' HkL] by (apply lookup_lt_is_Some; rewrite HL; by eapply lookup_lt_Some).
    assert (is_Some (arrs !! k)) as [arr Hka] by (apply lookup_lt_is_Some; rewrite Ha; by eapply lookup_lt_Some).
    destruct (Harr k L' b' arr HkL Hk Hka) as [(rest & HLr & Hrest & Hw) _].
    rewrite (HQ L') in HLr by (apply list_elem_of_lookup; eauto). eauto 10. }
  assert (exists k b n arr, bs !! k = Some b /\ arrs !! k = Some arr /\ waiting b.2 = Some n /\ hits_of n hits < len bs /\
    forall x, x ∈ arrs -> (length arr <= length x)%nat) as (k & bk & n & arr & Hbk & Hka & Hw & Hhits & Hmin).
  { destruct (shortest_front arrs) as (k & arr & Hka & Hmin); [intros ->; destruct bs; [by apply not_elem_of_nil in Hb|done]|].
    assert (is_Some (bs !! k)) as [bk Hbk] by (apply lookup_lt_is_Some; rewrite <- Ha; by eapply lookup_lt_Some).
    destruct (Hall bk) as [Hdone|(n & Hw & _ & Hn)]; [apply list_elem_of_lookup; eauto| |by exists k, bk, n, arr].
    destruct (Hk k bk Hbk) as (arr' & rest & Hka' & HLr & Hrest & _). rewrite Hdone in Hrest. simpl in Hrest. rewrite Hrest, app_nil_r in HLr by done.
    simplify_eq. apply list_elem_of_lookup in Hb as [j Hj]. destruct Hbl as (n & Hw & _ & Hn).
    destruct (Hk j b Hj) as (arrj & restj & Hja & HLj & _). exists j, b, n, arrj. split_and!; try done.
    intros x Hx. specialize (Hmin x Hx). rewrite HLj, length_app in Hmin. lia. }
  destruct (Hk k bk Hbk) as (arr' & rest & Hka' & HLr & _ & Hlast).
  assert (arr' = arr) as -> by congruence.
  assert (length arrs <= sum_list_with (times n) arrs)%nat as Hsum.
  { apply sum_at_least. intros x Hx. apply times_elem. pose proof Hx as [j Hj]%list_elem_of_lookup.
    assert (is_Some (bs !! j)) as [bj Hbj] by (apply lookup_lt_is_Some; rewrite <- Ha; by eapply lookup_lt_Some).
    destruct (Hk j bj Hbj) as (x' & rest' & Hjx & HLx & _). assert (x' = x) as -> by congruence.
    eapply (front_elem _ arr rest x rest'); [done|done|by apply Hmin|by apply Hlast]. }
  rewrite Hh in Hhits. unfold len in Hhits. lia.
Qed.

(** Without a held mutex a task is over, can run a section, or is blocked at a barrier. *)
Lemma free_progress t : forall ctx prefix name scope r,
  (forall n, locked r n = 0%nat) -> (forall n, held n t = 0%nat) -> par_ok one_order t ->
  can_step ctx prefix name scope r t \/ blocked ctx scope t \/ task_over t = true \/ t = TCrash.
Proof.
  induction t as [i st todo ph|i hits c errs bs todo IH| |] using task_ind'; intros ctx prefix name scope r Hfree Hheld Hok; [|left|auto..].
  { destruct (run_progress ctx prefix name scope r i st todo ph Hfree Hheld); auto. }
  apply par_ok_par in Hok as [Hnode Hbs].
  set (cx := match c with Some e => Some e | None => ctx end).
  assert (forall k b, bs !! k = Some b -> can_step ctx prefix name scope r (TPar i hits c errs bs todo) \/
    blocked cx (Some (len bs, hits)) b.2 \/ task_over b.2 = true) as Hcase.
  { intros k [bname bt] Hk. assert ((bname, bt) ∈ bs) as Hin by (apply list_elem_of_lookup; eauto).
    pose proof (Forall_elem _ _ _ IH Hin cx (branch_path (prefix i) (Z.of_nat k)) bname (Some (len bs, hits)) r Hfree) as Hx. simpl in Hx.
    destruct Hx as [Hs|[Hbl|[Ho|Hc]]]; [| |left; by eapply can_step_branch|by right; left|by right; right|].
    - intros n. specialize (Hheld n). simpl in Hheld. pose proof (sum_elem (fun b => held n b.2) bs k _ Hk). simpl in *. lia.
    - by apply (Hbs (bname, bt)).
    - by destruct (proj1 (proj2 (proj2 Hnode)) _ Hin). }
  destruct (forallb (fun b => task_over b.2) bs) eqn:Eover.
  { exists [], AJoin. cbn [task_do]. rewrite Eover. eauto. }
  assert (can_step ctx prefix name scope r (TPar i hits c errs bs todo) \/
    forall b, b ∈ bs -> blocked cx (Some (len bs, hits)) b.2 \/ task_over b.2 = true) as [?|Hall]; [|done|].
  { clear -Hcase. assert (forall l : list (string * task), (forall b, b ∈ l -> b ∈ bs) -> can_step ctx prefix name scope r (TPar i hits c errs bs todo) \/
      forall b, b ∈ l -> blocked cx (Some (len bs, hits)) b.2 \/ task_over b.2 = true) as Hl; [|by apply (Hl bs)].
    induction l as [|b l IH]; intros Hl; [right; by intros b ?%not_elem_of_nil|].
    destruct IH as [?|IH]; [by intros; apply Hl; right|by left|]. assert (b ∈ bs) as [k Hk]%list_elem_of_lookup by (apply Hl; by left).
    destruct (Hcase k b Hk) as [?|Hb]; [by left|]. right. by intros b' [->|?]%elem_of_cons; [|apply IH]. }
  exfalso. destruct cx as [e|] eqn:Ecx.
  - assert (forallb (fun b => task_over b.2) bs = true); [|congruence]. apply forallb_forall. intros b Hb%list_elem_of_In.
    destruct (Hall b Hb) as [(n & _ & ? & _)|?]; done.
  - destruct c as [e|]; [done|]. assert (errs = []) as -> by (by apply (proj1 (proj2 Hnode))).
    assert (forall b, b ∈ bs -> b.2 = TDone None) as Hdone.
    { apply (not_all_blocked hits []); [done|]. intros [n b] Hb. destruct (Hall _ Hb) as [Hbl|Ho]; [|left].
      - right. destruct Hbl as (m & Hw & _ & Hm). by exists m.
      - simpl in *. destruct b as [| |[e|]|]; try done. exfalso. eapply not_elem_of_nil. apply (proj2 (proj2 (proj2 Hnode)) e). eauto. }
    assert (forallb (fun b => task_over b.2) bs = true); [|congruence]. apply forallb_forall. intros b Hb%list_elem_of_In.
    by rewrite (Hdone b Hb).
Qed.

End progress.
