(* ===== verification/DemoValidate.v ===== *)
(** * What validation gives the runner

    Every step of a scenario that [Validate] accepts has been validated itself, at any depth; in
    a parallel step no branch repeats a barrier, and all branches have the same ones. *)

From stdpp Require Import base list strings gmap.
From S2P Require Import Prelude Errors Types Float64 Password DemoValue DemoMatch DemoMatchProps DemoSchema DemoRun DemoTasks DemoBarriers.

Section step_ind.
Context (P : Step -> Prop).
Context (Hstep : forall st, (forall b, b ∈ st_Branches st -> Forall P b.2) -> P st).

Lemma step_ind_size n st : (weight st < n)%nat -> P st.
Proof.
  revert st. induction n as [|n IH]; intros st Hn; [lia|]. apply Hstep. intros b [k Hk]%list_elem_of_lookup.
  rewrite weight_eq in Hn. pose proof (sum_elem (fun b => weights b.2) _ _ _ Hk) as Hb. simpl in Hb.
  apply List.Forall_forall. intros x [j Hj]%list_elem_of_In%list_elem_of_lookup. apply IH.
  pose proof (sum_elem weight _ _ _ Hj). unfold weights in *. lia.
Qed.

Lemma step_ind' st : P st.
Proof. apply (step_ind_size (S (weight st))). lia. Qed.
End step_ind.

Lemma first_error_None {A} (f : Z -> A -> option error) i l :
  first_error f i l = None -> forall a, a ∈ l -> exists j, f j a = None.
Proof.
  revert i. induction l as [|x l IH]; intros i Hf a Ha; [by apply not_elem_of_nil in Ha|]. simpl in Hf.
  destruct (f i x) eqn:E; [done|]. apply elem_of_cons in Ha as [->|Ha]; [eauto|by eapply IH].
Qed.

(** The loops over the branches and their steps. *)
Lemma validateScript_None sc path i j script :
  validateScript (validateStep sc) path i j script = None -> forall st, st ∈ script -> exists p, validateStep sc st p true = None.
Proof.
  revert j. induction script as [|x script IH]; intros j Hs st Hst; [by apply not_elem_of_nil in Hst|]. simpl in Hs.
  destruct (validateStep sc x (branch_path path i j) true) eqn:E; [done|].
  apply elem_of_cons in Hst as [->|Hst]; [eauto|by eapply IH].
Qed.

Lemma validateBranches_None sc path i seen bs :
  validateBranches (validateStep sc) path i seen bs = None ->
  forall br, br ∈ bs -> br.2 <> [] /\ forall x, x ∈ br.2 -> exists p, validateStep sc x p true = None.
Proof.
  revert i seen. induction bs as [|[n script] bs IH]; intros i seen Hb br Hbr; [by apply not_elem_of_nil in Hbr|].
  cbn [validateBranches] in Hb. unfold fail_if in Hb. destruct (blank n); [done|]. destruct (bool_decide (n ∈ seen)); [done|].
  destruct (len script =? 0) eqn:Hlen; [done|]. destruct (validateScript _ _ _ _ _) eqn:Hsteps; [done|].
  apply elem_of_cons in Hbr as [->|Hbr]; [|by eapply IH].
  split; [simpl; by intros ->|]. by eapply validateScript_None.
Qed.

Lemma validateStep_parallel sc st path b :
  validateStep sc st path b = None -> st_Step st = "parallel" ->
  validateParallelBarriers path (st_Branches st) = None /\ 2 <= len (st_Branches st) /\
  forall br, br ∈ st_Branches st -> br.2 <> [] /\ forall x, x ∈ br.2 -> exists p, validateStep sc x p true = None.
Proof.
  intros Hv Hk. destruct st as [kind ? ? ? ? ? ? ? ? ? ? bs]. cbn [validateStep st_Step st_Branches] in *. subst kind.
  rewrite bool_decide_true in Hv by done. unfold fail_if in Hv. destruct (len bs <? 2) eqn:Hl; [done|]. bool_facts.
  destruct (validateBranches _ _ _ _ _) eqn:Hbs; [done|]. destruct (validateParallelBarriers path bs) eqn:Hpb; [done|].
  split_and!; [done|lia|]. by eapply validateBranches_None.
Qed.

Lemma validateStep_leaf sc st path b :
  validateStep sc st path b = None -> st_Step st <> "parallel" -> validateLeaf sc st path b = None.
Proof.
  intros Hv Hk. destruct st as [kind ? ? ? ? ? ? ? ? ? ? bs]. cbn [validateStep st_Step] in *. rewrite bool_decide_false in Hv by done.
  by destruct (validateLeaf _ _ _ _).
Qed.

Definition validated (sc : Scenario) (st : Step) : Prop := exists p b, validateStep sc st p b = None.

Lemma in_flatten st x :
  In x (flatten st) <-> x = st \/ (st_Step st = "parallel" /\ exists br, br ∈ st_Branches st /\ exists y, y ∈ br.2 /\ In x (flatten y)).
Proof.
  destruct st as [kind ? ? ? ? ? ? ? ? ? ? bs]. cbn [flatten st_Branches st_Step In]. destruct (decide (kind = "parallel")) as [->|Hk].
  - rewrite bool_decide_true by done. rewrite in_flat_map. setoid_rewrite in_flat_map. setoid_rewrite <- list_elem_of_In. naive_solver.
  - rewrite bool_decide_false by done. naive_solver.
Qed.

Lemma validated_flatten sc st x : validated sc st -> In x (flatten st) -> validated sc x.
Proof.
  revert x. induction st as [st IH] using step_ind'. intros x (p & b & Hv) Hx.
  apply in_flatten in Hx as [->|(Hk & br & Hbr & y & Hy & Hx)]; [by exists p, b|].
  specialize (IH br Hbr). eapply Forall_elem in IH; [|exact Hy]. apply IH; [|done].
  destruct (validateStep_parallel sc st p b Hv Hk) as (_ & _ & Hbs). destruct (proj2 (Hbs br Hbr) y Hy) as [q Hq]. by exists q, true.
Qed.

(** A branch of a validated parallel step repeats no barrier, and counts once for each. *)
Lemma branch_barriers_ok path name seen names required required' :
  branch_barriers path name seen names required = Ok required' ->
  NoDup names /\ (forall n, n ∈ names -> n ∉ seen) /\
  forall n, hits_of n required' = hits_of n required + (if bool_decide (n ∈ names) then 1 else 0).
Proof.
  revert seen required. induction names as [|n names IH]; intros seen required Hb.
  - injection Hb as <-. split_and!; [constructor|by intros n ?%not_elem_of_nil|].
    intros n. rewrite bool_decide_false by apply not_elem_of_nil. lia.
  - cbn [branch_barriers] in Hb. destruct (bool_decide (n ∈ seen)) eqn:E; [done|]. bool_facts. apply IH in Hb as (Hd & Hn & Hcount).
    assert (n ∉ names) as Hnin by (intros Hin; apply (Hn n Hin); by left). split_and!.
    + by constructor.
    + intros m [->|Hm]%elem_of_cons; [done|]. intros Hs. apply (Hn m Hm). by right.
    + intros m. rewrite Hcount. change (default 0 (mget n required)) with (hits_of n required). rewrite hits_of_put. destruct (decide (m = n)) as [->|Hne].
      * rewrite (bool_decide_false (n ∈ names)), !bool_decide_true by (done || by left). lia.
      * rewrite (bool_decide_false (m = n)) by done. rewrite (bool_decide_ext (m ∈ n :: names) (m ∈ names)); [lia|].
        rewrite elem_of_cons. naive_solver.
Qed.

Lemma branch_barriers_no_panic path name seen names required : branch_barriers path name seen names required <> Panic.
Proof. revert seen required. induction names as [|n names IH]; intros; simpl; [done|]. by destruct (bool_decide _). Qed.

(** The count of one barrier over the branches. *)
Definition has_barrier (n : string) (b : string * list Step) : nat := if bool_decide (n ∈ barrier_names b.2) then 1 else 0.

Lemma barriers_fold path bs m :
  let fold := fold_left (fun required b => required ← required; branch_barriers path b.1 [] (barrier_names b.2) required) bs in
  match m with
  | Ok r0 =>
      match fold m with
      | Ok r => (forall br, br ∈ bs -> NoDup (barrier_names br.2)) /\
                forall n, hits_of n r = hits_of n r0 + Z.of_nat (sum_list_with (has_barrier n) bs)
      | Err _ => True
      | Panic => False
      end
  | Err e => fold m = Err e
  | Panic => True
  end.
Proof.
  revert m. induction bs as [|b bs IH]; intros m; simpl.
  - destruct m; [|done..]. split; [by intros br ?%not_elem_of_nil|]. intros n. lia.
  - destruct m as [r0|e|]; [|exact (IH (Err e))|done]. cbn [mbind result_bind].
    destruct (branch_barriers path b.1 [] (barrier_names b.2) r0) as [r1|e|] eqn:Eb; [| |by apply branch_barriers_no_panic in Eb].
    + apply branch_barriers_ok in Eb as (Hd & _ & Hcount). specialize (IH (Ok r1)). simpl in IH.
      destruct (fold_left _ bs (Ok r1)); [|done..]. destruct IH as [Hds Hsum]. split.
      * intros br [->|Hbr]%elem_of_cons; [done|by apply Hds].
      * intros n. rewrite Hsum, Hcount. unfold has_barrier. destruct (bool_decide (n ∈ barrier_names b.2)); lia.
    + specialize (IH (Err e)). simpl in IH. by rewrite IH.
Qed.

(** No branch of a validated parallel step repeats a barrier, and all have the same ones. *)
Lemma validateParallelBarriers_matched path bs :
  validateParallelBarriers path bs = None -> matched (map (fun b => barrier_names b.2) bs).
Proof.
  unfold validateParallelBarriers. intros Hv. pose proof (barriers_fold path bs (Ok [])) as Hf. simpl in Hf.
  destruct (fold_left _ bs (Ok [])) as [required|e|]; [|done..]. destruct Hf as [Hd Hsum]. split.
  - intros L (br & <- & Hbr)%list_elem_of_In%in_map_iff. by apply Hd, list_elem_of_In.
  - intros L L' n (br & <- & Hbr)%list_elem_of_In%in_map_iff (br' & <- & Hbr')%list_elem_of_In%in_map_iff Hn.
    apply list_elem_of_In in Hbr, Hbr'. specialize (Hsum n). change (hits_of n []) with 0 in Hsum.
    assert (forall b, b ∈ bs -> has_barrier n b <= 1)%nat as Hone by (intros b _; unfold has_barrier; case_bool_decide; lia).
    assert (has_barrier n br = 1)%nat as Hbr1 by (unfold has_barrier; by rewrite bool_decide_true).
    assert (1 <= sum_list_with (has_barrier n) bs)%nat as Hpos.
    { apply list_elem_of_lookup in Hbr as [k Hk]. pose proof (sum_elem (has_barrier n) bs k br Hk). lia. }
    assert (exists c, mget n required = Some c /\ c = Z.of_nat (sum_list_with (has_barrier n) bs)) as (c & Hc & Hcsum).
    { unfold hits_of in Hsum. destruct (mget n required) as [c|]; simpl in Hsum; [|lia]. exists c. split; [done|lia]. }
    apply mget_elem in Hc. destruct (first_error_None _ _ _ Hv _ Hc) as [j Hj]. unfold fail_if in Hj. simpl in Hj.
    destruct (c =? len bs) eqn:E; [|done]. bool_facts. unfold len in E.
    assert (has_barrier n br' = 1)%nat as Hbr1' by (apply (sum_each_one (has_barrier n) bs); [done|lia|done]).
    unfold has_barrier in Hbr1'. by case_bool_decide.
Qed.

(** ** Whole scenarios *)

(** Every step of the scenario, at any depth. *)
Definition scenario_steps (sc : Scenario) : list Step := flat_map flatten (sc_Script sc).

Lemma Validate_steps sc : Validate sc = None -> sc_Script sc <> [] /\ forall st, In st (scenario_steps sc) -> validated sc st.
Proof.
  unfold Validate, fail_if. intros Hv. repeat (case_match; [done|]).
  split; [intros E; by rewrite E in *|]. unfold scenario_steps. intros st (x & Hx & Hst)%in_flat_map.
  apply list_elem_of_In in Hx. destruct (first_error_None _ _ _ Hv x Hx) as [j Hj]. eapply validated_flatten; [|exact Hst]. by eexists _, _.
Qed.

Lemma Validate_matched sc : Validate sc = None -> steps_ok matched (scenario_steps sc).
Proof.
  intros [_ Hv]%Validate_steps st Hst Hk. destruct (Hv st Hst) as (p & b & Hs).
  destruct (validateStep_parallel sc st p b Hs Hk) as (Hpb & _ & _). by eapply validateParallelBarriers_matched.
Qed.

Lemma requireSession_None sc p n : requireSession sc p n = None -> is_Some (mget n (sc_Sessions sc)).
Proof. unfold requireSession, fail_if. destruct (blank n); [done|]. by case_bool_decide. Qed.

(** What a step other than [parallel], [barrier] and [sleep] needs is there. *)
Lemma validated_session sc st : validated sc st ->
  st_Step st <> "parallel" -> st_Step st <> "barrier" -> st_Step st <> "sleep" ->
  is_Some (mget (st_Session st) (sc_Sessions sc)) /\ (st_Step st = "connect" -> is_Some (st_Expect st)).
Proof.
  intros (p & b & Hv) Hp Hb Hs. apply validateStep_leaf in Hv; [|done]. unfold validateLeaf in Hv. cbv zeta in Hv.
  rewrite (bool_decide_false (st_Step st = "sleep")) in Hv by done. rewrite (bool_decide_false (st_Step st = "barrier")) in Hv by done.
  destruct (requireSession sc p (st_Session st)) eqn:E; [by repeat (destruct (bool_decide (st_Step st = _)); [done|])|].
  apply requireSession_None in E. split; [done|]. intros Hc. rewrite bool_decide_true in Hv by done. unfold fail_if in Hv.
  by destruct (st_Expect st).
Qed.
