(* ===== verification/DemoRunProps.v ===== *)
(** * What the demo runner promises: runs that end, barriers, mutexes

    The invariant of a run ([alive]), progress and termination, and what holds in every parallel
    step. The scenarios of the examples are used by the files behind this one. *)

From stdpp Require Import base list strings gmap.
From S2P Require Import Prelude Errors Types Text Encoding Float64 Password Store ClientApi Client DemoValue DemoMatch DemoMatchProps DemoSchema.
From S2P Require Import DemoReflect DemoAction DemoRun DemoTasks DemoBarriers DemoProgress DemoValidate.

(** ** Scenarios for the examples *)

Definition demo_step (kind name session : string) : Step := mkStep kind name session "" None None "" [] [] 0 0 [].
Definition demo_parallel (branches : list (string * list Step)) : Step := mkStep "parallel" "" "" "" None None "" [] [] 0 0 branches.
Definition demo_sleep (session : string) : Step := mkStep "sleep" "" session "" None None "" [] [] 0 1 [].
Definition demo_spec : SessionSpec := mkSessionSpec "n" (mkUserCredential 1 2 "" (HashedPassword "h")) [].
Definition demo_scenario (script : list Step) : Scenario :=
  mkScenario Version "demo" "" (mkDefaults 1 1 (Some true)) [] [("n", mkNodeConfig "http://h")] [("alice", demo_spec)] script.

Definition demo_start (script : list Step) : sys := mkSys None (new_task script) (new_runner (demo_scenario script)).

(** Two branches that meet the same two barriers in opposite orders. *)
Definition crossed : list Step :=
  [demo_parallel [("a", [demo_step "barrier" "x" ""; demo_step "barrier" "y" ""]);
                  ("b", [demo_step "barrier" "y" ""; demo_step "barrier" "x" ""])]].
(** ... and in the same order, with a step between them. *)
Definition in_step : list Step :=
  [demo_parallel [("a", [demo_step "barrier" "x" ""; demo_step "close" "" "alice"; demo_step "barrier" "y" ""]);
                  ("b", [demo_step "barrier" "x" ""; demo_step "barrier" "y" ""])]].

Section system.
Context `{Platform} (gen : string -> Z -> result error string).
Implicit Types (y : sys).

(** ** The invariant of a run that has not crashed *)

Record alive (Q : list (list string) -> Prop) (sc : Scenario) y : Prop := {
  al_crash : sy_task y <> TCrash;
  al_names : names_ok (sy_runner y);
  al_locks : forall n, held n (sy_task y) = locked (sy_runner y) n;
  al_par : par_ok Q (sy_task y);
  al_steps : forall st, In st (task_steps (sy_task y)) -> In st (scenario_steps sc);
  al_wait : waiting (sy_task y) = None;
  al_scenario : rn_scenario (sy_runner y) = sc;
  al_sessions : forall n, is_Some (session_of (sy_runner y) n) <-> is_Some (mget n (sc_Sessions sc));
}.

Definition sys_inv (Q : list (list string) -> Prop) (sc : Scenario) y : Prop := sy_task y = TCrash \/ alive Q sc y.

Lemma locked_at_most r n : (locked r n <= 1)%nat.
Proof. unfold locked. repeat case_match; lia. Qed.

Lemma task_do_crash route ctx prefix name scope a r : task_do gen ctx prefix name scope route a r TCrash = None.
Proof. by destruct route. Qed.

Lemma sys_do_inv Q sc x y y' : steps_ok Q (scenario_steps sc) -> sys_inv Q sc y -> sys_do gen x y = Some y' -> sys_inv Q sc y'.
Proof.
  intros HQ Hinv Hdo. destruct x as [route a|k cb|e]; simpl in Hdo.
  - destruct (task_do _ _ _ _ _ _ _ _ _) as [[[t' sc'] r']|] eqn:E; [|done]. injection Hdo as <-.
    destruct Hinv as [Hc|[Hc Hn Hl Hp Hs Hw Hsc Hses]]; [rewrite Hc, task_do_crash in E; done|].
    assert (t' = TCrash \/ t' <> TCrash) as [->|Hne] by (destruct t'; [right|right|right|left]; done); [by left|]. right.
    destruct (task_do_locks _ _ _ _ _ _ _ _ _ _ _ _ Hn (fun n => Nat.eq_le_incl _ _ (Hl n)) E Hne) as [(Hsc' & Hn' & Hdom) Hl'].
    constructor; simpl; [done|done| | | | | |].
    + intros n. specialize (Hl n). specialize (Hl' n). lia.
    + eapply task_do_par; [exact E| |done]. intros st Hst. by apply HQ, Hs.
    + intros st Hst. apply Hs. by eapply task_do_steps.
    + destruct (task_do_view _ _ _ _ _ _ _ _ _ _ _ _ E) as [[_ Hf]|[(_ & _ & ? & _)|(n & t & h & ? & _)]]; [by destruct t'|done..].
    + congruence.
    + intros n. by rewrite <- Hdom.
  - destruct (rn_conns (sy_runner y) !! k); [|done]. injection Hdo as <-.
    destruct Hinv as [Hc|[Hc Hn Hl Hp Hs Hw Hsc Hses]]; [by left|right]. by constructor.
  - destruct (sy_ctx y); [done|]. injection Hdo as <-.
    destruct Hinv as [Hc|[Hc Hn Hl Hp Hs Hw Hsc Hses]]; [by left|right]. by constructor.
Qed.

Lemma sys_run_inv Q sc l y y' : steps_ok Q (scenario_steps sc) -> sys_inv Q sc y -> sys_run gen l y = Some y' -> sys_inv Q sc y'.
Proof.
  intros HQ. revert y. induction l as [|x l IH]; intros y Hinv Hrun; simpl in Hrun; [by simplify_eq|].
  destruct (sys_do gen x y) as [y1|] eqn:E; [|done]. eapply IH; [|exact Hrun]. by eapply sys_do_inv.
Qed.

Lemma new_session_of sc n : session_of (new_runner sc) n = new_session sc n <$> mget n (sc_Sessions sc).
Proof.
  unfold session_of, new_runner. simpl. induction (sc_Sessions sc) as [|[k spec] l IH]; [done|]. simpl.
  case_bool_decide; [by subst|apply IH].
Qed.

Lemma start_inv Q sc y : RunScenario (Some sc) = Ok y -> sys_inv Q sc y /\ sy_task y = new_task (sc_Script sc) /\ Validate sc = None.
Proof.
  simpl. destruct (Validate sc) eqn:Hv; [done|]. intros [= <-]. split; [|done]. right.
  assert (forall n s, session_of (new_runner sc) n = Some s -> ss_name s = n /\ ss_locked s = false) as Hnew.
  { intros n s Hs. rewrite new_session_of in Hs. apply fmap_Some in Hs as (spec & _ & ->). done. }
  constructor; simpl.
  - by destruct (sc_Script sc).
  - intros n s Hs. by apply Hnew.
  - intros n. rewrite held_new. unfold locked. destruct (session_of _ n) as [s|] eqn:E; [|done]. by rewrite (proj2 (Hnew n s E)).
  - apply par_ok_leaf. by destruct (sc_Script sc).
  - intros st. by rewrite steps_new.
  - by destruct (sc_Script sc).
  - done.
  - intros n. rewrite new_session_of, fmap_is_Some. done.
Qed.

(** Sections of the runner among the steps of a run. *)
Fixpoint sections (l : list sys_act) : nat :=
  match l with [] => 0 | SStep _ _ :: l => S (sections l) | _ :: l => sections l end.

Lemma sys_run_size l y y' : sys_run gen l y = Some y' -> (sections l + task_size (sy_task y') <= task_size (sy_task y))%nat.
Proof.
  revert y. induction l as [|x l IH]; intros y Hrun; simpl in Hrun; [by simplify_eq|].
  destruct (sys_do gen x y) as [y1|] eqn:E; [|done]. specialize (IH y1 Hrun). destruct x as [route a|k cb|e]; simpl in E |- *.
  - destruct (task_do _ _ _ _ _ _ _ _ _) as [[[t' sc'] r']|] eqn:Et; [|done]. injection E as <-. apply task_do_smaller in Et. simpl in IH. lia.
  - destruct (rn_conns (sy_runner y) !! k); [|done]. injection E as <-. simpl in IH. lia.
  - destruct (sy_ctx y); [done|]. injection E as <-. simpl in IH. lia.
Qed.

(** ** Runs end *)

Definition ordered (sc : Scenario) : Prop := steps_ok one_order (scenario_steps sc).
Definition over y : Prop := task_over (sy_task y) = true \/ sy_task y = TCrash.

Lemma run_progresses sc y : sys_inv one_order sc y -> over y \/ exists route a y', sys_do gen (SStep route a) y = Some y'.
Proof.
  intros [Hc|[Hc Hn Hl Hp Hs Hw Hsc Hses]]; [by left; right|].
  assert (can_step gen (sy_ctx y) script_path "" None (sy_runner y) (sy_task y) -> exists route a y', sys_do gen (SStep route a) y = Some y') as Hgo.
  { intros (route & a & [[[t' sc'] r'] Ht]). exists route, a. simpl. rewrite Ht. eauto. }
  assert ((exists n, 0 < held n (sy_task y))%nat \/ forall n, held n (sy_task y) = 0%nat) as [[n Hheld]|Hfree].
  { destruct (decide (Exists (fun n => 0 < locked (sy_runner y) n)%nat (rn_sessions (sy_runner y)).*1)) as [Hex|Hno].
    - left. apply Exists_exists in Hex as (n & _ & Hpos). exists n. by rewrite Hl.
    - right. intros n. rewrite Hl. destruct (decide (n ∈ (rn_sessions (sy_runner y)).*1)) as [Hin|Hnin].
      + apply not_Exists_Forall in Hno; [|intros; apply _]. pose proof (Forall_elem _ _ _ Hno Hin) as Hz. simpl in Hz. lia.
      + apply mget_None in Hnin. unfold locked, session_of. by rewrite Hnin. }
  - right. apply Hgo. apply (held_progress gen n); [done|]. rewrite Hl in Hheld. unfold locked in Hheld.
    destruct (session_of _ n); [eauto|lia].
  - destruct (free_progress gen (sy_task y) (sy_ctx y) script_path "" None (sy_runner y)) as [?|[(n & ? & _)|[?|?]]].
    + intros n. by rewrite <- Hl.
    + done.
    + done.
    + right. by apply Hgo.
    + congruence.
    + by left; left.
    + by left; right.
Qed.

Definition crossed_hits : list (string * Z) := [("x", 1); ("y", 1)].
Definition crossed_task : task :=
  TPar 0 crossed_hits None []
    [("a", TRun 0 (demo_step "barrier" "x" "") [demo_step "barrier" "y" ""] InBarrier);
     ("b", TRun 0 (demo_step "barrier" "y" "") [demo_step "barrier" "x" ""] InBarrier)] [].
Definition crossed_stuck : sys := mkSys None crossed_task (new_runner (demo_scenario crossed)).

Lemma crossed_run : sys_run gen [SStep [] AGo; SStep [0%nat] AGo; SStep [1%nat] AGo] (demo_start crossed) = Some crossed_stuck.
Proof. reflexivity. Qed.

Lemma barrier_blocked route a r path name i n todo hits :
  hits_of n hits < 2 -> mget "" (rn_sessions r) = None ->
  task_do gen None path name (Some (2, hits)) route a r (TRun i (demo_step "barrier" n "") todo InBarrier) = None.
Proof.
  intros Hn Hs. destruct route; [|done]. cbn [task_do]. unfold step_do, Wait_arrive, Wait_blocked, session_step. cbn [st_Session demo_step st_Name].
  rewrite Hs. fold (hits_of n hits). destruct (hits_of n hits <? 2) eqn:E; [|bool_facts; lia]. by destruct a.
Qed.

Lemma crossed_no_step route a : sys_do gen (SStep route a) crossed_stuck = None.
Proof.
  unfold sys_do, crossed_stuck. cbn [sy_ctx sy_task sy_runner].
  destruct route as [|[|[|k]] route]; cbn [task_do crossed_task]; [by destruct a| | |done]; cbn [lookup list_lookup mbind option_bind];
    rewrite barrier_blocked; done.
Qed.

(** C20: demo_run_ends. A run of a scenario whose branches meet their barriers in one order cannot
    go on for ever and cannot get stuck: it runs at most [weights] sections, and until it is over
    some goroutine can run its next one (given that the client answers its requests). Validation
    does not ask for that order: there is a scenario that it accepts and a run of it in which
    every goroutine waits for good at a barrier that nobody will open. *)
Theorem demo_run_ends :
  (forall sc y0 l y, RunScenario (Some sc) = Ok y0 -> ordered sc -> sys_run gen l y0 = Some y ->
     (sections l + task_size (sy_task y) <= weights (sc_Script sc))%nat /\
     (over y \/ exists route a y', sys_do gen (SStep route a) y = Some y')) /\
  (exists sc y0 l y, RunScenario (Some sc) = Ok y0 /\ sys_run gen l y0 = Some y /\ ~ over y /\
     forall route a, sys_do gen (SStep route a) y = None).
Proof.
  split.
  - intros sc y0 l y (Hinv & Ht & Hv)%(start_inv one_order) Ho Hrun. split.
    + apply sys_run_size in Hrun. rewrite Ht in Hrun. pose proof (task_size_new (sc_Script sc)). lia.
    + eapply run_progresses, sys_run_inv; [exact Ho|exact Hinv|exact Hrun].
  - exists (demo_scenario crossed), (demo_start crossed), [SStep [] AGo; SStep [0%nat] AGo; SStep [1%nat] AGo], crossed_stuck.
    split_and!; [vm_compute; reflexivity|apply crossed_run|by intros [|]|apply crossed_no_step].
Qed.

(** ** Parallel steps *)

(** The task that [route] leads to. *)
Fixpoint node_at (route : list nat) (t : task) : option task :=
  match route, t with
  | [], _ => Some t
  | k :: route, TPar _ _ _ _ bs _ => b ← bs !! k; node_at route b.2
  | _, _ => None
  end.

Lemma node_at_subtask route t x : node_at route t = Some x -> subtask x t.
Proof.
  revert t. induction route as [|k route IH]; intros t Hx; [injection Hx as ->; constructor|].
  destruct t as [|i hits c errs bs todo| |]; try done. simpl in Hx. destruct (bs !! k) as [[n b]|] eqn:E; [|done].
  econstructor; [by eapply list_elem_of_lookup_2|]. by apply IH.
Qed.

(** What one section makes of a parallel step with the branches [bs] and the errors [errs]: a
    branch that it ends in failure has its error put behind them, and when all branches are over
    the join goes on with the first of them. *)
Definition node_moves (i : Z) (errs : list error) (bs : list (string * task)) (todo : list Step) (x : option task) : Prop :=
  (exists hits c new bs', x = Some (TPar i hits c (errs ++ new) bs' todo) /\
     (new = [] \/ exists e k n b, new = [e] /\ bs !! k = Some (n, b) /\ task_over b = false /\ bs' !! k = Some (n, TDone (Some e)))) \/
  (forallb (fun b => task_over b.2) bs = true /\ x = Some (after i todo (match errs with e :: _ => Err e | [] => Ok tt end))).

Lemma node_stays i hits c errs bs todo : node_moves i errs bs todo (Some (TPar i hits c errs bs todo)).
Proof. left. exists hits, c, [], bs. rewrite app_nil_r. auto. Qed.

Lemma task_do_over route ctx prefix name scope a r t p :
  task_do gen ctx prefix name scope route a r t = Some p -> task_over t = false.
Proof. by destruct route, t. Qed.

Lemma node_at_over route t i hits c errs bs todo : node_at route t = Some (TPar i hits c errs bs todo) -> task_over t = false.
Proof. by destruct route, t. Qed.

Lemma task_do_node route : forall at_ ctx prefix name scope a r t t' scope' r' i hits c errs bs todo,
  task_do gen ctx prefix name scope at_ a r t = Some (t', scope', r') -> node_at route t = Some (TPar i hits c errs bs todo) ->
  t' = TCrash \/ node_moves i errs bs todo (node_at route t').
Proof.
  induction route as [|k route IH]; intros at_ ctx prefix name scope a r t t' scope' r' i hits c errs bs todo Hs Hx.
  - injection Hx as ->. destruct at_ as [|j at_]; simpl in Hs.
    + destruct a; try done. destruct (forallb _ bs) eqn:Eo; [|done]. injection Hs as <- <- <-. right. by right.
    + destruct (bs !! j) as [[n bt]|] eqn:Ej; [|done]. simpl in Hs. destruct (task_do _ _ _ _ _ _ _ _ _) as [[[bt' sc] r2]|] eqn:E; [|done].
      apply task_do_over in E. simpl in Hs. destruct bt' as [| |[e|]|]; simplify_eq; [right; left..|by left];
        try (eexists _, _, [], _; rewrite app_nil_r; by auto).
      eexists _, _, [e], _. split; [done|]. right. exists e, j, n, bt. split_and!; try done. apply list_lookup_insert_eq. by eapply lookup_lt_Some.
  - destruct t as [|i0 hits0 c0 errs0 bs0 todo0| |]; try done. simpl in Hx. destruct (bs0 !! k) as [[n bt]|] eqn:Ek; [|done]. simpl in Hx.
    destruct at_ as [|j at_]; simpl in Hs.
    + destruct a; try done. destruct (forallb _ bs0) eqn:Eo; [|done]. rewrite forallb_forall in Eo.
      specialize (Eo (n, bt) (proj1 (list_elem_of_In _ _) (list_elem_of_lookup_2 _ _ _ Ek))). simpl in Eo. by rewrite (node_at_over _ _ _ _ _ _ _ _ Hx) in Eo.
    + destruct (bs0 !! j) as [[m bj]|] eqn:Ej; [|done]. simpl in Hs. destruct (task_do _ _ _ _ _ _ _ _ _) as [[[bj' sc] r2]|] eqn:E; [|done].
      simpl in Hs. assert (t' = TCrash \/ exists hits' c' errs', t' = TPar i0 hits' c' errs' (<[j:=(m, bj')]> bs0) todo0 /\ bj' <> TCrash)
        as [?|(hits' & c' & errs' & -> & Hne)]; [destruct bj' as [| |[]|]; simplify_eq; eauto 10|by left|]. right. cbn [node_at].
      destruct (decide (j = k)) as [->|Hjk].
      * rewrite list_lookup_insert_eq by (by eapply lookup_lt_Some). cbn [mbind option_bind snd]. simplify_eq.
        by destruct (IH _ _ _ _ _ _ _ _ _ _ _ _ _ _ _ _ _ E Hx).
      * rewrite list_lookup_insert_ne, Ek by done. cbn [mbind option_bind snd]. rewrite Hx. apply node_stays.
Qed.

(** C21: demo_parallel_safe. In every run of a validated scenario, at any depth and however the
    branches interleave: nobody is past a barrier that a branch of the same parallel step still
    has ahead - every branch that has not failed has it ahead too or waits at it. The context of
    the branches is cancelled exactly when one has failed. A branch that fails has its error put
    behind those of the branches that failed before it, so the first error sent stays the first;
    [wg.Wait] lets the step go on only when all branches are over, and then the step returns
    that first error, or none when every branch ran its script to the end. And no session is in
    two steps at once. *)
Theorem demo_parallel_safe sc y0 l y :
  RunScenario (Some sc) = Ok y0 -> sys_run gen l y0 = Some y ->
  (forall i hits c errs bs todo, subtask (TPar i hits c errs bs todo) (sy_task y) ->
     (forall n b b', b ∈ bs -> b' ∈ bs -> n ∈ pending b'.2 -> failed b.2 = false -> n ∈ pending b.2 \/ waiting b.2 = Some n) /\
     (c = None <-> forall b, b ∈ bs -> failed b.2 = false) /\
     (forall e, e ∈ errs <-> exists n, (n, TDone (Some e)) ∈ bs)) /\
  (forall route i hits c errs bs todo x y',
     node_at route (sy_task y) = Some (TPar i hits c errs bs todo) -> sys_do gen x y = Some y' ->
     sy_task y' = TCrash \/ node_moves i errs bs todo (node_at route (sy_task y'))) /\
  forall n, (held n (sy_task y) <= 1)%nat.
Proof.
  intros (Hinv & _ & Hv)%(start_inv matched) Hrun.
  destruct (sys_run_inv matched sc l y0 y (Validate_matched sc Hv) Hinv Hrun) as [Hc|[Hc Hn Hl Hp Hs Hw Hsc Hses]].
  { rewrite Hc. split_and!; [|by intros []|simpl; lia]. intros i hits c errs bs todo Hsub. inversion Hsub. }
  split_and!; [| |intros n; rewrite Hl; apply locked_at_most].
  - intros i hits c errs bs todo Hsub. destruct (Hp _ _ _ _ _ _ Hsub) as (Harr & Hcancel & Hcrash & Herr). split_and!; [|split|done].
    + intros n b b'. by apply (barrier_holds hits).
    + intros Hnone [m b] Hb. destruct b as [| |[e|]|]; try done; [|by destruct (Hcrash _ Hb)].
      exfalso. rewrite (proj1 Hcancel Hnone) in Herr. eapply not_elem_of_nil. apply (Herr e). eauto.
    + intros Hall. apply Hcancel. destruct errs as [|e errs]; [done|]. destruct (proj1 (Herr e)) as [n Hin]; [by left|].
      by specialize (Hall _ Hin).
  - intros route i hits c errs bs todo x y' Hx Hdo. destruct x as [at_ a|k cb|e]; simpl in Hdo.
    + destruct (task_do _ _ _ _ _ _ _ _ _) as [[[t' sc'] r']|] eqn:E; [|done]. injection Hdo as <-. by eapply task_do_node.
    + destruct (rn_conns (sy_runner y) !! k); [|done]. injection Hdo as <-. right. cbn [sy_task]. rewrite Hx. apply node_stays.
    + destruct (sy_ctx y); [done|]. injection Hdo as <-. right. cbn [sy_task]. rewrite Hx. apply node_stays.
Qed.

End system.

(** ** The theorems at a run *)

Definition plain_gen : string -> Z -> result error string := fun p _ => Ok p.
(** Branch [a] of [in_step] has reached both its first barrier and, with the lock of the session
    in between, its second. *)
Definition in_step_run : list sys_act :=
  [SStep [] AGo; SStep [0%nat] AGo; SStep [1%nat] AGo; SStep [0%nat] AArrived; SStep [0%nat] AGo].

Definition in_step_end : sys :=
  default (demo_start in_step) (@sys_run amd64 plain_gen in_step_run (demo_start in_step)).

Lemma in_step_ordered : ordered (demo_scenario in_step).
Proof.
  intros st Hst Hk. simpl in Hst. repeat (destruct Hst as [<-|Hst]; [try done|]); [|done].
  exists ["x"; "y"]. intros L [->|[->|[]%not_elem_of_nil]%elem_of_cons]%elem_of_cons; reflexivity.
Qed.

Lemma demo_run_ends_witness :
  ordered (demo_scenario in_step) /\ (sections in_step_run = 5)%nat /\
  (sections in_step_run + task_size (sy_task in_step_end) <= weights in_step)%nat /\
  (over in_step_end \/ exists route a y', @sys_do amd64 plain_gen (SStep route a) in_step_end = Some y').
Proof.
  split; [exact in_step_ordered|]. split; [reflexivity|].
  apply (proj1 (@demo_run_ends amd64 plain_gen) (demo_scenario in_step) (demo_start in_step));
    [vm_compute; reflexivity|exact in_step_ordered|vm_compute; reflexivity].
Defined.

(** Branch [b] has passed [x] and waits at [y], which branch [a] still has ahead; then branch [a]
    fails, and the join returns its error. *)
Definition failing_run : list sys_act :=
  [SStep [] AGo; SStep [0%nat] AGo; SStep [1%nat] AGo; SStep [0%nat] AArrived; SStep [1%nat] AArrived; SStep [1%nat] AGo;
   SStep [0%nat] AGo].
Definition failing_end (l : list sys_act) : sys :=
  default (demo_start in_step) (@sys_run amd64 plain_gen (failing_run ++ l) (demo_start in_step)).

Lemma demo_parallel_safe_witness :
  (exists i hits bs a b, sy_task (failing_end []) = TPar i hits None [] bs [] /\ bs = [("a", a); ("b", b)] /\
    pending a = ["y"] /\ waiting b = Some "y" /\
    (forall b', b' ∈ bs -> "y" ∈ pending b'.2 \/ waiting b'.2 = Some "y") /\ (held "alice" (sy_task (failing_end [])) = 1)%nat) /\
  exists e, sy_task (failing_end [SStep [0%nat] AClose; SStep [1%nat] AArrived; SStep [] AJoin]) = TDone (Some e) /\
    node_moves 0 [e; Sentinel Canceled] [("a", TDone (Some e)); ("b", TDone (Some (Sentinel Canceled)))] []
      (Some (TDone (Some e))).
Proof.
  split.
  - destruct (@demo_parallel_safe amd64 plain_gen (demo_scenario in_step) (demo_start in_step) failing_run (failing_end [])) as [Hpar _];
      [vm_compute; reflexivity|vm_compute; reflexivity|].
    eexists _, _, _, _, _. do 4 (split; [vm_compute; reflexivity|]). split; [|vm_compute; reflexivity].
    intros b' Hb'. refine (proj1 (Hpar _ _ _ _ _ _ (subtask_refl _)) "y" b' _ Hb' (list_elem_of_here _ _) _ _); [vm_compute; by left|].
    repeat (apply elem_of_cons in Hb' as [->|Hb']; [vm_compute; reflexivity|]). by apply not_elem_of_nil in Hb'.
  - destruct (@demo_parallel_safe amd64 plain_gen (demo_scenario in_step) (demo_start in_step)
      (failing_run ++ [SStep [0%nat] AClose; SStep [1%nat] AArrived]) (failing_end [SStep [0%nat] AClose; SStep [1%nat] AArrived])) as (_ & Hjoin & _);
      [vm_compute; reflexivity|vm_compute; reflexivity|].
    eexists. split; [vm_compute; reflexivity|].
    destruct (Hjoin [] 0 [("x", 2); ("y", 1)] (Some (Sentinel Canceled)) _ _ []
      (SStep [] AJoin) (failing_end [SStep [0%nat] AClose; SStep [1%nat] AArrived; SStep [] AJoin])
      ltac:(vm_compute; reflexivity) ltac:(vm_compute; reflexivity)) as [Hc|Hm]; [vm_compute in Hc; discriminate|exact Hm].
Defined.
