(* ===== verification/DemoCrash.v ===== *)
(** * Panics of the demo runner

    The parsers, the actions and the sections behind a session's lock do not panic in a
    validated scenario; a section of the runner panics only at a step that names no session. *)

From stdpp Require Import base list strings gmap.
From S2P Require Import Prelude Errors Types Wire Text Encoding Float64 Metadata Password Records Convert Requests Store ClientApi Client.
From S2P Require Import DemoValue DemoMatch DemoMatchProps DemoSchema DemoReflect DemoAction DemoRun DemoTasks DemoBarriers DemoProgress DemoValidate DemoRunProps.

(** ** Results that do not panic *)

Create HintDb no_panic.

Lemma bind_no_panic {E A B} (m : result E A) (k : A -> result E B) : m <> Panic -> (forall a, k a <> Panic) -> (m ≫= k) <> Panic.
Proof. destruct m; [|done|done]. intros _ Hk. apply Hk. Qed.

Lemma in_field_no_panic {A} format key (r : result error A) : r <> Panic -> in_field format key r <> Panic.
Proof. by destruct r. Qed.

(** One step through the shape of a parser. *)
Ltac no_panic :=
  repeat first
    [ discriminate
    | assumption
    | solve [eauto with no_panic]
    | apply bind_no_panic; [|intros ?]
    | apply in_field_no_panic
    | case_match ].

Lemma stringValue_no_panic v : stringValue v <> Panic.
Proof. by destruct v. Qed.
#[export] Hint Resolve stringValue_no_panic : no_panic.

Lemma stringField_no_panic m key b : stringField m key b <> Panic.
Proof. unfold stringField. no_panic. Qed.
#[export] Hint Resolve stringField_no_panic : no_panic.

Lemma decodeBytes_no_panic v : decodeBytes v <> Panic.
Proof. destruct v; try done. unfold decodeBytes. no_panic. Qed.
#[export] Hint Resolve decodeBytes_no_panic : no_panic.

Lemma bytesField_no_panic m key b : bytesField m key b <> Panic.
Proof. unfold bytesField. no_panic. Qed.
#[export] Hint Resolve bytesField_no_panic : no_panic.

Lemma optional_no_panic {A} m key (parse : dyn -> result error A) : (forall v, parse v <> Panic) -> optional m key parse <> Panic.
Proof. intros Hp. unfold optional. no_panic. Qed.
#[export] Hint Resolve optional_no_panic : no_panic.

(** ** Calls that do not panic *)

(** Whatever the RPC resolves to, the method returns. *)
Definition answers {A} (c : call A) : Prop := match c with Refuse _ => True | Rpc _ k => forall v, k v <> Panic end.
Definition calls {A} (m : result error (call A)) : Prop := match m with Ok c => answers c | Err _ => True | Panic => False end.

Lemma answers_map {A B} (f : A -> B) c : answers c -> answers (call_map f c).
Proof. destruct c as [e|build k]; [done|]. intros Hk v. simpl. specialize (Hk v). by destruct (k v). Qed.
Lemma answers_guard {A} v (c : call A) : answers c -> answers (guard v c).
Proof. by destruct v. Qed.
Lemma answers_guard_as {A} format v (c : call A) : answers c -> answers (guard_as format v c).
Proof. by destruct v. Qed.
Lemma answers_if {A} (b : bool) (c d : call A) : answers c -> answers d -> answers (if b then c else d).
Proof. by destruct b. Qed.
Lemma answers_refuse {A} e : answers (Refuse (A := A) e).
Proof. done. Qed.
Lemma answers_expect {A} `{GoType A} build msg : answers (Rpc build (expect (A := A) msg)).
Proof. intros v. unfold expect. by destruct (of_any v). Qed.
#[export] Hint Resolve answers_map answers_guard answers_guard_as answers_if answers_refuse answers_expect : no_panic.

Lemma calls_bind {A B} (m : result error A) (k : A -> result error (call B)) :
  m <> Panic -> (forall a, calls (k a)) -> calls (m ≫= k).
Proof. intros Hm Hk. destruct m; [apply Hk|done|done]. Qed.
Lemma calls_ret {A} (c : call A) : answers c -> calls (mret c).
Proof. done. Qed.
Lemma calls_if {A} (b : bool) (m n : result error (call A)) : calls m -> calls n -> calls (if b then m else n).
Proof. by destruct b. Qed.

Lemma calls_run {A} (m : result error (call A)) o : calls m -> o <> Panic -> (c ← m; run_call (fun _ => o) c) <> Panic.
Proof.
  destruct m as [[e|build k]|e|]; intros Hm Ho; try done. destruct o; [apply Hm|done|done].
Qed.

(** The methods of the client that actions call. *)
Ltac unfold_calls :=
  unfold SendMessage, SendPacket, CreateUser, GetUser, UpdateUser, DeleteUser, WSListMessages, SubscribeChannel, UnsubscribeChannel,
    ListSubscriptions, BlockUser, UnblockUser, ListBlockedUsers, UpsertAttachment, DeleteAttachment, ListAttachments, ListEvents,
    Client_OperationsStatus, Metrics, ListClusterNodes, ListNodeLoggedInUsers, ResolveUserSessions, DemoAction.Ping.

Section crash.
Context `{Platform} (gen : string -> Z -> result error string).

Lemma int64Field_no_panic m key b : int64Field m key b <> Panic.
Proof. unfold int64Field. no_panic. Qed.

Lemma intField_no_panic m key b : intField m key b <> Panic.
Proof. unfold intField. pose proof (int64Field_no_panic m key b). by destruct (int64Field m key b). Qed.

Lemma parseUserRefField_no_panic m key : parseUserRefField m key <> Panic.
Proof. unfold parseUserRefField, as_object. pose proof int64Field_no_panic. no_panic. Qed.

Lemma parseSessionRefField_no_panic m key b : parseSessionRefField m key b <> Panic.
Proof. unfold parseSessionRefField, as_object. pose proof int64Field_no_panic. no_panic. Qed.

Lemma parseSendMessageInput_no_panic m : parseSendMessageInput m <> Panic.
Proof. unfold parseSendMessageInput. pose proof parseUserRefField_no_panic. no_panic. Qed.

Lemma parseSendPacketInput_no_panic m : parseSendPacketInput m <> Panic.
Proof. unfold parseSendPacketInput. pose proof parseUserRefField_no_panic. pose proof parseSessionRefField_no_panic. no_panic. Qed.

Context (gen_total : forall p c, gen p c <> Panic).

Lemma parsePasswordValue_no_panic v : parsePasswordValue gen v <> Panic.
Proof. unfold parsePasswordValue, as_object, PlainPassword, HashPassword. no_panic. Qed.

Lemma parseCreateUser_no_panic m : parseCreateUser gen m <> Panic.
Proof. unfold parseCreateUser. pose proof parsePasswordValue_no_panic. no_panic. Qed.

Lemma parseUpdateUser_no_panic m : parseUpdateUser gen m <> Panic.
Proof. unfold parseUpdateUser. pose proof parsePasswordValue_no_panic. pose proof parseUserRefField_no_panic. no_panic. Qed.

(** No action panics, whatever the request. *)
Lemma callAction_calls action request : calls (callAction gen action request).
Proof.
  unfold callAction. cbv zeta. generalize (match request with DMap m => m | _ => [] end). intros req.
  pose proof (parseUserRefField_no_panic) as Hu. pose proof int64Field_no_panic as Hi. pose proof intField_no_panic as Hn.
  pose proof parseSendMessageInput_no_panic as Hsm. pose proof parseSendPacketInput_no_panic as Hsp.
  pose proof parseCreateUser_no_panic as Hc. pose proof parseUpdateUser_no_panic as Hup.
  repeat (apply calls_if;
    [repeat (apply calls_bind; [solve [auto|unfold parseBlacklistRefs; no_panic]|intros ?]); repeat case_match;
     try (apply calls_ret, answers_map); unfold_calls; auto 10 with no_panic|]).
  all: try done.
Qed.

(** ** Sections *)

(** What a step other than [parallel] and [barrier] dereferences: its session, and the
    expectation of a [connect]. *)
Definition runnable (sc : Scenario) (st : Step) : Prop :=
  st_Step st <> "parallel" -> st_Step st <> "barrier" ->
  is_Some (mget (st_Session st) (sc_Sessions sc)) /\ (st_Step st = "connect" -> is_Some (st_Expect st)).

(** The runner of a scenario that came out of [Parse]. *)
Definition ready_runner (sc : Scenario) (r : Runner) : Prop :=
  is_Some (df_AutoAckMessages (sc_Defaults (rn_scenario r))) /\
  forall n, is_Some (mget n (sc_Sessions sc)) -> is_Some (mget n (rn_sessions r)).

(** The client's RPC returns: it never stores a panic as a result. *)
Definition quiet (a : act) : Prop := match a with ARequest o => o <> Panic | _ => True end.

(** Only a [connect] step is ever inside [Connect], and no [parallel] or [barrier] step takes a lock. *)
Definition phase_ok (st : Step) (ph : phase) : Prop :=
  match ph with
  | Locked => st_Step st <> "parallel" /\ st_Step st <> "barrier"
  | Connecting _ => st_Step st = "connect"
  | _ => True
  end.
Definition well_phased (t : task) : Prop := forall i st todo ph, subtask (TRun i st todo ph) t -> phase_ok st ph.

Lemma well_phased_leaf t :
  (forall i hits c errs bs todo, t <> TPar i hits c errs bs todo) ->
  (forall i st todo ph, t = TRun i st todo ph -> phase_ok st ph) -> well_phased t.
Proof. intros Hp Ht i st todo k Hsub. inversion Hsub as [|i' hits c errs bs todo']; subst; [by eapply Ht|by destruct (Hp i' hits c errs bs todo')]. Qed.

Lemma well_phased_par i hits c errs bs todo :
  well_phased (TPar i hits c errs bs todo) <-> forall b, b ∈ bs -> well_phased b.2.
Proof.
  split.
  - intros Hc [n b] Hb j st todo' k Hsub. eapply (Hc j). by econstructor.
  - intros Hb j st todo' k Hsub. inversion Hsub as [|? ? ? ? ? ? n b Hin Hsub']; subst. by eapply (Hb _ Hin).
Qed.

Lemma well_phased_new script : well_phased (new_task script).
Proof. apply well_phased_leaf; destruct script; try done. by intros i st todo ph [= <- <- <- <-]. Qed.

Lemma well_phased_after i todo res : well_phased (after i todo res).
Proof. apply well_phased_leaf; destruct res; try (by destruct todo); try done. destruct todo; [done|]. by intros j st' todo' ph [= <- <- <- <-]. Qed.

Lemma session_do_connecting ctx label st ph a s r k r' :
  session_do gen ctx label st ph a s r = Some (inl (Connecting k), r') -> st_Step st = "connect".
Proof.
  unfold session_do. intros Hd.
  destruct ph, a; try done; cbv zeta in Hd; repeat case_bool_decide; try done.
  all: repeat case_match; try done; destruct (executeExpectEvent _ _ _ _ _) as [[? ?]|]; done.
Qed.

Lemma step_do_well_phased ctx path label scope a r i st todo ph t' scope' r' :
  step_do gen ctx path label scope a r i st todo ph = Some (t', scope', r') -> well_phased t'.
Proof.
  intros Hs. assert (session_step gen ctx label scope a r i st todo ph = Some (t', scope', r') -> well_phased t') as Hsession.
  { intros (_ & _ & s & next & r2 & _ & Hd & [(_ & k & -> & -> & _)|(res & _ & -> & _)])%session_step_case; [|apply well_phased_after].
    apply well_phased_leaf; [done|]. intros j st' todo' k' [= <- <- <- <-]. simpl. by eapply session_do_connecting. }
  unfold step_do, Wait_arrive, Wait_blocked in Hs. destruct ph; [|by apply Hsession..|]; destruct a; try (by apply Hsession);
    repeat case_match; simplify_eq; try apply well_phased_after;
    try (apply well_phased_leaf; [done|]; intros j st' todo' ph' [= <- <- <- <-]; simpl; by bool_facts).
  - apply well_phased_par. intros b Hb. apply list_elem_of_In, in_map_iff in Hb as (x & <- & _). apply well_phased_new.
Qed.

Lemma task_do_well_phased route ctx prefix name scope a r t t' scope' r' :
  task_do gen ctx prefix name scope route a r t = Some (t', scope', r') -> well_phased t -> well_phased t'.
Proof.
  revert ctx prefix name scope r t t' scope' r'. induction route as [|k route IH]; intros ctx prefix name scope r t t' scope' r' Hs Hc.
  - destruct t as [i st todo ph|i hits c errs bs todo| |]; simpl in Hs; try done; [by eapply step_do_well_phased|].
    destruct a; try done. destruct (forallb _ _); [|done]. injection Hs as <- <- <-. apply well_phased_after.
  - destruct t as [|i hits c errs bs todo| |]; simpl in Hs; try done.
    destruct (bs !! k) as [[bname bt]|] eqn:Ek; [|done]. simpl in Hs. destruct (task_do _ _ _ _ _ _ _ _ _) as [[[bt' sc'] r2]|] eqn:E; [|done].
    rewrite well_phased_par in Hc. assert (well_phased bt') as Hbt by (eapply IH; [exact E|]; apply (Hc (bname, bt)), list_elem_of_lookup; eauto).
    assert (forall b, b ∈ <[k:=(bname, bt')]> bs -> well_phased b.2) as Hbs.
    { intros b Hb. apply (elem_insert _ _ _ _ _ Ek) in Hb as [->|Hb]; [done|by apply Hc]. }
    simpl in Hs. destruct bt' as [| |[e|]|]; simplify_eq; try (by apply well_phased_par); done.
Qed.

Lemma save_result_no_panic label st root s r : (save_result label st root s r).1 <> Panic.
Proof. unfold save_result. destruct (saveVars _ _ _ _) as [[e|] s']; done. Qed.

Lemma executeRequest_no_panic label st o s r : o <> Panic -> (executeRequest gen label st o s r).1 <> Panic.
Proof.
  intros Ho. unfold executeRequest. cbv zeta.
  pose proof (calls_run _ o (callAction_calls (st_Action st) (resolveValue (DMap (default [] (st_Request st))) (scopeVars r s))) Ho) as Hrun.
  destruct (_ ≫= _) as [rep|e|]; [..|done]; repeat case_match; try done; apply save_result_no_panic.
Qed.

Lemma session_do_no_panic ctx label st ph a s r r' :
  session_do gen ctx label st ph a s r = Some (inr Panic, r') -> quiet a ->
  is_Some (df_AutoAckMessages (sc_Defaults (rn_scenario r))) ->
  (st_Step st = "connect" -> is_Some (st_Expect st)) -> (forall k, ph = Connecting k -> st_Step st = "connect") -> False.
Proof.
  intros Hd Hq [b Hack] He Hph. unfold session_do in Hd. pose proof save_result_no_panic as Hsave.
  destruct ph as [| |k|], a as [| |err|o|ex|f| | |]; try done; cbv zeta in Hd.
  - case_bool_decide; [|done]. unfold connect_start, NewClient in Hd. rewrite Hack in Hd. repeat case_match; done.
  - case_bool_decide; [|done]. injection Hd as Hd _. by apply (executeRequest_no_panic label st o s r).
  - case_bool_decide; [|done]. unfold executeExpectEvent in Hd. cbv zeta in Hd.
    repeat case_match; simplify_eq/=; try done; by eapply Hsave.
  - repeat case_match; done.
  - unfold executeClose in Hd. repeat case_match; done.
  - destruct (He (Hph k eq_refl)) as [x Hx]. unfold connect_done in Hd. rewrite Hx in Hd.
    repeat case_match; simplify_eq/=; try done; by eapply Hsave.
Qed.

(** A section of a step that has what it dereferences does not panic. *)
Lemma step_do_no_crash sc ctx path label scope a r i st todo ph t' scope' r' :
  step_do gen ctx path label scope a r i st todo ph = Some (t', scope', r') -> quiet a ->
  runnable sc st -> ready_runner sc r -> well_phased (TRun i st todo ph) -> t' <> TCrash.
Proof.
  intros Hs Hq Hrun [Hack Hsess] Hc. assert (phase_ok st ph) as Hph0 by (eapply Hc; constructor).
  assert (holding ph = true -> st_Step st <> "parallel" /\ st_Step st <> "barrier") as Hhold.
  { destruct ph; try done. simpl in Hph0. by rewrite Hph0. }
  assert (session_step gen ctx label scope a r i st todo ph = Some (t', scope', r') -> t' <> TCrash) as Hsession.
  { intros (Hph & _ & s & next & r2 & _ & Hd & [(_ & k & -> & -> & _)|(res & -> & -> & _)])%session_step_case; [done|].
    destruct (Hhold Hph) as [Hp Hb]. destruct res as [|e|]; [by destruct todo|done|]. exfalso.
    eapply session_do_no_panic; [exact Hd|done|done|by apply Hrun|]. intros k ->. exact Hph0. }
  unfold step_do, Wait_arrive, Wait_blocked in Hs. destruct ph; [|by apply Hsession..|]; destruct a; try (by apply Hsession);
    repeat case_match; simplify_eq; try done; try (by destruct todo).
  exfalso. bool_facts. destruct (Hrun ltac:(done) ltac:(done)) as [Hsome _]. apply Hsess in Hsome as [s Hs]. congruence.
Qed.

Lemma task_do_no_crash sc route ctx prefix name scope a r t t' scope' r' :
  task_do gen ctx prefix name scope route a r t = Some (t', scope', r') -> quiet a ->
  (forall st, In st (task_steps t) -> runnable sc st) -> ready_runner sc r -> well_phased t -> t' <> TCrash.
Proof.
  revert ctx prefix name scope r t t' scope' r'.
  induction route as [|k route IH]; intros ctx prefix name scope r t t' scope' r' Hs Hq Hsteps Hr Hc.
  - destruct t as [i st todo ph|i hits c errs bs todo| |]; simpl in Hs; try done.
    + eapply step_do_no_crash; [exact Hs|done| |done|done]. apply Hsteps. cbn [task_steps flat_map]. apply in_app_iff. left. by destruct st; left.
    + destruct a; try done. destruct (forallb _ _); [|done]. injection Hs as <- <- <-. destruct errs; [by destruct todo|done].
  - destruct t as [|i hits c errs bs todo| |]; simpl in Hs; try done.
    destruct (bs !! k) as [[bname bt]|] eqn:Ek; [|done]. simpl in Hs. destruct (task_do _ _ _ _ _ _ _ _ _) as [[[bt' sc'] r2]|] eqn:E; [|done].
    assert ((bname, bt) ∈ bs) as Hin by (apply list_elem_of_lookup; eauto).
    assert (bt' <> TCrash) as Hne.
    { eapply IH; [exact E|done| |done|by apply (proj1 (well_phased_par _ _ _ _ _ _) Hc _ Hin)]. intros st Hst. apply Hsteps.
      cbn [task_steps]. apply in_app_iff. left. apply in_flat_map. exists (bname, bt). split; [by apply list_elem_of_In|done]. }
    simpl in Hs. destruct bt' as [| |[e|]|]; by simplify_eq.
Qed.

(** ** Runs *)

(** Every [sleep] names a session of the scenario, which validation does not ask for. *)
Definition sleeps_ok (sc : Scenario) : Prop :=
  forall st, In st (scenario_steps sc) -> st_Step st = "sleep" -> is_Some (mget (st_Session st) (sc_Sessions sc)).

Definition quiet_run (l : list sys_act) : Prop := Forall (fun x => match x with SStep _ a => quiet a | _ => True end) l.

Definition no_barriers_asked (_ : list (list string)) : Prop := True.

Lemma validated_runnable sc st : validated sc st -> (st_Step st = "sleep" -> is_Some (mget (st_Session st) (sc_Sessions sc))) -> runnable sc st.
Proof.
  intros Hv Hsleep Hp Hb. destruct (decide (st_Step st = "sleep")) as [E|E].
  - split; [by apply Hsleep|]. by rewrite E.
  - by apply validated_session.
Qed.

Lemma sys_run_no_crash sc l y y' :
  Validate sc = None -> sleeps_ok sc -> is_Some (df_AutoAckMessages (sc_Defaults sc)) -> quiet_run l ->
  alive no_barriers_asked sc y -> well_phased (sy_task y) -> sys_run gen l y = Some y' -> sy_task y' <> TCrash.
Proof.
  intros Hv Hsleep Hack. revert y. induction l as [|x l IH]; intros y Hq Hal Hc Hrun; simpl in Hrun.
  - injection Hrun as <-. apply Hal.
  - apply List.Forall_cons_iff in Hq as [Hx Hq]. destruct (sys_do gen x y) as [y1|] eqn:E; [|done]. simpl in Hrun.
    assert (well_phased (sy_task y1) /\ sy_task y1 <> TCrash) as [Hc1 Hne].
    { destruct x as [route a|k cb|e]; simpl in E.
      - destruct (task_do _ _ _ _ _ _ _ _ _) as [[[t' sc'] r']|] eqn:Et; [|done]. injection E as <-.
        split; [by eapply task_do_well_phased|]. eapply (task_do_no_crash sc); [exact Et|done| | |done].
        + intros st Hst%Hal. apply validated_runnable; [by apply (Validate_steps sc Hv)|by apply Hsleep].
        + split; [by rewrite (al_scenario _ _ _ Hal)|]. intros n Hn. by apply (al_sessions _ _ _ Hal).
      - destruct (rn_conns (sy_runner y) !! k); [|done]. injection E as <-. by split; [|apply Hal].
      - destruct (sy_ctx y); [done|]. injection E as <-. by split; [|apply Hal]. }
    apply (IH y1); [done| |done|done].
    destruct (sys_do_inv gen no_barriers_asked sc x y y1) as [?|?]; [done|by right|done|done|done].
Qed.

(** C22: demo_no_crash. A scenario that [Parse] returns, in which every [sleep] names a session of
    the scenario, is run without a panic: no interleaving of its goroutines, answers of its
    clients, callbacks and end of the context dereferences a missing session, expectation or
    default, and no parser or assertion of an action panics. [Parse] does not ask for the session
    of a [sleep]: when the first step of a script sleeps without one, the run panics at once. *)
Theorem demo_no_crash Decode data sc y0 :
  Parse Decode data = Ok sc -> RunScenario (Some sc) = Ok y0 ->
  (sleeps_ok sc -> forall l y, quiet_run l -> sys_run gen l y0 = Some y -> sy_task y <> TCrash) /\
  (forall st todo, sc_Script sc = st :: todo -> st_Step st = "sleep" -> mget (st_Session st) (sc_Sessions sc) = None ->
     exists y, sys_do gen (SStep [] AGo) y0 = Some y /\ sy_task y = TCrash).
Proof.
  intros Hparse Hrun. pose proof (start_inv no_barriers_asked sc y0 Hrun) as (Hinv & Htask & Hv). split.
  - intros Hsleep l y Hq Hl. destruct Hinv as [Hcrash|Hal]; [rewrite Htask in Hcrash; by destruct (sc_Script sc)|].
    eapply sys_run_no_crash; [done|done| |exact Hq|done| |done]; [|rewrite Htask; apply well_phased_new].
    unfold Parse in Hparse. destruct (Decode data) as [s|e|]; [|done..]. cbn [mbind result_bind] in Hparse.
    destruct (Validate (applyDefaults s)); [done|]. injection Hparse as <-. simpl. by destruct (df_AutoAckMessages _).
  - intros st todo Hscript Hk Hnone. simpl in Hrun. rewrite Hv in Hrun. injection Hrun as <-. cbn [sys_do sy_task sy_ctx sy_runner].
    rewrite Hscript. cbn [new_task task_do]. unfold step_do, Wait_arrive, Wait_blocked. rewrite !bool_decide_false by congruence.
    pose proof (new_session_of sc (st_Session st)) as Hs. rewrite Hnone in Hs. unfold session_of in Hs. simpl in Hs |- *. rewrite Hs.
    eexists. by split.
Qed.

End crash.

(** A validated scenario that panics, and one that runs the same step of a session it has. *)
Definition sleeping (session : string) : Scenario := demo_scenario [demo_sleep session].

Lemma demo_no_crash_witness :
  Validate (sleeping "bob") = None /\
  (exists y, @sys_do amd64 plain_gen (SStep [] AGo) (demo_start [demo_sleep "bob"]) = Some y /\ sy_task y = TCrash) /\
  forall y, @sys_run amd64 plain_gen [SStep [] AGo; SStep [] (ASleep true)] (demo_start [demo_sleep "alice"]) = Some y -> sy_task y <> TCrash.
Proof.
  split; [vm_compute; reflexivity|]. split.
  - refine (proj2 (@demo_no_crash amd64 plain_gen _ (fun _ => Ok (sleeping "bob")) [] (sleeping "bob") _ _ _) (demo_sleep "bob") [] _ _ _);
      [done|vm_compute; reflexivity..].
  - intros y Hy. refine (proj1 (@demo_no_crash amd64 plain_gen _ (fun _ => Ok (sleeping "alice")) [] (sleeping "alice") _ _ _) _ _ y _ Hy);
      [done|vm_compute; reflexivity|vm_compute; reflexivity| |by repeat constructor].
    intros st [<-|[]] _. vm_compute. eauto.
Defined.
