(* ===== verification/DemoVars.v ===== *)
(** * Variables of the demo runner

    What [saveVars] stores under a name is what a later [resolveValue] puts for a reference to
    it: the value itself when the reference is the whole string, its text inside a longer one. *)

From Stdlib Require Import Strings.Ascii Strings.Byte Floats.SpecFloat.
From stdpp Require Import base list strings gmap.
From S2P Require Import Prelude Errors Types Text Encoding Float64 Password Store ClientApi Client DemoValue DemoMatch DemoMatchProps DemoSchema.
From S2P Require Import DemoReflect DemoAction DemoRun DemoRunProps.

(** ** References in strings *)

Lemma string_app_assoc (a b c : string) : (a +:+ b) +:+ c = a +:+ b +:+ c.
Proof. induction a as [|x a IH]; [done|]. change (String x ((a +:+ b) +:+ c) = String x (a +:+ b +:+ c)). by rewrite IH. Qed.

Lemma string_length_app (a b : string) : String.length (a +:+ b) = (String.length a + String.length b)%nat.
Proof. induction a as [|x a IH]; [done|]. change (S (String.length (a +:+ b)) = S (String.length a + String.length b)). by rewrite IH. Qed.

Definition reference (name : string) : string := "${" +:+ name +:+ "}".
Definition chars_ok (f : ascii -> bool) (s : string) : bool := forallb f (String.list_ascii_of_string s).
Definition no_dollar : string -> bool := chars_ok (fun c => negb (Ascii.eqb c "$")).

Lemma name_start_char c : name_start c = true -> name_char c = true.
Proof. unfold name_char. by intros ->. Qed.

Lemma valid_name_chars name : validVarName name = true -> chars_ok name_char name = true.
Proof.
  destruct name as [|c name]; [done|]. cbn [validVarName]. intros [Hc Hn]%andb_prop.
  unfold chars_ok. simpl. by rewrite name_start_char.
Qed.

Lemma span_name_close name rest : chars_ok name_char name = true -> span_name (name +:+ String "}" rest) = (name, String "}" rest).
Proof.
  unfold chars_ok. induction name as [|c name IH]; [done|]. simpl. intros [Hc Hn]%andb_prop. rewrite Hc. by rewrite IH.
Qed.

Lemma var_at_reference name rest : validVarName name = true -> var_at ("${" +:+ name +:+ String "}" rest) = Some (name, rest).
Proof.
  intros Hn. change ("${" +:+ name +:+ String "}" rest) with (String "$" (String "{" (name +:+ String "}" rest))).
  cbn [var_at]. rewrite span_name_close by by apply valid_name_chars. by rewrite Hn.
Qed.

Lemma var_at_plain c s : Ascii.eqb c "$" = false -> var_at (String c s) = None.
Proof. intros Hc. destruct c as [[] [] [] [] [] [] [] []]; done. Qed.

Lemma embed_skip vars x s : embed vars (String.length x) (x +:+ s) = embed vars 0 s.
Proof. induction x as [|c x IH]; [by destruct s|exact IH]. Qed.

Lemma embed_reference vars name rest : validVarName name = true ->
  embed vars 0 ("${" +:+ name +:+ String "}" rest) = embedded_text vars name +:+ embed vars 0 rest.
Proof.
  intros Hn. pose proof (var_at_reference name rest Hn) as Hv.
  change ("${" +:+ name +:+ String "}" rest) with (String "$" ("{" +:+ name +:+ String "}" rest)) in *.
  cbn [embed]. rewrite Hv. f_equal.
  pose proof (embed_skip vars ("{" +:+ name +:+ "}") rest) as Hs.
  assert (String.length ("{" +:+ name +:+ "}") = String.length name + 2)%nat as Hlen.
  { rewrite !string_length_app. simpl. lia. }
  rewrite Hlen in Hs. rewrite <- Hs. by rewrite !string_app_assoc.
Qed.

Lemma embed_plain vars pre s : no_dollar pre = true -> embed vars 0 (pre +:+ s) = pre +:+ embed vars 0 s.
Proof.
  unfold no_dollar, chars_ok. induction pre as [|c pre IH]; [done|]. simpl. intros [Hc Hp]%andb_prop.
  change (embed vars 0 (String c (pre +:+ s)) = String c (pre +:+ embed vars 0 s)). cbn [embed].
  rewrite (var_at_plain c) by by destruct (Ascii.eqb c "$"). by rewrite IH.
Qed.

Lemma reference_app name post : reference name +:+ post = "${" +:+ name +:+ String "}" post.
Proof. unfold reference. by rewrite !string_app_assoc. Qed.

(** A string around a reference is no reference itself. *)
Lemma exactVar_around name pre post :
  validVarName name = true -> no_dollar pre = true -> pre <> "" \/ post <> "" -> exactVar (pre +:+ reference name +:+ post) = None.
Proof.
  intros Hn Hp Hne. unfold exactVar. destruct pre as [|c pre].
  - change ("" +:+ reference name +:+ post) with (reference name +:+ post). rewrite reference_app, var_at_reference by done.
    destruct post; [by destruct Hne|done].
  - unfold no_dollar, chars_ok in Hp. simpl in Hp. apply andb_prop in Hp as [Hc _].
    change (String c pre +:+ ?s) with (String c (pre +:+ s)). rewrite var_at_plain; [done|]. by destruct (Ascii.eqb c "$").
Qed.

Lemma exactVar_reference name : validVarName name = true -> exactVar (reference name) = Some name.
Proof. intros Hn. unfold exactVar, reference. by rewrite (var_at_reference name ""). Qed.

(** ** The scope of a session *)

(** A map copied over another: its bindings win. *)
Lemma mget_copied (over base : object) k : NoDup over.*1 ->
  mget k (fold_left (fun scope kv => mput kv.1 (cloneValue kv.2) scope) over base) =
  match mget k over with Some v => Some v | None => mget k base end.
Proof.
  revert base. induction over as [|[k' v] over IH]; intros base Hd; [done|]. apply NoDup_cons in Hd as [Hk Hd].
  cbn [fold_left fst snd mget]. rewrite IH, mget_mput, cloneValue_id by done.
  destruct (bool_decide (k = k')) eqn:E; bool_facts; [|done]. subst. by rewrite (proj2 (mget_None k' over)).
Qed.

Lemma mget_scope r s k : NoDup (ss_locals s).*1 ->
  mget k (scopeVars r s) = match mget k (ss_locals s) with Some v => Some v | None => mget k (rn_globals r) end.
Proof. intros Hd. unfold scopeVars. by rewrite mget_copied, cloneStringMap_id. Qed.

(** ** Saving *)

Definition found (root : object) (nb : string * string) : Prop := is_Some (lookupPath (DMap root) nb.2).

Lemma saveVars_spec label bs root s err s' : saveVars label bs root s = (err, s') -> NoDup (ss_locals s).*1 ->
  NoDup (ss_locals s').*1 /\
  (err = None <-> Forall (found root) bs) /\
  (forall n, n ∉ bs.*1 -> mget n (ss_locals s') = mget n (ss_locals s)) /\
  (err = None -> NoDup bs.*1 -> forall n p, (n, p) ∈ bs -> mget n (ss_locals s') = lookupPath (DMap root) p).
Proof.
  revert s. induction bs as [|[n p] bs IH]; intros s Hs Hd; cbn [saveVars] in Hs.
  - simplify_eq. split_and!; try done. by intros _ _ n p ?%not_elem_of_nil.
  - destruct (lookupPath (DMap root) p) as [v|] eqn:Ev.
    + destruct (IH _ Hs (mput_NoDup _ _ _ Hd)) as (Hd' & Herr & Hother & Hsaved). cbn [ss_locals set_locals] in *. split_and!; [done| | |].
      * rewrite Herr, Forall_cons. unfold found at 2. simpl. rewrite Ev. naive_solver.
      * intros m Hm. rewrite fmap_cons, not_elem_of_cons in Hm. destruct Hm as [Hm Hb]. rewrite Hother, mget_mput by done.
        by rewrite bool_decide_false.
      * intros He Hn m q [[= -> ->]|Hin]%elem_of_cons; rewrite fmap_cons in Hn; apply NoDup_cons in Hn as [Hn Hbs]; [|by apply Hsaved].
        rewrite Hother, mget_mput, bool_decide_true, cloneValue_id by done. done.
    + simplify_eq. split_and!; try done. split; [done|]. intros [Hf _]%Forall_cons. unfold found in Hf. simpl in Hf. rewrite Ev in Hf. by destruct Hf.
Qed.

(** The text of a value inside a longer string. *)
Definition text_of (v : dyn) : string := match v with DBytes b => of_bytes b | v => Sprint v end.

(** C29: demo_saved_value. [save] of a step and the references of later steps fit together: the
    call fails exactly when some path is not in the result; otherwise a reference to a saved name
    gives the value found at its path, whatever a global of that name is, this value matches
    itself in a later expectation unless it holds a NaN, and inside a longer text each reference
    is replaced by the value's text and the rest is resolved on its own. Names that are not saved
    keep their values, so other steps of the session are not disturbed. *)
Theorem demo_saved_value r label bindings root s err s' :
  saveVars label bindings root s = (err, s') -> NoDup (ss_locals s).*1 -> NoDup bindings.*1 ->
  (err = None <-> forall name path, (name, path) ∈ bindings -> is_Some (lookupPath (DMap root) path)) /\
  (forall name, name ∉ bindings.*1 -> mget name (scopeVars r s') = mget name (scopeVars r s)) /\
  (err = None -> forall name path, (name, path) ∈ bindings -> validVarName name = true ->
     exists v, lookupPath (DMap root) path = Some v /\
       resolveValue (DString (reference name)) (scopeVars r s') = v /\
       (number_valued (normalizeValue v) -> matchSubset (resolveValue (DString (reference name)) (scopeVars r s')) v = None) /\
       forall pre post, no_dollar pre = true -> pre <> "" \/ post <> "" ->
         resolveValue (DString (pre +:+ reference name +:+ post)) (scopeVars r s') =
         DString (pre +:+ text_of v +:+ embed (scopeVars r s') 0 post)).
Proof.
  intros Hs Hd Hb. destruct (saveVars_spec _ _ _ _ _ _ Hs Hd) as (Hd' & Herr & Hother & Hsaved). split_and!.
  - rewrite Herr, List.Forall_forall. split.
    + intros Hf name path Hin%list_elem_of_In. exact (Hf _ Hin).
    + intros Hf [name path] Hin%list_elem_of_In. exact (Hf _ _ Hin).
  - intros name Hn. by rewrite !mget_scope, Hother.
  - intros -> name path Hin Hname. pose proof (proj1 Herr eq_refl) as Hf. eapply Forall_elem in Hf as [v Hv]; [|exact Hin].
    simpl in Hv. exists v. specialize (Hsaved eq_refl Hb _ _ Hin). rewrite Hv in Hsaved.
    assert (mget name (scopeVars r s') = Some v) as Hscope by (by rewrite mget_scope, Hsaved).
    assert (resolveValue (DString (reference name)) (scopeVars r s') = v) as Hres.
    { cbn [resolveValue]. rewrite exactVar_reference, Hscope by done. apply cloneValue_id. }
    split_and!; [done|done| |].
    + intros Hnum. rewrite Hres. apply matchAt_matches, matches_self; [apply normalize_normal|done].
    + intros pre post Hpre Hne. cbn [resolveValue]. rewrite exactVar_around by done. f_equal.
      rewrite embed_plain, reference_app, embed_reference by done. unfold embedded_text. rewrite Hscope. by destruct v.
Qed.

Definition demo_session : sessionRuntime := new_session (demo_scenario []) "alice" demo_spec.
Definition demo_login : object :=
  [("login", DMap [("user", DMap [("user_id", DInt64 7); ("username", DString "ann")])])].

(** A [save] of a [connect] step, and a later text that mentions what it saved. *)
Lemma demo_saved_value_witness :
  let s' := (saveVars "l" [("id", "login.user.user_id"); ("who", "login.user.username")] demo_login demo_session).2 in
  let vars := scopeVars (new_runner (demo_scenario [])) s' in
  resolveValue (DString "${id}") vars = DInt64 7 /\
  resolveValue (DString "user ${id}, ${who}") vars = DString "user 7, ann" /\
  (saveVars "l" [("id", "login.id")] demo_login demo_session).1 <> None.
Proof.
  set (bs := [("id", "login.user.user_id"); ("who", "login.user.username")]). intros s' vars.
  destruct (demo_saved_value (new_runner (demo_scenario [])) "l" bs demo_login demo_session None s') as (_ & _ & Hsaved);
    [vm_compute; reflexivity|exact NoDup_nil_2|apply (bool_decide_unpack (NoDup bs.*1)); vm_compute; exact I|].
  destruct (Hsaved eq_refl "id" "login.user.user_id") as (v & Hv & Hres & _ & Htext); [left|vm_compute; reflexivity|].
  vm_compute in Hv. injection Hv as <-. split; [exact Hres|]. split.
  - refine (eq_trans (Htext "user " ", ${who}" _ _) _); [vm_compute; reflexivity|by left|vm_compute; reflexivity].
  - vm_compute. discriminate.
Defined.
