(* ===== verification/DemoActionProps.v ===== *)
(** * What the actions of the demo runner ask of the client

    The ways a scenario writes a value, and what [callAction] makes of a request written with
    them: the call of the client's method with exactly those arguments. *)

From Stdlib Require Import Strings.Ascii Strings.Byte.
From stdpp Require Import base list strings.
From S2P Require Import Prelude Errors Types Wire Text Encoding Float64 Metadata Password Records Convert Requests.
From S2P Require Import ClientApi DemoValue DemoMatch DemoSchema DemoReflect DemoAction DemoCrash.

(** ** How a scenario writes values *)

Lemma str_of_bytes b : str (of_bytes b) = b.
Proof. apply String.list_byte_of_string_of_list_byte. Qed.

(** An integer: a YAML integer, a variable that came from the server, or its decimal digits. *)
Definition int_value (z : Z) (v : dyn) : Prop := v = DInt z \/ v = DInt64 z \/ v = DString (Itoa z).

(** Bytes: a text, a variable of bytes, or an object with a format. *)
Definition bytes_value (b : bytes) (v : dyn) : Prop :=
  v = DString (of_bytes b) \/ v = DBytes b \/
  exists m, v = DMap m /\
    ((mget "format" m = Some (DString "base64") /\ mget "value" m = Some (DString (of_bytes (b64_encode b)))) \/
     exists j, mget "format" m = Some (DString "json") /\ mget "value" m = Some j /\ json_Marshal j = Some b).

Definition string_value (s : string) (v : dyn) : Prop := v = DString s.

(** A field that is there, and one that may be missing. *)
Definition has {A} (P : A -> dyn -> Prop) (key : string) (a : A) (m : object) : Prop := exists v, mget key m = Some v /\ P a v.
Definition may {A} (P : A -> dyn -> Prop) (key : string) (o : option A) (m : object) : Prop :=
  match o with Some a => has P key a m | None => mget key m = None end.

Definition user_value (u : UserRef) (v : dyn) : Prop :=
  exists m, v = DMap m /\ has int_value "node_id" (ur_NodeID u) m /\ has int_value "user_id" (ur_UserID u) m /\
    is_i64 (ur_NodeID u) /\ is_i64 (ur_UserID u).
Definition session_value (s : SessionRef) (v : dyn) : Prop :=
  exists m, v = DMap m /\ has int_value "serving_node_id" (sr_ServingNodeID s) m /\ has string_value "session_id" (sr_SessionID s) m /\
    is_i64 (sr_ServingNodeID s).

Section actions.
Context `{Platform} (gen : string -> Z -> result error string).

Definition password_value (p : PasswordInput) (v : dyn) : Prop :=
  exists m text, v = DMap m /\ mget "value" m = Some (DString text) /\
    ((mget "source" m = Some (DString "hashed") /\ p = HashedPassword text /\ text <> "") \/
     (mget "source" m = Some (DString "plain") /\ PlainPassword gen text = Ok p)).

Lemma int64Field_has m key z b : is_i64 z -> has int_value key z m -> int64Field m key b = Ok z.
Proof.
  intros Hz (v & Hv & Hi). unfold int64Field. rewrite Hv. destruct Hi as [->|[->| ->]]; [done..|].
  unfold Itoa. by rewrite str_of_bytes, ParseInt_FormatInt.
Qed.

Lemma i64_id z : is_i64 z -> i64 z = z.
Proof. unfold is_i64, i64, two64. intros Hz. rewrite Z.mod_small; lia. Qed.

Lemma intField_has m key z b : is_i64 z -> has int_value key z m -> intField m key b = Ok z.
Proof. intros Hz Hv. unfold intField. rewrite (int64Field_has m key z b Hz Hv). simpl. by rewrite i64_id. Qed.

Lemma int64Field_missing m key : mget key m = None -> int64Field m key false = Ok 0.
Proof. unfold int64Field. by intros ->. Qed.

Lemma stringField_has m key s b : has string_value key s m -> stringField m key b = Ok s.
Proof. intros (v & Hv & ->). unfold stringField. by rewrite Hv. Qed.

Lemma decodeBytes_value b v : bytes_value b v -> decodeBytes v = Ok b.
Proof.
  intros [->|[->|(m & -> & [[Hf Hv]|(j & Hf & Hv & Hj)])]]; cbn [decodeBytes]; [by rewrite str_of_bytes|done|..];
    unfold stringField; rewrite Hf, Hv; cbn [in_field stringValue mbind result_bind].
  - change (bool_decide ("base64" = "json")) with false. change (bool_decide ("base64" = "base64")) with true. cbv iota.
    by rewrite str_of_bytes, b64_decode_encode.
  - rewrite bool_decide_true by done. by rewrite Hj.
Qed.

Lemma bytesField_has m key b req : has bytes_value key b m -> bytesField m key req = Ok b.
Proof. intros (v & Hv & Hb). unfold bytesField. by rewrite Hv, (decodeBytes_value b v Hb). Qed.

Lemma parseUserRefField_has m key u : has user_value key u m -> parseUserRefField m key = Ok u.
Proof.
  intros (v & Hv & o & -> & Hn & Hu & Hin & Hiu). unfold parseUserRefField. rewrite Hv. cbn [as_object mbind result_bind].
  rewrite (int64Field_has o _ _ _ Hin Hn), (int64Field_has o _ _ _ Hiu Hu). by destruct u.
Qed.

Lemma parseSessionRefField_has m key s b : has session_value key s m -> parseSessionRefField m key b = Ok s.
Proof.
  intros (v & Hv & o & -> & Hn & Hs & Hin). unfold parseSessionRefField. rewrite Hv. cbn [as_object mbind result_bind].
  rewrite (int64Field_has o _ _ _ Hin Hn), (stringField_has o _ _ _ Hs). by destruct s.
Qed.

Lemma parsePasswordValue_value p v : password_value p v -> parsePasswordValue gen v = Ok p.
Proof.
  intros (m & text & -> & Hv & Hcase). unfold parsePasswordValue. cbn [as_object mbind result_bind].
  destruct Hcase as [(Hs & -> & Hne)|(Hs & Hp)]; unfold stringField; rewrite Hs, Hv; cbn [in_field stringValue mbind result_bind].
  - change (bool_decide ("hashed" = "plain")) with false. change (bool_decide ("hashed" = "hashed")) with true. cbv iota zeta.
    unfold PasswordInput_Validate, HashedPassword. simpl. by rewrite bool_decide_false.
  - by rewrite bool_decide_true.
Qed.

Lemma optional_may {A} (P : A -> dyn -> Prop) (parse : dyn -> result error A) m key o :
  (forall a v, P a v -> parse v = Ok a) -> may P key o m -> optional m key parse = Ok o.
Proof.
  intros Hparse Hm. unfold optional. destruct o as [a|]; simpl in Hm; [|by rewrite Hm].
  destruct Hm as (v & Hv & Ha). by rewrite Hv, (Hparse a v Ha).
Qed.

(** ** Requests *)

(** One action with its arguments; [None] is a field that the scenario leaves out. *)
Inductive demo_request : Type :=
| RSendMessage (target : UserRef) (body : bytes)
| RSendPacket (target : UserRef) (body : bytes) (mode : string) (targetSession : option SessionRef)
| RPing
| RCreateUser (username : string) (loginName : option string) (role : string) (profile : option bytes) (password : option PasswordInput)
| RGetUser (user : UserRef)
| RUpdateUser (user : UserRef) (username loginName : option string) (password : option PasswordInput) (profile : option bytes)
    (role : option string)
| RDeleteUser (user : UserRef)
| RListMessages (user : UserRef) (limit : option Z)
| RSubscribe (subscriber channel : UserRef) | RUnsubscribe (subscriber channel : UserRef) | RListSubscriptions (subscriber : UserRef)
| RBlock (owner blocked : UserRef) | RUnblock (owner blocked : UserRef) | RListBlocked (owner : UserRef)
| RListEvents (start limit : option Z) | ROperationsStatus | RMetrics | RListClusterNodes
| RListLoggedIn (node : Z) | RResolve (user : UserRef).

Definition action_of (q : demo_request) : string :=
  match q with
  | RSendMessage _ _ => "send_message" | RSendPacket _ _ _ _ => "send_packet" | RPing => "ping"
  | RCreateUser _ _ _ _ _ => "create_user" | RGetUser _ => "get_user" | RUpdateUser _ _ _ _ _ _ => "update_user"
  | RDeleteUser _ => "delete_user" | RListMessages _ _ => "list_messages" | RSubscribe _ _ => "subscribe_channel"
  | RUnsubscribe _ _ => "unsubscribe_channel" | RListSubscriptions _ => "list_subscriptions" | RBlock _ _ => "block_user"
  | RUnblock _ _ => "unblock_user" | RListBlocked _ => "list_blocked_users" | RListEvents _ _ => "list_events"
  | ROperationsStatus => "operations_status" | RMetrics => "metrics" | RListClusterNodes => "list_cluster_nodes"
  | RListLoggedIn _ => "list_node_logged_in_users" | RResolve _ => "resolve_user_sessions"
  end.

Definition may_int (key : string) (o : option Z) (m : object) : Prop :=
  may int_value key o m /\ match o with Some z => is_i64 z | None => True end.

(** The object [m] writes the arguments of [q]. *)
Definition written (q : demo_request) (m : object) : Prop :=
  match q with
  | RSendMessage target body => has user_value "target" target m /\ has bytes_value "body" body m
  | RSendPacket target body mode session =>
      has user_value "target" target m /\ has bytes_value "body" body m /\ has string_value "delivery_mode" mode m /\
      may session_value "target_session" session m
  | RCreateUser username loginName role profile password =>
      has string_value "username" username m /\ may string_value "login_name" loginName m /\ has string_value "role" role m /\
      may bytes_value "profile_json" profile m /\ may password_value "password" password m
  | RUpdateUser user username loginName password profile role =>
      has user_value "user" user m /\ may string_value "username" username m /\ may string_value "login_name" loginName m /\
      may password_value "password" password m /\ may bytes_value "profile_json" profile m /\ may string_value "role" role m
  | RGetUser user | RDeleteUser user | RResolve user => has user_value "user" user m
  | RListMessages user limit => has user_value "user" user m /\ may_int "limit" limit m
  | RSubscribe subscriber channel | RUnsubscribe subscriber channel =>
      has user_value "subscriber" subscriber m /\ has user_value "channel" channel m
  | RListSubscriptions subscriber => has user_value "subscriber" subscriber m
  | RBlock owner blocked | RUnblock owner blocked => has user_value "owner" owner m /\ has user_value "blocked" blocked m
  | RListBlocked owner => has user_value "owner" owner m
  | RListEvents start limit => may_int "after" start m /\ may_int "limit" limit m
  | RListLoggedIn node => has int_value "node_id" node m /\ is_i64 node
  | RPing | ROperationsStatus | RMetrics | RListClusterNodes => True
  end.

(** The client's method with those arguments, without what is made of its result. *)
Definition sends (q : demo_request) : call () :=
  let drop {A} (c : call A) := call_map (fun _ => tt) c in
  match q with
  | RSendMessage target body => drop (SendMessage (mkSendMessageInput target body))
  | RSendPacket target body mode session => drop (SendPacket (mkSendPacketInput target body mode (default zero_SessionRef session)))
  | RPing => Ping
  | RCreateUser username loginName role profile password =>
      drop (CreateUser (mkCreateUserRequest username (default "" loginName) (default zero_PasswordInput password) (default [] profile) role))
  | RGetUser user => drop (GetUser user)
  | RUpdateUser user username loginName password profile role =>
      drop (UpdateUser user (mkUpdateUserRequest username loginName password profile role))
  | RDeleteUser user => drop (DeleteUser user)
  | RListMessages user limit => drop (WSListMessages user (default 0 limit))
  | RSubscribe subscriber channel => drop (SubscribeChannel subscriber channel)
  | RUnsubscribe subscriber channel => drop (UnsubscribeChannel subscriber channel)
  | RListSubscriptions subscriber => drop (ListSubscriptions subscriber)
  | RBlock owner blocked => drop (BlockUser owner blocked)
  | RUnblock owner blocked => drop (UnblockUser owner blocked)
  | RListBlocked owner => drop (ListBlockedUsers owner)
  | RListEvents start limit => drop (ListEvents (default 0 start) (default 0 limit))
  | ROperationsStatus => drop Client_OperationsStatus
  | RMetrics => drop Metrics
  | RListClusterNodes => drop ListClusterNodes
  | RListLoggedIn node => drop (ListNodeLoggedInUsers node)
  | RResolve user => drop (ResolveUserSessions user)
  end.

(** ** What a call does *)

(** What a method hands to its RPC, if it does not refuse. *)
Definition asked {A} (c : call A) : error + (Z -> pb_ClientEnvelope_Body) :=
  match c with Refuse e => inl e | Rpc build _ => inr build end.

(** Two calls that ask the same and, over any RPC, succeed or fail alike. *)
Definition like {A B} (c : call A) (d : call B) : Prop :=
  asked c = asked d /\ forall rpc, (fun _ => tt) <$> run_call rpc c = (fun _ => tt) <$> run_call rpc d.

Lemma like_map {A B} (f : A -> B) c : like (call_map f c) (call_map (fun _ => tt) c).
Proof.
  destruct c as [e|build k]; split; try done. intros rpc. simpl. destruct (rpc build) as [v|e|]; [|done..]. simpl. by destruct (k v).
Qed.

Lemma like_map_unit {A} (g : () -> A) (c : call ()) : like (call_map g c) c.
Proof.
  destruct c as [e|build k]; split; try done. intros rpc. simpl. destruct (rpc build) as [v|e|]; [|done..]. simpl. by destruct (k v).
Qed.

(** Decides which action [callAction] takes. *)
Ltac pick_action :=
  unfold callAction; cbv zeta;
  repeat match goal with
  | |- context [bool_decide (?a = ?b)] =>
      let v := eval vm_compute in (bool_decide (a = b)) in change (bool_decide (a = b)) with v; cbv iota
  end.

Lemma parseSendPacketInput_written m target body mode session :
  has user_value "target" target m -> has bytes_value "body" body m -> has string_value "delivery_mode" mode m ->
  may session_value "target_session" session m ->
  parseSendPacketInput m = Ok (mkSendPacketInput target body mode (default zero_SessionRef session)).
Proof.
  intros Ht Hb (v & Hv & ->) Hs. unfold parseSendPacketInput.
  rewrite (parseUserRefField_has m _ _ Ht), (bytesField_has m _ _ _ Hb). cbn [mbind result_bind]. rewrite Hv.
  cbn [stringValue in_field mbind result_bind]. destruct session as [s|]; simpl in Hs; [|by rewrite Hs].
  destruct (Hs) as (w & Hw & _). rewrite Hw. by rewrite (parseSessionRefField_has m _ _ _ Hs).
Qed.

Lemma parseCreateUser_written m username loginName role profile password :
  has string_value "username" username m -> may string_value "login_name" loginName m -> has string_value "role" role m ->
  may bytes_value "profile_json" profile m -> may password_value "password" password m ->
  parseCreateUser gen m =
  Ok (mkCreateUserRequest username (default "" loginName) (default zero_PasswordInput password) (default [] profile) role).
Proof.
  intros Hu Hl Hr Hp Hw. unfold parseCreateUser. rewrite (stringField_has m _ _ _ Hu), (stringField_has m _ _ _ Hr). cbn [mbind result_bind].
  assert (stringField m "login_name" false = Ok (default "" loginName)) as ->.
  { destruct loginName; simpl in Hl; [by apply stringField_has|]. unfold stringField. by rewrite Hl. }
  assert (bytesField m "profile_json" false = Ok (default [] profile)) as ->.
  { destruct profile; simpl in Hp; [by apply bytesField_has|]. unfold bytesField. by rewrite Hp. }
  cbn [mbind result_bind]. destruct password as [p|]; simpl in Hw; [|by rewrite Hw].
  destruct Hw as (v & Hv & Hpw). by rewrite Hv, (parsePasswordValue_value p v Hpw).
Qed.

Lemma parseUpdateUser_written m user username loginName password profile role :
  has user_value "user" user m -> may string_value "username" username m -> may string_value "login_name" loginName m ->
  may password_value "password" password m -> may bytes_value "profile_json" profile m -> may string_value "role" role m ->
  parseUpdateUser gen m = Ok (user, mkUpdateUserRequest username loginName password profile role).
Proof.
  intros Hu Hn Hl Hw Hp Hr. unfold parseUpdateUser. rewrite (parseUserRefField_has m _ _ Hu).
  assert (forall a v, string_value a v -> stringValue v = Ok a) as Hs by (by intros a v ->).
  rewrite (optional_may _ _ _ _ _ Hs Hn), (optional_may _ _ _ _ _ Hs Hl), (optional_may _ _ _ _ _ Hs Hr).
  by rewrite (optional_may _ _ _ _ _ parsePasswordValue_value Hw), (optional_may _ _ _ _ _ decodeBytes_value Hp).
Qed.

Lemma intField_may m key o : may_int key o m -> intField m key false = Ok (default 0 o).
Proof.
  intros [Hm Hz]. destruct o as [z|]; simpl in Hm; [by apply intField_has|]. unfold intField. by rewrite int64Field_missing.
Qed.

Lemma int64Field_may m key o : may_int key o m -> int64Field m key false = Ok (default 0 o).
Proof. intros [Hm Hz]. destruct o as [z|]; simpl in Hm; [by apply int64Field_has|by apply int64Field_missing]. Qed.

(** The fields without which an action is not sent. *)
Definition required : list (string * string) :=
  [("send_message", "target"); ("send_message", "body");
   ("send_packet", "target"); ("send_packet", "body"); ("send_packet", "delivery_mode");
   ("create_user", "username"); ("create_user", "role"); ("get_user", "user"); ("update_user", "user"); ("delete_user", "user");
   ("list_messages", "user"); ("subscribe_channel", "subscriber"); ("subscribe_channel", "channel");
   ("unsubscribe_channel", "subscriber"); ("unsubscribe_channel", "channel"); ("list_subscriptions", "subscriber");
   ("block_user", "owner"); ("block_user", "blocked"); ("unblock_user", "owner"); ("unblock_user", "blocked");
   ("list_blocked_users", "owner"); ("list_node_logged_in_users", "node_id"); ("resolve_user_sessions", "user")].

Lemma callAction_written q m : written q m -> exists c, callAction gen (action_of q) (DMap m) = Ok c /\ like c (sends q).
Proof.
  intros Hw. destruct q; cbn [action_of written sends] in *; pick_action.
  all: repeat match goal with
    | H : _ /\ _ |- _ => destruct H
    | H : may_int "limit" ?o ?x |- _ => rewrite (intField_may x _ o H); clear H
    | H : may_int "after" ?o ?x |- _ => rewrite (int64Field_may x _ o H); clear H
    end.
  all: unfold parseSendMessageInput, parseBlacklistRefs.
  all: try (erewrite !parseUserRefField_has by eassumption).
  all: try (erewrite parseSendPacketInput_written by eassumption); try (erewrite parseCreateUser_written by eassumption);
    try (erewrite parseUpdateUser_written by eassumption); try (erewrite bytesField_has by eassumption);
    try (erewrite int64Field_has by eassumption).
  all: eexists; (split; [reflexivity|]); first [apply like_map | apply like_map_unit].
Qed.

Lemma bind_fails {A B} (m : result error A) (k : A -> result error B) :
  is_ok m = false \/ (forall a, is_ok (k a) = false) -> is_ok (m ≫= k) = false.
Proof. destruct m; [|done..]. intros [?|Hk]; [done|apply Hk]. Qed.

(** A parser in which some field is refused. *)
Ltac fails :=
  first [ reflexivity | apply bind_fails; right; intros ?; fails | apply bind_fails; left; fails | case_match; fails ].

Lemma callAction_missing a key m : (a, key) ∈ required -> mget key m = None -> is_ok (callAction gen a (DMap m)) = false.
Proof.
  intros Hin Hm. unfold required in Hin.
  assert (forall k b, mget k m = None -> parseUserRefField m k = Err (required_error k) /\ bytesField m k true = Err (required_error k) /\
    stringField m k true = Err (required_error k) /\ parseSessionRefField m k b = (if b then Err (required_error k) else Ok zero_SessionRef) /\
    int64Field m k true = Err (required_error k)) as Hmissing.
  { intros k b Hk. unfold parseUserRefField, bytesField, stringField, parseSessionRefField, int64Field. by rewrite Hk. }
  destruct (Hmissing key true Hm) as (Hu & Hb & Hs & _ & Hi).
  repeat (apply elem_of_cons in Hin as [[= -> ->]|Hin];
    [pick_action; unfold parseSendMessageInput, parseSendPacketInput, parseCreateUser, parseUpdateUser, parseBlacklistRefs;
     rewrite ?Hu, ?Hb, ?Hs, ?Hi, ?Hm; fails|]).
  by apply not_elem_of_nil in Hin.
Qed.

Lemma callAction_unsupported a req : a ∉ validActions -> callAction gen a req = Err (Errorf "unsupported action %q" [FStr a]).
Proof.
  unfold validActions. intros Ha. repeat (apply not_elem_of_cons in Ha as [? Ha]). unfold callAction. cbv zeta.
  by rewrite !bool_decide_false by done.
Qed.

(** C28: demo_actions_faithful. The actions of a scenario are the client's methods: a request that
    writes the arguments of a method, its numbers as integers, saved numbers or decimal texts, its
    bodies as texts, saved bytes or base64 or JSON objects, gives a call that sends what the
    method sends for exactly those arguments and succeeds or fails with it; a request without one
    of the required fields sends nothing; and the actions that are understood are exactly those
    that validation admits. *)
Theorem demo_actions_faithful :
  (forall q m, written q m -> exists c, callAction gen (action_of q) (DMap m) = Ok c /\ like c (sends q)) /\
  (forall a key m, (a, key) ∈ required -> mget key m = None -> is_ok (callAction gen a (DMap m)) = false) /\
  (forall a req, a ∉ validActions -> callAction gen a req = Err (Errorf "unsupported action %q" [FStr a])) /\
  (forall a, a ∈ validActions <-> exists q, action_of q = a).
Proof.
  split; [apply callAction_written|]. split; [apply callAction_missing|]. split; [apply callAction_unsupported|].
  intros a. split.
  - pose (u := mkUserRef 0 0). unfold validActions. rewrite !elem_of_cons, elem_of_nil. intros Ha.
    repeat (destruct Ha as [->|Ha]); [..|done].
    + by exists (RSendMessage u []).
    + by exists (RSendPacket u [] "" None).
    + by exists RPing.
    + by exists (RCreateUser "" None "" None None).
    + by exists (RGetUser u).
    + by exists (RUpdateUser u None None None None None).
    + by exists (RDeleteUser u).
    + by exists (RListMessages u None).
    + by exists (RSubscribe u u).
    + by exists (RUnsubscribe u u).
    + by exists (RListSubscriptions u).
    + by exists (RBlock u u).
    + by exists (RUnblock u u).
    + by exists (RListBlocked u).
    + by exists (RListEvents None None).
    + by exists ROperationsStatus.
    + by exists RMetrics.
    + by exists RListClusterNodes.
    + by exists (RListLoggedIn 0).
    + by exists (RResolve u).
  - intros [q <-]. apply (bool_decide_unpack (action_of q ∈ validActions)). by destruct q.
Qed.

End actions.

(** A request as a scenario writes it: the node as a number, the user as a text, the body as base64. *)
Definition demo_send : object :=
  [("target", DMap [("node_id", DInt 4096); ("user_id", DString "1025")]);
   ("body", DMap [("format", DString "base64"); ("value", DString "aGk=")])].

Lemma demo_actions_faithful_witness :
  exists c, @callAction amd64 (fun p _ => Ok p) "send_message" (DMap demo_send) = Ok c /\
    like c (@sends (RSendMessage (mkUserRef 4096 1025) (str "hi"))).
Proof.
  refine (proj1 (@demo_actions_faithful amd64 (fun p _ => Ok p)) (RSendMessage (mkUserRef 4096 1025) (str "hi")) demo_send _).
  split.
  - eexists. split; [reflexivity|]. eexists. split; [reflexivity|]. split; [eexists; split; [reflexivity|by left]|].
    split; [eexists; split; [reflexivity|by right; right]|]. by vm_compute.
  - eexists. split; [reflexivity|]. right. right. eexists. split; [reflexivity|]. left. by split.
Defined.
