(* ===== verification/DemoClose.v ===== *)
(** * What a run of the demo leaves behind (closeAll)

    When [RunScenario] returns, every session is disconnected, and every client that a session
    refers to is closed unless the session had been closed before. *)

From Stdlib Require Import Strings.Byte.
From stdpp Require Import base list strings gmap.
From S2P Require Import Prelude Errors Types Text Encoding Float64 Password Records Store ClientApi Client DemoValue DemoMatch DemoMatchProps DemoSchema.
From S2P Require Import DemoReflect DemoAction DemoRun DemoTasks DemoBarriers DemoProgress DemoValidate DemoRunProps.

Definition conn_closed (k : nat) (r : Runner) : Prop := exists n, rn_conns r !! k = Some n /\ c_closed (cn_client n) = true.

Lemma Close_closed {S} (c : Client S) : c_closed (Close c).1 = true.
Proof. unfold Close. by destruct (c_closed c) eqn:E. Qed.

Lemma close_client_closed k r n : rn_conns r !! k = Some n -> conn_closed k (close_client k r).
Proof.
  intros Hk. exists (set_client (Close (cn_client n)).1 n). unfold close_client. simpl.
  split; [by rewrite list_lookup_alter_eq, Hk|apply Close_closed].
Qed.

Lemma close_client_conn j k r n : rn_conns r !! k = Some n ->
  exists n', rn_conns (close_client j r) !! k = Some n' /\ (c_closed (cn_client n) = true -> c_closed (cn_client n') = true).
Proof.
  intros Hk. unfold close_client. simpl. destruct (decide (j = k)) as [->|Hne].
  - exists (set_client (Close (cn_client n)).1 n). rewrite list_lookup_alter_eq, Hk. split; [done|]. intros _. apply Close_closed.
  - exists n. by rewrite list_lookup_alter_ne by done.
Qed.

(** One session of the loop: the others keep theirs, and a client that is closed stays closed. *)
Lemma close_session_other r name n : names_ok r -> n <> name -> session_of (close_session r name) n = session_of r n.
Proof.
  intros Hn Hne. unfold close_session. destruct (mget name (rn_sessions r)) as [s|] eqn:E; [|done].
  assert (session_of (put_session (set_disconnected s) r) n = session_of r n) as Hput.
  { rewrite session_put. simpl. rewrite (Hn name s E). by rewrite bool_decide_false. }
  destruct (ss_client s); [|done]. by destruct (ss_closed s).
Qed.

Lemma close_session_self r name : names_ok r -> session_of (close_session r name) name = set_disconnected <$> session_of r name.
Proof.
  intros Hn. unfold close_session. change (mget name (rn_sessions r)) with (session_of r name).
  destruct (session_of r name) as [s|] eqn:E; [|done].
  assert (session_of (put_session (set_disconnected s) r) name = Some (set_disconnected s)) as Hput.
  { rewrite session_put. simpl. rewrite (Hn name s E). by rewrite bool_decide_true. }
  destruct (ss_client s); [|done]. by destruct (ss_closed s).
Qed.

Lemma close_session_names r name : names_ok r -> names_ok (close_session r name).
Proof.
  intros Hn n s Hs. destruct (decide (n = name)) as [->|Hne].
  - rewrite close_session_self in Hs by done. apply fmap_Some in Hs as (s0 & Hs0 & ->). exact (Hn _ _ Hs0).
  - rewrite close_session_other in Hs by done. by apply Hn.
Qed.

Lemma close_session_conn r name k n : rn_conns r !! k = Some n ->
  exists n', rn_conns (close_session r name) !! k = Some n' /\ (c_closed (cn_client n) = true -> c_closed (cn_client n') = true).
Proof.
  intros Hk. unfold close_session. destruct (mget name (rn_sessions r)) as [s|]; [|eauto].
  destruct (ss_client s) as [j|]; [|by exists n]. destruct (ss_closed s); [by exists n|].
  by apply (close_client_conn j k (put_session (set_disconnected s) r)).
Qed.

Lemma close_loop_conn names r k n : rn_conns r !! k = Some n ->
  exists n', rn_conns (fold_left close_session names r) !! k = Some n' /\ (c_closed (cn_client n) = true -> c_closed (cn_client n') = true).
Proof.
  revert r n. induction names as [|name names IH]; intros r n Hk; [by exists n|]. cbn [fold_left].
  destruct (close_session_conn r name k n Hk) as (n1 & Hk1 & Hc1). destruct (IH _ _ Hk1) as (n2 & Hk2 & Hc2). exists n2. auto.
Qed.

Lemma close_loop_session names r n s : names_ok r -> session_of r n = Some s ->
  session_of (fold_left close_session names r) n = Some (if bool_decide (n ∈ names) then set_disconnected s else s).
Proof.
  revert r s. induction names as [|name names IH]; intros r s Hn Hs; [done|]. cbn [fold_left].
  destruct (decide (n = name)) as [->|Hne].
  - rewrite (IH _ (set_disconnected s)); [|by apply close_session_names|by rewrite close_session_self, Hs].
    rewrite (bool_decide_true (name ∈ name :: names)) by by left. by destruct (bool_decide _).
  - rewrite (IH _ s); [|by apply close_session_names|by rewrite close_session_other].
    by rewrite (bool_decide_ext (n ∈ name :: names) (n ∈ names)) by (rewrite elem_of_cons; naive_solver).
Qed.

(** A session that comes up in the loop has its client closed. *)
Lemma close_loop_closed names r n s k c : names_ok r -> n ∈ names ->
  session_of r n = Some s -> ss_client s = Some k -> ss_closed s = false -> rn_conns r !! k = Some c ->
  conn_closed k (fold_left close_session names r).
Proof.
  revert r c. induction names as [|name names IH]; intros r c Hn Hin Hs Hk Hc Hconn; [by apply not_elem_of_nil in Hin|]. cbn [fold_left].
  destruct (decide (n = name)) as [->|Hne].
  - assert (conn_closed k (close_session r name)) as (n1 & Hn1 & Hcl).
    { unfold close_session. change (mget name (rn_sessions r)) with (session_of r name). rewrite Hs, Hk, Hc.
      by eapply (close_client_closed k (put_session (set_disconnected s) r)). }
    destruct (close_loop_conn names _ _ _ Hn1) as (n2 & Hn2 & Hcl2). exists n2. auto.
  - apply elem_of_cons in Hin as [?|Hin]; [done|]. destruct (close_session_conn r name k c Hconn) as (c1 & Hc1 & _).
    eapply IH; [by apply close_session_names|done|by rewrite close_session_other|done|done|exact Hc1].
Qed.

Lemma closeAll_names r n s : session_of r n = Some s -> n ∈ (sort_keys (rn_sessions r)).*1.
Proof. intros Hs%mget_elem. rewrite sort_keys_perm. by apply (list_elem_of_fmap_2 fst _ (n, s)). Qed.

(** ** A session that connects again *)

Definition demo_connect : Step :=
  mkStep "connect" "" "alice" "" None (Some (mkExpectation [("protocol_version", DString "v1")] [] None "")) "" [] [] 0 0 [].
Definition reconnecting : list Step := [demo_connect; demo_step "close" "" "alice"; demo_connect].
Definition demo_login_info : LoginInfo := mkLoginInfo zero_User "v1" zero_SessionRef.
Definition connect_run (k : nat) : list sys_act :=
  [SStep [] AGo; SStep [] AOpen; SCallback k (CbLogin demo_login_info); SStep [] (AConnected None)].
Definition reconnecting_run : list sys_act := connect_run 0 ++ [SStep [] AGo; SStep [] AClose] ++ connect_run 1.

Section close.
Context `{Platform} (gen : string -> Z -> result error string).

(** C31: demo_close_all. Whatever a run did, when [RunScenario] returns every session is
    disconnected, and the client a session holds is closed if the session has not been closed
    before. A session that a scenario closes and connects again counts as closed for good:
    there is a scenario that validation accepts and a run of it that returns without an error
    and leaves the second client open. *)
Theorem demo_close_all :
  (forall sc y0 l y e r, RunScenario (Some sc) = Ok y0 -> sys_run gen l y0 = Some y -> finished y = Some (e, r) ->
     forall n s, session_of (sy_runner y) n = Some s ->
       session_of r n = Some (set_disconnected s) /\
       forall k c, ss_client s = Some k -> ss_closed s = false -> rn_conns (sy_runner y) !! k = Some c -> conn_closed k r) /\
  (exists sc y0 y r, RunScenario (Some sc) = Ok y0 /\ sys_run gen reconnecting_run y0 = Some y /\ finished y = Some (None, r) /\
     exists k c, rn_conns r !! k = Some c /\ c_closed (cn_client c) = false).
Proof.
  split.
  - intros sc y0 l y e r (Hinv & _ & Hv)%(start_inv matched) Hrun Hfin n s Hs.
    destruct (sys_run_inv gen matched sc l y0 y (Validate_matched sc Hv) Hinv Hrun) as [Hc|Hal]; unfold finished in Hfin.
    { by rewrite Hc in Hfin. }
    destruct (sy_task y); try done. injection Hfin as <- <-. pose proof (al_names _ _ _ Hal) as Hn. unfold closeAll. split.
    + by rewrite (close_loop_session _ _ _ _ Hn Hs), bool_decide_true by (by eapply closeAll_names).
    + intros k c Hk Hclosed Hconn. eapply close_loop_closed; [done|by eapply closeAll_names|done..].
  - exists (demo_scenario reconnecting), (demo_start reconnecting).
    destruct (sys_run gen reconnecting_run (demo_start reconnecting)) as [y|] eqn:E; [|by vm_compute in E].
    exists y, (closeAll (sy_runner y)). vm_compute in E. injection E as <-.
    split_and!; [vm_compute; reflexivity|done|vm_compute; reflexivity|].
    exists 1%nat. eexists. split; [vm_compute; reflexivity|reflexivity].
Qed.

End close.

(** A run that leaves its session connected. *)
Definition left_open : sys := default (demo_start [demo_connect]) (@sys_run amd64 plain_gen (connect_run 0) (demo_start [demo_connect])).
Definition left_session : sessionRuntime := set_connected 0 (new_session (demo_scenario [demo_connect]) "alice" demo_spec).

Lemma demo_close_all_witness :
  session_of (sy_runner left_open) "alice" = Some left_session /\
  session_of (closeAll (sy_runner left_open)) "alice" = Some (set_disconnected left_session) /\
  conn_closed 0 (closeAll (sy_runner left_open)).
Proof.
  split; [vm_compute; reflexivity|].
  destruct (proj1 (@demo_close_all amd64 plain_gen) (demo_scenario [demo_connect]) (demo_start [demo_connect]) (connect_run 0) left_open
              None (closeAll (sy_runner left_open)) ltac:(vm_compute; reflexivity) ltac:(vm_compute; reflexivity)
              ltac:(vm_compute; reflexivity) "alice" left_session ltac:(vm_compute; reflexivity)) as [Hs Hclosed].
  split; [exact Hs|]. eapply Hclosed; vm_compute; reflexivity.
Defined.
